(** * NVEC embedded-controller interface (drivers/mfd/nvec.c)

    A shallow embedding of the slave-mode SMBus state machine
    [i2c_interrupt], the tag pool ([nvec_alloc_tag], [nvec_free_tag]), the
    event pool ([nvec_alloc_ev_msg]) and the synchronous request path
    ([nvec_msg_xfer], [nvec_cmd_xfer]), followed by the properties of the
    driver that are checked against it.

    Conventions.
    - C integers are [Z]; every store into a [u8] field is reduced modulo
      256, every [++] and [--] of an [int] goes through [sint32], and a
      comparison of an [int] with a [size_t] goes through [u32].
    - A byte array is a [list Z] whose length is the array size; a read or a
      write outside the array, or a dereference of the entry taken from an
      empty list, leaves the modelled memory and is the outcome [Fault].
    - A pointer to a [struct nvec_cmd] is a [msgptr]: the scratch packet of
      the chip or the address of a caller-owned record in [msgs].  A record
      stays in [msgs] after its owner has returned; what the C code does
      with a pointer to a record whose owner has returned is not covered.
    - Calls with an effect outside the chip structure (GPIO writes, delays,
      waits, wake-ups, work scheduling) are appended to [trace]. *)

From Stdlib Require Import ZArith List Bool Lia.
Import ListNotations.
Local Open Scope Z_scope.

(** ** Outcomes *)

Inductive result (A : Type) : Type :=
| Ok (a : A)        (* the call returns *)
| Blocks            (* the caller sleeps and nothing in the model wakes it *)
| Fault.            (* the code leaves the modelled memory *)
Arguments Ok {A} a.
Arguments Blocks {A}.
Arguments Fault {A}.

Definition bind {A B : Type} (r : result A) (k : A -> result B) : result B :=
  match r with
  | Ok a => k a
  | Blocks => Blocks
  | Fault => Fault
  end.

Notation "'do' x <- r ; k" := (bind r (fun x => k))
  (at level 10, x pattern, r at level 100, k at level 200).

Definition of_option {A : Type} (o : option A) : result A :=
  match o with
  | Some a => Ok a
  | None => Fault
  end.

(** ** Machine integers *)

Definition u8 (x : Z) : Z := x mod 256.
Definition u32 (x : Z) : Z := x mod 4294967296.
Definition sint32 (x : Z) : Z := (x + 2147483648) mod 4294967296 - 2147483648.

(** ** Byte arrays *)

Definition rd (a : list Z) (i : Z) : option Z :=
  if (0 <=? i) && (i <? Z.of_nat (length a)) then nth_error a (Z.to_nat i) else None.

Fixpoint upd (a : list Z) (n : nat) (v : Z) : list Z :=
  match a, n with
  | [], _ => []
  | _ :: t, O => v :: t
  | x :: t, S k => x :: upd t k v
  end.

Definition wr (a : list Z) (i : Z) (v : Z) : option (list Z) :=
  if (0 <=? i) && (i <? Z.of_nat (length a)) then Some (upd a (Z.to_nat i) v) else None.

(** [memcpy dst src n]: [dst] and [src] are the arrays from the two pointers
    on; [n] is the [size_t] count.  The copy stays inside both arrays or it
    is [None]. *)
Definition memcpy (dst src : list Z) (n : Z) : option (list Z) :=
  if (0 <=? n) && (n <=? Z.of_nat (length dst)) && (n <=? Z.of_nat (length src))
  then Some (firstn (Z.to_nat n) src ++ skipn (Z.to_nat n) dst)
  else None.

(** ** Constants of nvec.c *)

Definition NVEC_COMMAND_0_PACKET_TYPE_MASK : Z := 0x80.
Definition NVEC_COMMAND_0_PACKET_TYPE_CMD : Z := 0x00.
Definition NVEC_COMMAND_0_PACKET_TYPE_EVENT : Z := 0x80.
Definition NVEC_COMMAND_0_EVENT_LENGTH_MASK : Z := 0x60.
Definition NVEC_COMMAND_0_EVENT_LENGTH_FIXED_2BYTE : Z := 0x00.
Definition NVEC_COMMAND_0_EVENT_LENGTH_FIXED_3BYTE : Z := 0x20.
Definition NVEC_COMMAND_0_EVENT_LENGTH_VARIABLE : Z := 0x40.
Definition NVEC_COMMAND_0_EVENT_LENGTH_RESERVED : Z := 0x60.
Definition NVEC_COMMAND_0_ERROR_FLAG_MASK : Z := 0x10.
Definition NVEC_COMMAND_0_EVENT_TYPE_MASK : Z := 0x0F.
Definition NVEC_COMMAND_0_CMD_TAG_MASK : Z := 0x70.
Definition NVEC_COMMAND_0_CMD_TAG_SHIFT : Z := 4.
Definition NVEC_COMMAND_0_CMD_TYPE_MASK : Z := 0x0F.

Definition END_TRANS : Z := 16.   (* 1<<4 *)
Definition I2C_SL_IRQ : Z := 8.   (* 1<<3 *)
Definition RCVD : Z := 4.         (* 1<<2 *)
Definition RNW : Z := 2.          (* 1<<1 *)

Definition NVEC_TIMEOUT : Z := 20.

(** errno values of the kernel the driver is built in. *)
Definition EIO : Z := 5.
Definition ETIMEDOUT : Z := 110.

(** Modelled from the spec: [NVEC_STATUS_SUCCESS] is declared in
    linux/mfd/nvec.h, which is not part of the sources; the spec says that a
    nonzero status byte is a remote error, so success is 0. *)
Definition NVEC_STATUS_SUCCESS : Z := 0.

(** The other names nvec.c takes from linux/mfd/nvec.h.  They are parameters
    of the development. *)
Record nvec_h : Type := {
  NVEC_MAX_MSG_SZ : Z;                 (* payload bytes of a struct nvec_cmd *)
  NVEC_EVENT_DATA_SZ : Z;              (* ARRAY_SIZE(rxev->data) of a struct nvec_event *)
  NVEC_CMD_CONTROL : Z;
  NVEC_CMD_CONTROL_NOOPERATION : Z
}.

(** ** Bit operations of the kernel *)

(** [test_and_set_bit nr addr]: the old value of the bit and the new word. *)
Definition test_and_set_bit (nr : Z) (w : Z) : bool * Z :=
  (Z.testbit w nr, Z.lor w (Z.shiftl 1 nr)).

Definition clear_bit (nr : Z) (w : Z) : Z := Z.ldiff w (Z.shiftl 1 nr).

(** ** Tag pool *)

(** The [allocd] words of [cmd_tagmap[16]]. *)
Definition tagmap : Type := list Z.

Definition tagmap_get (tm : tagmap) (cmd : Z) : Z := nth (Z.to_nat cmd) tm 0.
Definition tagmap_set (tm : tagmap) (cmd : Z) (w : Z) : tagmap := upd tm (Z.to_nat cmd) w.

(** The scan [for (i = 0; i < 8; i++) if (!test_and_set_bit(i, &w)) ...] of
    [nvec_alloc_tag] and [nvec_alloc_ev_msg], from [i] on with [n] iterations
    left: the index taken and the new word. *)
Fixpoint scan_test_and_set (n : nat) (i : Z) (w : Z) : option (Z * Z) :=
  match n with
  | O => None
  | S k =>
      let '(old, w') := test_and_set_bit i w in
      if negb old then Some (i, w') else scan_test_and_set k (i + 1) w'
  end.

(** [nvec_alloc_tag].  When the scan finds no clear bit, all eight bits were
    set and the caller enters [wait_event (allocd != 0xFF)] inside
    [while (1)]: it returns only after another context has cleared a bit.
    Nothing else runs during a call in this sequential model, so the call
    [Blocks]. *)
Definition nvec_alloc_tag (tm : tagmap) (cmd : Z) : result (Z * tagmap) :=
  let cmd := Z.land cmd NVEC_COMMAND_0_CMD_TYPE_MASK in
  match scan_test_and_set 8 0 (tagmap_get tm cmd) with
  | Some (i, w') =>
      Ok (Z.lor (Z.shiftl i NVEC_COMMAND_0_CMD_TAG_SHIFT)
                (Z.land cmd (Z.lnot NVEC_COMMAND_0_CMD_TAG_MASK)),
          tagmap_set tm cmd w')
  | None => Blocks
  end.

Definition nvec_free_tag (tm : tagmap) (cmd_tag : Z) : tagmap :=
  let cmd := Z.land cmd_tag NVEC_COMMAND_0_CMD_TYPE_MASK in
  let tag := Z.shiftr (Z.land cmd_tag NVEC_COMMAND_0_CMD_TAG_MASK) NVEC_COMMAND_0_CMD_TAG_SHIFT in
  tagmap_set tm cmd (clear_bit tag (tagmap_get tm cmd)).

(** ** Records of the driver *)

(** [struct nvec_cmd]: the [tx] union as its [raw] view
    ([size], [cmd], [subcmd], [data]) and the [rx] union as its [raw] view
    ([cmd], [size], [subcmd], [status], [data]); [done] counts the
    completions signalled and not yet consumed. *)
Record nvec_cmd : Type := {
  tx_raw : list Z;
  rx_raw : list Z;
  done : Z
}.

(** Modelled from the spec: [struct nvec_event] is declared in
    linux/mfd/nvec.h, which is not part of the sources; the fields are those
    nvec.c uses (spec: event type, status, payload length, payload bytes,
    pool index). *)
Record nvec_event : Type := {
  ev_id : Z;
  ev : Z;
  ev_status : Z;
  ev_size : Z;
  ev_data : list Z
}.

Inductive msgptr : Type :=
| Scratch                (* &nvec->cmd_scratch *)
| Req (addr : nat).      (* a record owned by a caller of nvec_msg_xfer *)

Definition msgptr_eqb (p q : msgptr) : bool :=
  match p, q with
  | Scratch, Scratch => true
  | Req a, Req b => Nat.eqb a b
  | _, _ => false
  end.

Inductive effect : Type :=
| GpioSet (v : Z)
| Udelay (us : Z)
| Mdelay (ms : Z)
| WaitCompletion (m : msgptr) (ms : Z)
| WakeUp (cmd : Z)
| Complete (m : msgptr)
| ScheduleWork
| WriteByte (b : Z).     (* writel(to_send, i2c_regs + I2C_SL_RCVD) *)

(** [struct nvec_chip], without the device, clock and register handles. *)
Record nvec_chip : Type := {
  i2c_addr : Z;
  i2c_enabled : bool;
  cmd_tagmap : tagmap;
  cmd_tosend : list msgptr;
  cmd_tosendcount : Z;
  cmd_torcv : list msgptr;
  cmd_scratch : nvec_cmd;
  tx : option msgptr;
  tx_pos : Z;
  tx_size : Z;
  rx_pos : Z;
  ev_toprocess : list Z;
  ev_pool : list nvec_event;
  ev_allocd : Z;
  smbus_state : Z;
  msgs : list nvec_cmd;
  gpio : Z;
  trace : list effect
}.

(** Field updates. *)
Definition set_i2c_enabled (c : nvec_chip) (v : bool) : nvec_chip :=
  {| i2c_addr := i2c_addr c;
     i2c_enabled := v;
     cmd_tagmap := cmd_tagmap c;
     cmd_tosend := cmd_tosend c;
     cmd_tosendcount := cmd_tosendcount c;
     cmd_torcv := cmd_torcv c;
     cmd_scratch := cmd_scratch c;
     tx := tx c;
     tx_pos := tx_pos c;
     tx_size := tx_size c;
     rx_pos := rx_pos c;
     ev_toprocess := ev_toprocess c;
     ev_pool := ev_pool c;
     ev_allocd := ev_allocd c;
     smbus_state := smbus_state c;
     msgs := msgs c;
     gpio := gpio c;
     trace := trace c |}.
Definition set_cmd_tagmap (c : nvec_chip) (v : tagmap) : nvec_chip :=
  {| i2c_addr := i2c_addr c;
     i2c_enabled := i2c_enabled c;
     cmd_tagmap := v;
     cmd_tosend := cmd_tosend c;
     cmd_tosendcount := cmd_tosendcount c;
     cmd_torcv := cmd_torcv c;
     cmd_scratch := cmd_scratch c;
     tx := tx c;
     tx_pos := tx_pos c;
     tx_size := tx_size c;
     rx_pos := rx_pos c;
     ev_toprocess := ev_toprocess c;
     ev_pool := ev_pool c;
     ev_allocd := ev_allocd c;
     smbus_state := smbus_state c;
     msgs := msgs c;
     gpio := gpio c;
     trace := trace c |}.
Definition set_cmd_tosend (c : nvec_chip) (v : list msgptr) : nvec_chip :=
  {| i2c_addr := i2c_addr c;
     i2c_enabled := i2c_enabled c;
     cmd_tagmap := cmd_tagmap c;
     cmd_tosend := v;
     cmd_tosendcount := cmd_tosendcount c;
     cmd_torcv := cmd_torcv c;
     cmd_scratch := cmd_scratch c;
     tx := tx c;
     tx_pos := tx_pos c;
     tx_size := tx_size c;
     rx_pos := rx_pos c;
     ev_toprocess := ev_toprocess c;
     ev_pool := ev_pool c;
     ev_allocd := ev_allocd c;
     smbus_state := smbus_state c;
     msgs := msgs c;
     gpio := gpio c;
     trace := trace c |}.
Definition set_cmd_tosendcount (c : nvec_chip) (v : Z) : nvec_chip :=
  {| i2c_addr := i2c_addr c;
     i2c_enabled := i2c_enabled c;
     cmd_tagmap := cmd_tagmap c;
     cmd_tosend := cmd_tosend c;
     cmd_tosendcount := v;
     cmd_torcv := cmd_torcv c;
     cmd_scratch := cmd_scratch c;
     tx := tx c;
     tx_pos := tx_pos c;
     tx_size := tx_size c;
     rx_pos := rx_pos c;
     ev_toprocess := ev_toprocess c;
     ev_pool := ev_pool c;
     ev_allocd := ev_allocd c;
     smbus_state := smbus_state c;
     msgs := msgs c;
     gpio := gpio c;
     trace := trace c |}.
Definition set_cmd_torcv (c : nvec_chip) (v : list msgptr) : nvec_chip :=
  {| i2c_addr := i2c_addr c;
     i2c_enabled := i2c_enabled c;
     cmd_tagmap := cmd_tagmap c;
     cmd_tosend := cmd_tosend c;
     cmd_tosendcount := cmd_tosendcount c;
     cmd_torcv := v;
     cmd_scratch := cmd_scratch c;
     tx := tx c;
     tx_pos := tx_pos c;
     tx_size := tx_size c;
     rx_pos := rx_pos c;
     ev_toprocess := ev_toprocess c;
     ev_pool := ev_pool c;
     ev_allocd := ev_allocd c;
     smbus_state := smbus_state c;
     msgs := msgs c;
     gpio := gpio c;
     trace := trace c |}.
Definition set_cmd_scratch (c : nvec_chip) (v : nvec_cmd) : nvec_chip :=
  {| i2c_addr := i2c_addr c;
     i2c_enabled := i2c_enabled c;
     cmd_tagmap := cmd_tagmap c;
     cmd_tosend := cmd_tosend c;
     cmd_tosendcount := cmd_tosendcount c;
     cmd_torcv := cmd_torcv c;
     cmd_scratch := v;
     tx := tx c;
     tx_pos := tx_pos c;
     tx_size := tx_size c;
     rx_pos := rx_pos c;
     ev_toprocess := ev_toprocess c;
     ev_pool := ev_pool c;
     ev_allocd := ev_allocd c;
     smbus_state := smbus_state c;
     msgs := msgs c;
     gpio := gpio c;
     trace := trace c |}.
Definition set_tx (c : nvec_chip) (v : option msgptr) : nvec_chip :=
  {| i2c_addr := i2c_addr c;
     i2c_enabled := i2c_enabled c;
     cmd_tagmap := cmd_tagmap c;
     cmd_tosend := cmd_tosend c;
     cmd_tosendcount := cmd_tosendcount c;
     cmd_torcv := cmd_torcv c;
     cmd_scratch := cmd_scratch c;
     tx := v;
     tx_pos := tx_pos c;
     tx_size := tx_size c;
     rx_pos := rx_pos c;
     ev_toprocess := ev_toprocess c;
     ev_pool := ev_pool c;
     ev_allocd := ev_allocd c;
     smbus_state := smbus_state c;
     msgs := msgs c;
     gpio := gpio c;
     trace := trace c |}.
Definition set_tx_pos (c : nvec_chip) (v : Z) : nvec_chip :=
  {| i2c_addr := i2c_addr c;
     i2c_enabled := i2c_enabled c;
     cmd_tagmap := cmd_tagmap c;
     cmd_tosend := cmd_tosend c;
     cmd_tosendcount := cmd_tosendcount c;
     cmd_torcv := cmd_torcv c;
     cmd_scratch := cmd_scratch c;
     tx := tx c;
     tx_pos := v;
     tx_size := tx_size c;
     rx_pos := rx_pos c;
     ev_toprocess := ev_toprocess c;
     ev_pool := ev_pool c;
     ev_allocd := ev_allocd c;
     smbus_state := smbus_state c;
     msgs := msgs c;
     gpio := gpio c;
     trace := trace c |}.
Definition set_tx_size (c : nvec_chip) (v : Z) : nvec_chip :=
  {| i2c_addr := i2c_addr c;
     i2c_enabled := i2c_enabled c;
     cmd_tagmap := cmd_tagmap c;
     cmd_tosend := cmd_tosend c;
     cmd_tosendcount := cmd_tosendcount c;
     cmd_torcv := cmd_torcv c;
     cmd_scratch := cmd_scratch c;
     tx := tx c;
     tx_pos := tx_pos c;
     tx_size := v;
     rx_pos := rx_pos c;
     ev_toprocess := ev_toprocess c;
     ev_pool := ev_pool c;
     ev_allocd := ev_allocd c;
     smbus_state := smbus_state c;
     msgs := msgs c;
     gpio := gpio c;
     trace := trace c |}.
Definition set_rx_pos (c : nvec_chip) (v : Z) : nvec_chip :=
  {| i2c_addr := i2c_addr c;
     i2c_enabled := i2c_enabled c;
     cmd_tagmap := cmd_tagmap c;
     cmd_tosend := cmd_tosend c;
     cmd_tosendcount := cmd_tosendcount c;
     cmd_torcv := cmd_torcv c;
     cmd_scratch := cmd_scratch c;
     tx := tx c;
     tx_pos := tx_pos c;
     tx_size := tx_size c;
     rx_pos := v;
     ev_toprocess := ev_toprocess c;
     ev_pool := ev_pool c;
     ev_allocd := ev_allocd c;
     smbus_state := smbus_state c;
     msgs := msgs c;
     gpio := gpio c;
     trace := trace c |}.
Definition set_ev_toprocess (c : nvec_chip) (v : list Z) : nvec_chip :=
  {| i2c_addr := i2c_addr c;
     i2c_enabled := i2c_enabled c;
     cmd_tagmap := cmd_tagmap c;
     cmd_tosend := cmd_tosend c;
     cmd_tosendcount := cmd_tosendcount c;
     cmd_torcv := cmd_torcv c;
     cmd_scratch := cmd_scratch c;
     tx := tx c;
     tx_pos := tx_pos c;
     tx_size := tx_size c;
     rx_pos := rx_pos c;
     ev_toprocess := v;
     ev_pool := ev_pool c;
     ev_allocd := ev_allocd c;
     smbus_state := smbus_state c;
     msgs := msgs c;
     gpio := gpio c;
     trace := trace c |}.
Definition set_ev_pool (c : nvec_chip) (v : list nvec_event) : nvec_chip :=
  {| i2c_addr := i2c_addr c;
     i2c_enabled := i2c_enabled c;
     cmd_tagmap := cmd_tagmap c;
     cmd_tosend := cmd_tosend c;
     cmd_tosendcount := cmd_tosendcount c;
     cmd_torcv := cmd_torcv c;
     cmd_scratch := cmd_scratch c;
     tx := tx c;
     tx_pos := tx_pos c;
     tx_size := tx_size c;
     rx_pos := rx_pos c;
     ev_toprocess := ev_toprocess c;
     ev_pool := v;
     ev_allocd := ev_allocd c;
     smbus_state := smbus_state c;
     msgs := msgs c;
     gpio := gpio c;
     trace := trace c |}.
Definition set_ev_allocd (c : nvec_chip) (v : Z) : nvec_chip :=
  {| i2c_addr := i2c_addr c;
     i2c_enabled := i2c_enabled c;
     cmd_tagmap := cmd_tagmap c;
     cmd_tosend := cmd_tosend c;
     cmd_tosendcount := cmd_tosendcount c;
     cmd_torcv := cmd_torcv c;
     cmd_scratch := cmd_scratch c;
     tx := tx c;
     tx_pos := tx_pos c;
     tx_size := tx_size c;
     rx_pos := rx_pos c;
     ev_toprocess := ev_toprocess c;
     ev_pool := ev_pool c;
     ev_allocd := v;
     smbus_state := smbus_state c;
     msgs := msgs c;
     gpio := gpio c;
     trace := trace c |}.
Definition set_smbus_state (c : nvec_chip) (v : Z) : nvec_chip :=
  {| i2c_addr := i2c_addr c;
     i2c_enabled := i2c_enabled c;
     cmd_tagmap := cmd_tagmap c;
     cmd_tosend := cmd_tosend c;
     cmd_tosendcount := cmd_tosendcount c;
     cmd_torcv := cmd_torcv c;
     cmd_scratch := cmd_scratch c;
     tx := tx c;
     tx_pos := tx_pos c;
     tx_size := tx_size c;
     rx_pos := rx_pos c;
     ev_toprocess := ev_toprocess c;
     ev_pool := ev_pool c;
     ev_allocd := ev_allocd c;
     smbus_state := v;
     msgs := msgs c;
     gpio := gpio c;
     trace := trace c |}.
Definition set_msgs (c : nvec_chip) (v : list nvec_cmd) : nvec_chip :=
  {| i2c_addr := i2c_addr c;
     i2c_enabled := i2c_enabled c;
     cmd_tagmap := cmd_tagmap c;
     cmd_tosend := cmd_tosend c;
     cmd_tosendcount := cmd_tosendcount c;
     cmd_torcv := cmd_torcv c;
     cmd_scratch := cmd_scratch c;
     tx := tx c;
     tx_pos := tx_pos c;
     tx_size := tx_size c;
     rx_pos := rx_pos c;
     ev_toprocess := ev_toprocess c;
     ev_pool := ev_pool c;
     ev_allocd := ev_allocd c;
     smbus_state := smbus_state c;
     msgs := v;
     gpio := gpio c;
     trace := trace c |}.
Definition set_gpio (c : nvec_chip) (v : Z) : nvec_chip :=
  {| i2c_addr := i2c_addr c;
     i2c_enabled := i2c_enabled c;
     cmd_tagmap := cmd_tagmap c;
     cmd_tosend := cmd_tosend c;
     cmd_tosendcount := cmd_tosendcount c;
     cmd_torcv := cmd_torcv c;
     cmd_scratch := cmd_scratch c;
     tx := tx c;
     tx_pos := tx_pos c;
     tx_size := tx_size c;
     rx_pos := rx_pos c;
     ev_toprocess := ev_toprocess c;
     ev_pool := ev_pool c;
     ev_allocd := ev_allocd c;
     smbus_state := smbus_state c;
     msgs := msgs c;
     gpio := v;
     trace := trace c |}.
Definition set_trace (c : nvec_chip) (v : list effect) : nvec_chip :=
  {| i2c_addr := i2c_addr c;
     i2c_enabled := i2c_enabled c;
     cmd_tagmap := cmd_tagmap c;
     cmd_tosend := cmd_tosend c;
     cmd_tosendcount := cmd_tosendcount c;
     cmd_torcv := cmd_torcv c;
     cmd_scratch := cmd_scratch c;
     tx := tx c;
     tx_pos := tx_pos c;
     tx_size := tx_size c;
     rx_pos := rx_pos c;
     ev_toprocess := ev_toprocess c;
     ev_pool := ev_pool c;
     ev_allocd := ev_allocd c;
     smbus_state := smbus_state c;
     msgs := msgs c;
     gpio := gpio c;
     trace := v |}.

Definition set_tx_raw (m : nvec_cmd) (v : list Z) : nvec_cmd :=
  {| tx_raw := v; rx_raw := rx_raw m; done := done m |}.
Definition set_rx_raw (m : nvec_cmd) (v : list Z) : nvec_cmd :=
  {| tx_raw := tx_raw m; rx_raw := v; done := done m |}.
Definition set_done (m : nvec_cmd) (v : Z) : nvec_cmd :=
  {| tx_raw := tx_raw m; rx_raw := rx_raw m; done := v |}.

(** ** Pointers, lists and effects *)

Definition get_msg (c : nvec_chip) (p : msgptr) : option nvec_cmd :=
  match p with
  | Scratch => Some (cmd_scratch c)
  | Req a => nth_error (msgs c) a
  end.

Fixpoint upd_msg (l : list nvec_cmd) (n : nat) (m : nvec_cmd) : list nvec_cmd :=
  match l, n with
  | [], _ => []
  | _ :: t, O => m :: t
  | x :: t, S k => x :: upd_msg t k m
  end.

Definition put_msg (c : nvec_chip) (p : msgptr) (m : nvec_cmd) : nvec_chip :=
  match p with
  | Scratch => set_cmd_scratch c m
  | Req a => set_msgs c (upd_msg (msgs c) a m)
  end.

Fixpoint unlink (p : msgptr) (l : list msgptr) : list msgptr :=
  match l with
  | [] => []
  | q :: t => if msgptr_eqb p q then unlink p t else q :: unlink p t
  end.

Fixpoint on_list (p : msgptr) (l : list msgptr) : bool :=
  match l with
  | [] => false
  | q :: t => msgptr_eqb q p || on_list p t
  end.

(** [list_del_init(&p->node)]: the node leaves the list it is linked on; a
    node is linked on one list at most, so it is taken off both. *)
Definition list_del_init (c : nvec_chip) (p : msgptr) : nvec_chip :=
  set_cmd_torcv (set_cmd_tosend c (unlink p (cmd_tosend c))) (unlink p (cmd_torcv c)).

Definition emit (c : nvec_chip) (e : effect) : nvec_chip :=
  set_trace c (trace c ++ [e]).

Definition gpio_set_value (c : nvec_chip) (v : Z) : nvec_chip :=
  emit (set_gpio c v) (GpioSet v).

(** ** Event pool *)

(** [nvec_alloc_ev_msg]: the slot taken, or [None] for NULL. *)
Definition nvec_alloc_ev_msg (c : nvec_chip) : result (nvec_chip * option Z) :=
  match scan_test_and_set 8 0 (ev_allocd c) with
  | Some (i, w') =>
      do e <- of_option (nth_error (ev_pool c) (Z.to_nat i));
      let e' := {| ev_id := i; ev := ev e; ev_status := ev_status e;
                   ev_size := ev_size e; ev_data := ev_data e |} in
      Ok (set_ev_pool (set_ev_allocd c w')
            (firstn (Z.to_nat i) (ev_pool c) ++ e' :: skipn (S (Z.to_nat i)) (ev_pool c)),
          Some i)
  | None => Ok (c, None)
  end.

Definition nvec_free_ev_msg (c : nvec_chip) (e : nvec_event) : nvec_chip :=
  set_ev_allocd c (clear_bit (ev_id e) (ev_allocd c)).

Section Driver.

Variable h : nvec_h.

(** ** The interrupt handler *)

(** [if (nvec->tx != NULL && nvec->tx_pos < nvec->tx_size)
       to_send = nvec->tx->tx.raw[nvec->tx_pos++];
     else nvec->smbus_state = 0;] *)
Definition send_next_byte (c : nvec_chip) (to_send : Z) : result (nvec_chip * Z) :=
  match tx c with
  | Some p =>
      if tx_pos c <? tx_size c then
        do m <- of_option (get_msg c p);
        do b <- of_option (rd (tx_raw m) (tx_pos c));
        Ok (set_tx_pos c (sint32 (tx_pos c + 1)), b)
      else Ok (set_smbus_state c 0, to_send)
  | None => Ok (set_smbus_state c 0, to_send)
  end.

(** State 2, [status == (I2C_SL_IRQ|RNW|RCVD)], command 0x01: the packet to
    transmit is chosen under [cmd_lock] when [nvec->tx] is NULL. *)
Definition pick_tx_msg (c : nvec_chip) : result nvec_chip :=
  match tx c with
  | Some _ => Ok c
  | None =>
      do cm <-
        (if cmd_tosendcount c =? 0 then
           let s := cmd_scratch c in
           do r1 <- of_option (wr (tx_raw s) 0 2);
           do r2 <- of_option (wr r1 1 (u8 (NVEC_CMD_CONTROL h)));
           do r3 <- of_option (wr r2 2 (u8 (NVEC_CMD_CONTROL_NOOPERATION h)));
           Ok (set_cmd_scratch c (set_tx_raw s r3), Scratch)
         else
           do p <- of_option (hd_error (cmd_tosend c));
           Ok (c, p));
      let '(c1, msg) := cm in
      do m <- of_option (get_msg c1 msg);
      do sz <- of_option (rd (tx_raw m) 0);
      Ok (set_tx_size (set_tx_pos (set_tx c1 (Some msg)) 0) (sz + 1))
  end.

Definition smbus_state0 (c : nvec_chip) (status received : Z) : nvec_chip :=
  if status =? Z.lor I2C_SL_IRQ RCVD then
    if negb (received =? i2c_addr c) then c else set_smbus_state c 1
  else c.

Definition smbus_state1 (c : nvec_chip) (status received : Z) : result nvec_chip :=
  if negb (status =? I2C_SL_IRQ) then Ok (set_smbus_state c 0)
  else
    do r <- of_option (wr (rx_raw (cmd_scratch c)) 0 (u8 received));
    Ok (set_smbus_state (set_cmd_scratch c (set_rx_raw (cmd_scratch c) r)) 2).

Definition smbus_state2 (c : nvec_chip) (status received to_send : Z)
  : result (nvec_chip * Z) :=
  if status =? Z.lor (Z.lor I2C_SL_IRQ RNW) RCVD then
    let c := emit c (Udelay 33) in
    do cmd <- of_option (rd (rx_raw (cmd_scratch c)) 0);
    if negb (cmd =? 0x01) then Ok (set_smbus_state c 0, to_send)
    else
      let c := set_smbus_state c 3 in
      do c <- pick_tx_msg c;
      do cb <- send_next_byte c to_send;
      let '(c, to_send) := cb in
      Ok (gpio_set_value c 1, to_send)
  else if status =? I2C_SL_IRQ then
    do r <- of_option (wr (rx_raw (cmd_scratch c)) 1 (u8 received));
    let c := set_cmd_scratch c (set_rx_raw (cmd_scratch c) r) in
    Ok (set_smbus_state (set_rx_pos c 2) 4, to_send)
  else Ok (set_smbus_state c 0, to_send).

(** State 3, end of a block read with everything transferred: the critical
    section that moves the packet to [cmd_torcv]. *)
Definition tx_msg_sent (c : nvec_chip) (p : msgptr) : nvec_chip :=
  let c := list_del_init c p in
  let c := set_cmd_tosendcount c (sint32 (cmd_tosendcount c - 1)) in
  let c := gpio_set_value c (if cmd_tosendcount c =? 0 then 1 else 0) in
  set_cmd_torcv c (cmd_torcv c ++ [p]).

Definition smbus_state3 (c : nvec_chip) (status to_send : Z) : result (nvec_chip * Z) :=
  if status =? Z.lor I2C_SL_IRQ RNW then send_next_byte c to_send
  else if status =? Z.lor (Z.lor I2C_SL_IRQ RNW) END_TRANS then
    let c :=
      match tx c with
      | Some p =>
          if tx_pos c >=? tx_size c then
            let c := if negb (msgptr_eqb p Scratch) then tx_msg_sent c p else c in
            set_tx c None
          else gpio_set_value (set_tx_pos c 0) 0
      | None => c
      end in
    Ok (set_smbus_state c 0, to_send)
  else Ok (set_smbus_state c 0, to_send).

(** State 4, end of a write, event packet: length class and error flag
    decoded from [raw]; the result is (ev, status, payldPos, payldLen)
    before the length is limited. *)
Definition decode_event (raw : list Z) : option (Z * Z * Z * Z) :=
  match rd raw 0 with
  | None => None
  | Some cmd =>
      let evt := Z.land cmd NVEC_COMMAND_0_EVENT_TYPE_MASK in
      let cls := Z.land cmd NVEC_COMMAND_0_EVENT_LENGTH_MASK in
      match
        (if cls =? NVEC_COMMAND_0_EVENT_LENGTH_FIXED_2BYTE then Some (1, 1)
         else if cls =? NVEC_COMMAND_0_EVENT_LENGTH_FIXED_3BYTE then Some (1, 2)
         else if cls =? NVEC_COMMAND_0_EVENT_LENGTH_VARIABLE then
                match rd raw 1 with
                | Some n => Some (2, n)
                | None => None
                end
         else Some (1, 0))
      with
      | None => None
      | Some (payldPos, payldLen) =>
          if negb (Z.land cmd NVEC_COMMAND_0_ERROR_FLAG_MASK =? 0) then
            match rd raw payldPos with
            | Some st => Some (evt, st, sint32 (payldPos + 1), sint32 (payldLen - 1))
            | None => None
            end
          else Some (evt, NVEC_STATUS_SUCCESS, payldPos, payldLen)
      end
  end.

(** [if (payldLen > ARRAY_SIZE(rxev->data)) payldLen = ARRAY_SIZE(rxev->data);]
    with [payldLen] an [int] and [ARRAY_SIZE] a [size_t]: the comparison is
    unsigned. *)
Definition limit_payload (payldLen : Z) : Z :=
  if u32 payldLen >? NVEC_EVENT_DATA_SZ h then sint32 (NVEC_EVENT_DATA_SZ h) else payldLen.

(** The event record filled from the scratch packet. *)
Definition fill_event (e : nvec_event) (raw : list Z) : option nvec_event :=
  match decode_event raw with
  | None => None
  | Some (evt, st, payldPos, payldLen) =>
      let payldLen := limit_payload payldLen in
      match memcpy (ev_data e) (skipn (Z.to_nat payldPos) raw) (u32 payldLen) with
      | Some d =>
          Some {| ev_id := ev_id e; ev := evt; ev_status := st;
                  ev_size := payldLen; ev_data := d |}
      | None => None
      end
  end.

Definition rx_event (c : nvec_chip) : result nvec_chip :=
  do ci <- nvec_alloc_ev_msg c;
  let '(c, slot) := ci in
  match slot with
  | None => Ok c
  | Some i =>
      do e <- of_option (nth_error (ev_pool c) (Z.to_nat i));
      do e' <- of_option (fill_event e (rx_raw (cmd_scratch c)));
      let c := set_ev_pool c
                 (firstn (Z.to_nat i) (ev_pool c) ++ e' :: skipn (S (Z.to_nat i)) (ev_pool c)) in
      let c := set_ev_toprocess c (ev_toprocess c ++ [i]) in
      Ok (emit c ScheduleWork)
  end.

(** [list_for_each_entry(msg, &nvec->cmd_torcv, node)
       if (msg->tx.cmd == nvec->cmd_scratch.rx.cmd) { rxmsg = msg; break; }] *)
Fixpoint find_torcv (c : nvec_chip) (l : list msgptr) (cmd : Z) : result (option msgptr) :=
  match l with
  | [] => Ok None
  | p :: t =>
      do m <- of_option (get_msg c p);
      do mc <- of_option (rd (tx_raw m) 1);
      if mc =? cmd then Ok (Some p) else find_torcv c t cmd
  end.

Definition complete (c : nvec_chip) (p : msgptr) : result nvec_chip :=
  do m <- of_option (get_msg c p);
  Ok (emit (put_msg c p (set_done m (done m + 1))) (Complete p)).

Definition free_tag (c : nvec_chip) (cmd_tag : Z) : nvec_chip :=
  emit (set_cmd_tagmap c (nvec_free_tag (cmd_tagmap c) cmd_tag))
       (WakeUp (Z.land cmd_tag NVEC_COMMAND_0_CMD_TYPE_MASK)).

Definition rx_response (c : nvec_chip) : result nvec_chip :=
  match cmd_torcv c with
  | [] => Ok c
  | _ =>
      do cmd <- of_option (rd (rx_raw (cmd_scratch c)) 0);
      do found <- find_torcv c (cmd_torcv c) cmd;
      match found with
      | None => Ok c
      | Some rxmsg =>
          let c := list_del_init c rxmsg in
          do m <- of_option (get_msg c rxmsg);
          do sz <- of_option (rd (rx_raw (cmd_scratch c)) 1);
          do r <- of_option (memcpy (rx_raw m) (rx_raw (cmd_scratch c)) (2 + sz));
          let c := put_msg c rxmsg (set_rx_raw m r) in
          let c := free_tag c cmd in
          complete c rxmsg
      end
  end.

Definition smbus_state4 (c : nvec_chip) (status received : Z) : result nvec_chip :=
  if status =? I2C_SL_IRQ then
    do sz <- of_option (rd (rx_raw (cmd_scratch c)) 1);
    if (u32 (rx_pos c) >=? NVEC_MAX_MSG_SZ h + 4)
       || ((rx_pos c >? 2) && (rx_pos c >=? sz + 2))
    then Ok c
    else
      do r <- of_option (wr (rx_raw (cmd_scratch c)) (rx_pos c) (u8 received));
      let c := set_cmd_scratch c (set_rx_raw (cmd_scratch c) r) in
      Ok (set_rx_pos c (sint32 (rx_pos c + 1)))
  else if status =? Z.lor I2C_SL_IRQ END_TRANS then
    do cmd <- of_option (rd (rx_raw (cmd_scratch c)) 0);
    do c <- (if Z.land cmd NVEC_COMMAND_0_PACKET_TYPE_MASK =? NVEC_COMMAND_0_PACKET_TYPE_EVENT
             then rx_event c else rx_response c);
    Ok (set_smbus_state c 0)
  else Ok (set_smbus_state c 0).

(** [i2c_interrupt]: [status] is the value read from I2C_SL_STATUS and [rcvd]
    the value I2C_SL_RCVD holds; the result carries the byte written back to
    I2C_SL_RCVD, if one is.  The write of 0 to I2C_SL_RCVD after an address
    byte and the log output are left out. *)
Definition i2c_interrupt (c : nvec_chip) (status rcvd : Z) : result (nvec_chip * option Z) :=
  let irq_mask := Z.lor (Z.lor (Z.lor I2C_SL_IRQ END_TRANS) RCVD) RNW in
  if (Z.land status irq_mask =? 0) && negb (Z.land status (Z.lnot irq_mask) =? 0)
  then Ok (c, None)
  else if Z.land status I2C_SL_IRQ =? 0 then Ok (c, None)
  else
    let received := if Z.land status (Z.lor RNW END_TRANS) =? 0 then rcvd else 0 in
    let to_send := 0xff in
    do cs <-
      (if smbus_state c =? 0 then Ok (smbus_state0 c status received, to_send)
       else if smbus_state c =? 1 then
         do c <- smbus_state1 c status received; Ok (c, to_send)
       else if smbus_state c =? 2 then smbus_state2 c status received to_send
       else if smbus_state c =? 3 then smbus_state3 c status to_send
       else if smbus_state c =? 4 then
         do c <- smbus_state4 c status received; Ok (c, to_send)
       else Ok (set_smbus_state c 0, to_send));
    let '(c, to_send) := cs in
    Ok (c, if Z.land status (Z.lor RNW END_TRANS) =? RNW then Some to_send else None).

(** The handler run over a sequence of bus events; the bytes written to the
    bus are logged in the trace. *)
Fixpoint i2c_irqs (c : nvec_chip) (evs : list (Z * Z)) : result nvec_chip :=
  match evs with
  | [] => Ok c
  | (status, rcvd) :: t =>
      do co <- i2c_interrupt c status rcvd;
      let '(c, out) := co in
      i2c_irqs (match out with Some b => emit c (WriteByte b) | None => c end) t
  end.

(** ** The request path *)

(** The critical section of [nvec_msg_xfer] that queues the request. *)
Definition msg_enqueue (c : nvec_chip) (msg : msgptr) : nvec_chip :=
  let c := gpio_set_value c 0 in
  let c := set_cmd_tosend c (cmd_tosend c ++ [msg]) in
  set_cmd_tosendcount c (sint32 (cmd_tosendcount c + 1)).

(** [wait_for_completion_timeout(&msg->done, msecs_to_jiffies(NVEC_TIMEOUT))]:
    the bus events [evs] are served by the interrupt handler while the caller
    sleeps; the result is nonzero when the completion was signalled, which
    consumes it, and 0 when the time ran out. *)
Definition wait_for_completion_timeout (c : nvec_chip) (msg : msgptr) (evs : list (Z * Z))
  : result (nvec_chip * Z) :=
  let c := emit c (WaitCompletion msg NVEC_TIMEOUT) in
  do c <- i2c_irqs c evs;
  do m <- of_option (get_msg c msg);
  if done m >? 0 then Ok (put_msg c msg (set_done m (done m - 1)), 1)
  else Ok (c, 0).

(** [while (--tries) { ... }]: [env] holds, for every wait, the bus events
    that arrive during it (none once it is used up). *)
Fixpoint wait_loop (fuel : nat) (c : nvec_chip) (msg : msgptr) (tries res : Z)
    (env : list (list (Z * Z))) : result (nvec_chip * Z) :=
  match fuel with
  | O => Blocks
  | S f =>
      let tries := sint32 (tries - 1) in
      if tries =? 0 then Ok (c, res)
      else
        do cr <- wait_for_completion_timeout c msg (hd [] env);
        let '(c, res) := cr in
        if negb (res =? 0) then Ok (c, res)
        else
          let c := gpio_set_value c 1 in
          let c := emit c (Mdelay 10) in
          let c := gpio_set_value c 0 in
          wait_loop f c msg tries res (tl env)
  end.

(** The critical section of the failure path of [nvec_msg_xfer]. *)
Definition msg_timeout_cleanup (c : nvec_chip) (msg : msgptr) : nvec_chip :=
  let wasinlist := on_list msg (cmd_torcv c) in
  let c := list_del_init c msg in
  if wasinlist then
    let c := set_cmd_tosendcount c (sint32 (cmd_tosendcount c - 1)) in
    gpio_set_value c (if cmd_tosendcount c =? 0 then 1 else 0)
  else c.

(** The start of [nvec_msg_xfer]: list head and completion initialised, tag
    allocated and written into the command byte, request queued. *)
Definition msg_submit (c : nvec_chip) (msg : msgptr) : result nvec_chip :=
  do m <- of_option (get_msg c msg);
  let m := set_done m 0 in
  do cmd <- of_option (rd (tx_raw m) 1);
  do ta <- nvec_alloc_tag (cmd_tagmap c) cmd;
  let '(tagged, tm) := ta in
  let c := set_cmd_tagmap c tm in
  do r <- of_option (wr (tx_raw m) 1 (u8 tagged));
  let c := put_msg c msg (set_tx_raw m r) in
  Ok (msg_enqueue c msg).

Definition nvec_msg_xfer (c : nvec_chip) (msg : msgptr) (env : list (list (Z * Z)))
  : result (nvec_chip * Z) :=
  do c <- msg_submit c msg;
  do cr <- wait_loop 10 c msg 10 0 env;
  let '(c, res) := cr in
  if res =? 0 then
    let c := msg_timeout_cleanup c msg in
    do m <- of_option (get_msg c msg);
    do cmd <- of_option (rd (tx_raw m) 1);
    Ok (free_tag c cmd, - ETIMEDOUT)
  else Ok (c, 0).

(** The request record [nvec_cmd_xfer] builds on its stack. *)
Definition cmd_fill (cmd subcmd : Z) (txpayld : option (list Z)) (txpayldsize : Z)
  : result nvec_cmd :=
  let msg := {| tx_raw := repeat 0 (Z.to_nat (NVEC_MAX_MSG_SZ h + 3));
                rx_raw := repeat 0 (Z.to_nat (NVEC_MAX_MSG_SZ h + 4));
                done := 0 |} in
  do r0 <- of_option (wr (tx_raw msg) 0 (u8 (txpayldsize + 2)));
  do r1 <- of_option (wr r0 1 (u8 cmd));
  do r2 <- of_option (wr r1 2 (u8 subcmd));
  do r3 <-
    match txpayld with
    | Some p =>
        if txpayldsize >? 0 then
          do d <- of_option (memcpy (skipn 3 r2) p (u32 txpayldsize));
          Ok (firstn 3 r2 ++ d)
        else Ok r2
    | None => Ok r2
    end;
  Ok (set_tx_raw msg r3).

(** The tail of [nvec_cmd_xfer], after a transfer that did not fail: the
    value returned and the caller's buffer. *)
Definition cmd_answer (m : nvec_cmd) (rxpayld : option (list Z)) (rxpayloadmaxsize : Z)
  : result (Z * option (list Z)) :=
  do st <- of_option (rd (rx_raw m) 3);
  if negb (st =? NVEC_STATUS_SUCCESS) then Ok (- EIO, rxpayld)
  else
    do sz <- of_option (rd (rx_raw m) 1);
    let ret := sz - 2 in
    match rxpayld with
    | Some buf =>
        let ret := if ret >? rxpayloadmaxsize then rxpayloadmaxsize else ret in
        if negb (ret =? 0) then
          do b <- of_option (memcpy buf (skipn 4 (rx_raw m)) (u32 ret));
          Ok (ret, Some b)
        else Ok (ret, rxpayld)
    | None => Ok (0, rxpayld)
    end.

(** [nvec_cmd_xfer]: [txpayld] and [rxpayld] are [None] for NULL; the record
    lives at the next free address of [msgs]; the result is the value
    returned and the caller's receive buffer. *)
Definition nvec_cmd_xfer (c : nvec_chip) (cmd subcmd : Z)
    (txpayld : option (list Z)) (txpayldsize : Z)
    (rxpayld : option (list Z)) (rxpayloadmaxsize : Z)
    (env : list (list (Z * Z))) : result (nvec_chip * Z * option (list Z)) :=
  if negb (i2c_enabled c) then Ok (c, - EIO, rxpayld)
  else
    do msg <- cmd_fill cmd subcmd txpayld txpayldsize;
    let p := Req (length (msgs c)) in
    let c := set_msgs c (msgs c ++ [msg]) in
    do cr <- nvec_msg_xfer c p env;
    let '(c, ret) := cr in
    if ret <? 0 then Ok (c, ret, rxpayld)
    else
      do m <- of_option (get_msg c p);
      do a <- cmd_answer m rxpayld rxpayloadmaxsize;
      let '(ret, buf) := a in
      Ok (c, ret, buf).

End Driver.

(** ** Initial state (nvec_probe) *)

Definition nvec_cmd_zero (h : nvec_h) : nvec_cmd :=
  {| tx_raw := repeat 0 (Z.to_nat (NVEC_MAX_MSG_SZ h + 3));
     rx_raw := repeat 0 (Z.to_nat (NVEC_MAX_MSG_SZ h + 4));
     done := 0 |}.

Definition nvec_event_zero (h : nvec_h) : nvec_event :=
  {| ev_id := 0; ev := 0; ev_status := 0; ev_size := 0;
     ev_data := repeat 0 (Z.to_nat (NVEC_EVENT_DATA_SZ h)) |}.

Definition nvec_init (h : nvec_h) (addr : Z) : nvec_chip :=
  {| i2c_addr := addr;
     i2c_enabled := true;
     cmd_tagmap := repeat 0 16;
     cmd_tosend := [];
     cmd_tosendcount := 0;
     cmd_torcv := [];
     cmd_scratch := nvec_cmd_zero h;
     tx := None;
     tx_pos := 0;
     tx_size := 0;
     rx_pos := 0;
     ev_toprocess := [];
     ev_pool := repeat (nvec_event_zero h) 8;
     ev_allocd := 0;
     smbus_state := 0;
     msgs := [];
     gpio := 1;
     trace := [] |}.

(** ** A header and bus traffic for concrete runs *)

(** The payload size and the CONTROL code are those of the spec's scenarios
    (32 and 0x04); the event payload size and the no-operation subcommand are
    sample values, the general theorems hold for every header. *)
Definition nvec_h_32 : nvec_h :=
  {| NVEC_MAX_MSG_SZ := 32;
     NVEC_EVENT_DATA_SZ := 32;
     NVEC_CMD_CONTROL := 0x04;
     NVEC_CMD_CONTROL_NOOPERATION := 0x02 |}.

Definition EC_ADDR : Z := 0x8A.

(** The EC polls with a block read: address, marker 0x01, turn-around, [n]
    further bytes read, stop. *)
Definition ec_block_read (n : nat) : list (Z * Z) :=
  [(Z.lor I2C_SL_IRQ RCVD, EC_ADDR); (I2C_SL_IRQ, 0x01);
   (Z.lor (Z.lor I2C_SL_IRQ RNW) RCVD, 0)]
  ++ repeat (Z.lor I2C_SL_IRQ RNW, 0) n
  ++ [(Z.lor (Z.lor I2C_SL_IRQ RNW) END_TRANS, 0)].

(** The EC writes the bytes [bs]: address, the bytes, stop. *)
Definition ec_write (bs : list Z) : list (Z * Z) :=
  (Z.lor I2C_SL_IRQ RCVD, EC_ADDR) :: map (fun b => (I2C_SL_IRQ, b)) bs
  ++ [(Z.lor I2C_SL_IRQ END_TRANS, 0)].

(** The payload of an event record. *)
Definition ev_payload (e : nvec_event) : list Z := firstn (Z.to_nat (ev_size e)) (ev_data e).

(** [GpioSet 1; Mdelay 10; GpioSet 0]: the pulses of the attention line. *)
Fixpoint count_pulses (t : list effect) : nat :=
  match t with
  | GpioSet 1 :: ((Mdelay 10 :: GpioSet 0 :: _) as r) => S (count_pulses r)
  | _ :: r => count_pulses r
  | [] => O
  end.

(** The value returned by [nvec_cmd_xfer] and the caller's buffer. *)
Definition xfer_result (r : result (nvec_chip * Z * option (list Z)))
  : option (Z * option (list Z)) :=
  match r with
  | Ok (_, ret, buf) => Some (ret, buf)
  | _ => None
  end.

(** ** Tagged command bytes *)

Definition cmd_of (t : Z) : Z := Z.land t NVEC_COMMAND_0_CMD_TYPE_MASK.
Definition tag_of (t : Z) : Z :=
  Z.shiftr (Z.land t NVEC_COMMAND_0_CMD_TAG_MASK) NVEC_COMMAND_0_CMD_TAG_SHIFT.

(** The checks on one tagged byte [tc = 16 * tag + cmd] that are run over
    the 128 values. *)
Definition tagged_ok (tc : Z) : bool :=
  let i := tc / 16 in
  let c := tc mod 16 in
  let t := Z.lor (Z.shiftl i NVEC_COMMAND_0_CMD_TAG_SHIFT)
                 (Z.land c (Z.lnot NVEC_COMMAND_0_CMD_TAG_MASK)) in
  (t =? Z.lor (Z.shiftl i 4) c) && (t =? tc) && (cmd_of tc =? c) && (tag_of tc =? i).

(** The first event queued for the worker: type, status and payload. *)
Definition first_event (r : result nvec_chip) : option (Z * Z * list Z) :=
  match r with
  | Ok c =>
      match ev_toprocess c with
      | i :: _ =>
          match nth_error (ev_pool c) (Z.to_nat i) with
          | Some e => Some (ev e, ev_status e, ev_payload e)
          | None => None
          end
      | [] => None
      end
  | _ => None
  end.

Definition is_byte (b : Z) : Prop := 0 <= b < 256.

(** What a caller and the queues show after [nvec_cmd_xfer]: the value
    returned, the to-send queue, its depth counter, the awaiting-response
    queue, the attention line and the tag maps. *)
Definition queue_view (r : result (nvec_chip * Z * option (list Z)))
  : option (Z * list msgptr * Z * list msgptr * Z * tagmap) :=
  match r with
  | Ok (c, ret, _) =>
      Some (ret, cmd_tosend c, cmd_tosendcount c, cmd_torcv c, gpio c, cmd_tagmap c)
  | _ => None
  end.

(** The value returned, the waits (with their timeouts in ms) and the number
    of pulses of the attention line in the trace. *)
Definition wait_view (r : result (nvec_chip * Z * option (list Z)))
  : option (Z * list Z * nat) :=
  match r with
  | Ok (c, ret, _) =>
      Some (ret,
            flat_map (fun e => match e with WaitCompletion _ ms => [ms] | _ => [] end) (trace c),
            count_pulses (trace c))
  | _ => None
  end.

(** The depth counter equals the length of the to-send queue. *)
Definition count_inv (c : nvec_chip) : Prop :=
  cmd_tosendcount c = Z.of_nat (length (cmd_tosend c)).

(** ** Runs of the state machine between two block reads *)

(** The transmit cursor and the bytes of every packet are the same in [c']
    as in [c]. *)
Definition tx_frame (c c' : nvec_chip) : Prop :=
  tx c' = tx c /\ tx_pos c' = tx_pos c /\ tx_size c' = tx_size c /\
  forall p, option_map tx_raw (get_msg c' p) = option_map tx_raw (get_msg c p).

(** A bus event that is not part of a block read: the machine is not in
    state 3 and does not see the turn-around in state 2. *)
Definition not_read_step (c : nvec_chip) (status : Z) : Prop :=
  smbus_state c <> 3 /\
  ~ (smbus_state c = 2 /\ status = Z.lor (Z.lor I2C_SL_IRQ RNW) RCVD).

(** [idle_run h c c']: the handler takes [c] to [c'] over bus events none of
    which is part of a block read. *)
Inductive idle_run (h : nvec_h) : nvec_chip -> nvec_chip -> Prop :=
| idle_refl (c : nvec_chip) : idle_run h c c
| idle_step (c c1 c2 : nvec_chip) (status rcvd : Z) (out : option Z) :
    not_read_step c status ->
    i2c_interrupt h c status rcvd = Ok (c1, out) ->
    idle_run h c1 c2 ->
    idle_run h c c2.

(** ** A queued request for the runs of the state machine *)

(** The chip after probe with one request (no payload) built and queued. *)
Definition request_queued (h : nvec_h) (cmd subcmd : Z) : result nvec_chip :=
  do msg <- cmd_fill h cmd subcmd None 0;
  msg_submit (set_msgs (nvec_init h EC_ADDR) [msg]) (Req 0).

(** The cursor at a turn-around and what the turn-around does: the packet,
    its bytes and [tx_pos] before, the byte sent and [tx_pos] after. *)
Definition turnaround_view (h : nvec_h) (r : result nvec_chip)
  : option (Z * option msgptr * option (list Z) * Z * option Z * Z) :=
  match r with
  | Ok c =>
      match i2c_interrupt h c (Z.lor (Z.lor I2C_SL_IRQ RNW) RCVD) 0 with
      | Ok (c', out) =>
          Some (smbus_state c, tx c,
                match tx c with
                | Some p => option_map (fun m => firstn 3 (tx_raw m)) (get_msg c p)
                | None => None
                end,
                tx_pos c, out, tx_pos c')
      | _ => None
      end
  | _ => None
  end.

(** The chip after a request that timed out while the EC was silent. *)
Definition after_silent_timeout (h : nvec_h) : result nvec_chip :=
  match nvec_cmd_xfer h (nvec_init h EC_ADDR) 0x04 0x10 None 0 None 0 [] with
  | Ok (c, _, _) => Ok c
  | Blocks => Blocks
  | Fault => Fault
  end.

(** ** Callers of [nvec_msg_xfer] that overlap *)

(** The failure path of [nvec_msg_xfer], from [if (!res)] on: the critical
    section, the release of the tag of the request and the value
    returned. *)
Definition msg_timeout_path (c : nvec_chip) (msg : msgptr) : result (nvec_chip * Z) :=
  let c := msg_timeout_cleanup c msg in
  do m <- of_option (get_msg c msg);
  do cmd <- of_option (rd (tx_raw m) 1);
  Ok (free_tag c cmd, - ETIMEDOUT).

(** Three callers of [nvec_msg_xfer] with the command code 0x04, their
    records at [Req 0], [Req 1] and [Req 2].  The first caller submits its
    request; the EC reads the request during the first wait and is silent
    during the other eight; the response arrives when the wait loop has
    ended (the ninth wait has timed out and the attention line has been
    pulsed) and the failure path has not yet taken [cmd_lock], so the
    interrupt handler delivers the response and releases the tag; the second
    caller submits; the first caller goes on, with [res == 0], through its
    failure path; the third caller submits.  The result is the chip and the
    value the call of the first caller returns. *)
Definition late_response_run (h : nvec_h) : result (nvec_chip * Z) :=
  do m <- cmd_fill h 0x04 0x10 None 0;
  let c := set_msgs (nvec_init h EC_ADDR) [m; m; m] in
  do c <- msg_submit c (Req 0);
  do cr <- wait_loop h 10 c (Req 0) 10 0 [ec_block_read 2];
  let '(c, res) := cr in
  do c <- i2c_irqs h c (ec_write [0x04; 0x02; 0x10; 0x00]);
  do c <- msg_submit c (Req 1);
  do cr <- (if res =? 0 then msg_timeout_path c (Req 0) else Ok (c, 0));
  let '(c, ret) := cr in
  do c <- msg_submit c (Req 2);
  Ok (c, ret).

(** ** Effects of the interrupt handler and rounds of the wait loop *)

(** The effects the interrupt handler and the clean-up can have: every
    effect but a wait and a delay in milliseconds. *)
Definition isr_effect (e : effect) : bool :=
  match e with
  | WaitCompletion _ _ | Mdelay _ => false
  | _ => true
  end.

(** One unsuccessful round of the wait loop: a wait of NVEC_TIMEOUT ms for
    the request, the effects [b] of the interrupt handler during the wait,
    and the pulse of the attention line. *)
Definition wait_round (msg : msgptr) (b : list effect) : list effect :=
  WaitCompletion msg NVEC_TIMEOUT :: b ++ [GpioSet 1; Mdelay 10; GpioSet 0].

(** [c'] extends the trace of [c] with effects of the interrupt handler. *)
Definition isr_ext (c c' : nvec_chip) : Prop :=
  exists t, trace c' = trace c ++ t /\ forallb isr_effect t = true.

(** ** The event worker *)

(** The loop of [nvec_ev_dispatch] over the events it finds queued: the
    first entry is taken off the list, the notifier chain is called with
    [ev->ev & NVEC_COMMAND_0_EVENT_TYPE_MASK] and the event, and the slot is
    freed.  The calls of the chain are returned in order. *)
Fixpoint ev_dispatch_loop (q : list Z) (c : nvec_chip) (calls : list (Z * nvec_event))
  : result (nvec_chip * list (Z * nvec_event)) :=
  match q with
  | [] => Ok (set_ev_toprocess c [], calls)
  | i :: t =>
      do e <- of_option (nth_error (ev_pool c) (Z.to_nat i));
      let c := set_ev_toprocess c t in
      let calls := calls ++ [(Z.land (ev e) NVEC_COMMAND_0_EVENT_TYPE_MASK, e)] in
      ev_dispatch_loop t (nvec_free_ev_msg c e) calls
  end.

Definition nvec_ev_dispatch (c : nvec_chip) : result (nvec_chip * list (Z * nvec_event)) :=
  ev_dispatch_loop (ev_toprocess c) c [].

(** ** Well-formed chips *)

(** The scratch receive buffer is an array of NVEC_MAX_MSG_SZ + 4 bytes. *)
Definition scratch_rx_ok (h : nvec_h) (c : nvec_chip) : Prop :=
  Z.of_nat (length (rx_raw (cmd_scratch c))) = NVEC_MAX_MSG_SZ h + 4 /\
  Forall is_byte (rx_raw (cmd_scratch c)).

(** No record is linked twice, on one queue or on both. *)
Definition queues_ok (c : nvec_chip) : Prop :=
  NoDup (cmd_tosend c ++ cmd_torcv c).

(** The records on [l] none of which carries the command byte [cmd]. *)
Definition no_match (c : nvec_chip) (cmd : Z) (l : list msgptr) : Prop :=
  Forall (fun p => exists m mc,
            get_msg c p = Some m /\ rd (tx_raw m) 1 = Some mc /\ mc <> cmd) l.

(** The chip in the middle of a block read of [c]: cursor at [k], trace [t]. *)
Definition reading (c : nvec_chip) (k : Z) (t : list effect) : nvec_chip :=
  set_trace (set_tx_pos c k) t.

(** The chip in the middle of a write to [c]: scratch receive buffer [raw],
    cursor at [pos], in state [st]. *)
Definition receiving (c : nvec_chip) (raw : list Z) (pos st : Z) : nvec_chip :=
  set_smbus_state
    (set_rx_pos (set_cmd_scratch c (set_rx_raw (cmd_scratch c) raw)) pos) st.

(** The bytes written to the bus, in a trace. *)
Definition bus_bytes (t : list effect) : list Z :=
  flat_map (fun e => match e with WriteByte b => [b] | _ => [] end) t.

(** A chip with one request on [cmd_torcv]: the two-byte request with
    command byte [tagged] has been read by the EC and awaits its answer. *)
Definition awaiting (h : nvec_h) (tagged : Z) : nvec_chip :=
  let m := {| tx_raw := 2 :: tagged :: repeat 0 (Z.to_nat (NVEC_MAX_MSG_SZ h + 1));
              rx_raw := repeat 0 (Z.to_nat (NVEC_MAX_MSG_SZ h + 4));
              done := 0 |} in
  set_cmd_torcv (set_msgs (nvec_init h EC_ADDR) [m]) [Req 0].

(** The nodes on [ev_toprocess] are records of the pool, each carrying its
    own index as [id], as [nvec_alloc_ev_msg] hands them out. *)
Definition ev_queue_ok (pool : list nvec_event) (q : list Z) : Prop :=
  Forall (fun i => 0 <= i /\
                   exists e, nth_error pool (Z.to_nat i) = Some e /\ ev_id e = i) q.

(** A call of the notifier chain made for the queue entry [i]. *)
Definition notified (pool : list nvec_event) (i : Z) (call : Z * nvec_event) : Prop :=
  nth_error pool (Z.to_nat i) = Some (snd call) /\
  fst call = Z.land (ev (snd call)) NVEC_COMMAND_0_EVENT_TYPE_MASK.

(** The queues as the enqueue section and the interrupt handler keep them:
    no record is linked twice, the depth counter is the length of
    [cmd_tosend], and a request selected for transmission is on
    [cmd_tosend]. *)
Definition isr_inv (c : nvec_chip) : Prop :=
  queues_ok c /\ count_inv c /\
  Z.of_nat (length (cmd_tosend c)) < 2147483648 /\
  forall p, tx c = Some p -> p <> Scratch -> In p (cmd_tosend c).

(** The event pool as the handler and the worker keep it: the queue holds
    records of the pool under their own index, no record twice, and the
    slots in use are those of the queued records. *)
Definition ev_inv (c : nvec_chip) : Prop :=
  ev_queue_ok (ev_pool c) (ev_toprocess c) /\
  NoDup (ev_toprocess c) /\
  forall k, 0 <= k ->
    Z.testbit (ev_allocd c) k = existsb (Z.eqb k) (ev_toprocess c).

(** A bus event other than the start of a write to the chip's own address. *)
Definition not_addressed (c : nvec_chip) (ev : Z * Z) : Prop :=
  ~ (fst ev = Z.lor I2C_SL_IRQ RCVD /\ snd ev = i2c_addr c).

(** The bytes the handler puts on the bus over [evs] while it stays in
    state 0: 0xFF for every read. *)
Definition idle_reads (evs : list (Z * Z)) : list effect :=
  flat_map (fun ev =>
              if (Z.land (fst ev) I2C_SL_IRQ =? 0) then []
              else if Z.land (fst ev) (Z.lor RNW END_TRANS) =? RNW
                   then [WriteByte 0xff] else []) evs.

(** A request record the handler can work on: it is there, its [tx.raw]
    holds the size and the command byte, and its [rx.raw] is an array of
    NVEC_MAX_MSG_SZ + 4 bytes. *)
Definition record_ok (h : nvec_h) (c : nvec_chip) (p : msgptr) : Prop :=
  exists m, get_msg c p = Some m /\ (2 <= length (tx_raw m))%nat /\
            Z.of_nat (length (rx_raw m)) = NVEC_MAX_MSG_SZ h + 4.

(** The state the handler expects to find: arrays of their declared sizes,
    cursors that are values of their type, queued records that exist, a
    depth counter that agrees with the queue, and a selected packet that
    covers [tx_size] bytes. *)
Definition safe_inv (h : nvec_h) (c : nvec_chip) : Prop :=
  scratch_rx_ok h c /\
  (3 <= length (tx_raw (cmd_scratch c)))%nat /\
  -2147483648 <= rx_pos c < 2147483648 /\
  0 <= NVEC_MAX_MSG_SZ h /\ NVEC_MAX_MSG_SZ h + 4 < 2147483648 /\
  0 <= NVEC_EVENT_DATA_SZ h <= NVEC_MAX_MSG_SZ h + 1 /\
  count_inv c /\
  Forall (record_ok h c) (cmd_tosend c ++ cmd_torcv c) /\
  (forall p, tx c = Some p ->
     exists m, get_msg c p = Some m /\ 0 <= tx_pos c /\
               tx_size c <= Z.of_nat (length (tx_raw m))) /\
  length (ev_pool c) = 8%nat /\
  Forall (fun e => Z.of_nat (length (ev_data e)) = NVEC_EVENT_DATA_SZ h) (ev_pool c).

(** A queued request as [nvec_cmd_xfer] builds it: a caller's record whose
    size byte does not reach past [tx.raw]. *)
Definition wf_record (h : nvec_h) (c : nvec_chip) (p : msgptr) : Prop :=
  exists a m sz,
    p = Req a /\ nth_error (msgs c) a = Some m /\
    rd (tx_raw m) 0 = Some sz /\ 0 <= sz < 256 /\
    sz + 1 <= Z.of_nat (length (tx_raw m)) /\ (2 <= length (tx_raw m))%nat /\
    Z.of_nat (length (rx_raw m)) = NVEC_MAX_MSG_SZ h + 4.

(** The packet selected for transmission covers [tx_size] bytes. *)
Definition tx_covered (c : nvec_chip) : Prop :=
  forall p, tx c = Some p ->
    0 <= tx_pos c /\ tx_size c < 2147483648 /\
    exists m, get_msg c p = Some m /\ tx_size c <= Z.of_nat (length (tx_raw m)).

(** The state of the driver between two interrupts: the state after probe
    is of this kind. *)
Definition wf_inv (h : nvec_h) (c : nvec_chip) : Prop :=
  (0 <= NVEC_MAX_MSG_SZ h /\ NVEC_MAX_MSG_SZ h + 4 < 2147483648 /\
   0 <= NVEC_EVENT_DATA_SZ h <= NVEC_MAX_MSG_SZ h + 1) /\
  scratch_rx_ok h c /\
  (3 <= length (tx_raw (cmd_scratch c)))%nat /\
  -2147483648 <= rx_pos c <= NVEC_MAX_MSG_SZ h + 4 /\
  isr_inv c /\
  Forall (wf_record h c) (cmd_tosend c ++ cmd_torcv c) /\
  tx_covered c /\
  length (ev_pool c) = 8%nat /\
  Forall (fun e => Z.of_nat (length (ev_data e)) = NVEC_EVENT_DATA_SZ h) (ev_pool c).

(** Records of the same shape in [c'] as in [c]: the scratch [tx.raw] keeps
    its length, and every caller's record keeps its [tx.raw] and the length
    of its [rx.raw]. *)
Definition same_shape (c c' : nvec_chip) : Prop :=
  length (tx_raw (cmd_scratch c')) = length (tx_raw (cmd_scratch c)) /\
  forall b m, nth_error (msgs c) b = Some m ->
    exists m', nth_error (msgs c') b = Some m' /\ tx_raw m' = tx_raw m /\
               length (rx_raw m') = length (rx_raw m).

(** * Properties *)

(** ** Arrays and bits *)

Lemma upd_length (a : list Z) (n : nat) (v : Z) : length (upd a n v) = length a.
Proof.
  revert n; induction a as [|x a IH]; intros [|n]; simpl; auto.
Qed.

Lemma nth_upd (a : list Z) (k n : nat) (v d : Z) :
  (k < length a)%nat ->
  nth n (upd a k v) d = if Nat.eqb k n then v else nth n a d.
Proof.
  revert k n; induction a as [|x a IH]; intros k n Hk; simpl in Hk; [lia|].
  destruct k as [|k], n as [|n]; simpl; auto.
  apply IH; lia.
Qed.

Lemma range_forallb (P : Z -> bool) (n : nat) :
  forallb P (map Z.of_nat (seq 0 n)) = true ->
  forall z, 0 <= z < Z.of_nat n -> P z = true.
Proof.
  intros H z Hz.
  rewrite forallb_forall in H. apply H.
  apply in_map_iff. exists (Z.to_nat z). split; [lia|].
  apply in_seq. lia.
Qed.

Lemma land15_range (c : Z) : 0 <= Z.land c 15 < 16.
Proof.
  change 15 with (Z.ones 4). rewrite Z.land_ones by lia.
  apply Z.mod_pos_bound. reflexivity.
Qed.

Lemma setbit_already (w i : Z) :
  0 <= i -> Z.testbit w i = true -> Z.lor w (Z.shiftl 1 i) = w.
Proof.
  intros Hi Hb. apply Z.bits_inj'. intros n Hn.
  change (Z.lor w (Z.shiftl 1 i)) with (Z.setbit w i).
  rewrite Z.setbit_eqb by assumption.
  destruct (Z.eqb_spec i n) as [->|]; simpl; auto.
Qed.

(** ** Tag pool *)

Lemma scan_some (n : nat) : forall i w j w',
  0 <= i ->
  scan_test_and_set n i w = Some (j, w') ->
  i <= j < i + Z.of_nat n /\ Z.testbit w j = false /\ w' = Z.setbit w j.
Proof.
  induction n as [|n IH]; intros i w j w' Hi H; simpl in H; [discriminate|].
  destruct (Z.testbit w i) eqn:Hb; simpl in H.
  - rewrite setbit_already in H by assumption.
    apply IH in H; [|lia]. destruct H as (A & B & C).
    rewrite Nat2Z.inj_succ. repeat split; auto; lia.
  - inversion H; subst. rewrite Nat2Z.inj_succ. repeat split; auto; lia.
Qed.

Lemma scan_none (n : nat) : forall i w,
  0 <= i ->
  scan_test_and_set n i w = None ->
  forall k, i <= k < i + Z.of_nat n -> Z.testbit w k = true.
Proof.
  induction n as [|n IH]; intros i w Hi H k Hk; [simpl in Hk; lia|].
  rewrite Nat2Z.inj_succ in Hk. simpl in H.
  destruct (Z.testbit w i) eqn:Hb; simpl in H; [|discriminate].
  rewrite setbit_already in H by assumption.
  destruct (Z.eq_dec k i) as [->|]; auto.
  apply (IH (i + 1) w); auto; lia.
Qed.

Lemma tagged_ok_all : forall tc, 0 <= tc < 128 -> tagged_ok tc = true.
Proof.
  apply (range_forallb tagged_ok 128). vm_compute. reflexivity.
Qed.

Lemma tagged_fields (i c : Z) :
  0 <= i < 8 -> 0 <= c < 16 ->
  let t := Z.lor (Z.shiftl i NVEC_COMMAND_0_CMD_TAG_SHIFT)
                 (Z.land c (Z.lnot NVEC_COMMAND_0_CMD_TAG_MASK)) in
  t = Z.lor (Z.shiftl i 4) c /\ 0 <= t < 128 /\ cmd_of t = c /\ tag_of t = i.
Proof.
  intros Hi Hc.
  assert (Hr : 0 <= i * 16 + c < 128) by lia.
  pose proof (tagged_ok_all _ Hr) as H. unfold tagged_ok in H.
  replace ((i * 16 + c) / 16) with i in H by (apply Z.div_unique with c; lia).
  replace ((i * 16 + c) mod 16) with c in H by (apply Z.mod_unique with i; lia).
  rewrite !andb_true_iff, !Z.eqb_eq in H.
  destruct H as [[[H1 H2] H3] H4]. cbv zeta.
  split; [exact H1|]. rewrite H2. repeat split; auto; lia.
Qed.

Lemma cmd_of_range (t : Z) : 0 <= cmd_of t < 16.
Proof. exact (land15_range t). Qed.

Lemma tagmap_get_set (tm : tagmap) (c c' w : Z) :
  0 <= c < Z.of_nat (length tm) -> 0 <= c' ->
  tagmap_get (tagmap_set tm c w) c' = if c =? c' then w else tagmap_get tm c'.
Proof.
  intros Hc Hc'. unfold tagmap_get, tagmap_set.
  rewrite nth_upd by lia.
  destruct (Z.eqb_spec c c') as [->|Hn].
  - rewrite Nat.eqb_refl. reflexivity.
  - destruct (Nat.eqb_spec (Z.to_nat c) (Z.to_nat c')); auto. lia.
Qed.

(** What a successful [nvec_alloc_tag] did and when it blocks. *)
Lemma nvec_alloc_tag_spec (tm : tagmap) (cmd : Z) :
  length tm = 16%nat ->
  match nvec_alloc_tag tm cmd with
  | Ok (t, tm') =>
      exists tag, 0 <= tag < 8 /\
        t = Z.lor (Z.shiftl tag 4) (Z.land cmd 0x0F) /\
        0 <= t < 128 /\ cmd_of t = Z.land cmd 0x0F /\ tag_of t = tag /\
        Z.testbit (tagmap_get tm (Z.land cmd 0x0F)) tag = false /\
        tm' = tagmap_set tm (Z.land cmd 0x0F) (Z.setbit (tagmap_get tm (Z.land cmd 0x0F)) tag)
  | Blocks =>
      forall tag, 0 <= tag < 8 -> Z.testbit (tagmap_get tm (Z.land cmd 0x0F)) tag = true
  | Fault => False
  end.
Proof.
  intros Hl. unfold nvec_alloc_tag.
  change NVEC_COMMAND_0_CMD_TYPE_MASK with 15.
  pose proof (land15_range cmd) as Hc.
  destruct (scan_test_and_set 8 0 (tagmap_get tm (Z.land cmd 15))) as [[i w']|] eqn:Hs.
  - apply scan_some in Hs; [|lia]. destruct Hs as (Hi & Hb & ->).
    destruct (tagged_fields i (Z.land cmd 15)) as (E & R & C & G); [lia|lia|].
    exists i. rewrite <- E. repeat split; auto; lia.
  - intros tag Ht. apply (scan_none 8 0); auto; lia.
Qed.

(** ** Array accesses *)

Lemma rd_ok (a : list Z) (i : Z) :
  0 <= i < Z.of_nat (length a) -> rd a i = Some (nth (Z.to_nat i) a 0).
Proof.
  intros Hi. unfold rd.
  replace ((0 <=? i) && (i <? Z.of_nat (length a))) with true
    by (symmetry; apply andb_true_intro; split; [apply Z.leb_le|apply Z.ltb_lt]; lia).
  apply nth_error_nth'. lia.
Qed.

Lemma rd_some (a : list Z) (i v : Z) :
  rd a i = Some v -> 0 <= i < Z.of_nat (length a) /\ In v a.
Proof.
  unfold rd. destruct ((0 <=? i) && (i <? Z.of_nat (length a))) eqn:E; [|discriminate].
  apply andb_prop in E. destruct E as [E1 E2].
  apply Z.leb_le in E1. apply Z.ltb_lt in E2.
  intros H. split; [lia|]. eapply nth_error_In; eauto.
Qed.

Lemma wr_ok (a : list Z) (i v : Z) :
  0 <= i < Z.of_nat (length a) -> wr a i v = Some (upd a (Z.to_nat i) v).
Proof.
  intros Hi. unfold wr.
  replace ((0 <=? i) && (i <? Z.of_nat (length a))) with true
    by (symmetry; apply andb_true_intro; split; [apply Z.leb_le|apply Z.ltb_lt]; lia).
  reflexivity.
Qed.

Lemma memcpy_ok (dst src : list Z) (n : Z) :
  0 <= n <= Z.of_nat (length dst) -> n <= Z.of_nat (length src) ->
  memcpy dst src n = Some (firstn (Z.to_nat n) src ++ skipn (Z.to_nat n) dst).
Proof.
  intros H1 H2. unfold memcpy.
  replace (0 <=? n) with true by (symmetry; apply Z.leb_le; lia).
  replace (n <=? Z.of_nat (length dst)) with true by (symmetry; apply Z.leb_le; lia).
  replace (n <=? Z.of_nat (length src)) with true by (symmetry; apply Z.leb_le; lia).
  reflexivity.
Qed.

Lemma memcpy_some (dst src d : list Z) (n : Z) :
  memcpy dst src n = Some d ->
  0 <= n <= Z.of_nat (length dst) /\ length d = length dst /\
  firstn (Z.to_nat n) d = firstn (Z.to_nat n) src.
Proof.
  unfold memcpy.
  destruct (0 <=? n) eqn:E1; [|discriminate].
  destruct (n <=? Z.of_nat (length dst)) eqn:E2; [|discriminate].
  destruct (n <=? Z.of_nat (length src)) eqn:E3; [|discriminate].
  apply Z.leb_le in E1, E2, E3. simpl. intros H. inversion H; subst d; clear H.
  split; [lia|]. split.
  - rewrite length_app, length_firstn, length_skipn. lia.
  - rewrite firstn_app, length_firstn.
    replace (Z.to_nat n - Nat.min (Z.to_nat n) (length src))%nat with 0%nat by lia.
    rewrite firstn_firstn, Nat.min_id. simpl. apply app_nil_r.
Qed.

(** ** Events *)

Lemma limit_payload_bound (h : nvec_h) (len : Z) :
  0 <= NVEC_EVENT_DATA_SZ h < 2147483648 ->
  -2147483648 <= len < 2147483648 ->
  0 <= limit_payload h len <= NVEC_EVENT_DATA_SZ h /\
  u32 (limit_payload h len) = limit_payload h len.
Proof.
  intros Hcap Hlen. unfold limit_payload, u32, sint32.
  destruct (Z.gtb_spec (len mod 4294967296) (NVEC_EVENT_DATA_SZ h)) as [Hgt|Hle].
  - rewrite (Z.mod_small (NVEC_EVENT_DATA_SZ h + 2147483648)) by lia.
    rewrite Z.mod_small by lia. lia.
  - assert (0 <= len).
    { destruct (Z_lt_le_dec len 0) as [Hneg|]; [|assumption].
      replace len with (len + 4294967296 + (-1) * 4294967296) in Hle by lia.
      rewrite Z.mod_add in Hle by lia.
      rewrite Z.mod_small in Hle by lia. lia. }
    rewrite Z.mod_small in Hle by lia.
    rewrite Z.mod_small by lia. lia.
Qed.

Lemma rd_byte (a : list Z) (i v : Z) :
  Forall is_byte a -> rd a i = Some v -> 0 <= v < 256.
Proof.
  intros Ha Hr. apply rd_some in Hr. destruct Hr as [_ Hin].
  rewrite Forall_forall in Ha. exact (Ha v Hin).
Qed.

Lemma decode_event_range (raw : list Z) (evt st pos len : Z) :
  Forall is_byte raw ->
  decode_event raw = Some (evt, st, pos, len) ->
  1 <= pos <= 3 /\ -1 <= len <= 255.
Proof.
  intros Hb. unfold decode_event.
  destruct (rd raw 0) as [cmd|] eqn:H0; [|discriminate].
  set (cls := Z.land cmd NVEC_COMMAND_0_EVENT_LENGTH_MASK).
  assert (Hpl : forall p l,
    (if cls =? NVEC_COMMAND_0_EVENT_LENGTH_FIXED_2BYTE then Some (1, 1)
     else if cls =? NVEC_COMMAND_0_EVENT_LENGTH_FIXED_3BYTE then Some (1, 2)
     else if cls =? NVEC_COMMAND_0_EVENT_LENGTH_VARIABLE then
       match rd raw 1 with Some n => Some (2, n) | None => None end
     else Some (1, 0)) = Some (p, l) -> 1 <= p <= 2 /\ 0 <= l <= 255).
  { intros p l.
    destruct (cls =? _); [intros H; inversion H; lia|].
    destruct (cls =? _); [intros H; inversion H; lia|].
    destruct (cls =? _); [|intros H; inversion H; lia].
    destruct (rd raw 1) as [n|] eqn:H1; [|discriminate].
    intros H; inversion H; subst. pose proof (rd_byte _ _ _ Hb H1). lia. }
  destruct (if cls =? _ then _ else _) as [[p l]|]; [|discriminate].
  specialize (Hpl p l eq_refl).
  destruct (negb _).
  - destruct (rd raw p); [|discriminate].
    intros H; inversion H; subst. unfold sint32.
    rewrite !Z.mod_small by lia. lia.
  - intros H; inversion H; subst. lia.
Qed.

(** C9. The length of the payload copied into an event record is limited to
    the size of the record's data array before the copy: the count passed
    to [memcpy] never exceeds the array, the record filled keeps its array
    and holds a size within it, and with the scratch array one byte longer
    than an event payload at least the fill is carried out. *)
Theorem fill_event_within_record (h : nvec_h) (e : nvec_event) (raw : list Z) :
  0 <= NVEC_EVENT_DATA_SZ h < 2147483648 ->
  Z.of_nat (length (ev_data e)) = NVEC_EVENT_DATA_SZ h ->
  Forall is_byte raw ->
  (forall evt st pos len,
      decode_event raw = Some (evt, st, pos, len) ->
      0 <= u32 (limit_payload h len) <= Z.of_nat (length (ev_data e))) /\
  (forall e',
      fill_event h e raw = Some e' ->
      0 <= ev_size e' <= NVEC_EVENT_DATA_SZ h /\
      length (ev_data e') = length (ev_data e)) /\
  (Z.of_nat (length raw) = NVEC_MAX_MSG_SZ h + 4 ->
   NVEC_EVENT_DATA_SZ h <= NVEC_MAX_MSG_SZ h + 1 ->
   exists e', fill_event h e raw = Some e').
Proof.
  intros Hcap Hlen Hb.
  assert (Hlim : forall evt st pos len,
             decode_event raw = Some (evt, st, pos, len) ->
             0 <= limit_payload h len <= NVEC_EVENT_DATA_SZ h /\
             u32 (limit_payload h len) = limit_payload h len).
  { intros evt st pos len Hd. apply decode_event_range in Hd; [|assumption].
    apply limit_payload_bound; lia. }
  split; [|split].
  - intros evt st pos len Hd. destruct (Hlim _ _ _ _ Hd) as [B ->]. lia.
  - intros e'. unfold fill_event.
    destruct (decode_event raw) as [[[[evt st] pos] len]|] eqn:Hd; [|discriminate].
    destruct (memcpy _ _ _) as [d|] eqn:Hm; [|discriminate].
    intros H; inversion H; subst e'; clear H. simpl.
    apply memcpy_some in Hm. destruct (Hlim _ _ _ _ eq_refl) as [B _].
    split; [exact B|apply Hm].
  - intros Hraw Hfit.
    assert (Hd : exists evt st pos len, decode_event raw = Some (evt, st, pos, len)).
    { unfold decode_event.
      rewrite (rd_ok raw 0) by lia.
      rewrite (rd_ok raw 1) by lia.
      destruct (if _ =? _ then _ else _) as [[p l]|] eqn:Hpl.
      - assert (1 <= p <= 2).
        { revert Hpl. repeat (destruct (_ =? _); [intros H; inversion H; lia|]).
          intros H; inversion H; lia. }
        destruct (negb _); [rewrite (rd_ok raw p) by lia|]; eauto.
      - revert Hpl. repeat (destruct (_ =? _); [discriminate|]). discriminate. }
    destruct Hd as (evt & st & pos & len & Hd).
    unfold fill_event. rewrite Hd.
    destruct (Hlim _ _ _ _ Hd) as [B ->].
    pose proof (decode_event_range _ _ _ _ _ Hb Hd) as [Hpos _].
    rewrite memcpy_ok; [eauto|lia|].
    rewrite length_skipn. lia.
Qed.

Lemma fill_event_within_record_witness :
  (0 <= NVEC_EVENT_DATA_SZ nvec_h_32 < 2147483648 /\
   Z.of_nat (length (ev_data (nvec_event_zero nvec_h_32))) = NVEC_EVENT_DATA_SZ nvec_h_32 /\
   Forall is_byte (0xD0 :: 0xFF :: repeat 0xEE 34)) /\
  exists e', fill_event nvec_h_32 (nvec_event_zero nvec_h_32) (0xD0 :: 0xFF :: repeat 0xEE 34)
             = Some e'.
Proof.
  assert (H1 : 0 <= NVEC_EVENT_DATA_SZ nvec_h_32 < 2147483648) by (simpl; lia).
  assert (H2 : Z.of_nat (length (ev_data (nvec_event_zero nvec_h_32)))
               = NVEC_EVENT_DATA_SZ nvec_h_32) by reflexivity.
  assert (H3 : Forall is_byte (0xD0 :: 0xFF :: repeat 0xEE 34)).
  { repeat constructor; unfold is_byte; lia. }
  split; [auto|].
  apply (fill_event_within_record nvec_h_32 (nvec_event_zero nvec_h_32)
           (0xD0 :: 0xFF :: repeat 0xEE 34) H1 H2 H3).
  - reflexivity.
  - simpl. lia.
Defined.

(** C3, the claim as stated fails: the bytes [D6 04 07 AA BB CC] written by
    the EC queue an event of type 6 and status 7 whose payload is not
    [BB CC]. *)
Lemma event_D6_payload_is_not_BB_CC :
  exists p,
    first_event (i2c_irqs nvec_h_32 (nvec_init nvec_h_32 EC_ADDR)
                   (ec_write [0xD6; 0x04; 0x07; 0xAA; 0xBB; 0xCC]))
    = Some (0x06, 0x07, p) /\ p <> [0xBB; 0xCC].
Proof.
  exists [0xAA; 0xBB; 0xCC]. split; [vm_compute; reflexivity|discriminate].
Qed.

(** C3, amended.  From a scratch packet that starts with the bytes
    [D6 04 07 AA BB CC] the dispatcher fills an event record with type
    0x06, status 0x07, size 3 and payload [AA BB CC]: the size byte 0x04
    counts the status byte and the three bytes after it, the status byte is
    consumed and the length goes from 4 to 3. *)
Theorem fill_event_D6 (h : nvec_h) (e : nvec_event) (rest : list Z) :
  3 <= NVEC_EVENT_DATA_SZ h < 4294967296 ->
  Z.of_nat (length (ev_data e)) = NVEC_EVENT_DATA_SZ h ->
  exists e',
    fill_event h e ([0xD6; 0x04; 0x07; 0xAA; 0xBB; 0xCC] ++ rest) = Some e' /\
    ev e' = 0x06 /\ ev_status e' = 0x07 /\ ev_size e' = 3 /\
    ev_payload e' = [0xAA; 0xBB; 0xCC].
Proof.
  intros Hcap Hlen.
  unfold fill_event.
  assert (Hd : decode_event ([0xD6; 0x04; 0x07; 0xAA; 0xBB; 0xCC] ++ rest)
               = Some (6, 7, 3, 3)).
  { unfold decode_event. rewrite (rd_ok _ 0) by (simpl length; lia).
    simpl nth. change (Z.land 214 NVEC_COMMAND_0_EVENT_LENGTH_MASK) with 64.
    simpl. rewrite (rd_ok _ 1) by (simpl length; lia).
    rewrite (rd_ok _ 2) by (simpl length; lia). reflexivity. }
  rewrite Hd.
  assert (Hl : limit_payload h 3 = 3).
  { unfold limit_payload. change (u32 3) with 3.
    destruct (Z.gtb_spec 3 (NVEC_EVENT_DATA_SZ h)); [lia|reflexivity]. }
  rewrite Hl. change (u32 3) with 3.
  rewrite memcpy_ok by (simpl; lia).
  eexists. split; [reflexivity|]. repeat split.
Qed.

Lemma fill_event_D6_witness :
  (3 <= NVEC_EVENT_DATA_SZ nvec_h_32 < 4294967296 /\
   Z.of_nat (length (ev_data (nvec_event_zero nvec_h_32))) = NVEC_EVENT_DATA_SZ nvec_h_32) /\
  exists e',
    fill_event nvec_h_32 (nvec_event_zero nvec_h_32)
      ([0xD6; 0x04; 0x07; 0xAA; 0xBB; 0xCC] ++ repeat 0 30) = Some e' /\
    ev e' = 0x06 /\ ev_status e' = 0x07 /\ ev_size e' = 3 /\
    ev_payload e' = [0xAA; 0xBB; 0xCC].
Proof.
  assert (H1 : 3 <= NVEC_EVENT_DATA_SZ nvec_h_32 < 4294967296) by (simpl; lia).
  assert (H2 : Z.of_nat (length (ev_data (nvec_event_zero nvec_h_32)))
               = NVEC_EVENT_DATA_SZ nvec_h_32) by reflexivity.
  split; [auto|].
  exact (fill_event_D6 nvec_h_32 (nvec_event_zero nvec_h_32) (repeat 0 30) H1 H2).
Defined.

(** ** Queues and the depth counter *)

Lemma msgptr_eqb_spec (p q : msgptr) : reflect (p = q) (msgptr_eqb p q).
Proof.
  destruct p as [|a], q as [|b]; simpl; try (constructor; congruence).
  destruct (Nat.eqb_spec a b); constructor; congruence.
Qed.

Lemma unlink_notin (p : msgptr) (l : list msgptr) : ~ In p l -> unlink p l = l.
Proof.
  induction l as [|q l IH]; simpl; intros H; [reflexivity|].
  destruct (msgptr_eqb_spec p q) as [->|]; [tauto|].
  rewrite IH by tauto. reflexivity.
Qed.

Lemma unlink_length (p : msgptr) (l : list msgptr) :
  NoDup l -> In p l -> S (length (unlink p l)) = length l.
Proof.
  induction 1 as [|q l Hq Hnd IH]; simpl; intros Hin; [tauto|].
  destruct (msgptr_eqb_spec p q) as [->|Hne].
  - rewrite unlink_notin by assumption. reflexivity.
  - simpl. rewrite IH; [reflexivity|]. destruct Hin; congruence.
Qed.

(** The enqueue section keeps the counter equal to the queue length. *)
Lemma msg_enqueue_count (c : nvec_chip) (msg : msgptr) :
  count_inv c -> Z.of_nat (length (cmd_tosend c)) < 2147483647 ->
  count_inv (msg_enqueue c msg).
Proof.
  unfold count_inv, msg_enqueue. simpl. intros -> Hlen.
  rewrite length_app. simpl. unfold sint32.
  rewrite Z.mod_small by lia. lia.
Qed.

(** So does the section of state 3 that moves the transmitted packet, when
    the packet is linked on the to-send queue. *)
Lemma tx_msg_sent_count (c : nvec_chip) (p : msgptr) :
  count_inv c -> NoDup (cmd_tosend c) -> In p (cmd_tosend c) ->
  Z.of_nat (length (cmd_tosend c)) < 2147483648 ->
  count_inv (tx_msg_sent c p).
Proof.
  unfold count_inv, tx_msg_sent. simpl. intros -> Hnd Hin Hlen.
  pose proof (unlink_length p _ Hnd Hin) as E. unfold sint32.
  rewrite Z.mod_small by lia. lia.
Qed.

(** The failure path decrements the counter when the record is found on
    [cmd_torcv], and only then. *)
Lemma msg_timeout_cleanup_count (c : nvec_chip) (msg : msgptr) :
  cmd_tosendcount (msg_timeout_cleanup c msg)
  = if on_list msg (cmd_torcv c) then sint32 (cmd_tosendcount c - 1)
    else cmd_tosendcount c.
Proof.
  unfold msg_timeout_cleanup. destruct (on_list msg (cmd_torcv c)); reflexivity.
Qed.

(** C1, the code at the failing inputs.  First run: the EC never polls, the
    record is still on the to-send queue at the final timeout; it is
    unlinked, the tag is released and -ETIMEDOUT is returned, but the depth
    counter stays 1 and the attention line stays asserted.  Second run: the
    EC reads the request and never answers, the record is on the
    awaiting-response queue at the final timeout; the depth counter is
    decremented from 0 to -1 and the attention line is asserted. *)
Theorem nvec_msg_xfer_timeout_counts :
  queue_view (nvec_cmd_xfer nvec_h_32 (nvec_init nvec_h_32 EC_ADDR)
                0x04 0x10 None 0 None 0 [])
  = Some (- ETIMEDOUT, [], 1, [], 0, repeat 0 16) /\
  queue_view (nvec_cmd_xfer nvec_h_32 (nvec_init nvec_h_32 EC_ADDR)
                0x04 0x10 None 0 None 0 [ec_block_read 2])
  = Some (- ETIMEDOUT, [], -1, [], 0, repeat 0 16).
Proof.
  split; vm_compute; reflexivity.
Qed.

(** C2, the code at the failing input.  A request is queued and, the EC
    being silent, cleaned up after the timeout: the counter equals the
    length of the to-send queue when the lock is released after the enqueue
    section, and differs from it when the lock is released after the
    clean-up section. *)
Theorem tosendcount_differs_after_timeout :
  let c0 := nvec_init nvec_h_32 EC_ADDR in
  let c1 := msg_enqueue c0 (Req 0) in
  let c2 := msg_timeout_cleanup c1 (Req 0) in
  count_inv c0 /\ count_inv c1 /\
  cmd_tosend c2 = [] /\ cmd_tosendcount c2 = 1 /\ ~ count_inv c2.
Proof.
  repeat split. unfold count_inv. simpl. discriminate.
Qed.

(** ** Callers that overlap *)

(** The failure path is the tail of [nvec_msg_xfer]. *)
Lemma nvec_msg_xfer_paths (h : nvec_h) (c : nvec_chip) (msg : msgptr)
    (env : list (list (Z * Z))) :
  nvec_msg_xfer h c msg env
  = bind (msg_submit c msg) (fun c1 =>
      bind (wait_loop h 10 c1 msg 10 0 env) (fun cr =>
        if snd cr =? 0 then msg_timeout_path (fst cr) msg else Ok (fst cr, 0))).
Proof.
  unfold nvec_msg_xfer, msg_timeout_path.
  destruct (msg_submit c msg) as [c1| |]; [|reflexivity|reflexivity].
  cbn [bind].
  destruct (wait_loop h 10 c1 msg 10 0 env) as [[c2 res]| |]; reflexivity.
Qed.

(** C7, the code at the failing input.  The claim: [nvec_alloc_tag] returns
    the command with the index of a bit it changed from clear to set, and
    hence no two live requests share a (command code, tag) pair.  The tag of
    a request is released by the interrupt handler when the response is
    delivered and by the failure path of [nvec_msg_xfer] when the last wait
    has timed out, and the failure path does not look whether the handler
    has delivered the response in between.  Three callers use the command
    code 0x04.  The response to the first request arrives after its ninth
    wait has timed out: the handler releases tag 0 and signals the
    completion; the second caller acquires tag 0; the first caller returns
    -ETIMEDOUT and releases tag 0 once more (the trace shows the two
    wake-ups of [nvec_free_tag] around the completion); the third caller
    acquires tag 0 as well.  The two requests on [cmd_tosend] are live and
    carry the same command byte 0x04 (command code 4, tag 0), with one bit
    set in the occupancy word of the command code. *)
Theorem tag_shared_after_late_response :
  match late_response_run nvec_h_32 with
  | Ok (c, ret) =>
      ret = - ETIMEDOUT /\
      flat_map (fun e => match e with
                         | WakeUp k => [inl k]
                         | Complete p => [inr p]
                         | _ => []
                         end) (trace c)
      = [inl 4; inr (Req 0); inl 4] /\
      cmd_tosend c = [Req 1; Req 2] /\ cmd_torcv c = [] /\
      option_map (fun m => firstn 3 (tx_raw m)) (get_msg c (Req 1))
      = Some [0x02; 0x04; 0x10] /\
      option_map (fun m => firstn 3 (tx_raw m)) (get_msg c (Req 2))
      = Some [0x02; 0x04; 0x10] /\
      tagmap_get (cmd_tagmap c) 0x04 = 1
  | _ => False
  end.
Proof.
  vm_compute. repeat split.
Qed.

(** ** Results of nvec_cmd_xfer *)

(** C4, the claim as stated fails: responses with status 0x07 and with
    status 0x09 give the caller the same value, and that value is also the
    one returned while the bus is disabled. *)
Lemma remote_error_status_not_surfaced :
  let run c st :=
    xfer_result (nvec_cmd_xfer nvec_h_32 c 0x04 0x10 None 0 (Some [0; 0; 0; 0]) 4
                   [ec_block_read 2 ++ ec_write [0x04; 0x06; 0x10; st; 2; 0; 5; 0]]) in
  run (nvec_init nvec_h_32 EC_ADDR) 0x07 = Some (- EIO, Some [0; 0; 0; 0]) /\
  run (nvec_init nvec_h_32 EC_ADDR) 0x09 = run (nvec_init nvec_h_32 EC_ADDR) 0x07 /\
  run (set_i2c_enabled (nvec_init nvec_h_32 EC_ADDR) false) 0x00
  = run (nvec_init nvec_h_32 EC_ADDR) 0x07.
Proof.
  cbv zeta. split; [|split]; vm_compute; reflexivity.
Qed.

Lemma rd_shorter (a : list Z) (i j v : Z) :
  rd a i = Some v -> 0 <= j <= i -> exists w, rd a j = Some w.
Proof.
  intros H Hj. apply rd_some in H. destruct H as [Hi _].
  rewrite rd_ok by lia. eauto.
Qed.

(** C4, amended.  When the matched response carries a nonzero status byte,
    [nvec_cmd_xfer] returns -EIO whatever the value of the byte is, and
    leaves the caller's buffer as it was; -EIO differs from the -ETIMEDOUT
    of a timeout and is the value returned while the bus is disabled. *)
Theorem nvec_cmd_xfer_remote_error (h : nvec_h) (c : nvec_chip) (cmd subcmd : Z)
    (txpayld : option (list Z)) (txpayldsize : Z)
    (rxpayld : option (list Z)) (rxpayloadmaxsize : Z) (env : list (list (Z * Z)))
    (msg : nvec_cmd) (c1 : nvec_chip) (m : nvec_cmd) (st : Z) :
  i2c_enabled c = true ->
  cmd_fill h cmd subcmd txpayld txpayldsize = Ok msg ->
  nvec_msg_xfer h (set_msgs c (msgs c ++ [msg])) (Req (length (msgs c))) env = Ok (c1, 0) ->
  get_msg c1 (Req (length (msgs c))) = Some m ->
  rd (rx_raw m) 3 = Some st ->
  st <> 0 ->
  nvec_cmd_xfer h c cmd subcmd txpayld txpayldsize rxpayld rxpayloadmaxsize env
  = Ok (c1, - EIO, rxpayld) /\
  - EIO <> - ETIMEDOUT /\
  nvec_cmd_xfer h (set_i2c_enabled c false) cmd subcmd txpayld txpayldsize
    rxpayld rxpayloadmaxsize env
  = Ok (set_i2c_enabled c false, - EIO, rxpayld).
Proof.
  intros Hen Hfill Hx Hget Hst Hnz.
  split; [|split; [discriminate|reflexivity]].
  unfold nvec_cmd_xfer. rewrite Hen. simpl negb. cbv iota.
  rewrite Hfill. simpl bind. rewrite Hx. simpl.
  simpl in Hget. rewrite Hget. simpl. unfold cmd_answer. rewrite Hst. simpl.
  unfold NVEC_STATUS_SUCCESS. destruct (Z.eqb_spec st 0); [contradiction|reflexivity].
Qed.

Ltac eval_request h c cmd subcmd env :=
  let v := eval vm_compute in (cmd_fill h cmd subcmd None 0) in
  match v with
  | Ok ?m0 =>
      pose (msg := m0);
      let w := eval vm_compute in
                 (nvec_msg_xfer h (set_msgs c (msgs c ++ [m0])) (Req (length (msgs c))) env) in
      match w with
      | Ok (?c', _) =>
          pose (c1 := c');
          let u := eval vm_compute in (get_msg c' (Req (length (msgs c)))) in
          match u with
          | Some ?m' => pose (m := m')
          end
      end
  end.

Lemma nvec_cmd_xfer_remote_error_witness :
  xfer_result (nvec_cmd_xfer nvec_h_32 (nvec_init nvec_h_32 EC_ADDR)
                 0x04 0x10 None 0 (Some [0; 0; 0; 0]) 4
                 [ec_block_read 2 ++ ec_write [0x04; 0x06; 0x10; 0x07; 2; 0; 5; 0]])
  = Some (- EIO, Some [0; 0; 0; 0]).
Proof.
  eval_request nvec_h_32 (nvec_init nvec_h_32 EC_ADDR) 0x04 0x10
    [ec_block_read 2 ++ ec_write [0x04; 0x06; 0x10; 0x07; 2; 0; 5; 0]].
  destruct (nvec_cmd_xfer_remote_error nvec_h_32 (nvec_init nvec_h_32 EC_ADDR)
              0x04 0x10 None 0 (Some [0; 0; 0; 0]) 4
              [ec_block_read 2 ++ ec_write [0x04; 0x06; 0x10; 0x07; 2; 0; 5; 0]]
              msg c1 m 0x07) as [H _].
  - reflexivity.
  - vm_compute; reflexivity.
  - vm_compute; reflexivity.
  - vm_compute; reflexivity.
  - vm_compute; reflexivity.
  - discriminate.
  - rewrite H. reflexivity.
Defined.

(** C10.  With a NULL receive buffer, a transfer that succeeded and whose
    response carries the success status makes [nvec_cmd_xfer] return 0,
    whatever the size byte of the response is. *)
Theorem nvec_cmd_xfer_null_rxpayld (h : nvec_h) (c : nvec_chip) (cmd subcmd : Z)
    (txpayld : option (list Z)) (txpayldsize : Z)
    (rxpayloadmaxsize : Z) (env : list (list (Z * Z)))
    (msg : nvec_cmd) (c1 : nvec_chip) (m : nvec_cmd) :
  i2c_enabled c = true ->
  cmd_fill h cmd subcmd txpayld txpayldsize = Ok msg ->
  nvec_msg_xfer h (set_msgs c (msgs c ++ [msg])) (Req (length (msgs c))) env = Ok (c1, 0) ->
  get_msg c1 (Req (length (msgs c))) = Some m ->
  rd (rx_raw m) 3 = Some NVEC_STATUS_SUCCESS ->
  nvec_cmd_xfer h c cmd subcmd txpayld txpayldsize None rxpayloadmaxsize env
  = Ok (c1, 0, None).
Proof.
  intros Hen Hfill Hx Hget Hst.
  unfold nvec_cmd_xfer. rewrite Hen. simpl negb. cbv iota.
  rewrite Hfill. simpl bind. rewrite Hx. simpl.
  simpl in Hget. rewrite Hget. simpl. unfold cmd_answer. rewrite Hst. simpl.
  destruct (rd_shorter _ 3 1 _ Hst) as [sz ->]; [lia|]. reflexivity.
Qed.

Lemma nvec_cmd_xfer_null_rxpayld_witness :
  xfer_result (nvec_cmd_xfer nvec_h_32 (nvec_init nvec_h_32 EC_ADDR)
                 0x04 0x10 None 0 None 0
                 [ec_block_read 2 ++ ec_write [0x04; 0x06; 0x10; 0x00; 2; 0; 5; 0]])
  = Some (0, None).
Proof.
  eval_request nvec_h_32 (nvec_init nvec_h_32 EC_ADDR) 0x04 0x10
    [ec_block_read 2 ++ ec_write [0x04; 0x06; 0x10; 0x00; 2; 0; 5; 0]].
  rewrite (nvec_cmd_xfer_null_rxpayld nvec_h_32 (nvec_init nvec_h_32 EC_ADDR)
             0x04 0x10 None 0 0
             [ec_block_read 2 ++ ec_write [0x04; 0x06; 0x10; 0x00; 2; 0; 5; 0]]
             msg c1 m).
  - reflexivity.
  - reflexivity.
  - vm_compute; reflexivity.
  - vm_compute; reflexivity.
  - vm_compute; reflexivity.
  - vm_compute; reflexivity.
Defined.

(** Two runs of a request that is never completed, with a silent EC and
    with an EC that reads the request and does not answer: 9 waits of
    20 ms, 9 pulses of the attention line, -ETIMEDOUT. *)
Lemma nvec_cmd_xfer_unanswered_runs :
  wait_view (nvec_cmd_xfer nvec_h_32 (nvec_init nvec_h_32 EC_ADDR)
               0x04 0x10 None 0 None 0 [])
  = Some (- ETIMEDOUT, repeat NVEC_TIMEOUT 9, 9%nat) /\
  wait_view (nvec_cmd_xfer nvec_h_32 (nvec_init nvec_h_32 EC_ADDR)
               0x04 0x10 None 0 None 0 [ec_block_read 2])
  = Some (- ETIMEDOUT, repeat NVEC_TIMEOUT 9, 9%nat).
Proof.
  split; vm_compute; reflexivity.
Qed.

(** ** The state machine *)

Lemma bind_ok {A B : Type} (r : result A) (k : A -> result B) (b : B) :
  bind r k = Ok b -> exists a, r = Ok a /\ k a = Ok b.
Proof.
  destruct r as [a| |]; simpl; intros H; try discriminate. eauto.
Qed.

Lemma of_option_ok {A : Type} (o : option A) (a : A) : of_option o = Ok a -> o = Some a.
Proof.
  destruct o; simpl; intros H; inversion H; reflexivity.
Qed.

Ltac inv_bind H :=
  let a := fresh "a" in
  let E := fresh "E" in
  apply bind_ok in H; destruct H as (a & E & H);
  try (apply of_option_ok in E).

Tactic Notation "bind_inv" hyp(H) "as" ident(a) ident(E) :=
  apply bind_ok in H; destruct H as (a & E & H);
  try (apply of_option_ok in E).

Lemma in_unlink (p q : msgptr) (l : list msgptr) : In q (unlink p l) -> In q l.
Proof.
  induction l as [|x l IH]; simpl; [tauto|].
  destruct (msgptr_eqb p x); simpl; tauto.
Qed.


Lemma i2c_irqs_cons (h : nvec_h) (c : nvec_chip) (status rcvd : Z) (t : list (Z * Z)) :
  i2c_irqs h c ((status, rcvd) :: t)
  = bind (i2c_interrupt h c status rcvd)
      (fun co => let '(c, out) := co in
         i2c_irqs h (match out with Some b => emit c (WriteByte b) | None => c end) t).
Proof. reflexivity. Qed.

Lemma get_msg_frame (c c' : nvec_chip) (p : msgptr) :
  cmd_scratch c' = cmd_scratch c -> msgs c' = msgs c -> get_msg c' p = get_msg c p.
Proof.
  intros H1 H2. destruct p; simpl; congruence.
Qed.


(** The handler in a given state and with given flags. *)
Lemma i2c_interrupt_state2_read (h : nvec_h) (c : nvec_chip) (r : Z) :
  smbus_state c = 2 ->
  i2c_interrupt h c (Z.lor (Z.lor I2C_SL_IRQ RNW) RCVD) r
  = bind (smbus_state2 h c (Z.lor (Z.lor I2C_SL_IRQ RNW) RCVD) 0 0xff)
      (fun cs => let '(c, b) := cs in Ok (c, Some b)).
Proof.
  intros Hs. unfold i2c_interrupt. rewrite Hs. reflexivity.
Qed.

Lemma i2c_interrupt_state3_read (h : nvec_h) (c : nvec_chip) (r : Z) :
  smbus_state c = 3 ->
  i2c_interrupt h c (Z.lor I2C_SL_IRQ RNW) r
  = bind (smbus_state3 c (Z.lor I2C_SL_IRQ RNW) 0xff)
      (fun cs => let '(c, b) := cs in Ok (c, Some b)).
Proof.
  intros Hs. unfold i2c_interrupt. rewrite Hs. reflexivity.
Qed.

Lemma i2c_interrupt_state3_stop (h : nvec_h) (c : nvec_chip) (r : Z) :
  smbus_state c = 3 ->
  i2c_interrupt h c (Z.lor (Z.lor I2C_SL_IRQ RNW) END_TRANS) r
  = bind (smbus_state3 c (Z.lor (Z.lor I2C_SL_IRQ RNW) END_TRANS) 0xff)
      (fun cs => let '(c, b) := cs in Ok (c, None)).
Proof.
  intros Hs. unfold i2c_interrupt. rewrite Hs. reflexivity.
Qed.

(** State 3, [I2C_SL_IRQ|RNW]: the next byte of the packet. *)
Lemma state3_next_byte (h : nvec_h) (c : nvec_chip) (r : Z) (p : msgptr) (m : nvec_cmd) (b : Z) :
  smbus_state c = 3 -> tx c = Some p -> tx_pos c < tx_size c ->
  get_msg c p = Some m -> rd (tx_raw m) (tx_pos c) = Some b ->
  i2c_interrupt h c (Z.lor I2C_SL_IRQ RNW) r
  = Ok (set_tx_pos c (sint32 (tx_pos c + 1)), Some b).
Proof.
  intros Hs Htx Hpos Hget Hrd.
  rewrite i2c_interrupt_state3_read by assumption.
  unfold smbus_state3.
  change (Z.lor I2C_SL_IRQ RNW =? Z.lor I2C_SL_IRQ RNW) with true. cbv iota.
  unfold send_next_byte. rewrite Htx.
  destruct (Z.ltb_spec (tx_pos c) (tx_size c)); [|lia].
  rewrite Hget. simpl of_option. simpl bind at 1. rewrite Hrd. reflexivity.
Qed.

(** State 3, [I2C_SL_IRQ|RNW|END_TRANS] before the end of the packet. *)
Lemma state3_premature_stop (h : nvec_h) (c : nvec_chip) (r : Z) (p : msgptr) :
  smbus_state c = 3 -> tx c = Some p -> tx_pos c < tx_size c ->
  i2c_interrupt h c (Z.lor (Z.lor I2C_SL_IRQ RNW) END_TRANS) r
  = Ok (set_smbus_state (gpio_set_value (set_tx_pos c 0) 0) 0, None).
Proof.
  intros Hs Htx Hpos.
  rewrite i2c_interrupt_state3_stop by assumption.
  unfold smbus_state3.
  change (Z.lor (Z.lor I2C_SL_IRQ RNW) END_TRANS =? Z.lor I2C_SL_IRQ RNW) with false.
  change (Z.lor (Z.lor I2C_SL_IRQ RNW) END_TRANS =? Z.lor (Z.lor I2C_SL_IRQ RNW) END_TRANS)
    with true.
  cbv iota. rewrite Htx.
  destruct (Z.geb_spec (tx_pos c) (tx_size c)); [lia|]. reflexivity.
Qed.

(** State 3, [I2C_SL_IRQ|RNW|END_TRANS] after the last byte of the scratch
    packet. *)
Lemma state3_scratch_sent (h : nvec_h) (c : nvec_chip) (r : Z) :
  smbus_state c = 3 -> tx c = Some Scratch -> tx_size c <= tx_pos c ->
  i2c_interrupt h c (Z.lor (Z.lor I2C_SL_IRQ RNW) END_TRANS) r
  = Ok (set_smbus_state (set_tx c None) 0, None).
Proof.
  intros Hs Htx Hpos.
  rewrite i2c_interrupt_state3_stop by assumption.
  unfold smbus_state3.
  change (Z.lor (Z.lor I2C_SL_IRQ RNW) END_TRANS =? Z.lor I2C_SL_IRQ RNW) with false.
  change (Z.lor (Z.lor I2C_SL_IRQ RNW) END_TRANS =? Z.lor (Z.lor I2C_SL_IRQ RNW) END_TRANS)
    with true.
  cbv iota. rewrite Htx.
  destruct (Z.geb_spec (tx_pos c) (tx_size c)); [|lia]. reflexivity.
Qed.

(** State 2, turn-around with the marker 0x01 and a packet already chosen:
    the packet is kept and sent from [tx_pos] on. *)
Lemma state2_resume (h : nvec_h) (c : nvec_chip) (r : Z) (p : msgptr) (m : nvec_cmd) (b : Z) :
  smbus_state c = 2 -> rd (rx_raw (cmd_scratch c)) 0 = Some 0x01 ->
  tx c = Some p -> tx_pos c < tx_size c ->
  get_msg c p = Some m -> rd (tx_raw m) (tx_pos c) = Some b ->
  i2c_interrupt h c (Z.lor (Z.lor I2C_SL_IRQ RNW) RCVD) r
  = Ok (gpio_set_value
          (set_tx_pos (set_smbus_state (emit c (Udelay 33)) 3) (sint32 (tx_pos c + 1))) 1,
        Some b).
Proof.
  intros Hs Hmark Htx Hpos Hget Hrd.
  rewrite i2c_interrupt_state2_read by assumption.
  unfold smbus_state2.
  change (Z.lor (Z.lor I2C_SL_IRQ RNW) RCVD =? Z.lor (Z.lor I2C_SL_IRQ RNW) RCVD) with true.
  cbv iota zeta.
  change (rx_raw (cmd_scratch (emit c (Udelay 33)))) with (rx_raw (cmd_scratch c)).
  rewrite Hmark. simpl of_option. simpl bind at 1.
  change (negb (1 =? 1)) with false. cbv iota.
  unfold pick_tx_msg.
  change (tx (set_smbus_state (emit c (Udelay 33)) 3)) with (tx c). rewrite Htx.
  simpl bind at 1. unfold send_next_byte.
  change (tx (set_smbus_state (emit c (Udelay 33)) 3)) with (tx c). rewrite Htx.
  change (tx_pos (set_smbus_state (emit c (Udelay 33)) 3)) with (tx_pos c).
  change (tx_size (set_smbus_state (emit c (Udelay 33)) 3)) with (tx_size c).
  destruct (Z.ltb_spec (tx_pos c) (tx_size c)); [|lia].
  rewrite (get_msg_frame c) by reflexivity. rewrite Hget.
  simpl of_option. simpl bind at 1. rewrite Hrd. reflexivity.
Qed.

(** State 2, turn-around with the marker 0x01, no packet chosen and a depth
    counter of 0: the no-op packet is written into the scratch packet and
    its first byte is sent. *)
Lemma state2_noop (h : nvec_h) (c : nvec_chip) (r x y z : Z) (rest : list Z) :
  smbus_state c = 2 -> rd (rx_raw (cmd_scratch c)) 0 = Some 0x01 ->
  tx c = None -> cmd_tosendcount c = 0 ->
  tx_raw (cmd_scratch c) = x :: y :: z :: rest ->
  let c0 := set_smbus_state (emit c (Udelay 33)) 3 in
  let s := set_tx_raw (cmd_scratch c)
             (2 :: u8 (NVEC_CMD_CONTROL h) :: u8 (NVEC_CMD_CONTROL_NOOPERATION h) :: rest) in
  i2c_interrupt h c (Z.lor (Z.lor I2C_SL_IRQ RNW) RCVD) r
  = Ok (gpio_set_value
          (set_tx_pos
             (set_tx_size (set_tx_pos (set_tx (set_cmd_scratch c0 s) (Some Scratch)) 0) 3)
             1) 1,
        Some 2).
Proof.
  intros Hs Hmark Htx Hcnt Hraw c0 s.
  rewrite i2c_interrupt_state2_read by assumption.
  unfold smbus_state2.
  change (Z.lor (Z.lor I2C_SL_IRQ RNW) RCVD =? Z.lor (Z.lor I2C_SL_IRQ RNW) RCVD) with true.
  cbv iota zeta.
  change (rx_raw (cmd_scratch (emit c (Udelay 33)))) with (rx_raw (cmd_scratch c)).
  rewrite Hmark. simpl of_option. simpl bind at 1.
  change (negb (1 =? 1)) with false. cbv iota.
  fold c0. unfold pick_tx_msg.
  change (tx c0) with (tx c). rewrite Htx.
  change (cmd_tosendcount c0) with (cmd_tosendcount c). rewrite Hcnt.
  change (0 =? 0) with true. cbv iota.
  change (cmd_scratch c0) with (cmd_scratch c). rewrite Hraw.
  rewrite (wr_ok _ 0) by (simpl length; lia). simpl of_option. simpl bind at 1.
  change (upd (x :: y :: z :: rest) (Z.to_nat 0) 2) with (2 :: y :: z :: rest).
  rewrite (wr_ok _ 1) by (simpl length; lia). simpl of_option. simpl bind at 1.
  change (upd (2 :: y :: z :: rest) (Z.to_nat 1) (u8 (NVEC_CMD_CONTROL h)))
    with (2 :: u8 (NVEC_CMD_CONTROL h) :: z :: rest).
  rewrite (wr_ok _ 2) by (simpl length; lia). simpl of_option. simpl bind at 1.
  change (upd (2 :: u8 (NVEC_CMD_CONTROL h) :: z :: rest) (Z.to_nat 2)
            (u8 (NVEC_CMD_CONTROL_NOOPERATION h)))
    with (2 :: u8 (NVEC_CMD_CONTROL h) :: u8 (NVEC_CMD_CONTROL_NOOPERATION h) :: rest).
  reflexivity.
Qed.

(** *** What the handler leaves alone *)

Lemma nth_error_upd_msg (l : list nvec_cmd) (a b : nat) (x : nvec_cmd) :
  nth_error (upd_msg l a x) b
  = if Nat.eqb a b then option_map (fun _ => x) (nth_error l b) else nth_error l b.
Proof.
  revert a b; induction l as [|y l IH]; intros a b; simpl.
  - destruct (Nat.eqb a b), b; reflexivity.
  - destruct a as [|a], b as [|b]; simpl; auto.
Qed.

Lemma get_put_tx_raw (c : nvec_chip) (q p : msgptr) (m0 x : nvec_cmd) :
  get_msg c q = Some m0 -> tx_raw x = tx_raw m0 ->
  option_map tx_raw (get_msg (put_msg c q x) p) = option_map tx_raw (get_msg c p).
Proof.
  intros Hq Hx. destruct q as [|a], p as [|b]; simpl in *; try reflexivity.
  - inversion Hq; subst. congruence.
  - rewrite nth_error_upd_msg. destruct (Nat.eqb_spec a b) as [->|]; [|reflexivity].
    rewrite Hq. simpl. congruence.
Qed.

Lemma tx_frame_refl (c : nvec_chip) : tx_frame c c.
Proof. repeat split. Qed.

Lemma tx_frame_trans (c1 c2 c3 : nvec_chip) :
  tx_frame c1 c2 -> tx_frame c2 c3 -> tx_frame c1 c3.
Proof.
  intros (A1 & A2 & A3 & A4) (B1 & B2 & B3 & B4).
  split; [congruence|]. split; [congruence|]. split; [congruence|].
  intros p. rewrite B4. apply A4.
Qed.

(** Updates of fields other than the cursor, the scratch packet and the
    request records. *)
Lemma tx_frame_fields (c c' : nvec_chip) :
  tx c' = tx c -> tx_pos c' = tx_pos c -> tx_size c' = tx_size c ->
  tx_raw (cmd_scratch c') = tx_raw (cmd_scratch c) -> msgs c' = msgs c ->
  tx_frame c c'.
Proof.
  intros H1 H2 H3 H4 H5. repeat split; auto.
  intros [|a]; simpl; congruence.
Qed.

Lemma smbus_state1_frame (c c' : nvec_chip) (status received : Z) :
  smbus_state1 c status received = Ok c' ->
  tx_frame c c' /\ cmd_torcv c' = cmd_torcv c.
Proof.
  unfold smbus_state1. destruct (negb _); intros H.
  - inversion H; subst. split; [apply tx_frame_fields|]; reflexivity.
  - inv_bind H. inversion H; subst. split; [apply tx_frame_fields|]; reflexivity.
Qed.

Lemma rx_event_frame (h : nvec_h) (c c' : nvec_chip) :
  rx_event h c = Ok c' -> tx_frame c c' /\ cmd_torcv c' = cmd_torcv c.
Proof.
  unfold rx_event, nvec_alloc_ev_msg. intros H.
  destruct (scan_test_and_set 8 0 (ev_allocd c)) as [[i w]|].
  - simpl in H. inv_bind H. destruct a as [c1 slot]. inv_bind E.
    inversion E; subst; clear E.
    inv_bind H. inv_bind H. inversion H; subst.
    split; [apply tx_frame_fields|]; reflexivity.
  - simpl in H. inversion H; subst. split; [apply tx_frame_refl|reflexivity].
Qed.

Lemma put_msg_frame (c : nvec_chip) (q : msgptr) (m0 x : nvec_cmd) :
  get_msg c q = Some m0 -> tx_raw x = tx_raw m0 -> tx_frame c (put_msg c q x).
Proof.
  intros Hq Hx. unfold tx_frame.
  split; [destruct q; reflexivity|].
  split; [destruct q; reflexivity|].
  split; [destruct q; reflexivity|].
  intros p. eapply get_put_tx_raw; eauto.
Qed.

Lemma put_msg_torcv (c : nvec_chip) (q : msgptr) (x : nvec_cmd) :
  cmd_torcv (put_msg c q x) = cmd_torcv c.
Proof. destruct q; reflexivity. Qed.

Lemma rx_response_frame (c c' : nvec_chip) :
  rx_response c = Ok c' ->
  tx_frame c c' /\ forall q, In q (cmd_torcv c') -> In q (cmd_torcv c).
Proof.
  unfold rx_response. intros H.
  destruct (cmd_torcv c) as [|p0 l0] eqn:Hl.
  { inversion H; subst. split; [apply tx_frame_refl|]. rewrite Hl. tauto. }
  rewrite <- Hl in *. clear Hl.
  bind_inv H as cmd Ecmd. bind_inv H as found Efound. destruct found as [rxmsg|].
  - bind_inv H as m Em. bind_inv H as sz Esz. bind_inv H as r Er.
    unfold complete in H. bind_inv H as m' Em'.
    inversion H; subst; clear H.
    set (c1 := list_del_init c rxmsg) in *.
    set (c2 := put_msg c1 rxmsg (set_rx_raw m r)) in *.
    set (c3 := free_tag c2 cmd) in *.
    set (c4 := put_msg c3 rxmsg (set_done m' (done m' + 1))).
    split.
    + apply tx_frame_trans with c1; [apply tx_frame_fields; reflexivity|].
      apply tx_frame_trans with c2; [apply (put_msg_frame c1 rxmsg m); auto|].
      apply tx_frame_trans with c3; [apply tx_frame_fields; reflexivity|].
      apply tx_frame_trans with c4; [apply (put_msg_frame c3 rxmsg m'); auto|].
      apply tx_frame_fields; reflexivity.
    + intros q Hq. change (In q (cmd_torcv c4)) in Hq.
      unfold c4 in Hq. rewrite put_msg_torcv in Hq.
      change (In q (cmd_torcv c2)) in Hq.
      unfold c2 in Hq. rewrite put_msg_torcv in Hq.
      apply (in_unlink rxmsg). exact Hq.
  - inversion H; subst. split; [apply tx_frame_refl|tauto].
Qed.

Lemma smbus_state4_frame (h : nvec_h) (c c' : nvec_chip) (status received : Z) :
  smbus_state4 h c status received = Ok c' ->
  tx_frame c c' /\ forall q, In q (cmd_torcv c') -> In q (cmd_torcv c).
Proof.
  unfold smbus_state4. intros H.
  destruct (status =? I2C_SL_IRQ).
  - inv_bind H. destruct (_ || _).
    + inversion H; subst. split; [apply tx_frame_refl|tauto].
    + inv_bind H. inversion H; subst. split; [apply tx_frame_fields; reflexivity|tauto].
  - destruct (status =? _).
    + inv_bind H. inv_bind H. inversion H; subst; clear H.
      destruct (_ =? _).
      * apply rx_event_frame in E0. destruct E0 as [F T].
        split; [|rewrite <- T; tauto].
        eapply tx_frame_trans; [exact F|]. apply tx_frame_fields; reflexivity.
      * apply rx_response_frame in E0. destruct E0 as [F T].
        split; [|exact T].
        eapply tx_frame_trans; [exact F|]. apply tx_frame_fields; reflexivity.
    + inversion H; subst. split; [apply tx_frame_fields; reflexivity|tauto].
Qed.

Lemma smbus_state0_frame (c : nvec_chip) (status received : Z) :
  tx_frame c (smbus_state0 c status received) /\
  cmd_torcv (smbus_state0 c status received) = cmd_torcv c.
Proof.
  unfold smbus_state0. destruct (status =? _); [destruct (negb _)|];
    (split; [apply tx_frame_fields|]; reflexivity).
Qed.

Lemma send_next_byte_torcv (c c' : nvec_chip) (b b' : Z) :
  send_next_byte c b = Ok (c', b') -> cmd_torcv c' = cmd_torcv c.
Proof.
  unfold send_next_byte. intros H.
  destruct (tx c); [destruct (_ <? _)|].
  - inv_bind H. inv_bind H. inversion H; subst. reflexivity.
  - inversion H; subst. reflexivity.
  - inversion H; subst. reflexivity.
Qed.

Lemma pick_tx_msg_torcv (h : nvec_h) (c c' : nvec_chip) :
  pick_tx_msg h c = Ok c' -> cmd_torcv c' = cmd_torcv c.
Proof.
  unfold pick_tx_msg. intros H.
  destruct (tx c); [inversion H; subst; reflexivity|].
  inv_bind H. destruct a as [c1 msg]. inv_bind H. inv_bind H.
  inversion H; subst; clear H. simpl.
  destruct (_ =? _).
  - inv_bind E. inv_bind E. inv_bind E. inversion E; subst. reflexivity.
  - inv_bind E. inversion E; subst. reflexivity.
Qed.

Lemma smbus_state2_torcv (h : nvec_h) (c c' : nvec_chip) (status received b b' : Z) :
  smbus_state2 h c status received b = Ok (c', b') -> cmd_torcv c' = cmd_torcv c.
Proof.
  unfold smbus_state2. intros H.
  destruct (status =? _).
  - inv_bind H. destruct (negb _).
    + inversion H; subst. reflexivity.
    + inv_bind H. inv_bind H. destruct a1 as [c2 b2]. inversion H; subst; clear H.
      apply send_next_byte_torcv in E1. apply pick_tx_msg_torcv in E0.
      simpl. rewrite E1, E0. reflexivity.
  - destruct (status =? _).
    + inv_bind H. inversion H; subst. reflexivity.
    + inversion H; subst. reflexivity.
Qed.

Lemma smbus_state2_write_frame (h : nvec_h) (c c' : nvec_chip) (status received b b' : Z) :
  status <> Z.lor (Z.lor I2C_SL_IRQ RNW) RCVD ->
  smbus_state2 h c status received b = Ok (c', b') -> tx_frame c c'.
Proof.
  unfold smbus_state2. intros Hne H.
  destruct (Z.eqb_spec status (Z.lor (Z.lor I2C_SL_IRQ RNW) RCVD)); [contradiction|].
  destruct (status =? _).
  - inv_bind H. inversion H; subst. apply tx_frame_fields; reflexivity.
  - inversion H; subst. apply tx_frame_fields; reflexivity.
Qed.

(** The scratch packet is not put on the awaiting-response queue. *)
Lemma smbus_state3_torcv (c c' : nvec_chip) (status b b' : Z) :
  smbus_state3 c status b = Ok (c', b') ->
  ~ In Scratch (cmd_torcv c) -> ~ In Scratch (cmd_torcv c').
Proof.
  unfold smbus_state3. intros H Hn.
  destruct (status =? _).
  - apply send_next_byte_torcv in H. congruence.
  - destruct (status =? _); [|inversion H; subst; exact Hn].
    inversion H; subst; clear H. simpl.
    destruct (tx c) as [p|]; [|exact Hn].
    destruct (_ >=? _); [|exact Hn].
    destruct (msgptr_eqb_spec p Scratch) as [->|Hp]; simpl; [exact Hn|].
    intros Hin. apply in_app_or in Hin. destruct Hin as [Hin|[Hin|[]]].
    + apply in_unlink in Hin. tauto.
    + congruence.
Qed.

Lemma i2c_interrupt_torcv (h : nvec_h) (c c' : nvec_chip) (status rcvd : Z) (out : option Z) :
  i2c_interrupt h c status rcvd = Ok (c', out) ->
  ~ In Scratch (cmd_torcv c) -> ~ In Scratch (cmd_torcv c').
Proof.
  unfold i2c_interrupt. intros H Hn.
  destruct (_ && _); [inversion H; subst; exact Hn|].
  destruct (_ =? 0); [inversion H; subst; exact Hn|].
  inv_bind H. destruct a as [c1 b]. inversion H; subst; clear H.
  destruct (smbus_state c =? 0).
  { inversion E; subst. rewrite (proj2 (smbus_state0_frame _ _ _)). exact Hn. }
  destruct (smbus_state c =? 1).
  { inv_bind E. inversion E; subst. apply smbus_state1_frame in E0.
    rewrite (proj2 E0). exact Hn. }
  destruct (smbus_state c =? 2).
  { apply smbus_state2_torcv in E. congruence. }
  destruct (smbus_state c =? 3).
  { eapply smbus_state3_torcv; eauto. }
  destruct (smbus_state c =? 4).
  { inv_bind E. inversion E; subst. apply smbus_state4_frame in E0.
    intros Hin. apply Hn. apply (proj2 E0). exact Hin. }
  inversion E; subst. exact Hn.
Qed.

Lemma i2c_irqs_torcv (h : nvec_h) (evs : list (Z * Z)) : forall c c',
  i2c_irqs h c evs = Ok c' ->
  ~ In Scratch (cmd_torcv c) -> ~ In Scratch (cmd_torcv c').
Proof.
  induction evs as [|[status rcvd] evs IH]; intros c c' H Hn.
  - inversion H; subst. exact Hn.
  - rewrite i2c_irqs_cons in H. inv_bind H. destruct a as [c1 out].
    apply (IH _ _ H). apply i2c_interrupt_torcv in E; [|exact Hn].
    destruct out; exact E.
Qed.

(** A bus event outside a block read leaves the transmit cursor and the
    bytes of the packets alone. *)
Lemma idle_step_frame (h : nvec_h) (c c' : nvec_chip) (status rcvd : Z) (out : option Z) :
  not_read_step c status ->
  i2c_interrupt h c status rcvd = Ok (c', out) -> tx_frame c c'.
Proof.
  intros [Hn3 Hn2]. unfold i2c_interrupt. intros H.
  destruct (_ && _); [inversion H; subst; apply tx_frame_refl|].
  destruct (_ =? 0); [inversion H; subst; apply tx_frame_refl|].
  inv_bind H. destruct a as [c1 b]. inversion H; subst; clear H.
  destruct (smbus_state c =? 0).
  { inversion E; subst. apply smbus_state0_frame. }
  destruct (smbus_state c =? 1).
  { inv_bind E. inversion E; subst. apply smbus_state1_frame in E0. apply E0. }
  destruct (Z.eqb_spec (smbus_state c) 2).
  { eapply smbus_state2_write_frame; [|exact E]. intros Hst. apply Hn2. auto. }
  destruct (Z.eqb_spec (smbus_state c) 3); [contradiction|].
  destruct (smbus_state c =? 4).
  { inv_bind E. inversion E; subst. apply smbus_state4_frame in E0. apply E0. }
  inversion E; subst. apply tx_frame_fields; reflexivity.
Qed.

Lemma idle_run_frame (h : nvec_h) (c c' : nvec_chip) :
  idle_run h c c' -> tx_frame c c'.
Proof.
  induction 1 as [c|c c1 c2 status rcvd out Hn Hs Hr IH].
  - apply tx_frame_refl.
  - eapply tx_frame_trans; [|exact IH]. eapply idle_step_frame; eauto.
Qed.

Lemma bind_Ok {A B : Type} (a : A) (k : A -> result B) : bind (Ok a) k = k a.
Proof. reflexivity. Qed.

(** C8, the code at the failing input.  The claim: a block read that starts
    while the to-send queue is empty and no transmission is in progress is
    answered with the no-op packet built in the scratch buffer.  After a
    request has timed out while the EC was silent, no transmission is in
    progress and the to-send queue is empty, but the failure path of
    [nvec_msg_xfer] has left the depth counter at 1; state 2 tests the
    counter, so at the next block read the handler does not write the no-op
    packet, it takes [list_first_entry] of the empty queue (the outcome
    [Fault] of the model). *)
Theorem block_read_after_silent_timeout :
  match after_silent_timeout nvec_h_32 with
  | Ok c =>
      cmd_tosend c = [] /\ tx c = None /\ cmd_tosendcount c = 1 /\
      i2c_irqs nvec_h_32 c (ec_block_read 2) = Fault
  | _ => False
  end.
Proof.
  vm_compute. repeat split.
Qed.

(** The no-op packet on a consistent chip.  With the machine at the
    turn-around of a block read (marker 0x01 received), no transmission in
    progress, the to-send queue empty and the depth counter equal to its
    length, the handler writes the no-op packet (size 2, command CONTROL,
    subcommand NOOPERATION) into the scratch packet and sends its three
    bytes; at the stop the scratch packet is released without being queued:
    the two queues are the same as before, and whatever bus events follow,
    the scratch packet is not on [cmd_torcv]. *)
Theorem noop_packet_when_idle (h : nvec_h) (c : nvec_chip) (r1 r2 r3 r4 : Z) :
  smbus_state c = 2 ->
  rd (rx_raw (cmd_scratch c)) 0 = Some 0x01 ->
  tx c = None ->
  cmd_tosend c = [] ->
  count_inv c ->
  (3 <= length (tx_raw (cmd_scratch c)))%nat ->
  ~ In Scratch (cmd_torcv c) ->
  exists c',
    i2c_irqs h c [(Z.lor (Z.lor I2C_SL_IRQ RNW) RCVD, r1);
                  (Z.lor I2C_SL_IRQ RNW, r2);
                  (Z.lor I2C_SL_IRQ RNW, r3);
                  (Z.lor (Z.lor I2C_SL_IRQ RNW) END_TRANS, r4)] = Ok c' /\
    trace c' = trace c ++ [Udelay 33; GpioSet 1; WriteByte 2;
                           WriteByte (u8 (NVEC_CMD_CONTROL h));
                           WriteByte (u8 (NVEC_CMD_CONTROL_NOOPERATION h))] /\
    firstn 3 (tx_raw (cmd_scratch c'))
    = [2; u8 (NVEC_CMD_CONTROL h); u8 (NVEC_CMD_CONTROL_NOOPERATION h)] /\
    tx c' = None /\ smbus_state c' = 0 /\
    cmd_torcv c' = cmd_torcv c /\ cmd_tosend c' = cmd_tosend c /\
    cmd_tosendcount c' = 0 /\
    forall evs c'', i2c_irqs h c' evs = Ok c'' -> ~ In Scratch (cmd_torcv c'').
Proof.
  intros Hs Hmark Htx Hq Hcnt Hlen Hn.
  unfold count_inv in Hcnt. rewrite Hq in Hcnt. change (Z.of_nat (length [])) with 0 in Hcnt.
  destruct (tx_raw (cmd_scratch c)) as [|x [|y [|z rest]]] eqn:Hraw;
    simpl in Hlen; try lia.
  set (s := set_tx_raw (cmd_scratch c)
              (2 :: u8 (NVEC_CMD_CONTROL h) :: u8 (NVEC_CMD_CONTROL_NOOPERATION h) :: rest)).
  assert (Hs1 : rd (tx_raw s) 1 = Some (u8 (NVEC_CMD_CONTROL h)))
    by (apply rd_ok; simpl; lia).
  assert (Hs2 : rd (tx_raw s) 2 = Some (u8 (NVEC_CMD_CONTROL_NOOPERATION h)))
    by (apply rd_ok; simpl; lia).
  rewrite i2c_irqs_cons.
  rewrite (state2_noop h c r1 x y z rest Hs Hmark Htx Hcnt Hraw).
  cbv zeta. fold s. rewrite bind_Ok. cbv beta iota.
  rewrite i2c_irqs_cons.
  erewrite (state3_next_byte h _ r2 Scratch s);
    [|reflexivity|reflexivity|simpl; lia|reflexivity|exact Hs1].
  rewrite bind_Ok. cbv beta iota.
  rewrite i2c_irqs_cons.
  erewrite (state3_next_byte h _ r3 Scratch s);
    [|reflexivity|reflexivity|simpl; unfold sint32; simpl; lia|reflexivity|exact Hs2].
  rewrite bind_Ok. cbv beta iota.
  rewrite i2c_irqs_cons.
  rewrite state3_scratch_sent;
    [|reflexivity|reflexivity|simpl; unfold sint32; simpl; lia].
  rewrite bind_Ok. cbv beta iota.
  eexists. split; [reflexivity|].
  split; [simpl; rewrite <- !app_assoc; reflexivity|].
  split; [reflexivity|].
  split; [reflexivity|]. split; [reflexivity|].
  split; [reflexivity|]. split; [reflexivity|]. split; [exact Hcnt|].
  intros evs c'' Hrun. eapply i2c_irqs_torcv; [exact Hrun|]. exact Hn.
Qed.

Lemma noop_packet_when_idle_witness :
  exists c c',
    i2c_irqs nvec_h_32 (nvec_init nvec_h_32 EC_ADDR)
      [(Z.lor I2C_SL_IRQ RCVD, EC_ADDR); (I2C_SL_IRQ, 0x01)] = Ok c /\
    i2c_irqs nvec_h_32 c [(Z.lor (Z.lor I2C_SL_IRQ RNW) RCVD, 0);
                          (Z.lor I2C_SL_IRQ RNW, 0);
                          (Z.lor I2C_SL_IRQ RNW, 0);
                          (Z.lor (Z.lor I2C_SL_IRQ RNW) END_TRANS, 0)] = Ok c' /\
    trace c' = [Udelay 33; GpioSet 1; WriteByte 2; WriteByte 4; WriteByte 2] /\
    tx c' = None /\ cmd_torcv c' = [].
Proof.
  let v := eval vm_compute in
             (i2c_irqs nvec_h_32 (nvec_init nvec_h_32 EC_ADDR)
                [(Z.lor I2C_SL_IRQ RCVD, EC_ADDR); (I2C_SL_IRQ, 0x01)]) in
  match v with Ok ?c0 => pose (c := c0) end.
  exists c.
  destruct (noop_packet_when_idle nvec_h_32 c 0 0 0 0)
    as (c' & Hrun & Htr & _ & Htx & _ & Hrcv & _).
  - reflexivity.
  - reflexivity.
  - reflexivity.
  - reflexivity.
  - reflexivity.
  - simpl. lia.
  - simpl. tauto.
  - exists c'. split; [vm_compute; reflexivity|].
    split; [exact Hrun|]. split; [exact Htr|]. split; [exact Htx|exact Hrcv].
Defined.

(** C5, the code at the failing input.  The claim: at the turn-around of a
    block read with a packet left over from an aborted read, the packet is
    kept and sent again from its first byte.  A request [02 04 10] is
    queued; the EC reads two bytes of it and then, instead of going on or
    stopping, addresses the chip anew (flags [I2C_SL_IRQ|RCVD] in state 3).
    The handler leaves state 3 through its branch for unexpected flags,
    which goes back to state 0 and, unlike the branch for a premature stop,
    does not set [tx_pos] to 0.  At the turn-around of the next block read
    the packet is still selected, [tx_pos] is 2 and the byte sent is the
    third byte 0x10 of the packet, not its first.  Over two whole block
    reads after the aborted one the EC gets [10 FF FF] and [FF FF FF]: the
    packet is never sent from its first byte, it stays selected with the
    cursor at its end, and the request stays on [cmd_tosend]. *)
Theorem aborted_read_not_rewound :
  turnaround_view nvec_h_32
    (bind (request_queued nvec_h_32 0x04 0x10)
       (fun c =>
          i2c_irqs nvec_h_32 c
            [(Z.lor I2C_SL_IRQ RCVD, EC_ADDR); (I2C_SL_IRQ, 0x01);
             (Z.lor (Z.lor I2C_SL_IRQ RNW) RCVD, 0); (Z.lor I2C_SL_IRQ RNW, 0);
             (Z.lor I2C_SL_IRQ RCVD, EC_ADDR);
             (Z.lor I2C_SL_IRQ RCVD, EC_ADDR); (I2C_SL_IRQ, 0x01)]))
  = Some (2, Some (Req 0), Some [0x02; 0x04; 0x10], 2, Some 0x10, 3)
  /\
  match
    bind (request_queued nvec_h_32 0x04 0x10)
      (fun c =>
         i2c_irqs nvec_h_32 c
           ([(Z.lor I2C_SL_IRQ RCVD, EC_ADDR); (I2C_SL_IRQ, 0x01);
             (Z.lor (Z.lor I2C_SL_IRQ RNW) RCVD, 0); (Z.lor I2C_SL_IRQ RNW, 0);
             (Z.lor I2C_SL_IRQ RCVD, EC_ADDR)]
            ++ ec_block_read 2 ++ ec_block_read 2))
  with
  | Ok c =>
      bus_bytes (trace c) = [0x02; 0x04; 0x10; 0xFF; 0xFF; 0xFF; 0xFF; 0xFF] /\
      tx c = Some (Req 0) /\ tx_pos c = 3 /\ tx_size c = 3 /\
      cmd_tosend c = [Req 0] /\ cmd_torcv c = []
  | _ => False
  end.
Proof.
  split; [vm_compute; reflexivity|].
  vm_compute. repeat split.
Qed.

(** X7.  A block read that is cut short by a stop is started again from the
    first byte.  When the stop ([I2C_SL_IRQ|RNW|END_TRANS]) comes in state 3
    with [tx_pos < tx_size], the handler keeps the packet, sets [tx_pos] to
    0, asserts the attention line and goes to state 0 without touching the
    queues; bus events outside a block read leave packet and cursor alone;
    and at the turn-around of the next block read the handler keeps the
    packet and sends its first byte. *)
Theorem premature_stop_resends_packet (h : nvec_h) (c c1 c2 : nvec_chip)
    (p : msgptr) (m : nvec_cmd) (b0 r r' : Z) (out : option Z) :
  smbus_state c = 3 ->
  tx c = Some p ->
  0 <= tx_pos c < tx_size c ->
  get_msg c p = Some m ->
  rd (tx_raw m) 0 = Some b0 ->
  i2c_interrupt h c (Z.lor (Z.lor I2C_SL_IRQ RNW) END_TRANS) r = Ok (c1, out) ->
  idle_run h c1 c2 ->
  smbus_state c2 = 2 ->
  rd (rx_raw (cmd_scratch c2)) 0 = Some 0x01 ->
  (out = None /\ tx c1 = Some p /\ tx_pos c1 = 0 /\ gpio c1 = 0 /\ smbus_state c1 = 0 /\
   cmd_tosend c1 = cmd_tosend c /\ cmd_torcv c1 = cmd_torcv c) /\
  (tx c2 = Some p /\ tx_pos c2 = 0) /\
  exists c3,
    i2c_interrupt h c2 (Z.lor (Z.lor I2C_SL_IRQ RNW) RCVD) r' = Ok (c3, Some b0) /\
    tx c3 = Some p /\ tx_pos c3 = 1 /\ smbus_state c3 = 3.
Proof.
  intros Hs Htx Hpos Hget Hb0 Hstop Hidle Hs2 Hmark.
  rewrite (state3_premature_stop h c r p Hs Htx) in Hstop by lia.
  inversion Hstop; subst c1 out; clear Hstop.
  split; [repeat split; exact Htx|].
  apply idle_run_frame in Hidle. destruct Hidle as (F1 & F2 & F3 & F4).
  simpl in F1, F2, F3.
  split; [split; congruence|].
  specialize (F4 p).
  assert (G : get_msg (set_smbus_state (gpio_set_value (set_tx_pos c 0) 0) 0) p
              = get_msg c p) by (destruct p; reflexivity).
  rewrite G, Hget in F4. clear G. simpl in F4.
  destruct (get_msg c2 p) as [m2|] eqn:Hget2; [|discriminate].
  simpl in F4. inversion F4 as [Hraw].
  eexists. split.
  - apply (state2_resume h c2 r' p m2 b0); try assumption.
    + congruence.
    + lia.
    + rewrite F2, Hraw. exact Hb0.
  - simpl. rewrite F1, F2. repeat split; auto.
Qed.

Lemma premature_stop_resends_packet_witness :
  exists c c1 c2 c3,
    bind (request_queued nvec_h_32 0x04 0x10)
      (fun c0 => i2c_irqs nvec_h_32 c0
         [(Z.lor I2C_SL_IRQ RCVD, EC_ADDR); (I2C_SL_IRQ, 0x01);
          (Z.lor (Z.lor I2C_SL_IRQ RNW) RCVD, 0); (Z.lor I2C_SL_IRQ RNW, 0)]) = Ok c /\
    i2c_interrupt nvec_h_32 c (Z.lor (Z.lor I2C_SL_IRQ RNW) END_TRANS) 0 = Ok (c1, None) /\
    i2c_irqs nvec_h_32 c1 [(Z.lor I2C_SL_IRQ RCVD, EC_ADDR); (I2C_SL_IRQ, 0x01)] = Ok c2 /\
    i2c_interrupt nvec_h_32 c2 (Z.lor (Z.lor I2C_SL_IRQ RNW) RCVD) 0 = Ok (c3, Some 0x02) /\
    tx c3 = Some (Req 0) /\ tx_pos c3 = 1.
Proof.
  let v := eval vm_compute in
    (bind (request_queued nvec_h_32 0x04 0x10)
       (fun c0 => i2c_irqs nvec_h_32 c0
          [(Z.lor I2C_SL_IRQ RCVD, EC_ADDR); (I2C_SL_IRQ, 0x01);
           (Z.lor (Z.lor I2C_SL_IRQ RNW) RCVD, 0); (Z.lor I2C_SL_IRQ RNW, 0)])) in
  match v with Ok ?x => pose (c := x) end.
  let v := eval vm_compute in
    (i2c_interrupt nvec_h_32 c (Z.lor (Z.lor I2C_SL_IRQ RNW) END_TRANS) 0) in
  match v with Ok (?x, _) => pose (c1 := x) end.
  let v := eval vm_compute in
    (i2c_interrupt nvec_h_32 c1 (Z.lor I2C_SL_IRQ RCVD) EC_ADDR) in
  match v with Ok (?x, _) => pose (ca := x) end.
  let v := eval vm_compute in (i2c_interrupt nvec_h_32 ca I2C_SL_IRQ 0x01) in
  match v with Ok (?x, _) => pose (c2 := x) end.
  let v := eval vm_compute in (get_msg c (Req 0)) in
  match v with Some ?x => pose (m := x) end.
  assert (Hidle : idle_run nvec_h_32 c1 c2).
  { apply (idle_step nvec_h_32 c1 ca c2 (Z.lor I2C_SL_IRQ RCVD) EC_ADDR None).
    - split; [vm_compute; discriminate|]. intros [H _]. vm_compute in H. discriminate.
    - vm_compute. reflexivity.
    - apply (idle_step nvec_h_32 ca c2 c2 I2C_SL_IRQ 0x01 None).
      + split; [vm_compute; discriminate|]. intros [H _]. vm_compute in H. discriminate.
      + vm_compute. reflexivity.
      + apply idle_refl. }
  destruct (premature_stop_resends_packet nvec_h_32 c c1 c2 (Req 0) m 0x02 0 0 None)
    as (_ & _ & c3 & Hturn & Htx3 & Hpos3 & _); try exact Hidle.
  - reflexivity.
  - reflexivity.
  - vm_compute. split; [discriminate|reflexivity].
  - reflexivity.
  - reflexivity.
  - vm_compute. reflexivity.
  - reflexivity.
  - reflexivity.
  - exists c, c1, c2, c3.
    split; [vm_compute; reflexivity|]. split; [vm_compute; reflexivity|].
    split; [vm_compute; reflexivity|]. split; [exact Hturn|]. split; assumption.
Defined.

(** ** The wait loop *)

Lemma isr_ext_refl (c : nvec_chip) : isr_ext c c.
Proof. exists []. split; [symmetry; apply app_nil_r|reflexivity]. Qed.

Lemma isr_ext_trans (c1 c2 c3 : nvec_chip) : isr_ext c1 c2 -> isr_ext c2 c3 -> isr_ext c1 c3.
Proof.
  intros (t1 & E1 & F1) (t2 & E2 & F2). exists (t1 ++ t2). split.
  - rewrite E2, E1, app_assoc. reflexivity.
  - rewrite forallb_app, F1, F2. reflexivity.
Qed.

Lemma isr_ext_same (c c' : nvec_chip) : trace c' = trace c -> isr_ext c c'.
Proof. intros E. exists []. rewrite E, app_nil_r. auto. Qed.

Lemma isr_ext_emit (c c' : nvec_chip) (e : effect) :
  isr_effect e = true -> trace c' = trace c ++ [e] -> isr_ext c c'.
Proof. intros He E. exists [e]. simpl. rewrite He. auto. Qed.

Lemma put_msg_trace (c : nvec_chip) (q : msgptr) (x : nvec_cmd) :
  trace (put_msg c q x) = trace c.
Proof. destruct q; reflexivity. Qed.

Lemma send_next_byte_trace (c c' : nvec_chip) (b b' : Z) :
  send_next_byte c b = Ok (c', b') -> trace c' = trace c.
Proof.
  unfold send_next_byte. intros H.
  destruct (tx c); [destruct (_ <? _)|].
  - inv_bind H. inv_bind H. inversion H; subst. reflexivity.
  - inversion H; subst. reflexivity.
  - inversion H; subst. reflexivity.
Qed.

Lemma pick_tx_msg_trace (h : nvec_h) (c c' : nvec_chip) :
  pick_tx_msg h c = Ok c' -> trace c' = trace c.
Proof.
  unfold pick_tx_msg. intros H.
  destruct (tx c); [inversion H; subst; reflexivity|].
  inv_bind H. destruct a as [c1 msg]. inv_bind H. inv_bind H.
  inversion H; subst; clear H. simpl.
  destruct (_ =? _).
  - inv_bind E. inv_bind E. inv_bind E. inversion E; subst. reflexivity.
  - inv_bind E. inversion E; subst. reflexivity.
Qed.

Lemma smbus_state2_ext (h : nvec_h) (c c' : nvec_chip) (status received b b' : Z) :
  smbus_state2 h c status received b = Ok (c', b') -> isr_ext c c'.
Proof.
  unfold smbus_state2. intros H.
  destruct (status =? _).
  - inv_bind H. destruct (negb _).
    + inversion H; subst. apply (isr_ext_emit _ _ (Udelay 33)); reflexivity.
    + inv_bind H. inv_bind H. destruct a1 as [c2 b2]. inversion H; subst; clear H.
      apply send_next_byte_trace in E1. apply pick_tx_msg_trace in E0.
      exists [Udelay 33; GpioSet 1]. split; [|reflexivity].
      simpl. rewrite E1, E0. simpl. rewrite <- app_assoc. reflexivity.
  - destruct (status =? _).
    + inv_bind H. inversion H; subst. apply isr_ext_same. reflexivity.
    + inversion H; subst. apply isr_ext_same. reflexivity.
Qed.

Lemma smbus_state3_ext (c c' : nvec_chip) (status b b' : Z) :
  smbus_state3 c status b = Ok (c', b') -> isr_ext c c'.
Proof.
  unfold smbus_state3. intros H.
  destruct (status =? _).
  - apply send_next_byte_trace in H. apply isr_ext_same. exact H.
  - destruct (status =? _); [|inversion H; subst; apply isr_ext_same; reflexivity].
    inversion H; subst; clear H.
    destruct (tx c) as [p|]; [|apply isr_ext_same; reflexivity].
    destruct (_ >=? _).
    + destruct (negb (msgptr_eqb p Scratch)); [|apply isr_ext_same; reflexivity].
      eapply isr_ext_emit; [|reflexivity]. reflexivity.
    + apply (isr_ext_emit _ _ (GpioSet 0)); reflexivity.
Qed.

Lemma rx_event_ext (h : nvec_h) (c c' : nvec_chip) : rx_event h c = Ok c' -> isr_ext c c'.
Proof.
  unfold rx_event, nvec_alloc_ev_msg. intros H.
  destruct (scan_test_and_set 8 0 (ev_allocd c)) as [[i w]|].
  - simpl in H. inv_bind H. destruct a as [c1 slot]. inv_bind E.
    inversion E; subst; clear E.
    inv_bind H. inv_bind H. inversion H; subst.
    apply (isr_ext_emit _ _ ScheduleWork); reflexivity.
  - simpl in H. inversion H; subst. apply isr_ext_refl.
Qed.

Lemma rx_response_ext (c c' : nvec_chip) : rx_response c = Ok c' -> isr_ext c c'.
Proof.
  unfold rx_response. intros H.
  destruct (cmd_torcv c) as [|p0 l0]; [inversion H; subst; apply isr_ext_refl|].
  bind_inv H as cmd Ecmd. bind_inv H as found Efound. destruct found as [rxmsg|].
  - bind_inv H as m Em. bind_inv H as sz Esz. bind_inv H as r Er.
    unfold complete in H. bind_inv H as m' Em'.
    inversion H; subst; clear H.
    exists [WakeUp (Z.land cmd NVEC_COMMAND_0_CMD_TYPE_MASK); Complete rxmsg].
    split; [|reflexivity].
    unfold emit at 1. simpl trace at 1. rewrite put_msg_trace.
    unfold free_tag, emit. simpl trace at 1. rewrite put_msg_trace.
    simpl. rewrite <- app_assoc. reflexivity.
  - inversion H; subst. apply isr_ext_refl.
Qed.

Lemma smbus_state4_ext (h : nvec_h) (c c' : nvec_chip) (status received : Z) :
  smbus_state4 h c status received = Ok c' -> isr_ext c c'.
Proof.
  unfold smbus_state4. intros H.
  destruct (status =? I2C_SL_IRQ).
  - inv_bind H. destruct (_ || _).
    + inversion H; subst. apply isr_ext_refl.
    + inv_bind H. inversion H; subst. apply isr_ext_same. reflexivity.
  - destruct (status =? _).
    + inv_bind H. inv_bind H. inversion H; subst; clear H.
      apply isr_ext_trans with a0; [|apply isr_ext_same; reflexivity].
      destruct (_ =? _); [eapply rx_event_ext|eapply rx_response_ext]; eauto.
    + inversion H; subst. apply isr_ext_same. reflexivity.
Qed.

Lemma i2c_interrupt_ext (h : nvec_h) (c c' : nvec_chip) (status rcvd : Z) (out : option Z) :
  i2c_interrupt h c status rcvd = Ok (c', out) -> isr_ext c c'.
Proof.
  unfold i2c_interrupt. intros H.
  destruct (_ && _); [inversion H; subst; apply isr_ext_refl|].
  destruct (_ =? 0); [inversion H; subst; apply isr_ext_refl|].
  inv_bind H. destruct a as [c1 b]. inversion H; subst; clear H.
  destruct (smbus_state c =? 0).
  { inversion E; subst. apply isr_ext_same. unfold smbus_state0.
    destruct (status =? _); [destruct (negb _)|]; reflexivity. }
  destruct (smbus_state c =? 1).
  { inv_bind E. inversion E; subst. apply isr_ext_same.
    unfold smbus_state1 in E0. destruct (negb _).
    - inversion E0; subst. reflexivity.
    - inv_bind E0. inversion E0; subst. reflexivity. }
  destruct (smbus_state c =? 2); [eapply smbus_state2_ext; eauto|].
  destruct (smbus_state c =? 3); [eapply smbus_state3_ext; eauto|].
  destruct (smbus_state c =? 4).
  { inv_bind E. inversion E; subst. eapply smbus_state4_ext; eauto. }
  inversion E; subst. apply isr_ext_same. reflexivity.
Qed.

Lemma i2c_irqs_ext (h : nvec_h) (evs : list (Z * Z)) : forall c c',
  i2c_irqs h c evs = Ok c' -> isr_ext c c'.
Proof.
  induction evs as [|[status rcvd] evs IH]; intros c c' H.
  - inversion H; subst. apply isr_ext_refl.
  - rewrite i2c_irqs_cons in H. inv_bind H. destruct a as [c1 out].
    apply i2c_interrupt_ext in E.
    eapply isr_ext_trans; [exact E|].
    eapply isr_ext_trans; [|apply (IH _ _ H)].
    destruct out as [b|]; [|apply isr_ext_refl].
    apply (isr_ext_emit _ _ (WriteByte b)); reflexivity.
Qed.

(** A wait that times out: the wait and the effects of the handler. *)
Lemma wait_timed_out (h : nvec_h) (c c' : nvec_chip) (msg : msgptr) (evs : list (Z * Z)) :
  wait_for_completion_timeout h c msg evs = Ok (c', 0) ->
  exists b, forallb isr_effect b = true /\
            trace c' = trace c ++ WaitCompletion msg NVEC_TIMEOUT :: b.
Proof.
  unfold wait_for_completion_timeout. intros H.
  bind_inv H as c1 Erun. bind_inv H as m Em.
  destruct (done m >? 0); inversion H; subst; clear H.
  apply i2c_irqs_ext in Erun. destruct Erun as (t & Et & Ft).
  exists t. split; [exact Ft|]. rewrite Et. simpl. rewrite <- app_assoc. reflexivity.
Qed.

Lemma wait_result (h : nvec_h) (c c' : nvec_chip) (msg : msgptr) (evs : list (Z * Z)) (res : Z) :
  wait_for_completion_timeout h c msg evs = Ok (c', res) -> res = 0 \/ res = 1.
Proof.
  unfold wait_for_completion_timeout. intros H.
  bind_inv H as c1 Erun. bind_inv H as m Em.
  destruct (done m >? 0); inversion H; auto.
Qed.

(** The loop that ends without a completion has gone through [tries - 1]
    unsuccessful rounds. *)
Lemma wait_loop_rounds (h : nvec_h) (msg : msgptr) (fuel : nat) :
  forall c tries res env c',
    1 <= tries <= Z.of_nat fuel -> tries < 2147483648 ->
    wait_loop h fuel c msg tries res env = Ok (c', 0) ->
    exists rounds,
      Z.of_nat (length rounds) = tries - 1 /\
      forallb (forallb isr_effect) rounds = true /\
      trace c' = trace c ++ flat_map (wait_round msg) rounds.
Proof.
  induction fuel as [|fuel IH]; intros c tries res env c' Ht Hb H; [simpl in Ht; lia|].
  rewrite Nat2Z.inj_succ in Ht. simpl in H.
  assert (Hs : sint32 (tries - 1) = tries - 1).
  { unfold sint32. rewrite Z.mod_small by lia. lia. }
  rewrite Hs in H.
  destruct (Z.eqb_spec (tries - 1) 0) as [E0|Hne].
  - inversion H; subst. exists []. simpl. rewrite app_nil_r. repeat split; auto.
  - bind_inv H as cr Ew. destruct cr as [c1 res1].
    destruct (wait_result _ _ _ _ _ _ Ew) as [->| ->].
    + simpl in H. apply wait_timed_out in Ew. destruct Ew as (b & Fb & Eb).
      apply IH in H; [|lia|lia]. destruct H as (rounds & Hlen & Hall & Etr).
      exists (b :: rounds). split; [simpl length; lia|].
      split; [simpl; rewrite Fb, Hall; reflexivity|].
      rewrite Etr. simpl trace. rewrite Eb. simpl flat_map. unfold wait_round at 2.
      rewrite <- ?app_assoc. simpl. rewrite <- ?app_assoc. reflexivity.
    + simpl in H. inversion H.
Qed.

Lemma wr_some (a r : list Z) (i v : Z) :
  wr a i v = Some r -> 0 <= i < Z.of_nat (length r).
Proof.
  unfold wr. destruct ((0 <=? i) && (i <? Z.of_nat (length a))) eqn:E; [|discriminate].
  apply andb_prop in E. destruct E as [E1 E2].
  apply Z.leb_le in E1. apply Z.ltb_lt in E2.
  intros H. inversion H; subst. rewrite upd_length. lia.
Qed.

Lemma get_put_same (c : nvec_chip) (q : msgptr) (m x : nvec_cmd) :
  get_msg c q = Some m -> get_msg (put_msg c q x) q = Some x.
Proof.
  destruct q as [|a]; simpl; [reflexivity|].
  intros H. rewrite nth_error_upd_msg, Nat.eqb_refl, H. reflexivity.
Qed.

(** The request that [msg_submit] has queued: its completion is not
    signalled and its command byte can be read. *)
Lemma msg_submit_record (c c0 : nvec_chip) (msg : msgptr) :
  msg_submit c msg = Ok c0 ->
  exists m v, get_msg c0 msg = Some m /\ done m = 0 /\ rd (tx_raw m) 1 = Some v.
Proof.
  unfold msg_submit. intros H.
  bind_inv H as m Em. bind_inv H as cmd Ecmd. bind_inv H as ta Eta.
  destruct ta as [tagged tm]. bind_inv H as r Er. inversion H; subst; clear H.
  exists (set_tx_raw (set_done m 0) r), (nth (Z.to_nat 1) r 0).
  split; [|split; [reflexivity|]].
  - unfold msg_enqueue.
    rewrite (get_msg_frame (put_msg (set_cmd_tagmap c tm) msg (set_tx_raw (set_done m 0) r)))
      by reflexivity.
    apply (get_put_same _ _ m). rewrite (get_msg_frame c) by reflexivity. exact Em.
  - apply rd_ok. apply wr_some in Er. exact Er.
Qed.

(** With a silent EC the loop runs to its end. *)
Lemma wait_loop_silent (h : nvec_h) (msg : msgptr) (m : nvec_cmd) (fuel : nat) :
  forall c tries,
    get_msg c msg = Some m -> done m <= 0 ->
    1 <= tries <= Z.of_nat fuel -> tries < 2147483648 ->
    exists c', wait_loop h fuel c msg tries 0 [] = Ok (c', 0) /\ get_msg c' msg = Some m.
Proof.
  induction fuel as [|fuel IH]; intros c tries Hget Hdone Ht Hb; [simpl in Ht; lia|].
  rewrite Nat2Z.inj_succ in Ht. simpl.
  assert (Hs : sint32 (tries - 1) = tries - 1).
  { unfold sint32. rewrite Z.mod_small by lia. lia. }
  rewrite Hs.
  destruct (Z.eqb_spec (tries - 1) 0) as [E0|Hne]; [eauto|].
  unfold wait_for_completion_timeout. simpl i2c_irqs. rewrite bind_Ok.
  rewrite (get_msg_frame c) by reflexivity. rewrite Hget. simpl of_option. rewrite bind_Ok.
  destruct (Z.gtb_spec (done m) 0); [lia|]. rewrite bind_Ok. simpl.
  apply IH; try lia; assumption.
Qed.

Lemma msg_timeout_cleanup_ext (c : nvec_chip) (msg : msgptr) :
  isr_ext c (msg_timeout_cleanup c msg).
Proof.
  unfold msg_timeout_cleanup. destruct (on_list msg (cmd_torcv c)).
  - eapply isr_ext_emit; [|reflexivity]. reflexivity.
  - apply isr_ext_same. reflexivity.
Qed.

(** C6.  A call of [nvec_msg_xfer] that returns -ETIMEDOUT has gone through
    exactly 9 rounds, which is within the 10 of the claim ([tries] starts
    at 10 and is decremented before it is tested): in each round it waits
    NVEC_TIMEOUT = 20 ms for the completion and then pulses the attention
    line (high, 10 ms, low); nothing but effects of the interrupt handler
    lies between the wait and the pulse, and only the clean-up follows the
    last round.  With a silent EC every request that was queued does end
    this way. *)
Theorem nvec_msg_xfer_timeout_rounds (h : nvec_h) (c : nvec_chip) (msg : msgptr) :
  (forall env c',
      nvec_msg_xfer h c msg env = Ok (c', - ETIMEDOUT) ->
      exists c0 rounds rest,
        msg_submit c msg = Ok c0 /\
        length rounds = 9%nat /\ (length rounds <= 10)%nat /\
        forallb (forallb isr_effect) rounds = true /\
        forallb isr_effect rest = true /\
        trace c' = trace c0 ++ flat_map (wait_round msg) rounds ++ rest) /\
  (forall c0,
      msg_submit c msg = Ok c0 ->
      exists c', nvec_msg_xfer h c msg [] = Ok (c', - ETIMEDOUT)).
Proof.
  split.
  - intros env c' H. unfold nvec_msg_xfer in H.
    bind_inv H as c0 Esub. bind_inv H as cr Eloop. destruct cr as [c1 res].
    destruct (Z.eqb_spec res 0) as [->|Hne]; [|inversion H].
    bind_inv H as m Em. bind_inv H as cmd Ecmd. inversion H; subst; clear H.
    apply wait_loop_rounds in Eloop; [|simpl; lia|lia].
    destruct Eloop as (rounds & Hlen & Hall & Etr).
    destruct (msg_timeout_cleanup_ext c1 msg) as (t & Et & Ft).
    exists c0, rounds, (t ++ [WakeUp (Z.land cmd NVEC_COMMAND_0_CMD_TYPE_MASK)]).
    split; [exact Esub|]. split; [lia|]. split; [lia|]. split; [exact Hall|].
    split; [rewrite forallb_app, Ft; reflexivity|].
    unfold free_tag, emit. simpl trace. rewrite Et, Etr.
    rewrite <- !app_assoc. reflexivity.
  - intros c0 Hsub. unfold nvec_msg_xfer. rewrite Hsub, bind_Ok.
    destruct (msg_submit_record _ _ _ Hsub) as (m & v & Hget & Hdone & Hrd).
    destruct (wait_loop_silent h msg m 10 c0 10 Hget) as (c1 & Hloop & Hget1);
      [lia|simpl; lia|lia|].
    rewrite Hloop, bind_Ok. simpl Z.eqb. cbv iota.
    assert (Hget2 : get_msg (msg_timeout_cleanup c1 msg) msg = Some m).
    { rewrite <- Hget1. apply get_msg_frame;
        unfold msg_timeout_cleanup; destruct (on_list msg (cmd_torcv c1)); reflexivity. }
    rewrite Hget2. simpl of_option. rewrite bind_Ok, Hrd. simpl of_option.
    rewrite bind_Ok. eauto.
Qed.

Lemma nvec_msg_xfer_timeout_rounds_witness :
  exists c',
    nvec_msg_xfer nvec_h_32
      (set_msgs (nvec_init nvec_h_32 EC_ADDR) [nvec_cmd_zero nvec_h_32]) (Req 0) []
    = Ok (c', - ETIMEDOUT).
Proof.
  let v := eval vm_compute in
             (msg_submit (set_msgs (nvec_init nvec_h_32 EC_ADDR) [nvec_cmd_zero nvec_h_32])
                (Req 0)) in
  match v with Ok ?x => pose (c0 := x) end.
  apply (proj2 (nvec_msg_xfer_timeout_rounds nvec_h_32
                  (set_msgs (nvec_init nvec_h_32 EC_ADDR) [nvec_cmd_zero nvec_h_32])
                  (Req 0)) c0).
  vm_compute. reflexivity.
Defined.

(** * Further properties of nvec.c *)

(** ** Tag pool and event pool *)



Lemma clearbit_setbit (w i : Z) :
  0 <= i -> Z.testbit w i = false -> clear_bit i (Z.setbit w i) = w.
Proof.
  intros Hi Hb. apply Z.bits_inj'. intros n Hn.
  change (clear_bit i (Z.setbit w i)) with (Z.clearbit (Z.setbit w i) i).
  rewrite Z.clearbit_eqb, Z.setbit_eqb by assumption.
  destruct (Z.eqb_spec i n) as [->|]; simpl.
  - rewrite Hb. reflexivity.
  - apply andb_true_r.
Qed.

Lemma scan_lowest (n : nat) : forall i w j w',
  0 <= i ->
  scan_test_and_set n i w = Some (j, w') ->
  forall k, i <= k < j -> Z.testbit w k = true.
Proof.
  induction n as [|n IH]; intros i w j w' Hi H k Hk; simpl in H; [discriminate|].
  destruct (Z.testbit w i) eqn:Hb; simpl in H.
  - rewrite setbit_already in H by assumption.
    destruct (Z.eq_dec k i) as [->|]; auto.
    apply (IH (i + 1) w j w'); auto; lia.
  - inversion H; subst. lia.
Qed.



Lemma nth_error_replace {A : Type} (l : list A) (n : nat) (x y : A) :
  nth_error l n = Some x ->
  nth_error (firstn n l ++ y :: skipn (S n) l) n = Some y.
Proof.
  intros H.
  assert (Hn : (n < length l)%nat) by (apply nth_error_Some; congruence).
  rewrite nth_error_app2; rewrite length_firstn; [|lia].
  replace (n - Nat.min n (length l))%nat with 0%nat by lia. reflexivity.
Qed.



Lemma bind_Fault_l {A B : Type} (k : A -> result B) : bind Fault k = Fault.
Proof. reflexivity. Qed.

Lemma i2c_interrupt_state4_stop (h : nvec_h) (c : nvec_chip) (r : Z) :
  smbus_state c = 4 ->
  i2c_interrupt h c (Z.lor I2C_SL_IRQ END_TRANS) r
  = bind (smbus_state4 h c (Z.lor I2C_SL_IRQ END_TRANS) 0)
      (fun c => Ok (c, None)).
Proof.
  intros Hs. unfold i2c_interrupt. rewrite Hs.
  change (smbus_state4 h c (Z.lor I2C_SL_IRQ END_TRANS) 0)
    with (smbus_state4 h c (Z.lor I2C_SL_IRQ END_TRANS)
            (if Z.land (Z.lor I2C_SL_IRQ END_TRANS) (Z.lor RNW END_TRANS) =? 0
             then r else 0)).
  destruct (smbus_state4 h c _ _); reflexivity.
Qed.

Lemma i2c_interrupt_state4_data (h : nvec_h) (c : nvec_chip) (r : Z) :
  smbus_state c = 4 ->
  i2c_interrupt h c I2C_SL_IRQ r
  = bind (smbus_state4 h c I2C_SL_IRQ r) (fun c => Ok (c, None)).
Proof.
  intros Hs. unfold i2c_interrupt. rewrite Hs.
  change (smbus_state4 h c I2C_SL_IRQ r)
    with (smbus_state4 h c I2C_SL_IRQ
            (if Z.land I2C_SL_IRQ (Z.lor RNW END_TRANS) =? 0 then r else 0)).
  destruct (smbus_state4 h c _ _); reflexivity.
Qed.

(** X3.  When the eight slots of the event pool are taken, an event packet
    that ends in state 4 is dropped: the handler changes nothing but the
    state, which goes back to 0, and it writes no byte. *)
Theorem event_dropped_when_pool_full (h : nvec_h) (c : nvec_chip) (cmd r : Z) :
  smbus_state c = 4 ->
  rd (rx_raw (cmd_scratch c)) 0 = Some cmd ->
  Z.land cmd NVEC_COMMAND_0_PACKET_TYPE_MASK = NVEC_COMMAND_0_PACKET_TYPE_EVENT ->
  (forall k, 0 <= k < 8 -> Z.testbit (ev_allocd c) k = true) ->
  i2c_interrupt h c (Z.lor I2C_SL_IRQ END_TRANS) r = Ok (set_smbus_state c 0, None).
Proof.
  intros Hs Hcmd Hev Hfull.
  rewrite i2c_interrupt_state4_stop by assumption.
  unfold smbus_state4.
  change (Z.lor I2C_SL_IRQ END_TRANS =? I2C_SL_IRQ) with false.
  change (Z.lor I2C_SL_IRQ END_TRANS =? Z.lor I2C_SL_IRQ END_TRANS) with true.
  cbv iota. rewrite Hcmd. simpl of_option. rewrite bind_Ok.
  rewrite Hev, Z.eqb_refl.
  unfold rx_event, nvec_alloc_ev_msg.
  destruct (scan_test_and_set 8 0 (ev_allocd c)) as [[i w']|] eqn:Hs8.
  - pose proof (scan_some _ _ _ _ _ (Z.le_refl 0) Hs8) as (Hi & Hclear & _).
    rewrite Hfull in Hclear by lia. discriminate.
  - reflexivity.
Qed.

Lemma event_dropped_when_pool_full_witness :
  i2c_interrupt nvec_h_32
    (receiving (set_ev_allocd (nvec_init nvec_h_32 EC_ADDR) 0xFF)
       (0x85 :: 0x1C :: repeat 0 34) 2 4)
    (Z.lor I2C_SL_IRQ END_TRANS) 0
  = Ok (set_smbus_state
          (receiving (set_ev_allocd (nvec_init nvec_h_32 EC_ADDR) 0xFF)
             (0x85 :: 0x1C :: repeat 0 34) 2 4) 0, None).
Proof.
  apply (event_dropped_when_pool_full nvec_h_32 _ 0x85 0).
  - reflexivity.
  - reflexivity.
  - reflexivity.
  - intros k Hk.
    assert (Hc : k = 0 \/ k = 1 \/ k = 2 \/ k = 3 \/ k = 4 \/ k = 5 \/ k = 6 \/ k = 7) by lia.
    destruct Hc as [->|[->|[->|[->|[->|[->|[->| ->]]]]]]]; reflexivity.
Defined.

(** ** Building a request and reading the answer *)

Lemma repeat_3 (n : Z) :
  0 <= n -> repeat 0 (Z.to_nat (n + 3)) = 0 :: 0 :: 0 :: repeat 0 (Z.to_nat n).
Proof.
  intros Hn. replace (Z.to_nat (n + 3)) with (S (S (S (Z.to_nat n)))) by lia. reflexivity.
Qed.

Lemma u32_small (n : Z) : 0 <= n < 4294967296 -> u32 n = n.
Proof. intros Hn. unfold u32. apply Z.mod_small. exact Hn. Qed.

(** X4.  [nvec_cmd_xfer] lays the request out as size (payload + 2, as a
    byte), command, subcommand, and the [txpayldsize] payload bytes,
    followed by zeroes, in the NVEC_MAX_MSG_SZ + 3 bytes of [tx.raw]; it
    does not compare [txpayldsize] with NVEC_MAX_MSG_SZ, and a larger
    payload is copied past the end of [tx.data]. *)
Theorem cmd_fill_layout (h : nvec_h) (cmd subcmd n : Z) (p : list Z) :
  0 <= NVEC_MAX_MSG_SZ h < 4294967296 ->
  0 < n -> n <= Z.of_nat (length p) ->
  (n <= NVEC_MAX_MSG_SZ h ->
   exists m,
     cmd_fill h cmd subcmd (Some p) n = Ok m /\
     tx_raw m = u8 (n + 2) :: u8 cmd :: u8 subcmd :: firstn (Z.to_nat n) p
                ++ repeat 0 (Z.to_nat (NVEC_MAX_MSG_SZ h - n)) /\
     Z.of_nat (length (tx_raw m)) = NVEC_MAX_MSG_SZ h + 3 /\
     firstn (Z.to_nat n) (skipn 3 (tx_raw m)) = firstn (Z.to_nat n) p) /\
  (NVEC_MAX_MSG_SZ h < n < 4294967296 ->
   cmd_fill h cmd subcmd (Some p) n = Fault).
Proof.
  intros Hmax Hn Hp.
  unfold cmd_fill. simpl tx_raw. rewrite repeat_3 by lia.
  rewrite (wr_ok _ 0) by (simpl length; lia). simpl of_option. rewrite bind_Ok.
  change (upd (0 :: 0 :: 0 :: repeat 0 (Z.to_nat (NVEC_MAX_MSG_SZ h))) (Z.to_nat 0) (u8 (n + 2)))
    with (u8 (n + 2) :: 0 :: 0 :: repeat 0 (Z.to_nat (NVEC_MAX_MSG_SZ h))).
  rewrite (wr_ok _ 1) by (simpl length; lia). simpl of_option. rewrite bind_Ok.
  change (upd (u8 (n + 2) :: 0 :: 0 :: repeat 0 (Z.to_nat (NVEC_MAX_MSG_SZ h)))
            (Z.to_nat 1) (u8 cmd))
    with (u8 (n + 2) :: u8 cmd :: 0 :: repeat 0 (Z.to_nat (NVEC_MAX_MSG_SZ h))).
  rewrite (wr_ok _ 2) by (simpl length; lia). simpl of_option. rewrite bind_Ok.
  change (upd (u8 (n + 2) :: u8 cmd :: 0 :: repeat 0 (Z.to_nat (NVEC_MAX_MSG_SZ h)))
            (Z.to_nat 2) (u8 subcmd))
    with (u8 (n + 2) :: u8 cmd :: u8 subcmd :: repeat 0 (Z.to_nat (NVEC_MAX_MSG_SZ h))).
  destruct (Z.gtb_spec n 0); [|lia].
  simpl skipn. simpl firstn.
  split.
  - intros Hfit. rewrite u32_small by lia.
    rewrite memcpy_ok by (rewrite ?repeat_length; lia).
    simpl of_option. rewrite !bind_Ok.
    eexists. split; [reflexivity|]. simpl tx_raw.
    assert (Hsk : skipn (Z.to_nat n) (repeat 0 (Z.to_nat (NVEC_MAX_MSG_SZ h)))
                  = repeat 0 (Z.to_nat (NVEC_MAX_MSG_SZ h - n))).
    { replace (Z.to_nat (NVEC_MAX_MSG_SZ h))
        with (Z.to_nat n + Z.to_nat (NVEC_MAX_MSG_SZ h - n))%nat by lia.
      rewrite repeat_app, skipn_app, repeat_length, Nat.sub_diag.
      rewrite skipn_all2 by (rewrite repeat_length; lia). reflexivity. }
    rewrite Hsk. split; [reflexivity|]. split.
    + simpl length. rewrite length_app, length_firstn, repeat_length. lia.
    + simpl skipn. rewrite firstn_app, length_firstn, firstn_firstn.
      replace (Z.to_nat n - Nat.min (Z.to_nat n) (length p))%nat with 0%nat by lia.
      rewrite Nat.min_id. simpl. apply app_nil_r.
  - intros Hbig. rewrite u32_small by lia.
    unfold memcpy. rewrite repeat_length.
    replace (n <=? Z.of_nat (Z.to_nat (NVEC_MAX_MSG_SZ h))) with false
      by (symmetry; apply Z.leb_gt; lia).
    rewrite andb_false_r. reflexivity.
Qed.

Lemma cmd_fill_layout_witness :
  exists m,
    cmd_fill nvec_h_32 0x05 0x03 (Some [0xA1; 0xB2; 0xC3]) 2 = Ok m /\
    firstn 5 (tx_raw m) = [0x04; 0x05; 0x03; 0xA1; 0xB2].
Proof.
  destruct (cmd_fill_layout nvec_h_32 0x05 0x03 2 [0xA1; 0xB2; 0xC3]) as [H _].
  - simpl. lia.
  - lia.
  - simpl. lia.
  - destruct H as (m & Hm & Hraw & _); [simpl; lia|].
    exists m. split; [exact Hm|]. rewrite Hraw. reflexivity.
Defined.

(** X5.  After a transfer with the success status and a receive buffer,
    [nvec_cmd_xfer] copies min(size - 2, rxpayloadmaxsize) payload bytes to
    the front of the buffer, leaves the rest of the buffer alone and returns
    that count; a size byte of 2 copies nothing and returns 0; a size byte
    below 2 makes the count negative, and the copy that follows runs past
    the buffer. *)
Theorem cmd_answer_truncates (m : nvec_cmd) (buf : list Z) (maxsize sz : Z) :
  rd (rx_raw m) 3 = Some NVEC_STATUS_SUCCESS ->
  rd (rx_raw m) 1 = Some sz ->
  (0 < Z.min (sz - 2) maxsize ->
   Z.min (sz - 2) maxsize <= Z.of_nat (length buf) ->
   Z.min (sz - 2) maxsize + 4 <= Z.of_nat (length (rx_raw m)) ->
   Z.min (sz - 2) maxsize < 4294967296 ->
   cmd_answer m (Some buf) maxsize
   = Ok (Z.min (sz - 2) maxsize,
         Some (firstn (Z.to_nat (Z.min (sz - 2) maxsize)) (skipn 4 (rx_raw m))
               ++ skipn (Z.to_nat (Z.min (sz - 2) maxsize)) buf))) /\
  (Z.min (sz - 2) maxsize = 0 -> cmd_answer m (Some buf) maxsize = Ok (0, Some buf)) /\
  (0 <= sz < 2 -> 0 <= maxsize -> Z.of_nat (length buf) < 4294967294 ->
   cmd_answer m (Some buf) maxsize = Fault).
Proof.
  intros Hst Hsz. unfold cmd_answer. rewrite Hst. simpl of_option. rewrite bind_Ok.
  change (negb (NVEC_STATUS_SUCCESS =? NVEC_STATUS_SUCCESS)) with false. cbv iota.
  rewrite Hsz. simpl of_option. rewrite bind_Ok. cbv zeta.
  assert (Hmin : (if sz - 2 >? maxsize then maxsize else sz - 2) = Z.min (sz - 2) maxsize).
  { destruct (Z.gtb_spec (sz - 2) maxsize); lia. }
  rewrite Hmin. split; [|split].
  - intros Hpos Hbuf Hraw Hlt.
    destruct (Z.eqb_spec (Z.min (sz - 2) maxsize) 0); [lia|]. simpl negb. cbv iota.
    rewrite u32_small by lia.
    change (match rx_raw m with _ :: _ :: _ :: _ :: l2 => l2 | _ => [] end)
      with (skipn 4 (rx_raw m)).
    rewrite memcpy_ok; [reflexivity|lia|rewrite length_skipn; lia].
  - intros ->. reflexivity.
  - intros Hsmall Hmax Hbuf.
    assert (Hneg : Z.min (sz - 2) maxsize = sz - 2) by lia. rewrite Hneg.
    destruct (Z.eqb_spec (sz - 2) 0); [lia|]. simpl negb. cbv iota.
    unfold memcpy.
    replace (u32 (sz - 2) <=? Z.of_nat (length buf)) with false.
    + rewrite andb_false_r. reflexivity.
    + symmetry. apply Z.leb_gt. unfold u32.
      replace (sz - 2) with (sz - 2 + 4294967296 + (-1) * 4294967296) by lia.
      rewrite Z.mod_add by lia. rewrite Z.mod_small by lia. lia.
Qed.

Lemma cmd_answer_truncates_witness :
  cmd_answer {| tx_raw := []; rx_raw := [0x04; 0x06; 0x10; 0x00; 2; 0; 5; 0]; done := 0 |}
    (Some [9; 9; 9]) 3
  = Ok (3, Some [2; 0; 5]).
Proof.
  apply (cmd_answer_truncates
           {| tx_raw := []; rx_raw := [0x04; 0x06; 0x10; 0x00; 2; 0; 5; 0]; done := 0 |}
           [9; 9; 9] 3 0x06); try reflexivity; simpl; lia.
Defined.

(** ** Invariants of the interrupt handler *)

Lemma land_sub (a m b : Z) : Z.land m b = b -> Z.land a m = 0 -> Z.land a b = 0.
Proof.
  intros Hm Ha. rewrite <- Hm, Z.land_assoc, Ha. apply Z.land_0_l.
Qed.

Lemma not_status (status k bit : Z) :
  Z.land status bit <> 0 -> Z.land k bit = 0 -> (status =? k) = false.
Proof.
  intros Hs Hk. apply Z.eqb_neq. intros ->. contradiction.
Qed.

(** X6.  Every interrupt whose status carries [I2C_SL_IRQ] and [END_TRANS]
    leaves the machine in state 0, whatever the state before and whatever
    the other flags are, and no byte is written to the bus. *)
Theorem stop_returns_to_state0 (h : nvec_h) (c c' : nvec_chip) (status rcvd : Z)
    (out : option Z) :
  Z.land status I2C_SL_IRQ <> 0 ->
  Z.land status END_TRANS <> 0 ->
  i2c_interrupt h c status rcvd = Ok (c', out) ->
  smbus_state c' = 0 /\ out = None.
Proof.
  intros Hirq Hend. unfold i2c_interrupt.
  assert (H30 : (Z.land status (Z.lor (Z.lor (Z.lor I2C_SL_IRQ END_TRANS) RCVD) RNW) =? 0)
                = false).
  { apply Z.eqb_neq. intros E. apply Hirq. eapply land_sub; [|exact E]. reflexivity. }
  rewrite H30. simpl andb. cbv iota.
  destruct (Z.eqb_spec (Z.land status I2C_SL_IRQ) 0); [contradiction|].
  assert (Hout : (Z.land status (Z.lor RNW END_TRANS) =? RNW) = false).
  { apply Z.eqb_neq. intros E. apply Hend.
    replace (Z.land status END_TRANS)
      with (Z.land (Z.land status (Z.lor RNW END_TRANS)) END_TRANS)
      by (rewrite <- Z.land_assoc; reflexivity).
    rewrite E. reflexivity. }
  rewrite Hout.
  assert (N12 : (status =? Z.lor I2C_SL_IRQ RCVD) = false)
    by (apply (not_status _ _ END_TRANS); auto).
  assert (N8 : (status =? I2C_SL_IRQ) = false)
    by (apply (not_status _ _ END_TRANS); auto).
  assert (N14 : (status =? Z.lor (Z.lor I2C_SL_IRQ RNW) RCVD) = false)
    by (apply (not_status _ _ END_TRANS); auto).
  assert (N10 : (status =? Z.lor I2C_SL_IRQ RNW) = false)
    by (apply (not_status _ _ END_TRANS); auto).
  intros H. inv_bind H. destruct a as [c1 b]. inversion H; subst; clear H.
  split; [|reflexivity].
  destruct (Z.eqb_spec (smbus_state c) 0) as [E0|].
  { inversion E; subst. unfold smbus_state0. rewrite N12. exact E0. }
  destruct (smbus_state c =? 1).
  { inv_bind E. inversion E; subst. unfold smbus_state1 in E0. rewrite N8 in E0.
    inversion E0; subst. reflexivity. }
  destruct (smbus_state c =? 2).
  { unfold smbus_state2 in E. rewrite N14, N8 in E. inversion E; subst. reflexivity. }
  destruct (smbus_state c =? 3).
  { unfold smbus_state3 in E. rewrite N10 in E.
    destruct (status =? Z.lor (Z.lor I2C_SL_IRQ RNW) END_TRANS);
      inversion E; subst; reflexivity. }
  destruct (smbus_state c =? 4).
  { inv_bind E. inversion E; subst. unfold smbus_state4 in E0. rewrite N8 in E0.
    destruct (status =? Z.lor I2C_SL_IRQ END_TRANS).
    - inv_bind E0. inv_bind E0. inversion E0; subst. reflexivity.
    - inversion E0; subst. reflexivity. }
  inversion E; subst. reflexivity.
Qed.

Lemma stop_returns_to_state0_witness :
  exists c',
    i2c_interrupt nvec_h_32 (set_smbus_state (nvec_init nvec_h_32 EC_ADDR) 2)
      (Z.lor (Z.lor I2C_SL_IRQ END_TRANS) RCVD) 0 = Ok (c', None) /\
    smbus_state c' = 0.
Proof.
  let v := eval vm_compute in
    (i2c_interrupt nvec_h_32 (set_smbus_state (nvec_init nvec_h_32 EC_ADDR) 2)
       (Z.lor (Z.lor I2C_SL_IRQ END_TRANS) RCVD) 0) in
  match v with Ok (?x, _) => pose (c' := x) end.
  assert (H : i2c_interrupt nvec_h_32 (set_smbus_state (nvec_init nvec_h_32 EC_ADDR) 2)
                (Z.lor (Z.lor I2C_SL_IRQ END_TRANS) RCVD) 0 = Ok (c', None))
    by (vm_compute; reflexivity).
  exists c'. split; [exact H|].
  apply (stop_returns_to_state0 _ _ _ _ _ _) in H; [apply H| |]; vm_compute; discriminate.
Defined.

Lemma u8_byte (x : Z) : is_byte (u8 x).
Proof. unfold is_byte, u8. apply Z.mod_pos_bound. reflexivity. Qed.

Lemma upd_Forall (P : Z -> Prop) (a : list Z) (n : nat) (v : Z) :
  Forall P a -> P v -> Forall P (upd a n v).
Proof.
  intros Ha Hv. revert n. induction Ha as [|x a Hx Ha IH]; intros [|n]; simpl; auto.
Qed.

Lemma wr_keeps (a r : list Z) (i v : Z) :
  wr a i v = Some r -> is_byte v -> Forall is_byte a ->
  length r = length a /\ Forall is_byte r.
Proof.
  unfold wr. destruct (_ && _); [|discriminate].
  intros H Hv Ha. inversion H; subst.
  split; [apply upd_length|apply upd_Forall; assumption].
Qed.

Lemma scratch_rx_ok_wr (h : nvec_h) (c c' : nvec_chip) (r : list Z) (i v : Z) :
  scratch_rx_ok h c -> wr (rx_raw (cmd_scratch c)) i (u8 v) = Some r ->
  rx_raw (cmd_scratch c') = r -> scratch_rx_ok h c'.
Proof.
  intros [Hl Hb] Hw E. destruct (wr_keeps _ _ _ _ Hw (u8_byte v) Hb) as [L B].
  unfold scratch_rx_ok. rewrite E, L. auto.
Qed.

Lemma scratch_rx_ok_same (h : nvec_h) (c c' : nvec_chip) :
  scratch_rx_ok h c -> rx_raw (cmd_scratch c') = rx_raw (cmd_scratch c) ->
  scratch_rx_ok h c'.
Proof. unfold scratch_rx_ok. intros H E. rewrite E. exact H. Qed.

Lemma send_next_byte_scratch (c c' : nvec_chip) (b b' : Z) :
  send_next_byte c b = Ok (c', b') -> cmd_scratch c' = cmd_scratch c.
Proof.
  unfold send_next_byte. intros H.
  destruct (tx c); [destruct (_ <? _)|].
  - inv_bind H. inv_bind H. inversion H; subst. reflexivity.
  - inversion H; subst. reflexivity.
  - inversion H; subst. reflexivity.
Qed.

Lemma pick_tx_msg_rx (h : nvec_h) (c c' : nvec_chip) :
  pick_tx_msg h c = Ok c' -> rx_raw (cmd_scratch c') = rx_raw (cmd_scratch c).
Proof.
  unfold pick_tx_msg. intros H.
  destruct (tx c); [inversion H; subst; reflexivity|].
  inv_bind H. destruct a as [c1 msg]. inv_bind H. inv_bind H.
  inversion H; subst; clear H. simpl.
  destruct (_ =? _).
  - inv_bind E. inv_bind E. inv_bind E. inversion E; subst. reflexivity.
  - inv_bind E. inversion E; subst. reflexivity.
Qed.

Lemma smbus_state3_rx (c c' : nvec_chip) (status b b' : Z) :
  smbus_state3 c status b = Ok (c', b') ->
  rx_raw (cmd_scratch c') = rx_raw (cmd_scratch c).
Proof.
  unfold smbus_state3. intros H.
  destruct (status =? Z.lor I2C_SL_IRQ RNW).
  - apply send_next_byte_scratch in H. congruence.
  - destruct (status =? Z.lor (Z.lor I2C_SL_IRQ RNW) END_TRANS);
      [|inversion H; subst; reflexivity].
    inversion H; subst; clear H. simpl.
    destruct (tx c) as [p|]; [|reflexivity].
    destruct (_ >=? _); [|reflexivity].
    destruct (negb (msgptr_eqb p Scratch)); reflexivity.
Qed.

Lemma rx_event_scratch (h : nvec_h) (c c' : nvec_chip) :
  rx_event h c = Ok c' -> cmd_scratch c' = cmd_scratch c.
Proof.
  unfold rx_event, nvec_alloc_ev_msg. intros H.
  destruct (scan_test_and_set 8 0 (ev_allocd c)) as [[i w]|].
  - simpl in H. inv_bind H. destruct a as [c1 slot]. inv_bind E.
    inversion E; subst; clear E.
    inv_bind H. inv_bind H. inversion H; subst. reflexivity.
  - simpl in H. inversion H; subst. reflexivity.
Qed.

Lemma memcpy_keeps (dst src d : list Z) (n : Z) :
  memcpy dst src n = Some d -> Forall is_byte dst -> Forall is_byte src ->
  length d = length dst /\ Forall is_byte d.
Proof.
  intros H Hd Hs. split; [apply (memcpy_some _ _ _ _ H)|].
  unfold memcpy in H. destruct (_ && _); [|discriminate]. inversion H; subst.
  rewrite <- (firstn_skipn (Z.to_nat n) src) in Hs.
  rewrite <- (firstn_skipn (Z.to_nat n) dst) in Hd.
  apply Forall_app in Hs, Hd. apply Forall_app. split; [apply Hs|apply Hd].
Qed.

Lemma rx_response_scratch_ok (h : nvec_h) (c c' : nvec_chip) :
  scratch_rx_ok h c -> rx_response c = Ok c' -> scratch_rx_ok h c'.
Proof.
  intros Hok H. unfold rx_response in H.
  destruct (cmd_torcv c) as [|p0 l0]; [inversion H; subst; exact Hok|].
  bind_inv H as cmd Ecmd. bind_inv H as found Efound. destruct found as [rxmsg|];
    [|inversion H; subst; exact Hok].
  bind_inv H as m Em. bind_inv H as sz Esz. bind_inv H as r Er.
  unfold complete in H. bind_inv H as m' Em'. inversion H; subst; clear H.
  destruct rxmsg as [|a].
  - simpl in Em. inversion Em; subst m. simpl in Em'. inversion Em'; subst m'.
    simpl in Er. destruct Hok as [Hl Hb].
    destruct (memcpy_keeps _ _ _ _ Er Hb Hb) as [L B].
    unfold scratch_rx_ok. simpl. rewrite L. auto.
  - apply (scratch_rx_ok_same h c); [exact Hok|reflexivity].
Qed.

Lemma smbus_state4_scratch_ok (h : nvec_h) (c c' : nvec_chip) (status received : Z) :
  scratch_rx_ok h c -> smbus_state4 h c status received = Ok c' -> scratch_rx_ok h c'.
Proof.
  intros Hok H. unfold smbus_state4 in H.
  destruct (status =? I2C_SL_IRQ).
  - inv_bind H. destruct (_ || _).
    + inversion H; subst. exact Hok.
    + inv_bind H. inversion H; subst. eapply scratch_rx_ok_wr; eauto.
  - destruct (status =? Z.lor I2C_SL_IRQ END_TRANS).
    + inv_bind H. inv_bind H. inversion H; subst; clear H.
      apply (scratch_rx_ok_same h a0); [|reflexivity].
      destruct (_ =? _).
      * apply rx_event_scratch in E0.
        apply (scratch_rx_ok_same h c); [exact Hok|congruence].
      * eapply rx_response_scratch_ok; eauto.
    + inversion H; subst. apply (scratch_rx_ok_same h c); [exact Hok|reflexivity].
Qed.

Lemma i2c_interrupt_scratch (h : nvec_h) (c c' : nvec_chip) (status rcvd : Z)
    (out : option Z) :
  scratch_rx_ok h c ->
  i2c_interrupt h c status rcvd = Ok (c', out) ->
  scratch_rx_ok h c'.
Proof.
  intros Hok. unfold i2c_interrupt. intros H.
  destruct (_ && _); [inversion H; subst; exact Hok|].
  destruct (_ =? 0); [inversion H; subst; exact Hok|].
  inv_bind H. destruct a as [c1 b]. inversion H; subst; clear H.
  destruct (smbus_state c =? 0).
  { inversion E; subst. apply (scratch_rx_ok_same h c); [exact Hok|].
    unfold smbus_state0. destruct (status =? _); [destruct (negb _)|]; reflexivity. }
  destruct (smbus_state c =? 1).
  { inv_bind E. inversion E; subst. unfold smbus_state1 in E0. destruct (negb _).
    - inversion E0; subst. apply (scratch_rx_ok_same h c); [exact Hok|reflexivity].
    - inv_bind E0. inversion E0; subst. eapply scratch_rx_ok_wr; eauto. }
  destruct (smbus_state c =? 2).
  { unfold smbus_state2 in E.
    destruct (status =? Z.lor (Z.lor I2C_SL_IRQ RNW) RCVD).
    - inv_bind E. destruct (negb _).
      + inversion E; subst. apply (scratch_rx_ok_same h c); [exact Hok|reflexivity].
      + inv_bind E. inv_bind E. destruct a1 as [c2 b2]. inversion E; subst; clear E.
        apply send_next_byte_scratch in E2. apply pick_tx_msg_rx in E1.
        apply (scratch_rx_ok_same h c); [exact Hok|]. simpl. rewrite E2, E1. reflexivity.
    - destruct (status =? I2C_SL_IRQ).
      + inv_bind E. inversion E; subst. eapply scratch_rx_ok_wr; eauto.
      + inversion E; subst. apply (scratch_rx_ok_same h c); [exact Hok|reflexivity]. }
  destruct (smbus_state c =? 3).
  { apply smbus_state3_rx in E. apply (scratch_rx_ok_same h c); assumption. }
  destruct (smbus_state c =? 4).
  { inv_bind E. inversion E; subst. eapply smbus_state4_scratch_ok; eauto. }
  inversion E; subst. apply (scratch_rx_ok_same h c); [exact Hok|reflexivity].
Qed.

Lemma sint32_small (n : Z) : -2147483648 <= n < 2147483648 -> sint32 n = n.
Proof. intros Hn. unfold sint32. rewrite Z.mod_small; lia. Qed.

Lemma u32_below (n b : Z) :
  -2147483648 <= n < 2147483648 -> b <= 2147483648 -> u32 n < b -> 0 <= n < b.
Proof.
  unfold u32. intros Hn Hb H.
  destruct (Z_lt_le_dec n 0) as [Hneg|Hpos].
  - replace n with (n + 4294967296 + (-1) * 4294967296) in H by lia.
    rewrite Z.mod_add in H by lia. rewrite Z.mod_small in H; lia.
  - rewrite Z.mod_small in H; lia.
Qed.

(** X8.  A data byte of a write transaction (state 4, status I2C_SL_IRQ) is
    either dropped, the chip left as it was, or stored at [rx_pos], which
    then lies inside the scratch receive array, with [rx_pos] advanced by
    one: as long as [rx_pos] is a value of its type [int], the store never
    leaves the array, whatever the size byte of the packet says. *)
Theorem state4_data_byte_in_bounds (h : nvec_h) (c : nvec_chip) (b : Z) :
  smbus_state c = 4 ->
  scratch_rx_ok h c ->
  0 <= NVEC_MAX_MSG_SZ h -> NVEC_MAX_MSG_SZ h + 4 < 2147483648 ->
  -2147483648 <= rx_pos c < 2147483648 ->
  exists c',
    i2c_interrupt h c I2C_SL_IRQ b = Ok (c', None) /\
    (c' = c \/
     0 <= rx_pos c < NVEC_MAX_MSG_SZ h + 4 /\
     c' = set_rx_pos
            (set_cmd_scratch c
               (set_rx_raw (cmd_scratch c)
                  (upd (rx_raw (cmd_scratch c)) (Z.to_nat (rx_pos c)) (u8 b))))
            (rx_pos c + 1)).
Proof.
  intros Hs [Hl Hb] H0 Hmax Hpos.
  rewrite i2c_interrupt_state4_data by exact Hs.
  unfold smbus_state4. rewrite Z.eqb_refl.
  rewrite (rd_ok _ 1) by lia. simpl of_option. rewrite bind_Ok. cbv beta iota.
  destruct (_ || _) eqn:E.
  - eexists. split; [reflexivity|]. left. reflexivity.
  - apply orb_false_elim in E. destruct E as [E _].
    rewrite Z.geb_leb in E. apply Z.leb_gt in E.
    apply u32_below in E; [|exact Hpos|lia].
    rewrite wr_ok by lia. simpl of_option. rewrite bind_Ok. cbv beta iota.
    change (rx_pos (set_cmd_scratch c _)) with (rx_pos c).
    rewrite sint32_small by lia. rewrite bind_Ok. cbv beta iota.
    eexists. split; [reflexivity|]. right. split; [exact E|reflexivity].
Qed.

Lemma state4_data_byte_in_bounds_witness :
  exists c',
    i2c_interrupt nvec_h_32
      (receiving (nvec_init nvec_h_32 EC_ADDR)
         (0x05 :: 0xFF :: repeat 0 34) 35 4) I2C_SL_IRQ 0x77 = Ok (c', None) /\
    rx_pos c' = 36 /\ rd (rx_raw (cmd_scratch c')) 35 = Some 0x77.
Proof.
  destruct (state4_data_byte_in_bounds nvec_h_32
              (receiving (nvec_init nvec_h_32 EC_ADDR)
                 (0x05 :: 0xFF :: repeat 0 34) 35 4) 0x77)
    as [c' [H [D|[_ D]]]].
  - reflexivity.
  - split; [reflexivity|]. simpl. repeat constructor; unfold is_byte; lia.
  - simpl; lia.
  - simpl; lia.
  - simpl; lia.
  - exfalso. rewrite D in H. vm_compute in H. discriminate H.
  - exists c'. split; [exact H|]. rewrite D. split; reflexivity.
Defined.

(** ** Responses *)

Lemma of_option_Some {A : Type} (a : A) : of_option (Some a) = Ok a.
Proof. reflexivity. Qed.

Lemma find_torcv_none (c : nvec_chip) (cmd : Z) (l : list msgptr) :
  no_match c cmd l -> find_torcv c l cmd = Ok None.
Proof.
  induction 1 as [|p l (m & mc & Hm & Hmc & Hne) _ IH]; simpl; [reflexivity|].
  rewrite Hm. rewrite of_option_Some, bind_Ok.
  rewrite Hmc. rewrite of_option_Some, bind_Ok.
  apply Z.eqb_neq in Hne. rewrite Hne. exact IH.
Qed.

Lemma find_torcv_first (c : nvec_chip) (cmd : Z) (l1 l2 : list msgptr) (p : msgptr)
    (m : nvec_cmd) :
  no_match c cmd l1 -> get_msg c p = Some m -> rd (tx_raw m) 1 = Some cmd ->
  find_torcv c (l1 ++ p :: l2) cmd = Ok (Some p).
Proof.
  intros Hno Hp Hc.
  induction Hno as [|q l (m' & mc & Hm & Hmc & Hne) _ IH]; simpl.
  - rewrite Hp. rewrite of_option_Some, bind_Ok.
    rewrite Hc. rewrite of_option_Some, bind_Ok. rewrite Z.eqb_refl. reflexivity.
  - rewrite Hm. rewrite of_option_Some, bind_Ok.
    rewrite Hmc. rewrite of_option_Some, bind_Ok.
    apply Z.eqb_neq in Hne. rewrite Hne. exact IH.
Qed.

Lemma state4_stop_response (h : nvec_h) (c : nvec_chip) (cmd r : Z) :
  smbus_state c = 4 ->
  rd (rx_raw (cmd_scratch c)) 0 = Some cmd ->
  Z.land cmd NVEC_COMMAND_0_PACKET_TYPE_MASK <> NVEC_COMMAND_0_PACKET_TYPE_EVENT ->
  i2c_interrupt h c (Z.lor I2C_SL_IRQ END_TRANS) r
  = bind (rx_response c) (fun c => Ok (set_smbus_state c 0, None)).
Proof.
  intros Hs Hcmd Hev.
  rewrite i2c_interrupt_state4_stop by assumption.
  unfold smbus_state4.
  change (Z.lor I2C_SL_IRQ END_TRANS =? I2C_SL_IRQ) with false.
  change (Z.lor I2C_SL_IRQ END_TRANS =? Z.lor I2C_SL_IRQ END_TRANS) with true.
  cbv iota. rewrite Hcmd. rewrite of_option_Some, bind_Ok.
  apply Z.eqb_neq in Hev. rewrite Hev.
  destruct (rx_response c); reflexivity.
Qed.

Lemma rx_response_match (c : nvec_chip) (cmd sz : Z) (a : nat) (m : nvec_cmd)
    (l1 l2 : list msgptr) :
  rd (rx_raw (cmd_scratch c)) 0 = Some cmd ->
  rd (rx_raw (cmd_scratch c)) 1 = Some sz ->
  cmd_torcv c = l1 ++ Req a :: l2 ->
  no_match c cmd l1 ->
  nth_error (msgs c) a = Some m ->
  rd (tx_raw m) 1 = Some cmd ->
  rx_response c
  = bind (of_option (memcpy (rx_raw m) (rx_raw (cmd_scratch c)) (2 + sz)))
      (fun r =>
         complete (free_tag (put_msg (list_del_init c (Req a)) (Req a) (set_rx_raw m r)) cmd)
           (Req a)).
Proof.
  intros Hcmd Hsz Hl Hno Hm Hmc. unfold rx_response.
  destruct (cmd_torcv c) as [|p0 l0] eqn:Hq.
  { apply app_cons_not_nil in Hl. contradiction. }
  rewrite <- Hq in *. clear Hq.
  rewrite Hcmd. rewrite of_option_Some, bind_Ok.
  rewrite Hl, (find_torcv_first c cmd l1 l2 (Req a) m Hno Hm Hmc), bind_Ok.
  cbv beta iota zeta.
  change (get_msg (list_del_init c (Req a)) (Req a)) with (nth_error (msgs c) a).
  rewrite Hm. rewrite of_option_Some, bind_Ok.
  change (cmd_scratch (list_del_init c (Req a))) with (cmd_scratch c).
  rewrite Hsz. rewrite of_option_Some, bind_Ok. reflexivity.
Qed.

(** X9.  A response packet that no request on [cmd_torcv] waits for (the
    queue is empty, or no queued request has the packet's command byte as
    its [tx.cmd]) is discarded: the handler goes back to state 0 and changes
    nothing else. *)
Theorem unsolicited_response_discarded (h : nvec_h) (c : nvec_chip) (cmd r : Z) :
  smbus_state c = 4 ->
  rd (rx_raw (cmd_scratch c)) 0 = Some cmd ->
  Z.land cmd NVEC_COMMAND_0_PACKET_TYPE_MASK <> NVEC_COMMAND_0_PACKET_TYPE_EVENT ->
  no_match c cmd (cmd_torcv c) ->
  i2c_interrupt h c (Z.lor I2C_SL_IRQ END_TRANS) r = Ok (set_smbus_state c 0, None).
Proof.
  intros Hs Hcmd Hev Hno.
  rewrite (state4_stop_response h c cmd r Hs Hcmd Hev).
  unfold rx_response. destruct (cmd_torcv c) as [|p0 l0] eqn:Hq; [reflexivity|].
  rewrite Hcmd. rewrite of_option_Some, bind_Ok.
  rewrite find_torcv_none by exact Hno. reflexivity.
Qed.

Lemma unsolicited_response_discarded_witness :
  i2c_interrupt nvec_h_32
    (receiving (awaiting nvec_h_32 0x14) (0x24 :: 0x02 :: repeat 0 34) 4 4)
    (Z.lor I2C_SL_IRQ END_TRANS) 0
  = Ok (set_smbus_state
          (receiving (awaiting nvec_h_32 0x14) (0x24 :: 0x02 :: repeat 0 34) 4 4) 0, None).
Proof.
  apply (unsolicited_response_discarded nvec_h_32 _ 0x24 0).
  - reflexivity.
  - reflexivity.
  - discriminate.
  - constructor; [|constructor].
    eexists; exists 0x14. split; [reflexivity|]. split; [reflexivity|discriminate].
Defined.

(** X10.  A response whose command byte equals [tx.cmd] of a request on
    [cmd_torcv] goes to the first such request: the request leaves the
    queue, the first 2 + size bytes of the scratch packet are copied over
    the start of its [rx.raw], the tag in the command byte is released with
    a wake-up of the waiters of that command, and its completion is
    signalled once; the handler ends in state 0. *)
Theorem response_delivered (h : nvec_h) (c : nvec_chip) (r cmd sz : Z) (a : nat)
    (m : nvec_cmd) (l1 l2 : list msgptr) :
  smbus_state c = 4 ->
  rd (rx_raw (cmd_scratch c)) 0 = Some cmd ->
  rd (rx_raw (cmd_scratch c)) 1 = Some sz ->
  Z.land cmd NVEC_COMMAND_0_PACKET_TYPE_MASK <> NVEC_COMMAND_0_PACKET_TYPE_EVENT ->
  cmd_torcv c = l1 ++ Req a :: l2 ->
  no_match c cmd l1 ->
  nth_error (msgs c) a = Some m ->
  rd (tx_raw m) 1 = Some cmd ->
  0 <= sz ->
  2 + sz <= Z.of_nat (length (rx_raw m)) ->
  2 + sz <= Z.of_nat (length (rx_raw (cmd_scratch c))) ->
  exists c',
    i2c_interrupt h c (Z.lor I2C_SL_IRQ END_TRANS) r = Ok (c', None) /\
    smbus_state c' = 0 /\
    cmd_torcv c' = unlink (Req a) (cmd_torcv c) /\
    nth_error (msgs c') a
    = Some {| tx_raw := tx_raw m;
              rx_raw := firstn (Z.to_nat (2 + sz)) (rx_raw (cmd_scratch c))
                        ++ skipn (Z.to_nat (2 + sz)) (rx_raw m);
              done := done m + 1 |} /\
    cmd_tagmap c' = nvec_free_tag (cmd_tagmap c) cmd /\
    cmd_scratch c' = cmd_scratch c /\
    trace c'
    = trace c ++ [WakeUp (Z.land cmd NVEC_COMMAND_0_CMD_TYPE_MASK); Complete (Req a)].
Proof.
  intros Hs Hcmd Hsz Hev Hl Hno Hm Hmc H0 Hdst Hsrc.
  rewrite (state4_stop_response h c cmd r Hs Hcmd Hev).
  rewrite (rx_response_match c cmd sz a m l1 l2 Hcmd Hsz Hl Hno Hm Hmc).
  rewrite memcpy_ok by lia. rewrite of_option_Some, bind_Ok.
  set (rr := firstn _ _ ++ skipn _ _).
  unfold complete.
  assert (Hg : get_msg (free_tag (put_msg (list_del_init c (Req a)) (Req a) (set_rx_raw m rr)) cmd)
                 (Req a) = Some (set_rx_raw m rr)).
  { simpl. rewrite nth_error_upd_msg, Nat.eqb_refl, Hm. reflexivity. }
  rewrite Hg. rewrite of_option_Some, !bind_Ok.
  eexists. split; [reflexivity|].
  split; [reflexivity|]. split; [reflexivity|].
  split; [|split; [reflexivity|split; [reflexivity|]]].
  - simpl. rewrite !nth_error_upd_msg, Nat.eqb_refl, Hm. reflexivity.
  - simpl. rewrite <- app_assoc. reflexivity.
Qed.

Lemma response_delivered_witness :
  exists c',
    i2c_interrupt nvec_h_32
      (receiving (awaiting nvec_h_32 0x14) (0x14 :: 0x02 :: 0x55 :: 0x00 :: repeat 0 32) 4 4)
      (Z.lor I2C_SL_IRQ END_TRANS) 0 = Ok (c', None) /\
    cmd_torcv c' = [] /\
    option_map (fun m => (firstn 4 (rx_raw m), done m)) (nth_error (msgs c') 0)
    = Some ([0x14; 0x02; 0x55; 0x00], 1).
Proof.
  destruct (response_delivered nvec_h_32
              (receiving (awaiting nvec_h_32 0x14)
                 (0x14 :: 0x02 :: 0x55 :: 0x00 :: repeat 0 32) 4 4)
              0 0x14 0x02 0
              {| tx_raw := 2 :: 0x14 :: repeat 0 33; rx_raw := repeat 0 36; done := 0 |}
              [] [])
    as (c' & H & _ & Hq & Hm & _).
  - reflexivity.
  - reflexivity.
  - reflexivity.
  - discriminate.
  - reflexivity.
  - constructor.
  - reflexivity.
  - reflexivity.
  - lia.
  - simpl; lia.
  - simpl; lia.
  - exists c'. split; [exact H|]. split; [rewrite Hq; reflexivity|].
    rewrite Hm. reflexivity.
Defined.

Lemma memcpy_overrun (dst src : list Z) (n : Z) :
  Z.of_nat (length dst) < n \/ Z.of_nat (length src) < n -> memcpy dst src n = None.
Proof.
  intros H. unfold memcpy.
  destruct (0 <=? n); [|reflexivity]. simpl.
  destruct (Z.leb_spec n (Z.of_nat (length dst))); [|reflexivity].
  destruct (Z.leb_spec n (Z.of_nat (length src))); [|reflexivity].
  lia.
Qed.

(** X11.  The length of the copy into the request's [rx.raw] is 2 + the size
    byte of the packet and is compared with nothing: when the size byte
    claims more than the arrays hold, the [memcpy] of a matching response
    runs past the end of [rx.raw]. *)
Theorem response_copy_overruns (h : nvec_h) (c : nvec_chip) (r cmd sz : Z) (a : nat)
    (m : nvec_cmd) (l1 l2 : list msgptr) :
  smbus_state c = 4 ->
  rd (rx_raw (cmd_scratch c)) 0 = Some cmd ->
  rd (rx_raw (cmd_scratch c)) 1 = Some sz ->
  Z.land cmd NVEC_COMMAND_0_PACKET_TYPE_MASK <> NVEC_COMMAND_0_PACKET_TYPE_EVENT ->
  cmd_torcv c = l1 ++ Req a :: l2 ->
  no_match c cmd l1 ->
  nth_error (msgs c) a = Some m ->
  rd (tx_raw m) 1 = Some cmd ->
  Z.of_nat (length (rx_raw m)) < 2 + sz ->
  i2c_interrupt h c (Z.lor I2C_SL_IRQ END_TRANS) r = Fault.
Proof.
  intros Hs Hcmd Hsz Hev Hl Hno Hm Hmc Hover.
  rewrite (state4_stop_response h c cmd r Hs Hcmd Hev).
  rewrite (rx_response_match c cmd sz a m l1 l2 Hcmd Hsz Hl Hno Hm Hmc).
  rewrite memcpy_overrun by (left; exact Hover). reflexivity.
Qed.

Lemma response_copy_overruns_witness :
  i2c_interrupt nvec_h_32
    (receiving (awaiting nvec_h_32 0x14) (0x14 :: 0x23 :: repeat 0 34) 36 4)
    (Z.lor I2C_SL_IRQ END_TRANS) 0 = Fault.
Proof.
  apply (response_copy_overruns nvec_h_32 _ 0 0x14 0x23 0
           {| tx_raw := 2 :: 0x14 :: repeat 0 33; rx_raw := repeat 0 36; done := 0 |}
           [] []).
  - reflexivity.
  - reflexivity.
  - reflexivity.
  - discriminate.
  - reflexivity.
  - constructor.
  - reflexivity.
  - reflexivity.
  - simpl; lia.
Defined.

(** ** The event worker *)

Lemma testbit_clear_bit (w i k : Z) :
  0 <= i -> 0 <= k -> Z.testbit (clear_bit i w) k = Z.testbit w k && negb (k =? i).
Proof.
  intros Hi Hk. change (clear_bit i w) with (Z.clearbit w i).
  rewrite Z.clearbit_eqb by assumption. rewrite (Z.eqb_sym k i). reflexivity.
Qed.

Lemma ev_dispatch_loop_drains (q : list Z) : forall (c : nvec_chip) calls0,
  ev_queue_ok (ev_pool c) q ->
  exists c' calls,
    ev_dispatch_loop q c calls0 = Ok (c', calls0 ++ calls) /\
    ev_toprocess c' = [] /\
    ev_pool c' = ev_pool c /\
    Forall2 (notified (ev_pool c)) q calls /\
    forall k, 0 <= k ->
      Z.testbit (ev_allocd c') k = Z.testbit (ev_allocd c) k && negb (existsb (Z.eqb k) q).
Proof.
  induction q as [|i q IH]; intros c calls0 Hq.
  - exists (set_ev_toprocess c []), []. simpl. rewrite app_nil_r.
    split; [reflexivity|]. split; [reflexivity|]. split; [reflexivity|].
    split; [constructor|]. intros k _. symmetry. apply andb_true_r.
  - inversion Hq as [|i' q' (Hi & e & He & Hid) Hq']; subst i' q'.
    simpl. rewrite He, of_option_Some, bind_Ok.
    destruct (IH (nvec_free_ev_msg (set_ev_toprocess c q) e)
                 (calls0 ++ [(Z.land (ev e) NVEC_COMMAND_0_EVENT_TYPE_MASK, e)]) Hq')
      as (c' & calls & Hrun & Hempty & Hpool & Hcalls & Hbits).
    exists c', ((Z.land (ev e) NVEC_COMMAND_0_EVENT_TYPE_MASK, e) :: calls).
    rewrite Hrun, <- app_assoc.
    split; [reflexivity|]. split; [exact Hempty|]. split; [exact Hpool|].
    split; [constructor; [split; [exact He|reflexivity]|exact Hcalls]|].
    intros k Hk. rewrite Hbits by exact Hk.
    change (ev_allocd (nvec_free_ev_msg (set_ev_toprocess c q) e))
      with (clear_bit (ev_id e) (ev_allocd c)).
    rewrite Hid, testbit_clear_bit by assumption.
    rewrite negb_orb, andb_assoc. reflexivity.
Qed.

(** X12.  The worker empties [ev_toprocess]: it calls the notifier chain
    once for each queued record, in queue order, with the event type
    [ev & 0x0F] and the record, and gives each record's slot back to the
    pool; the slots of records that were not queued stay as they were. *)
Theorem nvec_ev_dispatch_drains (c : nvec_chip) :
  ev_queue_ok (ev_pool c) (ev_toprocess c) ->
  exists c' calls,
    nvec_ev_dispatch c = Ok (c', calls) /\
    ev_toprocess c' = [] /\
    Forall2 (notified (ev_pool c)) (ev_toprocess c) calls /\
    forall k, 0 <= k ->
      Z.testbit (ev_allocd c') k
      = Z.testbit (ev_allocd c) k && negb (existsb (Z.eqb k) (ev_toprocess c)).
Proof.
  intros Hq.
  destruct (ev_dispatch_loop_drains (ev_toprocess c) c [] Hq)
    as (c' & calls & Hrun & Hempty & _ & Hcalls & Hbits).
  exists c', calls. split; [exact Hrun|]. split; [exact Hempty|]. split; assumption.
Qed.

Lemma nvec_ev_dispatch_drains_witness :
  exists c' calls,
    nvec_ev_dispatch
      (set_ev_toprocess
         (set_ev_allocd
            (set_ev_pool (nvec_init nvec_h_32 EC_ADDR)
               ({| ev_id := 0; ev := 0x05; ev_status := 0; ev_size := 0; ev_data := repeat 0 32 |}
                :: {| ev_id := 1; ev := 0x01; ev_status := 0; ev_size := 0;
                      ev_data := repeat 0 32 |}
                :: repeat (nvec_event_zero nvec_h_32) 6))
            0x07)
         [1; 0])
    = Ok (c', calls) /\
    map fst calls = [0x01; 0x05] /\ ev_allocd c' = 0x04.
Proof.
  destruct (nvec_ev_dispatch_drains
              (set_ev_toprocess
                 (set_ev_allocd
                    (set_ev_pool (nvec_init nvec_h_32 EC_ADDR)
                       ({| ev_id := 0; ev := 0x05; ev_status := 0; ev_size := 0;
                           ev_data := repeat 0 32 |}
                        :: {| ev_id := 1; ev := 0x01; ev_status := 0; ev_size := 0;
                              ev_data := repeat 0 32 |}
                        :: repeat (nvec_event_zero nvec_h_32) 6))
                    0x07)
                 [1; 0]))
    as (c' & calls & H & _).
  - constructor; [split; [lia|eexists; split; reflexivity]|].
    constructor; [split; [lia|eexists; split; reflexivity]|]. constructor.
  - exists c', calls. split; [exact H|].
    vm_compute in H. inversion H; subst c' calls. split; reflexivity.
Defined.

Lemma fill_event_header (h : nvec_h) (e0 e : nvec_event) (raw : list Z) (cmd : Z) :
  fill_event h e0 raw = Some e -> rd raw 0 = Some cmd ->
  ev e = Z.land cmd NVEC_COMMAND_0_EVENT_TYPE_MASK /\ ev_id e = ev_id e0.
Proof.
  unfold fill_event, decode_event. intros H Hcmd. rewrite Hcmd in H.
  destruct (if Z.land cmd NVEC_COMMAND_0_EVENT_LENGTH_MASK =? _ then _ else _)
    as [[pos len]|]; [|discriminate].
  destruct (negb _).
  - destruct (rd raw pos); [|discriminate].
    destruct (memcpy _ _ _); [|discriminate]. inversion H; subst. split; reflexivity.
  - destruct (memcpy _ _ _); [|discriminate]. inversion H; subst. split; reflexivity.
Qed.

(** X13.  An event packet that ends while a slot of the pool is free and
    [ev_toprocess] is empty is handed to the worker: the handler queues one
    record and schedules the work, and the worker then calls the notifier
    chain once, with the low four bits of the packet's first byte as the
    event type, and leaves the pool occupancy as it was before the packet. *)
Theorem event_reaches_notifier (h : nvec_h) (c c1 : nvec_chip) (cmd r k : Z) :
  smbus_state c = 4 ->
  rd (rx_raw (cmd_scratch c)) 0 = Some cmd ->
  Z.land cmd NVEC_COMMAND_0_PACKET_TYPE_MASK = NVEC_COMMAND_0_PACKET_TYPE_EVENT ->
  ev_toprocess c = [] ->
  0 <= k < 8 -> Z.testbit (ev_allocd c) k = false ->
  i2c_interrupt h c (Z.lor I2C_SL_IRQ END_TRANS) r = Ok (c1, None) ->
  trace c1 = trace c ++ [ScheduleWork] /\
  exists c2 e,
    nvec_ev_dispatch c1 = Ok (c2, [(Z.land cmd NVEC_COMMAND_0_EVENT_TYPE_MASK, e)]) /\
    ev_toprocess c2 = [] /\
    ev_allocd c2 = ev_allocd c.
Proof.
  intros Hs Hcmd Hev Hempty Hk Hfree H.
  rewrite i2c_interrupt_state4_stop in H by assumption.
  unfold smbus_state4 in H.
  change (Z.lor I2C_SL_IRQ END_TRANS =? I2C_SL_IRQ) with false in H.
  change (Z.lor I2C_SL_IRQ END_TRANS =? Z.lor I2C_SL_IRQ END_TRANS) with true in H.
  cbv iota in H. rewrite Hcmd, of_option_Some, bind_Ok, Hev, Z.eqb_refl in H.
  bind_inv H as c0 E0. inversion H; subst c1; clear H.
  bind_inv E0 as c' E'. inversion E0; subst c0; clear E0.
  unfold rx_event, nvec_alloc_ev_msg in E'.
  destruct (scan_test_and_set 8 0 (ev_allocd c)) as [[i w']|] eqn:Hscan.
  2:{ assert (Z.testbit (ev_allocd c) k = true) by (apply (scan_none 8 0); auto; lia).
      congruence. }
  pose proof (scan_some _ _ _ _ _ (Z.le_refl 0) Hscan) as (Hi & Hclear & Ew).
  bind_inv E' as ci Eci. destruct ci as [ca slot].
  bind_inv Eci as e0 Ee0. inversion Eci; subst ca slot; clear Eci.
  bind_inv E' as e1 Ee1. bind_inv E' as e2 Ee2. inversion E'; subst c'; clear E'.
  simpl in Ee1. rewrite (nth_error_replace _ _ _ _ Ee0) in Ee1.
  inversion Ee1; subst e1; clear Ee1.
  change (cmd_scratch _) with (cmd_scratch c) in Ee2.
  destruct (fill_event_header _ _ _ _ _ Ee2 Hcmd) as [Hev2 Hid2]. simpl in Hid2.
  split; [reflexivity|].
  match goal with |- context [nvec_ev_dispatch ?x] => remember x as c1 eqn:Hc1 end.
  assert (Hq : ev_toprocess c1 = [i]) by (rewrite Hc1; simpl; rewrite Hempty; reflexivity).
  assert (Hp : nth_error (ev_pool c1) (Z.to_nat i) = Some e2).
  { rewrite Hc1. cbn [ev_pool set_smbus_state emit set_trace set_ev_toprocess set_ev_pool].
    eapply nth_error_replace. eapply nth_error_replace. exact Ee0. }
  assert (Ha : ev_allocd c1 = w') by (rewrite Hc1; reflexivity).
  clear Hc1.
  unfold nvec_ev_dispatch. rewrite Hq. unfold ev_dispatch_loop.
  rewrite Hp, of_option_Some, bind_Ok, Hev2.
  replace (Z.land (Z.land cmd NVEC_COMMAND_0_EVENT_TYPE_MASK) NVEC_COMMAND_0_EVENT_TYPE_MASK)
    with (Z.land cmd NVEC_COMMAND_0_EVENT_TYPE_MASK)
    by (rewrite <- Z.land_assoc; reflexivity).
  eexists. exists e2. split; [reflexivity|]. split; [reflexivity|].
  change (clear_bit (ev_id e2) (ev_allocd c1) = ev_allocd c).
  rewrite Hid2, Ha, Ew. apply clearbit_setbit; [lia|exact Hclear].
Qed.

Lemma event_reaches_notifier_witness :
  exists c1 c2 e,
    i2c_interrupt nvec_h_32
      (receiving (set_ev_allocd (nvec_init nvec_h_32 EC_ADDR) 0x05)
         (0x85 :: 0x1C :: repeat 0 34) 2 4)
      (Z.lor I2C_SL_IRQ END_TRANS) 0 = Ok (c1, None) /\
    nvec_ev_dispatch c1 = Ok (c2, [(0x05, e)]) /\
    ev_id e = 1 /\ ev_allocd c1 = 0x07 /\ ev_allocd c2 = 0x05.
Proof.
  let v := eval vm_compute in
    (i2c_interrupt nvec_h_32
       (receiving (set_ev_allocd (nvec_init nvec_h_32 EC_ADDR) 0x05)
          (0x85 :: 0x1C :: repeat 0 34) 2 4)
       (Z.lor I2C_SL_IRQ END_TRANS) 0) in
  match v with Ok (?x, _) => pose (c1 := x) end.
  assert (H : i2c_interrupt nvec_h_32
                (receiving (set_ev_allocd (nvec_init nvec_h_32 EC_ADDR) 0x05)
                   (0x85 :: 0x1C :: repeat 0 34) 2 4)
                (Z.lor I2C_SL_IRQ END_TRANS) 0 = Ok (c1, None)) by (vm_compute; reflexivity).
  destruct (event_reaches_notifier nvec_h_32
              (receiving (set_ev_allocd (nvec_init nvec_h_32 EC_ADDR) 0x05)
                 (0x85 :: 0x1C :: repeat 0 34) 2 4)
              c1 0x85 0 1 eq_refl eq_refl eq_refl eq_refl ltac:(lia) eq_refl H)
    as (_ & c2 & e & Hd & _ & Ha).
  exists c1, c2, e. split; [exact H|]. split; [exact Hd|].
  vm_compute in Hd. inversion Hd; subst c2 e. split; [reflexivity|]. split; reflexivity.
Defined.

(** ** A request read by the EC *)

Lemma unlink_head (p : msgptr) (l : list msgptr) : ~ In p l -> unlink p (p :: l) = l.
Proof.
  intros H. simpl. destruct (msgptr_eqb_spec p p); [|congruence]. apply unlink_notin. exact H.
Qed.

Lemma skipn_nth_cons (l : list Z) (n : nat) (d : Z) :
  (n < length l)%nat -> skipn n l = nth n l d :: skipn (S n) l.
Proof.
  revert n; induction l as [|x l IH]; intros [|n] H; simpl in *; try lia; [reflexivity|].
  apply IH. lia.
Qed.

Lemma bus_bytes_app (t u : list effect) : bus_bytes (t ++ u) = bus_bytes t ++ bus_bytes u.
Proof. apply flat_map_app. Qed.

Lemma bus_bytes_map (l : list Z) : bus_bytes (map WriteByte l) = l.
Proof. induction l as [|x l IH]; simpl; [reflexivity|]. f_equal. exact IH. Qed.

(** State 2, turn-around with the marker 0x01, no packet chosen and a depth
    counter other than 0: the head of [cmd_tosend] is chosen and its size
    byte is sent. *)
Lemma state2_pick_head (h : nvec_h) (c : nvec_chip) (r : Z) (p : msgptr) (rest : list msgptr)
    (m : nvec_cmd) (sz : Z) :
  smbus_state c = 2 -> rd (rx_raw (cmd_scratch c)) 0 = Some 0x01 ->
  tx c = None -> cmd_tosendcount c <> 0 -> cmd_tosend c = p :: rest ->
  get_msg c p = Some m -> rd (tx_raw m) 0 = Some sz -> 0 <= sz ->
  i2c_interrupt h c (Z.lor (Z.lor I2C_SL_IRQ RNW) RCVD) r
  = Ok (gpio_set_value
          (set_tx_pos
             (set_tx_size
                (set_tx_pos (set_tx (set_smbus_state (emit c (Udelay 33)) 3) (Some p)) 0)
                (sz + 1))
             1) 1,
        Some sz).
Proof.
  intros Hs Hmark Htx Hcnt Hq Hget Hsz H0.
  rewrite i2c_interrupt_state2_read by assumption.
  unfold smbus_state2.
  change (Z.lor (Z.lor I2C_SL_IRQ RNW) RCVD =? Z.lor (Z.lor I2C_SL_IRQ RNW) RCVD) with true.
  cbv iota zeta.
  change (rx_raw (cmd_scratch (emit c (Udelay 33)))) with (rx_raw (cmd_scratch c)).
  rewrite Hmark, of_option_Some, bind_Ok.
  change (negb (1 =? 1)) with false. cbv iota.
  set (c0 := set_smbus_state (emit c (Udelay 33)) 3).
  unfold pick_tx_msg.
  change (tx c0) with (tx c). rewrite Htx.
  change (cmd_tosendcount c0) with (cmd_tosendcount c).
  apply Z.eqb_neq in Hcnt. rewrite Hcnt.
  change (cmd_tosend c0) with (cmd_tosend c). rewrite Hq.
  change (hd_error (p :: rest)) with (Some p). rewrite of_option_Some, !bind_Ok.
  cbv beta iota.
  rewrite (get_msg_frame c c0) by reflexivity.
  rewrite Hget, of_option_Some, bind_Ok, Hsz, of_option_Some, !bind_Ok.
  unfold send_next_byte.
  set (c1 := set_tx_size (set_tx_pos (set_tx c0 (Some p)) 0) (sz + 1)).
  change (tx c1) with (Some p). change (tx_pos c1) with 0. change (tx_size c1) with (sz + 1).
  destruct (Z.ltb_spec 0 (sz + 1)); [|lia].
  rewrite (get_msg_frame c c1) by reflexivity.
  rewrite Hget, of_option_Some, bind_Ok, Hsz, of_option_Some, !bind_Ok. reflexivity.
Qed.

(** State 3, [I2C_SL_IRQ|RNW|END_TRANS] after the last byte of a request. *)
Lemma state3_request_sent (h : nvec_h) (c : nvec_chip) (r : Z) (a : nat) :
  smbus_state c = 3 -> tx c = Some (Req a) -> tx_size c <= tx_pos c ->
  i2c_interrupt h c (Z.lor (Z.lor I2C_SL_IRQ RNW) END_TRANS) r
  = Ok (set_smbus_state (set_tx (tx_msg_sent c (Req a)) None) 0, None).
Proof.
  intros Hs Htx Hpos.
  rewrite i2c_interrupt_state3_stop by assumption.
  unfold smbus_state3.
  change (Z.lor (Z.lor I2C_SL_IRQ RNW) END_TRANS =? Z.lor I2C_SL_IRQ RNW) with false.
  change (Z.lor (Z.lor I2C_SL_IRQ RNW) END_TRANS =? Z.lor (Z.lor I2C_SL_IRQ RNW) END_TRANS)
    with true.
  cbv iota. rewrite Htx.
  destruct (Z.geb_spec (tx_pos c) (tx_size c)); [|lia]. reflexivity.
Qed.

(** The bytes of the packet from the cursor on, read one by one. *)
Lemma state3_read_bytes (h : nvec_h) (c0 : nvec_chip) (p : msgptr) (m : nvec_cmd)
    (tail : list (Z * Z)) :
  smbus_state c0 = 3 -> tx c0 = Some p -> get_msg c0 p = Some m ->
  tx_size c0 <= Z.of_nat (length (tx_raw m)) -> tx_size c0 < 2147483648 ->
  forall (rs : list Z) (k : Z) (t : list effect),
    0 <= k -> k + Z.of_nat (length rs) <= tx_size c0 ->
    i2c_irqs h (reading c0 k t) (map (pair (Z.lor I2C_SL_IRQ RNW)) rs ++ tail)
    = i2c_irqs h
        (reading c0 (k + Z.of_nat (length rs))
           (t ++ map WriteByte (firstn (length rs) (skipn (Z.to_nat k) (tx_raw m)))))
        tail.
Proof.
  intros Hs Htx Hget Hlen Hmax.
  induction rs as [|r rs IH]; intros k t Hk Hend.
  - simpl. rewrite Z.add_0_r, app_nil_r. reflexivity.
  - cbn [map app]. rewrite i2c_irqs_cons.
    rewrite (state3_next_byte h (reading c0 k t) r p m (nth (Z.to_nat k) (tx_raw m) 0));
      [|exact Hs|exact Htx|simpl length in Hend; change (tx_pos (reading c0 k t)) with k;
                            change (tx_size (reading c0 k t)) with (tx_size c0); lia
       |rewrite (get_msg_frame c0) by reflexivity; exact Hget
       |apply rd_ok; simpl length in Hend; change (tx_pos (reading c0 k t)) with k; lia].
    rewrite bind_Ok. cbv beta iota.
    change (tx_pos (reading c0 k t)) with k.
    simpl length in Hend.
    rewrite sint32_small by lia.
    change (emit (set_tx_pos (reading c0 k t) (k + 1))
              (WriteByte (nth (Z.to_nat k) (tx_raw m) 0)))
      with (reading c0 (k + 1) (t ++ [WriteByte (nth (Z.to_nat k) (tx_raw m) 0)])).
    rewrite IH by lia.
    replace (k + 1 + Z.of_nat (length rs)) with (k + Z.of_nat (length (r :: rs)))
      by (simpl length; lia).
    rewrite (skipn_nth_cons (tx_raw m) (Z.to_nat k) 0) by lia.
    replace (Z.to_nat (k + 1)) with (S (Z.to_nat k)) by lia.
    simpl firstn. simpl map. rewrite <- app_assoc. reflexivity.
Qed.

(** X14.  A block read served while requests are queued and no packet is
    selected: the turn-around selects the head of [cmd_tosend], the EC reads
    its bytes [tx.raw[0 .. size]] and nothing else, and the stop moves the
    request to the tail of [cmd_torcv], takes one off the depth counter and
    leaves the attention line asserted exactly when requests remain. *)
Theorem request_read_by_ec (h : nvec_h) (c : nvec_chip) (a : nat) (rest : list msgptr)
    (m : nvec_cmd) (sz r0 r1 : Z) (rs : list Z) :
  smbus_state c = 2 ->
  rd (rx_raw (cmd_scratch c)) 0 = Some 0x01 ->
  tx c = None ->
  cmd_tosendcount c <> 0 ->
  -2147483648 < cmd_tosendcount c < 2147483648 ->
  cmd_tosend c = Req a :: rest ->
  ~ In (Req a) rest -> ~ In (Req a) (cmd_torcv c) ->
  nth_error (msgs c) a = Some m ->
  rd (tx_raw m) 0 = Some sz ->
  0 <= sz < 256 ->
  sz + 1 <= Z.of_nat (length (tx_raw m)) ->
  Z.of_nat (length rs) = sz ->
  exists c',
    i2c_irqs h c
      ((Z.lor (Z.lor I2C_SL_IRQ RNW) RCVD, r0)
       :: map (pair (Z.lor I2C_SL_IRQ RNW)) rs
       ++ [(Z.lor (Z.lor I2C_SL_IRQ RNW) END_TRANS, r1)]) = Ok c' /\
    bus_bytes (trace c') = bus_bytes (trace c) ++ firstn (Z.to_nat (sz + 1)) (tx_raw m) /\
    cmd_tosend c' = rest /\
    cmd_torcv c' = cmd_torcv c ++ [Req a] /\
    cmd_tosendcount c' = cmd_tosendcount c - 1 /\
    gpio c' = (if cmd_tosendcount c =? 1 then 1 else 0) /\
    tx c' = None /\ smbus_state c' = 0 /\ msgs c' = msgs c.
Proof.
  intros Hs Hmark Htx Hcnt Hrange Hq Hn1 Hn2 Hm Hsz Hb Hlen Hrs.
  rewrite i2c_irqs_cons.
  rewrite (state2_pick_head h c r0 (Req a) rest m sz Hs Hmark Htx Hcnt Hq Hm Hsz)
    by lia.
  rewrite bind_Ok. cbv beta iota.
  set (c0 := set_gpio
               (set_tx_size (set_tx (set_smbus_state c 3) (Some (Req a))) (sz + 1)) 1).
  match goal with |- context [i2c_irqs h ?x _] =>
    change x with (reading c0 1 (((trace c ++ [Udelay 33]) ++ [GpioSet 1]) ++ [WriteByte sz]))
  end.
  rewrite (state3_read_bytes h c0 (Req a) m);
    [|reflexivity|reflexivity|exact Hm|change (tx_size c0) with (sz + 1); lia
     |change (tx_size c0) with (sz + 1); lia|lia|change (tx_size c0) with (sz + 1); lia].
  set (t := (((trace c ++ _) ++ _) ++ _) ++ _).
  rewrite i2c_irqs_cons.
  rewrite (state3_request_sent h _ r1 a);
    [|reflexivity|reflexivity
     |change (tx_size (reading c0 (1 + Z.of_nat (length rs)) t)) with (sz + 1);
      change (tx_pos (reading c0 (1 + Z.of_nat (length rs)) t)) with (1 + Z.of_nat (length rs));
      lia].
  rewrite bind_Ok. cbv beta iota.
  eexists. split; [reflexivity|].
  assert (Hdec : sint32 (cmd_tosendcount c - 1) = cmd_tosendcount c - 1)
    by (apply sint32_small; lia).
  split.
  { unfold tx_msg_sent. simpl trace. unfold t.
    rewrite !bus_bytes_app, bus_bytes_map. simpl bus_bytes. rewrite !app_nil_r.
    rewrite <- app_assoc. f_equal.
    replace (Z.to_nat (sz + 1)) with (S (length rs)) by lia.
    assert (Hraw : tx_raw m = sz :: skipn 1 (tx_raw m)).
    { rewrite (skipn_nth_cons (tx_raw m) 0 0) at 1 by lia.
      rewrite (rd_ok _ 0) in Hsz by lia. inversion Hsz as [Hz]. rewrite Hz. reflexivity. }
    rewrite Hraw at 2. reflexivity. }
  split.
  { simpl. rewrite Hq. apply unlink_head. exact Hn1. }
  split.
  { simpl. rewrite unlink_notin by exact Hn2. reflexivity. }
  split; [simpl; exact Hdec|].
  split.
  { simpl. rewrite Hdec.
    destruct (Z.eqb_spec (cmd_tosendcount c - 1) 0), (Z.eqb_spec (cmd_tosendcount c) 1);
      try reflexivity; lia. }
  split; [reflexivity|]. split; reflexivity.
Qed.

Lemma request_read_by_ec_witness :
  exists c c',
    bind (request_queued nvec_h_32 0x04 0x10)
      (fun cq => i2c_irqs nvec_h_32 cq [(Z.lor I2C_SL_IRQ RCVD, EC_ADDR); (I2C_SL_IRQ, 0x01)])
    = Ok c /\
    i2c_irqs nvec_h_32 c
      ((Z.lor (Z.lor I2C_SL_IRQ RNW) RCVD, 0)
       :: map (pair (Z.lor I2C_SL_IRQ RNW)) [0; 0]
       ++ [(Z.lor (Z.lor I2C_SL_IRQ RNW) END_TRANS, 0)]) = Ok c' /\
    bus_bytes (trace c') = [0x02; 0x04; 0x10] /\
    cmd_tosend c' = [] /\ cmd_torcv c' = [Req 0] /\ gpio c' = 1.
Proof.
  let v := eval vm_compute in
    (bind (request_queued nvec_h_32 0x04 0x10)
       (fun cq => i2c_irqs nvec_h_32 cq
                    [(Z.lor I2C_SL_IRQ RCVD, EC_ADDR); (I2C_SL_IRQ, 0x01)])) in
  match v with Ok ?x => pose (c := x) end.
  let v := eval vm_compute in (nth_error (msgs c) 0) in
  match v with Some ?x => pose (m := x) end.
  destruct (request_read_by_ec nvec_h_32 c 0 [] m 2 0 0 [0; 0])
    as (c' & Hrun & Hbus & Hsend & Hrcv & _ & Hgpio & _).
  - reflexivity.
  - reflexivity.
  - reflexivity.
  - discriminate.
  - simpl; lia.
  - reflexivity.
  - simpl; tauto.
  - simpl; tauto.
  - reflexivity.
  - reflexivity.
  - lia.
  - simpl; lia.
  - reflexivity.
  - exists c, c'. split; [vm_compute; reflexivity|]. split; [exact Hrun|].
    split; [rewrite Hbus; reflexivity|]. split; [exact Hsend|].
    split; [rewrite Hrcv; reflexivity|]. rewrite Hgpio. reflexivity.
Defined.

(** X15.  A read past the last byte of the selected packet (state 3,
    [I2C_SL_IRQ|RNW] with [tx_pos >= tx_size]) is answered with 0xFF; the
    handler goes to state 0 and leaves the packet selected, its cursor and
    the queues as they are. *)
Theorem read_past_packet_end (h : nvec_h) (c : nvec_chip) (r : Z) :
  smbus_state c = 3 ->
  tx_size c <= tx_pos c ->
  i2c_interrupt h c (Z.lor I2C_SL_IRQ RNW) r = Ok (set_smbus_state c 0, Some 0xff).
Proof.
  intros Hs Hpos.
  rewrite i2c_interrupt_state3_read by assumption.
  unfold smbus_state3.
  change (Z.lor I2C_SL_IRQ RNW =? Z.lor I2C_SL_IRQ RNW) with true. cbv iota.
  unfold send_next_byte.
  destruct (tx c); [|reflexivity].
  destruct (Z.ltb_spec (tx_pos c) (tx_size c)); [lia|]. reflexivity.
Qed.

Lemma read_past_packet_end_witness :
  i2c_interrupt nvec_h_32
    (set_tx_size (set_tx_pos (set_tx (set_smbus_state (nvec_init nvec_h_32 EC_ADDR) 3)
                                (Some Scratch)) 3) 3)
    (Z.lor I2C_SL_IRQ RNW) 0
  = Ok (set_smbus_state
          (set_tx_size (set_tx_pos (set_tx (set_smbus_state (nvec_init nvec_h_32 EC_ADDR) 3)
                                      (Some Scratch)) 3) 3) 0,
        Some 0xff).
Proof.
  apply (read_past_packet_end nvec_h_32 _ 0).
  - reflexivity.
  - simpl; lia.
Defined.

(** ** A packet written by the EC *)

Lemma upd_app_cons (l1 l2 : list Z) (x v : Z) :
  upd (l1 ++ x :: l2) (length l1) v = l1 ++ v :: l2.
Proof. induction l1 as [|y l1 IH]; simpl; [reflexivity|]. rewrite IH. reflexivity. Qed.

(** State 4, [I2C_SL_IRQ] with room left in the array and in the packet:
    the byte is stored at the cursor. *)
Lemma state4_store (h : nvec_h) (c : nvec_chip) (b sz : Z) :
  smbus_state c = 4 ->
  rd (rx_raw (cmd_scratch c)) 1 = Some sz ->
  Z.of_nat (length (rx_raw (cmd_scratch c))) = NVEC_MAX_MSG_SZ h + 4 ->
  NVEC_MAX_MSG_SZ h + 4 < 2147483648 ->
  0 <= rx_pos c < NVEC_MAX_MSG_SZ h + 4 ->
  rx_pos c < sz + 2 ->
  i2c_interrupt h c I2C_SL_IRQ b
  = Ok (set_rx_pos
          (set_cmd_scratch c
             (set_rx_raw (cmd_scratch c)
                (upd (rx_raw (cmd_scratch c)) (Z.to_nat (rx_pos c)) (u8 b))))
          (rx_pos c + 1), None).
Proof.
  intros Hs Hsz Hlen Hmax Hpos Hroom.
  rewrite i2c_interrupt_state4_data by exact Hs.
  unfold smbus_state4. rewrite Z.eqb_refl.
  rewrite Hsz, of_option_Some, bind_Ok.
  rewrite u32_small by lia.
  destruct (Z.geb_spec (rx_pos c) (NVEC_MAX_MSG_SZ h + 4)); [lia|].
  destruct (Z.geb_spec (rx_pos c) (sz + 2)); [lia|].
  rewrite andb_false_r. cbn [orb].
  rewrite wr_ok by lia. rewrite of_option_Some, bind_Ok.
  change (rx_pos (set_cmd_scratch c _)) with (rx_pos c).
  rewrite sint32_small by lia. rewrite bind_Ok. reflexivity.
Qed.

Lemma state4_store_bytes (h : nvec_h) (c0 : nvec_chip) (sz : Z) (post : list Z)
    (tail : list (Z * Z)) :
  NVEC_MAX_MSG_SZ h + 4 < 2147483648 ->
  forall (bs olds pre : list Z),
    length olds = length bs ->
    (2 <= length pre)%nat ->
    rd pre 1 = Some sz ->
    Z.of_nat (length (pre ++ olds ++ post)) = NVEC_MAX_MSG_SZ h + 4 ->
    Z.of_nat (length pre + length bs) <= sz + 2 ->
    i2c_irqs h (receiving c0 (pre ++ olds ++ post) (Z.of_nat (length pre)) 4)
      (map (pair I2C_SL_IRQ) bs ++ tail)
    = i2c_irqs h
        (receiving c0 (pre ++ map u8 bs ++ post) (Z.of_nat (length pre + length bs)) 4)
        tail.
Proof.
  intros Hmax. induction bs as [|b bs IH]; intros olds pre Holds Hpre Hsz Hlen Hroom.
  - destruct olds; [|discriminate]. simpl. rewrite Nat.add_0_r. reflexivity.
  - destruct olds as [|o olds]; [discriminate|]. simpl in Holds.
    cbn [map app]. rewrite i2c_irqs_cons.
    assert (Hrd : forall l, rd (pre ++ l) 1 = Some sz).
    { intros l. apply rd_some in Hsz as Hin. rewrite rd_ok in Hsz by lia.
      rewrite rd_ok by (rewrite length_app; lia).
      rewrite app_nth1 by lia. exact Hsz. }
    rewrite !length_app in Hlen. cbn [length] in Hlen, Hroom.
    set (cur := receiving c0 (pre ++ o :: olds ++ post) (Z.of_nat (length pre)) 4).
    assert (Hc1 : rx_raw (cmd_scratch cur) = pre ++ o :: olds ++ post) by reflexivity.
    assert (Hc2 : rx_pos cur = Z.of_nat (length pre)) by reflexivity.
    rewrite (state4_store h cur b sz);
      [|reflexivity|rewrite Hc1; apply Hrd
       |rewrite Hc1, !length_app; cbn [length]; rewrite length_app; lia|exact Hmax
       |rewrite Hc2; lia|rewrite Hc2; lia].
    rewrite Hc1, Hc2.
    rewrite bind_Ok. cbv beta iota.
    rewrite Nat2Z.id, upd_app_cons.
    match goal with |- i2c_irqs h ?x _ = _ =>
      change x with (receiving c0 (pre ++ u8 b :: olds ++ post)
                       (Z.of_nat (length pre) + 1) 4)
    end.
    replace (pre ++ u8 b :: olds ++ post) with ((pre ++ [u8 b]) ++ olds ++ post)
      by (rewrite <- app_assoc; reflexivity).
    replace (Z.of_nat (length pre) + 1) with (Z.of_nat (length (pre ++ [u8 b])))
      by (rewrite length_app; simpl length; lia).
    rewrite IH;
      [|lia|rewrite length_app; lia
       |specialize (Hrd [u8 b]); exact Hrd
       |rewrite !length_app; simpl length; lia
       |rewrite length_app; simpl length; lia].
    rewrite <- app_assoc.
    replace (length (pre ++ [u8 b]) + length bs)%nat with (length pre + S (length bs))%nat
      by (rewrite length_app; simpl length; lia).
    reflexivity.
Qed.

Ltac eval_flags :=
  repeat match goal with
  | |- context [Z.eqb ?a ?b] =>
      let v := eval vm_compute in (Z.eqb a b) in
      match v with
      | true => change (Z.eqb a b) with true
      | false => change (Z.eqb a b) with false
      end
  end; cbn [andb negb]; cbv iota.

(** X16.  A write of the EC to the chip's address: the first byte goes to
    [rx.raw[0]], the second to [rx.raw[1]] (the size), and the bytes after
    them to [rx.raw[2 ..]] in order, each as a [u8], as long as the packet
    is no longer than its size byte says and fits the array; the machine is
    then in state 4 with [rx_pos] behind the last byte, and nothing else of
    the chip has changed. *)
Theorem written_packet_stored (h : nvec_h) (c : nvec_chip) (b0 b1 o0 o1 : Z)
    (bs olds post : list Z) :
  smbus_state c = 0 ->
  rx_raw (cmd_scratch c) = o0 :: o1 :: olds ++ post ->
  length olds = length bs ->
  Z.of_nat (length (rx_raw (cmd_scratch c))) = NVEC_MAX_MSG_SZ h + 4 ->
  NVEC_MAX_MSG_SZ h + 4 < 2147483648 ->
  Z.of_nat (length bs) <= u8 b1 ->
  i2c_irqs h c
    ((Z.lor I2C_SL_IRQ RCVD, i2c_addr c) :: (I2C_SL_IRQ, b0) :: (I2C_SL_IRQ, b1)
     :: map (pair I2C_SL_IRQ) bs)
  = Ok (receiving c (u8 b0 :: u8 b1 :: map u8 bs ++ post) (2 + Z.of_nat (length bs)) 4).
Proof.
  intros Hs Hraw Holds Hlen Hmax Hfit.
  rewrite i2c_irqs_cons.
  assert (H0 : i2c_interrupt h c (Z.lor I2C_SL_IRQ RCVD) (i2c_addr c)
               = Ok (set_smbus_state c 1, None)).
  { unfold i2c_interrupt. rewrite Hs. cbv zeta. eval_flags.
    unfold smbus_state0. rewrite !Z.eqb_refl. reflexivity. }
  rewrite H0, bind_Ok. cbv beta iota.
  rewrite i2c_irqs_cons.
  assert (H1 : i2c_interrupt h (set_smbus_state c 1) I2C_SL_IRQ b0
               = Ok (receiving c (u8 b0 :: o1 :: olds ++ post) (rx_pos c) 2, None)).
  { unfold i2c_interrupt. change (smbus_state (set_smbus_state c 1)) with 1.
    cbv zeta. eval_flags. unfold smbus_state1. eval_flags.
    change (rx_raw (cmd_scratch (set_smbus_state c 1))) with (rx_raw (cmd_scratch c)).
    rewrite Hraw. rewrite wr_ok by (simpl length; lia).
    rewrite of_option_Some, !bind_Ok. reflexivity. }
  rewrite H1, bind_Ok. cbv beta iota.
  rewrite i2c_irqs_cons.
  assert (H2 : i2c_interrupt h (receiving c (u8 b0 :: o1 :: olds ++ post) (rx_pos c) 2)
                 I2C_SL_IRQ b1
               = Ok (receiving c (u8 b0 :: u8 b1 :: olds ++ post) 2 4, None)).
  { unfold i2c_interrupt.
    change (smbus_state (receiving c (u8 b0 :: o1 :: olds ++ post) (rx_pos c) 2)) with 2.
    cbv zeta. eval_flags. unfold smbus_state2. eval_flags.
    change (rx_raw (cmd_scratch (receiving c (u8 b0 :: o1 :: olds ++ post) (rx_pos c) 2)))
      with (u8 b0 :: o1 :: olds ++ post).
    rewrite wr_ok by (simpl length; lia).
    rewrite of_option_Some, !bind_Ok. reflexivity. }
  rewrite H2, bind_Ok. cbv beta iota.
  rewrite Hraw in Hlen. simpl length in Hlen.
  rewrite <- (app_nil_r (map (pair I2C_SL_IRQ) bs)).
  change (receiving c (u8 b0 :: u8 b1 :: olds ++ post) 2 4)
    with (receiving c ([u8 b0; u8 b1] ++ olds ++ post)
            (Z.of_nat (length [u8 b0; u8 b1])) 4).
  rewrite (state4_store_bytes h c (u8 b1) post [] Hmax bs olds [u8 b0; u8 b1]).
  - cbn [i2c_irqs app length].
    replace (Z.of_nat (2 + length bs)) with (2 + Z.of_nat (length bs)) by lia.
    reflexivity.
  - exact Holds.
  - cbn [length]; lia.
  - reflexivity.
  - cbn [length app]. exact Hlen.
  - cbn [length]. lia.
Qed.

Lemma written_packet_stored_witness :
  i2c_irqs nvec_h_32 (nvec_init nvec_h_32 EC_ADDR)
    ((Z.lor I2C_SL_IRQ RCVD, EC_ADDR) :: (I2C_SL_IRQ, 0x14) :: (I2C_SL_IRQ, 0x02)
     :: map (pair I2C_SL_IRQ) [0x55; 0x1AA])
  = Ok (receiving (nvec_init nvec_h_32 EC_ADDR)
          (0x14 :: 0x02 :: 0x55 :: 0xAA :: repeat 0 32) 4 4).
Proof.
  apply (written_packet_stored nvec_h_32 (nvec_init nvec_h_32 EC_ADDR)
           0x14 0x02 0 0 [0x55; 0x1AA] [0; 0] (repeat 0 32)).
  - reflexivity.
  - reflexivity.
  - reflexivity.
  - reflexivity.
  - simpl; lia.
  - vm_compute; discriminate.
Defined.

(** ** Queuing a request *)

(** X17.  The start of [nvec_msg_xfer], for a request record whose command
    byte can be read: when the eight tags of the command are in use the
    caller sleeps in [nvec_alloc_tag] and nothing is queued; otherwise the
    lowest free tag is taken, the command byte of the record becomes
    [(tag << 4) | (cmd & 0x0F)], the completion is reset, the request goes
    to the tail of [cmd_tosend], the depth counter goes up by one and the
    attention line is asserted. *)
Theorem nvec_msg_xfer_submits (c : nvec_chip) (a : nat) (m : nvec_cmd) (cmd : Z) :
  nth_error (msgs c) a = Some m ->
  rd (tx_raw m) 1 = Some cmd ->
  length (cmd_tagmap c) = 16%nat ->
  match msg_submit c (Req a) with
  | Ok c' =>
      exists tag, 0 <= tag < 8 /\
        Z.testbit (tagmap_get (cmd_tagmap c) (Z.land cmd 0x0F)) tag = false /\
        (forall k, 0 <= k < tag ->
           Z.testbit (tagmap_get (cmd_tagmap c) (Z.land cmd 0x0F)) k = true) /\
        cmd_tagmap c'
        = tagmap_set (cmd_tagmap c) (Z.land cmd 0x0F)
            (Z.setbit (tagmap_get (cmd_tagmap c) (Z.land cmd 0x0F)) tag) /\
        nth_error (msgs c') a
        = Some {| tx_raw := upd (tx_raw m) 1 (Z.lor (Z.shiftl tag 4) (Z.land cmd 0x0F));
                  rx_raw := rx_raw m; done := 0 |} /\
        cmd_tosend c' = cmd_tosend c ++ [Req a] /\
        cmd_tosendcount c' = sint32 (cmd_tosendcount c + 1) /\
        cmd_torcv c' = cmd_torcv c /\
        gpio c' = 0 /\
        trace c' = trace c ++ [GpioSet 0]
  | Blocks =>
      forall tag, 0 <= tag < 8 ->
        Z.testbit (tagmap_get (cmd_tagmap c) (Z.land cmd 0x0F)) tag = true
  | Fault => False
  end.
Proof.
  intros Hm Hcmd Hl.
  unfold msg_submit. change (get_msg c (Req a)) with (nth_error (msgs c) a).
  rewrite Hm, of_option_Some, bind_Ok.
  change (tx_raw (set_done m 0)) with (tx_raw m).
  rewrite Hcmd, of_option_Some, bind_Ok.
  pose proof (nvec_alloc_tag_spec (cmd_tagmap c) cmd Hl) as Hspec.
  destruct (nvec_alloc_tag (cmd_tagmap c) cmd) as [[t tm']| |] eqn:Ha.
  - destruct Hspec as (tag & Htag & Et & Hr & _ & Htagof & Hclear & Etm).
    rewrite bind_Ok. cbv beta iota.
    apply rd_some in Hcmd as [Hi _].
    rewrite wr_ok by lia. rewrite of_option_Some, bind_Ok.
    assert (Hu : u8 t = t) by (unfold u8; apply Z.mod_small; lia).
    rewrite Hu.
    exists tag. split; [exact Htag|]. split; [exact Hclear|].
    split.
    { intros k Hk. unfold nvec_alloc_tag in Ha.
      change NVEC_COMMAND_0_CMD_TYPE_MASK with 15 in Ha.
      destruct (scan_test_and_set 8 0 (tagmap_get (cmd_tagmap c) (Z.land cmd 15)))
        as [[i w']|] eqn:Hs; [|discriminate].
      apply (scan_lowest _ _ _ _ _ (Z.le_refl 0) Hs).
      destruct (tagged_fields i (Z.land cmd 15)) as (_ & _ & _ & Hg);
        [apply (scan_some _ _ _ _ _ (Z.le_refl 0) Hs)|apply land15_range|].
      cbv zeta in Hg.
      assert (Ei : tag_of t = i) by (rewrite <- Hg; f_equal; congruence).
      lia. }
    split; [exact Etm|].
    split.
    { simpl. rewrite nth_error_upd_msg, Nat.eqb_refl, Hm. simpl. rewrite Et. reflexivity. }
    split; [reflexivity|]. split; [reflexivity|]. split; [reflexivity|].
    split; reflexivity.
  - exact Hspec.
  - contradiction.
Qed.

Lemma nvec_msg_xfer_submits_witness :
  exists c',
    msg_submit
      (set_cmd_tagmap
         (set_msgs (nvec_init nvec_h_32 EC_ADDR)
            [{| tx_raw := 2 :: 0x04 :: 0x10 :: repeat 0 32; rx_raw := repeat 0 36;
                done := 0 |}])
         [0; 0; 0; 0; 3; 0; 0; 0; 0; 0; 0; 0; 0; 0; 0; 0])
      (Req 0) = Ok c' /\
    option_map (fun m => firstn 3 (tx_raw m)) (nth_error (msgs c') 0) = Some [2; 0x24; 0x10] /\
    cmd_tosend c' = [Req 0] /\ cmd_tosendcount c' = 1.
Proof.
  pose proof (nvec_msg_xfer_submits
                (set_cmd_tagmap
                   (set_msgs (nvec_init nvec_h_32 EC_ADDR)
                      [{| tx_raw := 2 :: 0x04 :: 0x10 :: repeat 0 32; rx_raw := repeat 0 36;
                          done := 0 |}])
                   [0; 0; 0; 0; 3; 0; 0; 0; 0; 0; 0; 0; 0; 0; 0; 0])
                0 _ 0x04 eq_refl eq_refl eq_refl) as H.
  destruct (msg_submit _ _) as [c'| |] eqn:E.
  - exists c'. split; [reflexivity|].
    vm_compute in E. inversion E; subst c'. split; [reflexivity|]. split; reflexivity.
  - vm_compute in E. discriminate E.
  - contradiction.
Defined.

(** ** The failure path of nvec_msg_xfer *)

Lemma not_in_unlink (p : msgptr) (l : list msgptr) : ~ In p (unlink p l).
Proof.
  induction l as [|q l IH]; simpl; [tauto|].
  destruct (msgptr_eqb_spec p q) as [->|Hne]; [exact IH|].
  simpl. intros [H|H]; [congruence|tauto].
Qed.

Lemma put_msg_tagmap (c : nvec_chip) (q : msgptr) (x : nvec_cmd) :
  cmd_tagmap (put_msg c q x) = cmd_tagmap c.
Proof. destruct q; reflexivity. Qed.

Lemma nvec_free_tag_length (tm : tagmap) (t : Z) :
  length (nvec_free_tag tm t) = length tm.
Proof. unfold nvec_free_tag, tagmap_set. apply upd_length. Qed.

Lemma rx_response_tagmap (c c' : nvec_chip) :
  rx_response c = Ok c' -> length (cmd_tagmap c') = length (cmd_tagmap c).
Proof.
  unfold rx_response. intros H.
  destruct (cmd_torcv c) as [|p0 l0]; [inversion H; subst; reflexivity|].
  bind_inv H as cmd Ecmd. bind_inv H as found Efound. destruct found as [rxmsg|];
    [|inversion H; subst; reflexivity].
  bind_inv H as m Em. bind_inv H as sz Esz. bind_inv H as r Er.
  unfold complete in H. bind_inv H as m' Em'. inversion H; subst; clear H.
  unfold emit. cbn [cmd_tagmap set_trace]. rewrite put_msg_tagmap.
  unfold free_tag, emit. cbn [cmd_tagmap set_trace set_cmd_tagmap].
  rewrite nvec_free_tag_length, put_msg_tagmap. reflexivity.
Qed.

Lemma rx_event_tagmap (h : nvec_h) (c c' : nvec_chip) :
  rx_event h c = Ok c' -> cmd_tagmap c' = cmd_tagmap c.
Proof.
  unfold rx_event, nvec_alloc_ev_msg. intros H.
  destruct (scan_test_and_set 8 0 (ev_allocd c)) as [[i w]|].
  - simpl in H. inv_bind H. destruct a as [c1 slot]. inv_bind E.
    inversion E; subst; clear E.
    inv_bind H. inv_bind H. inversion H; subst. reflexivity.
  - simpl in H. inversion H; subst. reflexivity.
Qed.

Lemma send_next_byte_tagmap (c c' : nvec_chip) (b b' : Z) :
  send_next_byte c b = Ok (c', b') -> cmd_tagmap c' = cmd_tagmap c.
Proof.
  unfold send_next_byte. intros H.
  destruct (tx c); [destruct (_ <? _)|].
  - inv_bind H. inv_bind H. inversion H; subst. reflexivity.
  - inversion H; subst. reflexivity.
  - inversion H; subst. reflexivity.
Qed.

Lemma pick_tx_msg_tagmap (h : nvec_h) (c c' : nvec_chip) :
  pick_tx_msg h c = Ok c' -> cmd_tagmap c' = cmd_tagmap c.
Proof.
  unfold pick_tx_msg. intros H.
  destruct (tx c); [inversion H; subst; reflexivity|].
  inv_bind H. destruct a as [c1 msg]. inv_bind H. inv_bind H.
  inversion H; subst; clear H. simpl.
  destruct (_ =? _).
  - inv_bind E. inv_bind E. inv_bind E. inversion E; subst. reflexivity.
  - inv_bind E. inversion E; subst. reflexivity.
Qed.

Lemma i2c_interrupt_tagmap (h : nvec_h) (c c' : nvec_chip) (status rcvd : Z)
    (out : option Z) :
  i2c_interrupt h c status rcvd = Ok (c', out) ->
  length (cmd_tagmap c') = length (cmd_tagmap c).
Proof.
  unfold i2c_interrupt. intros H.
  destruct (_ && _); [inversion H; subst; reflexivity|].
  destruct (_ =? 0); [inversion H; subst; reflexivity|].
  inv_bind H. destruct a as [c1 b]. inversion H; subst; clear H.
  destruct (smbus_state c =? 0).
  { inversion E; subst. unfold smbus_state0.
    destruct (status =? _); [destruct (negb _)|]; reflexivity. }
  destruct (smbus_state c =? 1).
  { inv_bind E. inversion E; subst. unfold smbus_state1 in E0. destruct (negb _).
    - inversion E0; subst. reflexivity.
    - inv_bind E0. inversion E0; subst. reflexivity. }
  destruct (smbus_state c =? 2).
  { unfold smbus_state2 in E.
    destruct (status =? Z.lor (Z.lor I2C_SL_IRQ RNW) RCVD).
    - inv_bind E. destruct (negb _).
      + inversion E; subst. reflexivity.
      + inv_bind E. inv_bind E. destruct a1 as [c2 b2]. inversion E; subst; clear E.
        apply send_next_byte_tagmap in E2. apply pick_tx_msg_tagmap in E1.
        simpl. rewrite E2, E1. reflexivity.
    - destruct (status =? I2C_SL_IRQ).
      + inv_bind E. inversion E; subst. reflexivity.
      + inversion E; subst. reflexivity. }
  destruct (smbus_state c =? 3).
  { unfold smbus_state3 in E.
    destruct (status =? Z.lor I2C_SL_IRQ RNW).
    - apply send_next_byte_tagmap in E. rewrite E. reflexivity.
    - destruct (status =? Z.lor (Z.lor I2C_SL_IRQ RNW) END_TRANS);
        [|inversion E; subst; reflexivity].
      inversion E; subst; clear E. simpl.
      destruct (tx c) as [p|]; [|reflexivity].
      destruct (_ >=? _); [|reflexivity].
      destruct (negb (msgptr_eqb p Scratch)); reflexivity. }
  destruct (smbus_state c =? 4).
  { inv_bind E. inversion E; subst. unfold smbus_state4 in E0.
    destruct (status =? I2C_SL_IRQ).
    - inv_bind E0. destruct (_ || _).
      + inversion E0; subst. reflexivity.
      + inv_bind E0. inversion E0; subst. reflexivity.
    - destruct (status =? Z.lor I2C_SL_IRQ END_TRANS).
      + bind_inv E0 as cmd Ecmd. bind_inv E0 as c2 Erx. inversion E0; subst; clear E0.
        change (cmd_tagmap (set_smbus_state c2 0)) with (cmd_tagmap c2).
        destruct (_ =? _).
        * apply rx_event_tagmap in Erx. rewrite Erx. reflexivity.
        * apply rx_response_tagmap in Erx. exact Erx.
      + inversion E0; subst. reflexivity. }
  inversion E; subst. reflexivity.
Qed.

Lemma i2c_irqs_tagmap (h : nvec_h) (evs : list (Z * Z)) : forall c c',
  i2c_irqs h c evs = Ok c' -> length (cmd_tagmap c') = length (cmd_tagmap c).
Proof.
  induction evs as [|[status rcvd] evs IH]; intros c c' H.
  - inversion H; subst. reflexivity.
  - rewrite i2c_irqs_cons in H. inv_bind H. destruct a as [c1 out].
    apply i2c_interrupt_tagmap in E. apply IH in H. rewrite H, <- E.
    destruct out; reflexivity.
Qed.

Lemma wait_tagmap (h : nvec_h) (c c' : nvec_chip) (msg : msgptr) (evs : list (Z * Z))
    (res : Z) :
  wait_for_completion_timeout h c msg evs = Ok (c', res) ->
  length (cmd_tagmap c') = length (cmd_tagmap c).
Proof.
  unfold wait_for_completion_timeout. intros H.
  bind_inv H as c1 Erun. bind_inv H as m Em. apply i2c_irqs_tagmap in Erun.
  destruct (done m >? 0); inversion H; subst; clear H.
  - rewrite put_msg_tagmap. exact Erun.
  - exact Erun.
Qed.

Lemma wait_loop_tagmap (h : nvec_h) (msg : msgptr) (fuel : nat) :
  forall c tries res env c' res',
    wait_loop h fuel c msg tries res env = Ok (c', res') ->
    length (cmd_tagmap c') = length (cmd_tagmap c).
Proof.
  induction fuel as [|fuel IH]; intros c tries res env c' res' H; [discriminate|].
  simpl in H. destruct (_ =? 0); [inversion H; subst; reflexivity|].
  bind_inv H as cr Ew. destruct cr as [c1 res1]. apply wait_tagmap in Ew.
  destruct (negb _); [inversion H; subst; exact Ew|].
  apply IH in H. rewrite H. exact Ew.
Qed.

Lemma msg_submit_tagmap (c c' : nvec_chip) (msg : msgptr) :
  msg_submit c msg = Ok c' -> length (cmd_tagmap c') = length (cmd_tagmap c).
Proof.
  unfold msg_submit. intros H.
  bind_inv H as m Em. bind_inv H as cmd Ecmd. bind_inv H as ta Eta.
  destruct ta as [tagged tm]. bind_inv H as r Er. inversion H; subst; clear H.
  unfold msg_enqueue, gpio_set_value, emit.
  cbn [cmd_tagmap set_cmd_tosendcount set_cmd_tosend set_trace set_gpio].
  rewrite put_msg_tagmap. cbn [cmd_tagmap set_cmd_tagmap].
  unfold nvec_alloc_tag in Eta. destruct (scan_test_and_set _ _ _) as [[i w]|];
    [|discriminate].
  inversion Eta; subst. unfold tagmap_set. apply upd_length.
Qed.

Lemma testbit_tag_freed (tm : tagmap) (t : Z) :
  length tm = 16%nat ->
  0 <= tag_of t ->
  Z.testbit (tagmap_get (nvec_free_tag tm t) (cmd_of t)) (tag_of t) = false.
Proof.
  intros Hl Ht. unfold nvec_free_tag. fold (cmd_of t) (tag_of t).
  pose proof (cmd_of_range t) as Hc.
  rewrite tagmap_get_set by (rewrite ?Hl; simpl; lia). rewrite Z.eqb_refl.
  rewrite testbit_clear_bit by assumption. rewrite Z.eqb_refl. apply andb_false_r.
Qed.

Lemma tag_of_nonneg (t : Z) : 0 <= tag_of t.
Proof.
  unfold tag_of. apply Z.shiftr_nonneg. apply Z.land_nonneg. right.
  unfold NVEC_COMMAND_0_CMD_TAG_MASK. lia.
Qed.

(** X18.  When [nvec_msg_xfer] returns -ETIMEDOUT the request is linked on
    neither queue, and the tag in its command byte is free in the tag map:
    whatever the interrupt handler did during the waits, the failure path
    has taken the request off the list it was on and released its tag. *)
Theorem nvec_msg_xfer_timeout_releases (h : nvec_h) (c c' : nvec_chip) (msg : msgptr)
    (env : list (list (Z * Z))) :
  length (cmd_tagmap c) = 16%nat ->
  nvec_msg_xfer h c msg env = Ok (c', - ETIMEDOUT) ->
  ~ In msg (cmd_tosend c') /\ ~ In msg (cmd_torcv c') /\
  exists m t,
    get_msg c' msg = Some m /\ rd (tx_raw m) 1 = Some t /\
    Z.testbit (tagmap_get (cmd_tagmap c') (cmd_of t)) (tag_of t) = false.
Proof.
  intros Hl H. unfold nvec_msg_xfer in H.
  bind_inv H as c0 Esub. bind_inv H as cr Eloop. destruct cr as [c1 res].
  destruct (Z.eqb_spec res 0) as [->|Hne]; [|inversion H].
  bind_inv H as m Em. bind_inv H as t Et. inversion H; subst c'; clear H.
  apply msg_submit_tagmap in Esub. apply wait_loop_tagmap in Eloop.
  assert (Hq : ~ In msg (cmd_tosend (msg_timeout_cleanup c1 msg)) /\
               ~ In msg (cmd_torcv (msg_timeout_cleanup c1 msg))).
  { unfold msg_timeout_cleanup. destruct (on_list msg (cmd_torcv c1));
      split; apply not_in_unlink. }
  assert (Htm : cmd_tagmap (msg_timeout_cleanup c1 msg) = cmd_tagmap c1).
  { unfold msg_timeout_cleanup. destruct (on_list msg (cmd_torcv c1)); reflexivity. }
  split; [exact (proj1 Hq)|]. split; [exact (proj2 Hq)|].
  exists m, t. split; [rewrite <- Em; apply get_msg_frame; reflexivity|].
  split; [exact Et|].
  unfold free_tag, emit. cbn [cmd_tagmap set_trace set_cmd_tagmap].
  apply testbit_tag_freed; [|apply tag_of_nonneg]. rewrite Htm. congruence.
Qed.

Lemma nvec_msg_xfer_timeout_releases_witness :
  exists c',
    nvec_msg_xfer nvec_h_32
      (set_msgs (nvec_init nvec_h_32 EC_ADDR)
         [{| tx_raw := 2 :: 0x04 :: 0x10 :: repeat 0 32; rx_raw := repeat 0 36; done := 0 |}])
      (Req 0) [ec_block_read 2] = Ok (c', - ETIMEDOUT) /\
    cmd_tosend c' = [] /\ cmd_torcv c' = [] /\ tagmap_get (cmd_tagmap c') 4 = 0.
Proof.
  let v := eval vm_compute in
    (nvec_msg_xfer nvec_h_32
       (set_msgs (nvec_init nvec_h_32 EC_ADDR)
          [{| tx_raw := 2 :: 0x04 :: 0x10 :: repeat 0 32; rx_raw := repeat 0 36;
              done := 0 |}])
       (Req 0) [ec_block_read 2]) in
  match v with Ok (?x, _) => pose (c' := x) end.
  assert (H : nvec_msg_xfer nvec_h_32
                (set_msgs (nvec_init nvec_h_32 EC_ADDR)
                   [{| tx_raw := 2 :: 0x04 :: 0x10 :: repeat 0 32; rx_raw := repeat 0 36;
                       done := 0 |}])
                (Req 0) [ec_block_read 2] = Ok (c', - ETIMEDOUT)) by (vm_compute; reflexivity).
  exists c'. split; [exact H|].
  destruct (nvec_msg_xfer_timeout_releases nvec_h_32
              (set_msgs (nvec_init nvec_h_32 EC_ADDR)
                 [{| tx_raw := 2 :: 0x04 :: 0x10 :: repeat 0 32; rx_raw := repeat 0 36;
                     done := 0 |}])
              c' (Req 0) [ec_block_read 2] eq_refl H) as (_ & _ & m & t & _).
  split; [reflexivity|]. split; reflexivity.
Defined.

(** ** What the handler keeps of the queues *)

Lemma NoDup_app_disjoint (l1 l2 : list msgptr) (p : msgptr) :
  NoDup (l1 ++ l2) -> In p l1 -> ~ In p l2.
Proof.
  induction l1 as [|x l1 IH]; simpl; intros Hnd Hin; [tauto|].
  inversion Hnd as [|? ? Hx Hnd']; subst. destruct Hin as [->|Hin].
  - intros H. apply Hx. apply in_or_app. right. exact H.
  - apply IH; assumption.
Qed.

Lemma NoDup_unlink (p : msgptr) (l : list msgptr) : NoDup l -> NoDup (unlink p l).
Proof.
  induction 1 as [|q l Hq Hnd IH]; simpl; [constructor|].
  destruct (msgptr_eqb p q); [exact IH|].
  constructor; [|exact IH]. intros H. apply Hq. eapply in_unlink. exact H.
Qed.

Lemma NoDup_unlink_app (p : msgptr) (l1 l2 : list msgptr) :
  NoDup (l1 ++ l2) -> NoDup (unlink p l1 ++ unlink p l2).
Proof.
  intros H. apply NoDup_app.
  - apply NoDup_unlink. eapply NoDup_app_remove_r. exact H.
  - apply NoDup_unlink. eapply NoDup_app_remove_l. exact H.
  - intros a Ha Hb. apply in_unlink in Ha. apply in_unlink in Hb.
    exact (NoDup_app_disjoint _ _ _ H Ha Hb).
Qed.

Lemma NoDup_moved (p : msgptr) (l1 l2 : list msgptr) :
  NoDup (l1 ++ l2) -> NoDup (unlink p l1 ++ unlink p l2 ++ [p]).
Proof.
  intros H. rewrite app_assoc. apply NoDup_app.
  - apply NoDup_unlink_app. exact H.
  - constructor; [simpl; tauto|constructor].
  - intros a Ha [<-|[]]. apply in_app_or in Ha. destruct Ha as [Ha|Ha];
      exact (not_in_unlink _ _ Ha).
Qed.

Lemma isr_inv_tx (c c' : nvec_chip) :
  cmd_tosend c' = cmd_tosend c -> cmd_torcv c' = cmd_torcv c ->
  cmd_tosendcount c' = cmd_tosendcount c ->
  (forall p, tx c' = Some p -> p <> Scratch -> In p (cmd_tosend c)) ->
  isr_inv c -> isr_inv c'.
Proof.
  unfold isr_inv, queues_ok, count_inv. intros E1 E2 E3 Htx (H1 & H2 & H3 & _).
  rewrite E1, E2, E3. auto.
Qed.

Lemma isr_inv_same (c c' : nvec_chip) :
  cmd_tosend c' = cmd_tosend c -> cmd_torcv c' = cmd_torcv c ->
  cmd_tosendcount c' = cmd_tosendcount c -> tx c' = tx c ->
  isr_inv c -> isr_inv c'.
Proof.
  intros E1 E2 E3 E4 H. apply (isr_inv_tx c); auto.
  rewrite E4. apply H.
Qed.

Lemma isr_inv_state (c : nvec_chip) (s : Z) : isr_inv c -> isr_inv (set_smbus_state c s).
Proof. intros H. exact H. Qed.

Lemma send_next_byte_inv (c c' : nvec_chip) (b b' : Z) :
  send_next_byte c b = Ok (c', b') -> isr_inv c -> isr_inv c'.
Proof.
  unfold send_next_byte. intros H.
  destruct (tx c) eqn:Htx; [destruct (_ <? _)|].
  - inv_bind H. inv_bind H. inversion H; subst. apply isr_inv_same; auto.
  - inversion H; subst. apply isr_inv_same; auto.
  - inversion H; subst. apply isr_inv_same; auto.
Qed.

Lemma pick_tx_msg_inv (h : nvec_h) (c c' : nvec_chip) :
  pick_tx_msg h c = Ok c' -> isr_inv c -> isr_inv c'.
Proof.
  unfold pick_tx_msg. intros H Hinv.
  destruct (tx c) eqn:Htx; [inversion H; subst; exact Hinv|].
  inv_bind H. destruct a as [c1 msg]. inv_bind H. inv_bind H.
  inversion H; subst; clear H.
  destruct (_ =? _).
  - inv_bind E. inv_bind E. inv_bind E. inversion E; subst; clear E.
    apply (isr_inv_tx c); try reflexivity; [|exact Hinv].
    intros p Hp Hne. simpl in Hp. congruence.
  - inv_bind E. inversion E; subst; clear E.
    apply (isr_inv_tx c1); try reflexivity; [|exact Hinv].
    intros p Hp Hne. simpl in Hp. inversion Hp; subst p.
    destruct (cmd_tosend c1); [discriminate|]. simpl in E2. inversion E2; subst.
    left. reflexivity.
Qed.

Lemma tx_msg_sent_inv (c : nvec_chip) (p : msgptr) :
  isr_inv c -> In p (cmd_tosend c) -> isr_inv (set_tx (tx_msg_sent c p) None).
Proof.
  unfold isr_inv, queues_ok, count_inv. intros (Hnd & Hcnt & Hmax & _) Hin.
  pose proof (unlink_length p (cmd_tosend c) (NoDup_app_remove_r _ _ Hnd) Hin) as Hlen.
  unfold tx_msg_sent, gpio_set_value, emit, list_del_init.
  cbn [cmd_tosend cmd_torcv cmd_tosendcount tx set_tx set_cmd_torcv set_trace set_gpio
       set_cmd_tosendcount set_cmd_tosend].
  split; [apply NoDup_moved; exact Hnd|].
  split; [rewrite Hcnt, sint32_small by lia; lia|].
  split; [lia|]. discriminate.
Qed.

Lemma smbus_state3_inv (c c' : nvec_chip) (status b b' : Z) :
  smbus_state3 c status b = Ok (c', b') -> isr_inv c -> isr_inv c'.
Proof.
  unfold smbus_state3. intros H Hinv.
  destruct (status =? Z.lor I2C_SL_IRQ RNW); [eapply send_next_byte_inv; eauto|].
  destruct (status =? Z.lor (Z.lor I2C_SL_IRQ RNW) END_TRANS);
    [|inversion H; subst; apply (isr_inv_same c); auto].
  inversion H; subst; clear H.
  destruct (tx c) as [p|] eqn:Htx; [|apply (isr_inv_same c); auto].
  destruct (_ >=? _); [|apply (isr_inv_same c); auto].
  destruct (msgptr_eqb_spec p Scratch) as [->|Hne]; cbn [negb].
  - apply (isr_inv_tx c); try reflexivity; [|exact Hinv]. discriminate.
  - apply isr_inv_state. apply tx_msg_sent_inv; [exact Hinv|]. apply Hinv; assumption.
Qed.

Lemma find_torcv_in (c : nvec_chip) (cmd : Z) (l : list msgptr) (p : msgptr) :
  find_torcv c l cmd = Ok (Some p) -> In p l.
Proof.
  induction l as [|q l IH]; simpl; intros H; [discriminate|].
  inv_bind H. inv_bind H. destruct (_ =? _).
  - inversion H; subst. left. reflexivity.
  - right. apply IH. exact H.
Qed.

Lemma put_msg_queues (c : nvec_chip) (q : msgptr) (x : nvec_cmd) :
  cmd_tosend (put_msg c q x) = cmd_tosend c /\
  cmd_torcv (put_msg c q x) = cmd_torcv c /\
  cmd_tosendcount (put_msg c q x) = cmd_tosendcount c /\
  tx (put_msg c q x) = tx c.
Proof. destruct q; repeat split. Qed.

Lemma rx_response_inv (c c' : nvec_chip) :
  rx_response c = Ok c' -> isr_inv c -> isr_inv c'.
Proof.
  unfold rx_response. intros H Hinv.
  destruct (cmd_torcv c) as [|p0 l0] eqn:Hq; [inversion H; subst; exact Hinv|].
  rewrite <- Hq in *. clear Hq.
  bind_inv H as cmd Ecmd. bind_inv H as found Efound. destruct found as [rxmsg|];
    [|inversion H; subst; exact Hinv].
  bind_inv H as m Em. bind_inv H as sz Esz. bind_inv H as r Er.
  unfold complete in H. bind_inv H as m' Em'. inversion H; subst; clear H.
  apply find_torcv_in in Efound.
  destruct Hinv as (Hnd & Hcnt & Hmax & Htx). unfold queues_ok, count_inv in *.
  assert (Hns : ~ In rxmsg (cmd_tosend c)).
  { intros Hin. exact (NoDup_app_disjoint _ _ _ Hnd Hin Efound). }
  set (c1 := put_msg (list_del_init c rxmsg) rxmsg (set_rx_raw m r)).
  set (c2 := free_tag c1 cmd).
  destruct (put_msg_queues c2 rxmsg (set_done m' (done m' + 1))) as (Q1 & Q2 & Q3 & Q4).
  destruct (put_msg_queues (list_del_init c rxmsg) rxmsg (set_rx_raw m r))
    as (P1 & P2 & P3 & P4).
  unfold isr_inv, queues_ok, count_inv, emit.
  cbn [cmd_tosend cmd_torcv cmd_tosendcount tx set_trace].
  rewrite Q1, Q2, Q3, Q4. unfold c2, free_tag, emit.
  cbn [cmd_tosend cmd_torcv cmd_tosendcount tx set_trace set_cmd_tagmap].
  fold c1. unfold c1. rewrite P1, P2, P3, P4. unfold list_del_init.
  cbn [cmd_tosend cmd_torcv cmd_tosendcount tx set_cmd_torcv set_cmd_tosend].
  rewrite (unlink_notin rxmsg (cmd_tosend c)) by exact Hns.
  split.
  { rewrite <- (unlink_notin rxmsg (cmd_tosend c)) at 1 by exact Hns.
    apply NoDup_unlink_app. exact Hnd. }
  split; [exact Hcnt|]. split; [exact Hmax|exact Htx].
Qed.

Lemma rx_event_inv (h : nvec_h) (c c' : nvec_chip) :
  rx_event h c = Ok c' -> isr_inv c -> isr_inv c'.
Proof.
  unfold rx_event, nvec_alloc_ev_msg. intros H.
  destruct (scan_test_and_set 8 0 (ev_allocd c)) as [[i w]|].
  - simpl in H. inv_bind H. destruct a as [c1 slot]. inv_bind E.
    inversion E; subst; clear E.
    inv_bind H. inv_bind H. inversion H; subst. apply isr_inv_same; reflexivity.
  - simpl in H. inversion H; subst. auto.
Qed.

Lemma i2c_interrupt_queues (h : nvec_h) (c c' : nvec_chip) (status rcvd : Z)
    (out : option Z) :
  isr_inv c ->
  i2c_interrupt h c status rcvd = Ok (c', out) ->
  isr_inv c'.
Proof.
  intros Hinv. unfold i2c_interrupt. intros H.
  destruct (_ && _); [inversion H; subst; exact Hinv|].
  destruct (_ =? 0); [inversion H; subst; exact Hinv|].
  inv_bind H. destruct a as [c1 b]. inversion H; subst; clear H.
  destruct (smbus_state c =? 0).
  { inversion E; subst. apply (isr_inv_same c); auto;
      unfold smbus_state0; destruct (status =? _); try destruct (negb _); reflexivity. }
  destruct (smbus_state c =? 1).
  { inv_bind E. inversion E; subst. unfold smbus_state1 in E0. destruct (negb _).
    - inversion E0; subst. apply (isr_inv_same c); auto.
    - inv_bind E0. inversion E0; subst. apply (isr_inv_same c); auto. }
  destruct (smbus_state c =? 2).
  { unfold smbus_state2 in E.
    destruct (status =? Z.lor (Z.lor I2C_SL_IRQ RNW) RCVD).
    - inv_bind E. destruct (negb _).
      + inversion E; subst. apply (isr_inv_same c); auto.
      + inv_bind E. inv_bind E. destruct a1 as [c2 b2]. inversion E; subst; clear E.
        apply (isr_inv_same c2); try reflexivity.
        eapply send_next_byte_inv; [exact E2|].
        eapply pick_tx_msg_inv; [exact E1|].
        apply (isr_inv_same c); auto.
    - destruct (status =? I2C_SL_IRQ).
      + inv_bind E. inversion E; subst. apply (isr_inv_same c); auto.
      + inversion E; subst. apply (isr_inv_same c); auto. }
  destruct (smbus_state c =? 3); [eapply smbus_state3_inv; eauto|].
  destruct (smbus_state c =? 4).
  { inv_bind E. inversion E; subst. unfold smbus_state4 in E0.
    destruct (status =? I2C_SL_IRQ).
    - inv_bind E0. destruct (_ || _).
      + inversion E0; subst. exact Hinv.
      + inv_bind E0. inversion E0; subst. apply (isr_inv_same c); auto.
    - destruct (status =? Z.lor I2C_SL_IRQ END_TRANS).
      + bind_inv E0 as cmd Ecmd. bind_inv E0 as c2 Erx. inversion E0; subst; clear E0.
        apply (isr_inv_same c2); try reflexivity.
        destruct (_ =? _).
        * eapply rx_event_inv; eauto.
        * eapply rx_response_inv; eauto.
      + inversion E0; subst. apply (isr_inv_same c); auto. }
  inversion E; subst. apply (isr_inv_same c); auto.
Qed.

(** X19.  The handler keeps the request queues consistent: if no record is
    linked twice, [cmd_tosendcount] is the length of [cmd_tosend] and the
    request selected for transmission is on [cmd_tosend], then the same
    holds after any interrupt, whatever its status and state. *)
Theorem i2c_interrupt_keeps_queues (h : nvec_h) (c c' : nvec_chip) (status rcvd : Z)
    (out : option Z) :
  isr_inv c ->
  i2c_interrupt h c status rcvd = Ok (c', out) ->
  isr_inv c'.
Proof. exact (i2c_interrupt_queues h c c' status rcvd out). Qed.

Lemma i2c_interrupt_keeps_queues_witness :
  exists c c' out,
    bind (request_queued nvec_h_32 0x04 0x10)
      (fun cq => i2c_irqs nvec_h_32 cq [(Z.lor I2C_SL_IRQ RCVD, EC_ADDR); (I2C_SL_IRQ, 0x01)])
    = Ok c /\
    i2c_interrupt nvec_h_32 c (Z.lor (Z.lor I2C_SL_IRQ RNW) RCVD) 0 = Ok (c', out) /\
    tx c' = Some (Req 0) /\ isr_inv c'.
Proof.
  let v := eval vm_compute in
    (bind (request_queued nvec_h_32 0x04 0x10)
       (fun cq => i2c_irqs nvec_h_32 cq
                    [(Z.lor I2C_SL_IRQ RCVD, EC_ADDR); (I2C_SL_IRQ, 0x01)])) in
  match v with Ok ?x => pose (c := x) end.
  let v := eval vm_compute in
    (i2c_interrupt nvec_h_32 c (Z.lor (Z.lor I2C_SL_IRQ RNW) RCVD) 0) in
  match v with Ok (?x, ?o) => pose (c' := x); pose (out := o) end.
  assert (H : i2c_interrupt nvec_h_32 c (Z.lor (Z.lor I2C_SL_IRQ RNW) RCVD) 0 = Ok (c', out))
    by (vm_compute; reflexivity).
  exists c, c', out. split; [vm_compute; reflexivity|]. split; [exact H|].
  split; [reflexivity|].
  apply (i2c_interrupt_keeps_queues nvec_h_32 c c' (Z.lor (Z.lor I2C_SL_IRQ RNW) RCVD) 0 out);
    [|exact H].
  split; [|split; [reflexivity|split; [simpl; lia|discriminate]]].
  unfold queues_ok. simpl. constructor; [simpl; tauto|constructor].
Defined.

(** X20.  Queuing a request that is linked on neither queue keeps the
    queues consistent: after the start of [nvec_msg_xfer] no record is
    linked twice, [cmd_tosendcount] is still the length of [cmd_tosend],
    and the request selected for transmission is still on [cmd_tosend]. *)
Theorem nvec_msg_xfer_submit_keeps_queues (c c' : nvec_chip) (msg : msgptr) :
  isr_inv c ->
  ~ In msg (cmd_tosend c ++ cmd_torcv c) ->
  Z.of_nat (length (cmd_tosend c)) + 1 < 2147483648 ->
  msg_submit c msg = Ok c' ->
  isr_inv c'.
Proof.
  intros (Hnd & Hcnt & Hmax & Htx) Hfresh Hroom H.
  unfold queues_ok, count_inv in *. unfold msg_submit in H.
  bind_inv H as m Em. bind_inv H as cmd Ecmd. bind_inv H as ta Eta.
  destruct ta as [tagged tm]. bind_inv H as r Er. inversion H; subst; clear H.
  destruct (put_msg_queues (set_cmd_tagmap c tm) msg (set_tx_raw (set_done m 0) r))
    as (P1 & P2 & P3 & P4).
  unfold isr_inv, queues_ok, count_inv, msg_enqueue, gpio_set_value, emit.
  cbn [cmd_tosend cmd_torcv cmd_tosendcount tx set_trace set_gpio set_cmd_tosend
       set_cmd_tosendcount].
  rewrite P1, P2, P3, P4.
  cbn [cmd_tosend cmd_torcv cmd_tosendcount tx set_cmd_tagmap].
  split.
  { rewrite <- app_assoc. simpl app.
    apply NoDup_app.
    - eapply NoDup_app_remove_r. exact Hnd.
    - constructor; [|eapply NoDup_app_remove_l; exact Hnd].
      intros Hin. apply Hfresh. apply in_or_app. right. exact Hin.
    - intros a Ha [<-|Hb].
      + apply Hfresh. apply in_or_app. left. exact Ha.
      + exact (NoDup_app_disjoint _ _ _ Hnd Ha Hb). }
  split; [rewrite Hcnt, sint32_small, length_app by lia; simpl length; lia|].
  split; [rewrite length_app; simpl length; lia|].
  intros p Hp Hne. apply in_or_app. left. apply Htx; assumption.
Qed.

Lemma nvec_msg_xfer_submit_keeps_queues_witness :
  exists c', request_queued nvec_h_32 0x04 0x10 = Ok c' /\ isr_inv c'.
Proof.
  let v := eval vm_compute in (request_queued nvec_h_32 0x04 0x10) in
  match v with Ok ?x => pose (c' := x) end.
  let v := eval vm_compute in (cmd_fill nvec_h_32 0x04 0x10 None 0) in
  match v with Ok ?x => pose (m := x) end.
  exists c'. split; [vm_compute; reflexivity|].
  apply (nvec_msg_xfer_submit_keeps_queues
           (set_msgs (nvec_init nvec_h_32 EC_ADDR) [m]) c' (Req 0)).
  - split; [constructor|]. split; [reflexivity|]. split; [simpl; lia|discriminate].
  - simpl. tauto.
  - simpl. lia.
  - vm_compute. reflexivity.
Defined.

(** ** A request that is answered *)

Lemma state0_address (h : nvec_h) (c : nvec_chip) :
  smbus_state c = 0 ->
  i2c_interrupt h c (Z.lor I2C_SL_IRQ RCVD) (i2c_addr c) = Ok (set_smbus_state c 1, None).
Proof.
  intros Hs. unfold i2c_interrupt. rewrite Hs. cbv zeta. eval_flags.
  unfold smbus_state0. rewrite !Z.eqb_refl. reflexivity.
Qed.

Lemma state1_command (h : nvec_h) (c : nvec_chip) (b : Z) :
  smbus_state c = 1 ->
  (0 < length (rx_raw (cmd_scratch c)))%nat ->
  i2c_interrupt h c I2C_SL_IRQ b
  = Ok (receiving c (upd (rx_raw (cmd_scratch c)) 0 (u8 b)) (rx_pos c) 2, None).
Proof.
  intros Hs Hl. unfold i2c_interrupt. rewrite Hs. cbv zeta. eval_flags.
  unfold smbus_state1. eval_flags.
  rewrite wr_ok by lia. rewrite of_option_Some, !bind_Ok. reflexivity.
Qed.

Lemma state2_size (h : nvec_h) (c : nvec_chip) (b : Z) :
  smbus_state c = 2 ->
  (1 < length (rx_raw (cmd_scratch c)))%nat ->
  i2c_interrupt h c I2C_SL_IRQ b
  = Ok (receiving c (upd (rx_raw (cmd_scratch c)) 1 (u8 b)) 2 4, None).
Proof.
  intros Hs Hl. unfold i2c_interrupt. rewrite Hs. cbv zeta. eval_flags.
  unfold smbus_state2. eval_flags.
  rewrite wr_ok by lia. rewrite of_option_Some, !bind_Ok. reflexivity.
Qed.

Lemma i2c_irqs_app (h : nvec_h) (e1 e2 : list (Z * Z)) : forall c,
  i2c_irqs h c (e1 ++ e2) = bind (i2c_irqs h c e1) (fun c1 => i2c_irqs h c1 e2).
Proof.
  induction e1 as [|[s r] e1 IH]; intros c; [reflexivity|].
  cbn [app]. rewrite !i2c_irqs_cons.
  destruct (i2c_interrupt h c s r) as [[c1 out]| |]; [|reflexivity|reflexivity].
  rewrite !bind_Ok. cbv beta iota. apply IH.
Qed.

(** The block read of the head request, from state 0. *)
Lemma block_read_run (h : nvec_h) (c : nvec_chip) (a : nat) (rest : list msgptr)
    (m : nvec_cmd) (sz : Z) (n : nat) :
  smbus_state c = 0 -> i2c_addr c = EC_ADDR ->
  (0 < length (rx_raw (cmd_scratch c)))%nat ->
  tx c = None -> cmd_tosendcount c <> 0 ->
  cmd_tosend c = Req a :: rest ->
  nth_error (msgs c) a = Some m ->
  rd (tx_raw m) 0 = Some sz -> 0 <= sz < 256 ->
  sz + 1 <= Z.of_nat (length (tx_raw m)) ->
  Z.of_nat n = sz ->
  let c2 := receiving c (upd (rx_raw (cmd_scratch c)) 0 1) (rx_pos c) 3 in
  let c3 := set_gpio (set_tx_size (set_tx c2 (Some (Req a))) (sz + 1)) 1 in
  i2c_irqs h c (ec_block_read n)
  = Ok (set_smbus_state
          (set_tx
             (tx_msg_sent
                (reading c3 (sz + 1)
                   (trace c ++ [Udelay 33; GpioSet 1]
                    ++ map WriteByte (firstn (S n) (tx_raw m))))
                (Req a))
             None) 0).
Proof.
  intros Hs Haddr Hl Htx Hcnt Hq Hm Hsz Hb Hlen Hn c2 c3.
  unfold ec_block_read. cbn [app].
  rewrite i2c_irqs_cons. rewrite <- Haddr, state0_address by exact Hs.
  rewrite bind_Ok. cbv beta iota.
  rewrite i2c_irqs_cons. rewrite state1_command by (try reflexivity; exact Hl).
  rewrite bind_Ok. cbv beta iota.
  change (u8 1) with 1.
  set (c1 := receiving (set_smbus_state c 1) _ _ 2).
  rewrite i2c_irqs_cons.
  assert (Hmark : rd (rx_raw (cmd_scratch c1)) 0 = Some 1).
  { unfold c1. cbn [receiving rx_raw cmd_scratch set_smbus_state set_rx_pos set_cmd_scratch
                    set_rx_raw].
    destruct (rx_raw (cmd_scratch c)); [simpl in Hl; lia|reflexivity]. }
  rewrite (state2_pick_head h c1 0 (Req a) rest m sz eq_refl Hmark Htx Hcnt Hq Hm Hsz)
    by lia.
  rewrite bind_Ok. cbv beta iota.
  match goal with |- context [i2c_irqs h ?x _] =>
    change x with (reading c3 1 (((trace c ++ [Udelay 33]) ++ [GpioSet 1]) ++ [WriteByte sz]))
  end.
  replace (repeat (Z.lor I2C_SL_IRQ RNW, 0) n)
    with (map (pair (Z.lor I2C_SL_IRQ RNW)) (repeat 0 n)) by apply map_repeat.
  rewrite (state3_read_bytes h c3 (Req a) m);
    [|reflexivity|reflexivity|exact Hm|change (tx_size c3) with (sz + 1); lia
     |change (tx_size c3) with (sz + 1); lia|lia
     |change (tx_size c3) with (sz + 1); rewrite repeat_length; lia].
  rewrite repeat_length.
  rewrite i2c_irqs_cons.
  rewrite (state3_request_sent h _ 0 a);
    [|reflexivity|reflexivity|cbn [reading tx_size tx_pos set_trace set_tx_pos]; 
                              change (tx_size c3) with (sz + 1); lia].
  rewrite bind_Ok. cbv beta iota. cbn [i2c_irqs].
  replace (1 + Z.of_nat n) with (sz + 1) by lia.
  assert (Hraw : firstn (S n) (tx_raw m) = sz :: firstn n (skipn (Z.to_nat 1) (tx_raw m))).
  { rewrite (rd_ok _ 0) in Hsz by lia. inversion Hsz as [Hz].
    destruct (tx_raw m) as [|x l]; [simpl in Hlen; lia|]. simpl in Hz. subst x. reflexivity. }
  rewrite Hraw. cbn [map]. rewrite <- !app_assoc. reflexivity.
Qed.

(** The write of a response that matches the request awaiting its answer. *)
Lemma response_write_run (h : nvec_h) (c : nvec_chip) (a : nat) (m : nvec_cmd)
    (t rsz o0 o1 : Z) (payload olds post : list Z) :
  smbus_state c = 0 -> i2c_addr c = EC_ADDR ->
  rx_raw (cmd_scratch c) = o0 :: o1 :: olds ++ post ->
  length olds = length payload ->
  Z.of_nat (length (rx_raw (cmd_scratch c))) = NVEC_MAX_MSG_SZ h + 4 ->
  NVEC_MAX_MSG_SZ h + 4 < 2147483648 ->
  0 <= t < 128 -> 0 <= rsz < 256 ->
  Z.of_nat (length payload) = rsz ->
  2 + rsz <= Z.of_nat (length (rx_raw m)) ->
  cmd_torcv c = [Req a] ->
  nth_error (msgs c) a = Some m ->
  rd (tx_raw m) 1 = Some t ->
  exists c',
    i2c_irqs h c (ec_write (t :: rsz :: payload)) = Ok c' /\
    nth_error (msgs c') a
    = Some {| tx_raw := tx_raw m;
              rx_raw := t :: rsz :: map u8 payload
                        ++ skipn (Z.to_nat (2 + rsz)) (rx_raw m);
              done := done m + 1 |} /\
    cmd_torcv c' = [] /\
    cmd_tosend c' = unlink (Req a) (cmd_tosend c) /\
    cmd_tosendcount c' = cmd_tosendcount c /\
    cmd_tagmap c' = nvec_free_tag (cmd_tagmap c) t /\
    gpio c' = gpio c /\ tx c' = tx c /\
    trace c' = trace c ++ [WakeUp (Z.land t NVEC_COMMAND_0_CMD_TYPE_MASK); Complete (Req a)].
Proof.
  intros Hs Haddr Hraw Holds Hlen Hmax Ht Hrsz Hpl Hdst Hq Hm Htc.
  unfold ec_write.
  change (map (fun b => (I2C_SL_IRQ, b)) (t :: rsz :: payload))
    with ((I2C_SL_IRQ, t) :: (I2C_SL_IRQ, rsz) :: map (pair I2C_SL_IRQ) payload).
  rewrite i2c_irqs_cons. rewrite <- Haddr, state0_address by exact Hs.
  rewrite bind_Ok. cbv beta iota. cbn [app].
  rewrite i2c_irqs_cons.
  rewrite state1_command by (try reflexivity; cbn [set_smbus_state cmd_scratch];
                             rewrite Hraw; simpl; lia).
  rewrite bind_Ok. cbv beta iota.
  change (rx_raw (cmd_scratch (set_smbus_state c 1))) with (rx_raw (cmd_scratch c)).
  rewrite Hraw. cbn [upd].
  rewrite i2c_irqs_cons.
  rewrite state2_size by (try reflexivity; simpl; lia).
  rewrite bind_Ok. cbv beta iota.
  assert (Hu1 : u8 t = t) by (unfold u8; apply Z.mod_small; lia).
  assert (Hu2 : u8 rsz = rsz) by (unfold u8; apply Z.mod_small; lia).
  rewrite Hu1, Hu2.
  match goal with |- context [i2c_irqs h ?x _] =>
    change x with (receiving c ([t; rsz] ++ olds ++ post) (Z.of_nat (length [t; rsz])) 4)
  end.
  rewrite Hraw in Hlen. cbn [length] in Hlen.
  rewrite (state4_store_bytes h c rsz post _ Hmax payload olds [t; rsz]);
    [|exact Holds|cbn [length]; lia|reflexivity|cbn [length app]; exact Hlen
     |cbn [length]; lia].
  set (cW := receiving c _ _ 4).
  assert (W0 : rd (rx_raw (cmd_scratch cW)) 0 = Some t) by reflexivity.
  assert (Wraw : rx_raw (cmd_scratch cW) = t :: rsz :: map u8 payload ++ post)
    by reflexivity.
  assert (W1 : rd (rx_raw (cmd_scratch cW)) 1 = Some rsz).
  { rewrite Wraw, rd_ok by (cbn [length]; lia). reflexivity. }
  rewrite i2c_irqs_cons.
  rewrite (state4_stop_response h cW t 0 eq_refl W0).
  2:{ change NVEC_COMMAND_0_PACKET_TYPE_MASK with 128.
      change NVEC_COMMAND_0_PACKET_TYPE_EVENT with 128.
      intros Hbad.
      assert (Hbit : Z.testbit (Z.land t 128) 7 = true) by (rewrite Hbad; reflexivity).
      rewrite Z.land_spec in Hbit. apply andb_prop in Hbit. destruct Hbit as [Hbit _].
      assert (Hlt : t < 2 ^ 7) by (change (2 ^ 7) with 128; lia).
      destruct (Z.eq_dec t 0) as [->|Hnz]; [discriminate|].
      rewrite Z.bits_above_log2 in Hbit; [discriminate|lia|].
      apply Z.log2_lt_pow2; lia. }
  rewrite (rx_response_match cW t rsz a m [] []); [|exact W0|exact W1|exact Hq|constructor|exact Hm|exact Htc].
  rewrite Wraw.
  rewrite memcpy_ok; [|lia|cbn [length]; rewrite length_app, length_map; lia].
  rewrite of_option_Some, bind_Ok.
  set (rr := firstn _ _ ++ skipn _ _).
  unfold complete.
  assert (Hg : get_msg (free_tag (put_msg (list_del_init cW (Req a)) (Req a) (set_rx_raw m rr)) t)
                 (Req a) = Some (set_rx_raw m rr)).
  { simpl. rewrite nth_error_upd_msg, Nat.eqb_refl, Hm. reflexivity. }
  rewrite Hg, of_option_Some, !bind_Ok. cbv beta iota. cbn [i2c_irqs].
  eexists. split; [reflexivity|].
  split.
  { unfold rr. replace (Z.to_nat (2 + rsz)) with (S (S (length payload))) by lia.
    simpl. rewrite !nth_error_upd_msg, Nat.eqb_refl, Hm. simpl.
    rewrite firstn_app, length_map, Nat.sub_diag, firstn_O, app_nil_r.
    rewrite firstn_all2 by (rewrite length_map; lia). reflexivity. }
  split.
  { simpl. rewrite Hq. simpl. destruct (Nat.eqb_spec a a); [reflexivity|congruence]. }
  split; [reflexivity|]. split; [reflexivity|]. split; [reflexivity|].
  split; [reflexivity|]. split; [reflexivity|].
  simpl. rewrite <- app_assoc. reflexivity.
Qed.

Ltac chip_simpl :=
  cbn [i2c_addr i2c_enabled cmd_tagmap cmd_tosend cmd_tosendcount cmd_torcv cmd_scratch
       tx tx_pos tx_size rx_pos ev_toprocess ev_pool ev_allocd smbus_state msgs gpio trace
       tx_raw rx_raw done
       set_i2c_enabled set_cmd_tagmap set_cmd_tosend set_cmd_tosendcount set_cmd_torcv
       set_cmd_scratch set_tx set_tx_pos set_tx_size set_rx_pos set_ev_toprocess set_ev_pool
       set_ev_allocd set_smbus_state set_msgs set_gpio set_trace set_tx_raw set_rx_raw
       set_done
       receiving reading emit gpio_set_value tx_msg_sent list_del_init msg_enqueue put_msg
       get_msg free_tag].

Lemma split_prefix (l : list Z) (k : nat) :
  (2 + k <= length l)%nat ->
  exists x0 x1 olds post, l = x0 :: x1 :: olds ++ post /\ length olds = k.
Proof.
  intros H. destruct l as [|x0 [|x1 l]]; simpl in H; try lia.
  exists x0, x1, (firstn k l), (skipn k l).
  split; [rewrite firstn_skipn; reflexivity|]. apply firstn_length_le. lia.
Qed.

(** The run of [nvec_msg_xfer] for a request that the EC reads and answers
    during the first wait. *)
Lemma msg_xfer_answered (h : nvec_h) (c : nvec_chip) (a : nat) (m : nvec_cmd)
    (sz cmd t rsz : Z) (rest payload : list Z) (tm' : tagmap) :
  smbus_state c = 0 -> i2c_addr c = EC_ADDR -> tx c = None ->
  cmd_tosend c = [] -> cmd_torcv c = [] -> cmd_tosendcount c = 0 ->
  length (cmd_tagmap c) = 16%nat ->
  Z.of_nat (length (rx_raw (cmd_scratch c))) = NVEC_MAX_MSG_SZ h + 4 ->
  NVEC_MAX_MSG_SZ h + 4 < 2147483648 ->
  nth_error (msgs c) a = Some m ->
  tx_raw m = sz :: cmd :: rest ->
  0 <= sz < 256 -> sz <= Z.of_nat (length rest) + 1 ->
  nvec_alloc_tag (cmd_tagmap c) cmd = Ok (t, tm') ->
  Z.of_nat (length payload) = rsz -> rsz < 256 ->
  2 + rsz <= NVEC_MAX_MSG_SZ h + 4 ->
  2 + rsz <= Z.of_nat (length (rx_raw m)) ->
  exists c',
    nvec_msg_xfer h c (Req a) [ec_block_read (Z.to_nat sz) ++ ec_write (t :: rsz :: payload)]
    = Ok (c', 0) /\
    nth_error (msgs c') a
    = Some {| tx_raw := sz :: t :: rest;
              rx_raw := t :: rsz :: map u8 payload ++ skipn (Z.to_nat (2 + rsz)) (rx_raw m);
              done := 0 |} /\
    cmd_tosend c' = [] /\ cmd_torcv c' = [] /\ cmd_tosendcount c' = 0 /\
    cmd_tagmap c' = nvec_free_tag tm' t /\
    gpio c' = 1 /\
    bus_bytes (trace c')
    = bus_bytes (trace c) ++ firstn (Z.to_nat (sz + 1)) (sz :: t :: rest).
Proof.
  intros Hs Haddr Htx Hq1 Hq2 Hcnt Htl Hlen Hmax Hm Hraw Hsz Hrest Halloc Hpl Hrsz Hfit Hdst.
  pose proof (nvec_alloc_tag_spec (cmd_tagmap c) cmd Htl) as Hspec.
  rewrite Halloc in Hspec. destruct Hspec as (tag & _ & _ & Ht & _).
  assert (Hu : u8 t = t) by (unfold u8; apply Z.mod_small; lia).
  unfold nvec_msg_xfer, msg_submit.
  change (get_msg c (Req a)) with (nth_error (msgs c) a).
  rewrite Hm, of_option_Some, bind_Ok.
  change (tx_raw (set_done m 0)) with (tx_raw m). rewrite Hraw.
  rewrite (rd_ok _ 1) by (cbn [length]; lia).
  change (nth (Z.to_nat 1) (sz :: cmd :: rest) 0) with cmd.
  rewrite of_option_Some, bind_Ok, Halloc, bind_Ok. cbv beta iota.
  rewrite wr_ok by (cbn [length]; lia). rewrite of_option_Some, bind_Ok, Hu.
  change (upd (sz :: cmd :: rest) (Z.to_nat 1) t) with (sz :: t :: rest).
  set (m0 := set_tx_raw (set_done m 0) (sz :: t :: rest)).
  set (c0 := msg_enqueue (put_msg (set_cmd_tagmap c tm') (Req a) m0) (Req a)).
  rewrite bind_Ok.
  cbn [wait_loop hd]. change (sint32 (10 - 1) =? 0) with false. cbv iota.
  unfold wait_for_completion_timeout.
  set (cE := emit c0 (WaitCompletion (Req a) NVEC_TIMEOUT)).
  assert (Em0 : nth_error (msgs cE) a = Some m0).
  { unfold cE, c0. chip_simpl. rewrite nth_error_upd_msg, Nat.eqb_refl, Hm. reflexivity. }
  rewrite i2c_irqs_app.
  rewrite (block_read_run h cE a [] m0 sz (Z.to_nat sz));
    [|exact Hs|exact Haddr|unfold cE, c0; chip_simpl; lia|exact Htx
     |unfold cE, c0; chip_simpl; rewrite Hcnt; discriminate
     |unfold cE, c0; chip_simpl; rewrite Hq1; reflexivity
     |exact Em0|reflexivity|exact Hsz|unfold m0; chip_simpl; cbn [length]; lia|lia].
  cbv zeta. rewrite bind_Ok.
  match goal with |- context [i2c_irqs h ?x (ec_write _)] => set (cR := x) end.
  destruct (split_prefix (rx_raw (cmd_scratch c)) (length payload)) as
    (x0 & x1 & olds & post & Hsplit & Holds); [lia|].
  destruct (response_write_run h cR a m0 t rsz 1 x1 payload olds post)
    as (c1 & Hrun & Hrec & Hrcv & Hsend & Hcount & Htag & Hgpio & _ & Htrace).
  - reflexivity.
  - exact Haddr.
  - unfold cR, cE, c0. chip_simpl. rewrite Hsplit. reflexivity.
  - exact Holds.
  - unfold cR, cE, c0. chip_simpl. rewrite upd_length. exact Hlen.
  - exact Hmax.
  - lia.
  - lia.
  - exact Hpl.
  - exact Hdst.
  - unfold cR, cE, c0. chip_simpl. rewrite Hq2. cbn [unlink app]. reflexivity.
  - exact Em0.
  - unfold m0. chip_simpl. apply rd_ok. cbn [length]. lia.
  - rewrite Hrun, bind_Ok.
    change (get_msg c1 (Req a)) with (nth_error (msgs c1) a).
    rewrite Hrec, of_option_Some, bind_Ok.
    cbn [done]. change (done m0) with 0. change (0 + 1 >? 0) with true. cbv iota.
    rewrite bind_Ok. cbv beta iota. change (negb (1 =? 0)) with true. cbv iota.
    rewrite bind_Ok. cbv beta iota. change (0 =? 0) with true.
    change (1 =? 0) with false. cbv iota.
    eexists. split; [reflexivity|].
    destruct (put_msg_queues c1 (Req a)
                (set_done {| tx_raw := tx_raw m0;
                             rx_raw := t :: rsz :: map u8 payload
                                       ++ skipn (Z.to_nat (2 + rsz)) (rx_raw m0);
                             done := 0 + 1 |} (0 + 1 - 1))) as (P1 & P2 & P3 & _).
    split.
    { cbn [put_msg msgs set_msgs]. rewrite nth_error_upd_msg, Nat.eqb_refl, Hrec.
      reflexivity. }
    split.
    { rewrite P1, Hsend. unfold cR, cE, c0. chip_simpl. rewrite Hq1.
      cbn [app unlink]. destruct (msgptr_eqb_spec (Req a) (Req a)); [reflexivity|congruence]. }
    split; [rewrite P2; exact Hrcv|].
    split.
    { rewrite P3, Hcount. unfold cR, cE, c0. chip_simpl. rewrite Hcnt. reflexivity. }
    split.
    { rewrite put_msg_tagmap, Htag. unfold cR, cE, c0. chip_simpl. reflexivity. }
    split.
    { assert (G : gpio (put_msg c1 (Req a)
                          (set_done {| tx_raw := tx_raw m0;
                                       rx_raw := t :: rsz :: map u8 payload
                                                 ++ skipn (Z.to_nat (2 + rsz)) (rx_raw m0);
                                       done := 0 + 1 |} (0 + 1 - 1))) = gpio c1)
        by reflexivity.
      rewrite G, Hgpio. unfold cR, cE, c0. chip_simpl. rewrite Hcnt. reflexivity. }
    rewrite put_msg_trace, Htrace. unfold cR, cE, c0. chip_simpl.
    rewrite !bus_bytes_app, bus_bytes_map. cbn [bus_bytes flat_map app].
    rewrite !app_nil_r.
    replace (S (Z.to_nat sz)) with (Z.to_nat (sz + 1)) by lia. reflexivity.
Qed.

(** X21.  A request queued on an idle chip and answered during the first
    wait: the EC reads the request with a block read and then writes a
    response that carries the tagged command byte.  [nvec_msg_xfer] returns
    0 after that one wait; the bytes the EC has read are [tx.raw[0 .. size]]
    with the tag in the command byte; the record holds the response in
    [rx.raw]; both queues are empty again, the depth counter is 0, the tag
    has been released and the attention line is deasserted. *)
Theorem nvec_msg_xfer_answered (h : nvec_h) (c : nvec_chip) (a : nat) (m : nvec_cmd)
    (sz cmd t rsz : Z) (rest payload : list Z) (tm' : tagmap) :
  smbus_state c = 0 -> i2c_addr c = EC_ADDR -> tx c = None ->
  cmd_tosend c = [] -> cmd_torcv c = [] -> cmd_tosendcount c = 0 ->
  length (cmd_tagmap c) = 16%nat ->
  Z.of_nat (length (rx_raw (cmd_scratch c))) = NVEC_MAX_MSG_SZ h + 4 ->
  NVEC_MAX_MSG_SZ h + 4 < 2147483648 ->
  nth_error (msgs c) a = Some m ->
  tx_raw m = sz :: cmd :: rest ->
  0 <= sz < 256 -> sz <= Z.of_nat (length rest) + 1 ->
  nvec_alloc_tag (cmd_tagmap c) cmd = Ok (t, tm') ->
  Z.of_nat (length payload) = rsz -> rsz < 256 ->
  2 + rsz <= NVEC_MAX_MSG_SZ h + 4 ->
  2 + rsz <= Z.of_nat (length (rx_raw m)) ->
  exists c',
    nvec_msg_xfer h c (Req a) [ec_block_read (Z.to_nat sz) ++ ec_write (t :: rsz :: payload)]
    = Ok (c', 0) /\
    nth_error (msgs c') a
    = Some {| tx_raw := sz :: t :: rest;
              rx_raw := t :: rsz :: map u8 payload ++ skipn (Z.to_nat (2 + rsz)) (rx_raw m);
              done := 0 |} /\
    cmd_tosend c' = [] /\ cmd_torcv c' = [] /\ cmd_tosendcount c' = 0 /\
    cmd_tagmap c' = nvec_free_tag tm' t /\
    gpio c' = 1 /\
    bus_bytes (trace c')
    = bus_bytes (trace c) ++ firstn (Z.to_nat (sz + 1)) (sz :: t :: rest).
Proof. exact (msg_xfer_answered h c a m sz cmd t rsz rest payload tm'). Qed.

Lemma nvec_msg_xfer_answered_witness :
  exists c',
    nvec_msg_xfer nvec_h_32
      (set_msgs (nvec_init nvec_h_32 EC_ADDR)
         [{| tx_raw := 2 :: 0x04 :: 0x10 :: repeat 0 32; rx_raw := repeat 0 36; done := 0 |}])
      (Req 0)
      [ec_block_read (Z.to_nat 2) ++ ec_write (0x04 :: 6 :: [0x10; 0x00; 2; 0; 5; 0])]
    = Ok (c', 0) /\
    option_map (fun m => firstn 8 (rx_raw m)) (nth_error (msgs c') 0)
    = Some [0x04; 6; 0x10; 0x00; 2; 0; 5; 0] /\
    cmd_tagmap c' = repeat 0 16 /\
    bus_bytes (trace c') = [2; 0x04; 0x10].
Proof.
  destruct (nvec_msg_xfer_answered nvec_h_32
              (set_msgs (nvec_init nvec_h_32 EC_ADDR)
                 [{| tx_raw := 2 :: 0x04 :: 0x10 :: repeat 0 32; rx_raw := repeat 0 36;
                     done := 0 |}])
              0
              {| tx_raw := 2 :: 0x04 :: 0x10 :: repeat 0 32; rx_raw := repeat 0 36; done := 0 |}
              2 0x04 0x04 6 (0x10 :: repeat 0 32) [0x10; 0x00; 2; 0; 5; 0]
              [0; 0; 0; 0; 1; 0; 0; 0; 0; 0; 0; 0; 0; 0; 0; 0])
    as (c' & Hrun & Hrec & _ & _ & _ & Htag & _ & Hbus).
  - reflexivity.
  - reflexivity.
  - reflexivity.
  - reflexivity.
  - reflexivity.
  - reflexivity.
  - reflexivity.
  - reflexivity.
  - vm_compute; reflexivity.
  - reflexivity.
  - reflexivity.
  - lia.
  - vm_compute; discriminate.
  - reflexivity.
  - reflexivity.
  - lia.
  - vm_compute; discriminate.
  - vm_compute; discriminate.
  - exists c'. split; [exact Hrun|]. split; [rewrite Hrec; reflexivity|].
    split; [rewrite Htag; reflexivity|]. rewrite Hbus. reflexivity.
Defined.

(** ** A command that is answered *)

Lemma cmd_fill_payload (h : nvec_h) (cmd subcmd n : Z) (p : list Z) :
  0 <= NVEC_MAX_MSG_SZ h < 4294967296 ->
  0 < n -> n <= Z.of_nat (length p) -> n <= NVEC_MAX_MSG_SZ h ->
  cmd_fill h cmd subcmd (Some p) n
  = Ok {| tx_raw := u8 (n + 2) :: u8 cmd :: u8 subcmd :: firstn (Z.to_nat n) p
                    ++ repeat 0 (Z.to_nat (NVEC_MAX_MSG_SZ h - n));
          rx_raw := repeat 0 (Z.to_nat (NVEC_MAX_MSG_SZ h + 4));
          done := 0 |}.
Proof.
  intros Hmax Hn Hp Hfit.
  unfold cmd_fill. cbn [tx_raw]. rewrite repeat_3 by lia.
  rewrite (wr_ok _ 0) by (cbn [length]; lia). rewrite of_option_Some, bind_Ok.
  cbn [upd Z.to_nat].
  rewrite (wr_ok _ 1) by (cbn [length]; lia). rewrite of_option_Some, bind_Ok.
  change (Z.to_nat 1) with 1%nat. cbn [upd].
  rewrite (wr_ok _ 2) by (cbn [length]; lia). rewrite of_option_Some, bind_Ok.
  change (Z.to_nat 2) with 2%nat. cbn [upd].
  destruct (Z.gtb_spec n 0); [|lia].
  cbn [skipn firstn]. rewrite u32_small by lia.
  rewrite memcpy_ok by (rewrite ?repeat_length; lia).
  rewrite of_option_Some, !bind_Ok.
  assert (Hsk : skipn (Z.to_nat n) (repeat 0 (Z.to_nat (NVEC_MAX_MSG_SZ h)))
                = repeat 0 (Z.to_nat (NVEC_MAX_MSG_SZ h - n))).
  { replace (Z.to_nat (NVEC_MAX_MSG_SZ h))
      with (Z.to_nat n + Z.to_nat (NVEC_MAX_MSG_SZ h - n))%nat by lia.
    rewrite repeat_app, skipn_app, repeat_length, Nat.sub_diag.
    rewrite skipn_all2 by (rewrite repeat_length; lia). reflexivity. }
  rewrite Hsk. reflexivity.
Qed.

(** X22.  [nvec_cmd_xfer] on an idle, enabled chip, with a payload that fits
    the packet, answered during the first wait by a response with the
    success status: the EC reads size (payload + 2), the tagged command, the
    subcommand and the payload; the call returns the smaller of the response
    payload length and [rxpayloadmaxsize], and the caller's buffer starts
    with that many bytes of the response payload, the rest of it left as it
    was. *)
Theorem nvec_cmd_xfer_round_trip (h : nvec_h) (c : nvec_chip) (cmd subcmd n t rsub : Z)
    (p data buf : list Z) (maxsize : Z) (tm' : tagmap) :
  i2c_enabled c = true ->
  smbus_state c = 0 -> i2c_addr c = EC_ADDR -> tx c = None ->
  cmd_tosend c = [] -> cmd_torcv c = [] -> cmd_tosendcount c = 0 ->
  length (cmd_tagmap c) = 16%nat ->
  Z.of_nat (length (rx_raw (cmd_scratch c))) = NVEC_MAX_MSG_SZ h + 4 ->
  NVEC_MAX_MSG_SZ h + 4 < 2147483648 ->
  0 < n -> n <= Z.of_nat (length p) -> n <= NVEC_MAX_MSG_SZ h -> n + 2 < 256 ->
  nvec_alloc_tag (cmd_tagmap c) (u8 cmd) = Ok (t, tm') ->
  Forall is_byte data ->
  Z.of_nat (length data) <= NVEC_MAX_MSG_SZ h ->
  Z.of_nat (length data) + 2 < 256 ->
  0 < Z.min (Z.of_nat (length data)) maxsize ->
  Z.min (Z.of_nat (length data)) maxsize <= Z.of_nat (length buf) ->
  let ret := Z.min (Z.of_nat (length data)) maxsize in
  exists c',
    nvec_cmd_xfer h c cmd subcmd (Some p) n (Some buf) maxsize
      [ec_block_read (Z.to_nat (n + 2))
       ++ ec_write (t :: Z.of_nat (length data) + 2 :: rsub :: NVEC_STATUS_SUCCESS :: data)]
    = Ok (c', ret, Some (firstn (Z.to_nat ret) data ++ skipn (Z.to_nat ret) buf)) /\
    bus_bytes (trace c')
    = bus_bytes (trace c) ++ n + 2 :: t :: u8 subcmd :: firstn (Z.to_nat n) p /\
    cmd_tagmap c' = nvec_free_tag tm' t /\
    cmd_tosend c' = [] /\ cmd_torcv c' = [] /\ cmd_tosendcount c' = 0.
Proof.
  intros Hen Hs Haddr Htx Hq1 Hq2 Hcnt Htl Hlen Hmax Hn Hp Hfit Hn8 Halloc Hbytes
         Hdl Hd8 Hret Hbuf ret.
  unfold nvec_cmd_xfer. rewrite Hen. cbn [negb]. cbv iota.
  rewrite cmd_fill_payload by lia. rewrite bind_Ok. cbv zeta.
  assert (Hu : u8 (n + 2) = n + 2) by (unfold u8; apply Z.mod_small; lia).
  rewrite Hu.
  set (msg := {| tx_raw := _; rx_raw := _; done := 0 |}).
  set (c0 := set_msgs c (msgs c ++ [msg])).
  destruct (msg_xfer_answered h c0 (length (msgs c)) msg (n + 2) (u8 cmd) t
              (Z.of_nat (length data) + 2)
              (u8 subcmd :: firstn (Z.to_nat n) p
               ++ repeat 0 (Z.to_nat (NVEC_MAX_MSG_SZ h - n)))
              (rsub :: NVEC_STATUS_SUCCESS :: data) tm')
    as (c' & Hrun & Hrec & Hts & Htr & Hc & Htag & _ & Hbus);
    try assumption.
  - unfold c0. cbn [msgs set_msgs]. rewrite nth_error_app2 by lia.
    rewrite Nat.sub_diag. reflexivity.
  - reflexivity.
  - lia.
  - cbn [length]. rewrite length_app, length_firstn, repeat_length. lia.
  - cbn [length]. lia.
  - lia.
  - unfold msg. cbn [rx_raw]. rewrite repeat_length. lia.
  - rewrite Hrun, bind_Ok. cbv beta iota. change (0 <? 0) with false. cbv iota.
    change (get_msg c' (Req (length (msgs c)))) with (nth_error (msgs c') (length (msgs c))).
    rewrite Hrec, of_option_Some, bind_Ok.
    unfold cmd_answer. cbn [rx_raw map app].
    rewrite (rd_ok _ 3) by (cbn [length]; lia).
    change (nth (Z.to_nat 3) _ 0) with (u8 NVEC_STATUS_SUCCESS).
    change (u8 NVEC_STATUS_SUCCESS) with NVEC_STATUS_SUCCESS.
    rewrite of_option_Some, bind_Ok.
    change (negb (NVEC_STATUS_SUCCESS =? NVEC_STATUS_SUCCESS)) with false. cbv iota.
    rewrite (rd_ok _ 1) by (cbn [length]; lia).
    change (nth (Z.to_nat 1) _ 0) with (Z.of_nat (length data) + 2).
    rewrite of_option_Some, bind_Ok. cbv zeta.
    replace (Z.of_nat (length data) + 2 - 2) with (Z.of_nat (length data)) by lia.
    assert (Hmin : (if Z.of_nat (length data) >? maxsize then maxsize
                    else Z.of_nat (length data)) = ret).
    { unfold ret. destruct (Z.gtb_spec (Z.of_nat (length data)) maxsize); lia. }
    rewrite Hmin.
    destruct (Z.eqb_spec ret 0); [unfold ret in *; lia|]. cbn [negb]. cbv iota.
    rewrite u32_small by (unfold ret; lia).
    assert (Hdata : map u8 data = data).
    { clear - Hbytes. induction Hbytes as [|x l Hx _ IH]; [reflexivity|].
      cbn [map]. rewrite IH. f_equal. unfold u8. apply Z.mod_small. exact Hx. }
    cbn [skipn]. rewrite Hdata.
    rewrite memcpy_ok; [|unfold ret; lia|rewrite length_app; unfold ret; lia].
    rewrite of_option_Some, !bind_Ok. cbv beta iota.
    rewrite firstn_app.
    replace (Z.to_nat ret - length data)%nat with 0%nat by (unfold ret; lia).
    rewrite firstn_O, app_nil_r.
    exists c'. split; [reflexivity|].
    split.
    { rewrite Hbus. unfold c0. cbn [trace set_msgs]. f_equal.
      replace (Z.to_nat (n + 2 + 1)) with (S (S (S (Z.to_nat n)))) by lia.
      cbn [firstn]. rewrite firstn_app, firstn_firstn, Nat.min_id, length_firstn.
      replace (Z.to_nat n - Nat.min (Z.to_nat n) (length p))%nat with 0%nat by lia.
      rewrite firstn_O, app_nil_r. reflexivity. }
    split; [exact Htag|]. split; [exact Hts|]. split; [exact Htr|exact Hc].
Qed.

Lemma nvec_cmd_xfer_round_trip_witness :
  exists c',
    nvec_cmd_xfer nvec_h_32 (nvec_init nvec_h_32 EC_ADDR) 0x05 0x03
      (Some [0xA1; 0xB2; 0xC3]) 2 (Some [9; 9; 9; 9]) 3
      [ec_block_read (Z.to_nat (2 + 2))
       ++ ec_write (0x05 :: Z.of_nat (length [2; 0; 5; 7]) + 2 :: 0x03 :: NVEC_STATUS_SUCCESS
                    :: [2; 0; 5; 7])]
    = Ok (c', 3, Some [2; 0; 5; 9]) /\
    bus_bytes (trace c') = [4; 0x05; 0x03; 0xA1; 0xB2].
Proof.
  destruct (nvec_cmd_xfer_round_trip nvec_h_32 (nvec_init nvec_h_32 EC_ADDR)
              0x05 0x03 2 0x05 0x03 [0xA1; 0xB2; 0xC3] [2; 0; 5; 7] [9; 9; 9; 9] 3
              [0; 0; 0; 0; 0; 1; 0; 0; 0; 0; 0; 0; 0; 0; 0; 0])
    as (c' & Hrun & Hbus & _); try reflexivity.
  - vm_compute; discriminate.
  - vm_compute; discriminate.
  - repeat constructor; unfold is_byte; lia.
  - vm_compute; discriminate.
  - vm_compute; discriminate.
  - exists c'. split; [exact Hrun|]. rewrite Hbus. reflexivity.
Defined.

(** ** Decoding of events *)

Lemma memcpy_prefix (dst src d : list Z) (n : Z) :
  memcpy dst src n = Some d -> firstn (Z.to_nat n) d = firstn (Z.to_nat n) src.
Proof. intros H. apply (memcpy_some _ _ _ _ H). Qed.

Lemma limit_payload_small (h : nvec_h) (len : Z) :
  0 <= len <= NVEC_EVENT_DATA_SZ h -> NVEC_EVENT_DATA_SZ h < 2147483648 ->
  limit_payload h len = len /\ u32 len = len.
Proof.
  intros Hl Hs. unfold limit_payload. rewrite u32_small by lia.
  destruct (Z.gtb_spec len (NVEC_EVENT_DATA_SZ h)); [lia|]. split; reflexivity.
Qed.

Lemma limit_payload_minus_one (h : nvec_h) :
  0 <= NVEC_EVENT_DATA_SZ h < 2147483648 ->
  limit_payload h (sint32 (0 - 1)) = NVEC_EVENT_DATA_SZ h /\
  u32 (NVEC_EVENT_DATA_SZ h) = NVEC_EVENT_DATA_SZ h.
Proof.
  intros Hs. unfold limit_payload. change (u32 (sint32 (0 - 1))) with 4294967295.
  destruct (Z.gtb_spec 4294967295 (NVEC_EVENT_DATA_SZ h)); [|lia].
  rewrite sint32_small by lia. rewrite u32_small by lia. split; reflexivity.
Qed.

Lemma fill_event_decoded (h : nvec_h) (e e' : nvec_event) (raw : list Z)
    (evt st pos len : Z) :
  decode_event raw = Some (evt, st, pos, len) ->
  fill_event h e raw = Some e' ->
  ev e' = evt /\ ev_status e' = st /\ ev_size e' = limit_payload h len /\
  firstn (Z.to_nat (u32 (limit_payload h len))) (ev_data e')
  = firstn (Z.to_nat (u32 (limit_payload h len))) (skipn (Z.to_nat pos) raw).
Proof.
  intros Hd H. unfold fill_event in H. rewrite Hd in H.
  destruct (memcpy _ _ _) as [d|] eqn:Hm; [|discriminate].
  inversion H; subst e'; clear H. cbn [ev ev_status ev_size ev_data].
  repeat split. apply (memcpy_prefix _ _ _ _ Hm).
Qed.

(** X23.  Events without the error flag: the status of the record is
    NVEC_STATUS_SUCCESS and the payload follows the first byte, one byte for
    the fixed 2-byte class, two bytes for the fixed 3-byte class; in the
    variable class the second byte is the length, cut down to the size of
    the record's array, and the payload follows it; the reserved class has
    no payload. *)
Theorem event_payload_by_class (h : nvec_h) (e e' : nvec_event) (cmd b1 : Z)
    (rest : list Z) :
  2 <= NVEC_EVENT_DATA_SZ h < 2147483648 ->
  0 <= b1 < 256 ->
  Z.land cmd NVEC_COMMAND_0_ERROR_FLAG_MASK = 0 ->
  fill_event h e (cmd :: b1 :: rest) = Some e' ->
  ev e' = Z.land cmd NVEC_COMMAND_0_EVENT_TYPE_MASK /\
  ev_status e' = NVEC_STATUS_SUCCESS /\
  (Z.land cmd NVEC_COMMAND_0_EVENT_LENGTH_MASK = NVEC_COMMAND_0_EVENT_LENGTH_FIXED_2BYTE ->
   ev_payload e' = [b1]) /\
  (Z.land cmd NVEC_COMMAND_0_EVENT_LENGTH_MASK = NVEC_COMMAND_0_EVENT_LENGTH_FIXED_3BYTE ->
   ev_payload e' = b1 :: firstn 1 rest) /\
  (Z.land cmd NVEC_COMMAND_0_EVENT_LENGTH_MASK = NVEC_COMMAND_0_EVENT_LENGTH_VARIABLE ->
   ev_size e' = Z.min b1 (NVEC_EVENT_DATA_SZ h) /\
   ev_payload e' = firstn (Z.to_nat (Z.min b1 (NVEC_EVENT_DATA_SZ h))) rest) /\
  (Z.land cmd NVEC_COMMAND_0_EVENT_LENGTH_MASK = NVEC_COMMAND_0_EVENT_LENGTH_RESERVED ->
   ev_payload e' = []).
Proof.
  intros Hcap Hb Hflag H.
  assert (Hd : decode_event (cmd :: b1 :: rest)
               = match
                   (if Z.land cmd NVEC_COMMAND_0_EVENT_LENGTH_MASK
                       =? NVEC_COMMAND_0_EVENT_LENGTH_FIXED_2BYTE then Some (1, 1)
                    else if Z.land cmd NVEC_COMMAND_0_EVENT_LENGTH_MASK
                            =? NVEC_COMMAND_0_EVENT_LENGTH_FIXED_3BYTE then Some (1, 2)
                    else if Z.land cmd NVEC_COMMAND_0_EVENT_LENGTH_MASK
                            =? NVEC_COMMAND_0_EVENT_LENGTH_VARIABLE then Some (2, b1)
                    else Some (1, 0))
                 with
                 | Some (pos, len) =>
                     Some (Z.land cmd NVEC_COMMAND_0_EVENT_TYPE_MASK, NVEC_STATUS_SUCCESS,
                           pos, len)
                 | None => None
                 end).
  { unfold decode_event. change (rd (cmd :: b1 :: rest) 0) with (Some cmd). cbv zeta.
    rewrite (rd_ok _ 1) by (cbn [length]; lia).
    change (nth (Z.to_nat 1) (cmd :: b1 :: rest) 0) with b1.
    rewrite Hflag. change (negb (0 =? 0)) with false.
    repeat (destruct (_ =? _); [reflexivity|]). reflexivity. }
  unfold ev_payload.
  destruct (Z.land cmd NVEC_COMMAND_0_EVENT_LENGTH_MASK =? NVEC_COMMAND_0_EVENT_LENGTH_FIXED_2BYTE)
    eqn:E0.
  { apply Z.eqb_eq in E0.
    destruct (fill_event_decoded h e e' _ _ _ _ _ Hd H) as (Hev & Hst & Hsz & Hdat).
    destruct (limit_payload_small h 1) as [L U]; [lia|lia|]. rewrite L in *.
    split; [exact Hev|]. split; [exact Hst|]. rewrite Hsz.
    change (u32 1) with 1 in Hdat.
    split; [intros _; rewrite Hdat; reflexivity|].
    rewrite E0. split; [discriminate|]. split; discriminate. }
  destruct (Z.land cmd NVEC_COMMAND_0_EVENT_LENGTH_MASK =? NVEC_COMMAND_0_EVENT_LENGTH_FIXED_3BYTE)
    eqn:E1.
  { apply Z.eqb_eq in E1.
    destruct (fill_event_decoded h e e' _ _ _ _ _ Hd H) as (Hev & Hst & Hsz & Hdat).
    destruct (limit_payload_small h 2) as [L U]; [lia|lia|]. rewrite L in *.
    split; [exact Hev|]. split; [exact Hst|]. rewrite Hsz.
    change (u32 2) with 2 in Hdat.
    rewrite E1. split; [discriminate|].
    split; [intros _; rewrite Hdat; reflexivity|]. split; discriminate. }
  destruct (Z.land cmd NVEC_COMMAND_0_EVENT_LENGTH_MASK =? NVEC_COMMAND_0_EVENT_LENGTH_VARIABLE)
    eqn:E2.
  { apply Z.eqb_eq in E2.
    destruct (fill_event_decoded h e e' _ _ _ _ _ Hd H) as (Hev & Hst & Hsz & Hdat).
    assert (L : limit_payload h b1 = Z.min b1 (NVEC_EVENT_DATA_SZ h)).
    { unfold limit_payload. rewrite u32_small by lia.
      destruct (Z.gtb_spec b1 (NVEC_EVENT_DATA_SZ h)); [rewrite sint32_small|]; lia. }
    rewrite L in *. rewrite u32_small in Hdat by lia.
    split; [exact Hev|]. split; [exact Hst|]. rewrite Hsz.
    rewrite E2. split; [discriminate|]. split; [discriminate|].
    split; [intros _; split; [reflexivity|rewrite Hdat; reflexivity]|discriminate]. }
  destruct (fill_event_decoded h e e' _ _ _ _ _ Hd H) as (Hev & Hst & Hsz & Hdat).
  destruct (limit_payload_small h 0) as [L U]; [lia|lia|]. rewrite L in *.
  split; [exact Hev|]. split; [exact Hst|]. rewrite Hsz.
  apply Z.eqb_neq in E0, E1, E2.
  split; [intros; contradiction|]. split; [intros; contradiction|].
  split; [intros; contradiction|]. intros _. reflexivity.
Qed.

Lemma event_payload_by_class_witness :
  exists e',
    fill_event nvec_h_32 (nvec_event_zero nvec_h_32) (0xC5 :: 0x03 :: 0x11 :: 0x22 :: 0x33
                                                      :: repeat 0 31) = Some e' /\
    ev e' = 0x05 /\ ev_size e' = 3 /\ ev_payload e' = [0x11; 0x22; 0x33].
Proof.
  let v := eval vm_compute in
    (fill_event nvec_h_32 (nvec_event_zero nvec_h_32)
       (0xC5 :: 0x03 :: 0x11 :: 0x22 :: 0x33 :: repeat 0 31)) in
  match v with Some ?x => pose (e' := x) end.
  assert (H : fill_event nvec_h_32 (nvec_event_zero nvec_h_32)
                (0xC5 :: 0x03 :: 0x11 :: 0x22 :: 0x33 :: repeat 0 31) = Some e')
    by (vm_compute; reflexivity).
  destruct (event_payload_by_class nvec_h_32 (nvec_event_zero nvec_h_32) e' 0xC5 0x03
              (0x11 :: 0x22 :: 0x33 :: repeat 0 31))
    as (Hev & _ & _ & _ & Hvar & _).
  - simpl; lia.
  - lia.
  - reflexivity.
  - exact H.
  - destruct (Hvar eq_refl) as [Hsz Hpl].
    exists e'. split; [exact H|]. split; [exact Hev|]. split; [exact Hsz|exact Hpl].
Defined.

(** X24.  Events with the error flag: the byte at the payload position is
    taken as the status and the length goes down by one.  In the fixed
    2-byte class nothing is left as payload; in the fixed 3-byte class one
    byte is.  Where the length was 0 before (the reserved class, or a
    variable event with a length byte of 0) it becomes -1, which the
    unsigned comparison with the array size takes as too large: the record
    then gets a payload as long as its whole array. *)
Theorem event_error_flag (h : nvec_h) (e e' : nvec_event) (cmd b1 : Z) (rest : list Z) :
  1 <= NVEC_EVENT_DATA_SZ h < 2147483648 ->
  0 <= b1 < 256 ->
  Z.land cmd NVEC_COMMAND_0_ERROR_FLAG_MASK <> 0 ->
  fill_event h e (cmd :: b1 :: rest) = Some e' ->
  ev e' = Z.land cmd NVEC_COMMAND_0_EVENT_TYPE_MASK /\
  (Z.land cmd NVEC_COMMAND_0_EVENT_LENGTH_MASK = NVEC_COMMAND_0_EVENT_LENGTH_FIXED_2BYTE ->
   ev_status e' = b1 /\ ev_size e' = 0 /\ ev_payload e' = []) /\
  (Z.land cmd NVEC_COMMAND_0_EVENT_LENGTH_MASK = NVEC_COMMAND_0_EVENT_LENGTH_FIXED_3BYTE ->
   ev_status e' = b1 /\ ev_size e' = 1 /\ ev_payload e' = firstn 1 rest) /\
  (Z.land cmd NVEC_COMMAND_0_EVENT_LENGTH_MASK = NVEC_COMMAND_0_EVENT_LENGTH_VARIABLE ->
   exists st rest',
     rest = st :: rest' /\ ev_status e' = st /\
     (1 <= b1 ->
      ev_size e' = Z.min (b1 - 1) (NVEC_EVENT_DATA_SZ h) /\
      ev_payload e' = firstn (Z.to_nat (Z.min (b1 - 1) (NVEC_EVENT_DATA_SZ h))) rest') /\
     (b1 = 0 ->
      ev_size e' = NVEC_EVENT_DATA_SZ h /\
      ev_payload e' = firstn (Z.to_nat (NVEC_EVENT_DATA_SZ h)) rest')) /\
  (Z.land cmd NVEC_COMMAND_0_EVENT_LENGTH_MASK = NVEC_COMMAND_0_EVENT_LENGTH_RESERVED ->
   ev_status e' = b1 /\ ev_size e' = NVEC_EVENT_DATA_SZ h /\
   ev_payload e' = firstn (Z.to_nat (NVEC_EVENT_DATA_SZ h)) rest).
Proof.
  intros Hcap Hb Hflag H.
  assert (Hd : decode_event (cmd :: b1 :: rest)
               = match
                   (if Z.land cmd NVEC_COMMAND_0_EVENT_LENGTH_MASK
                       =? NVEC_COMMAND_0_EVENT_LENGTH_FIXED_2BYTE then Some (1, 1)
                    else if Z.land cmd NVEC_COMMAND_0_EVENT_LENGTH_MASK
                            =? NVEC_COMMAND_0_EVENT_LENGTH_FIXED_3BYTE then Some (1, 2)
                    else if Z.land cmd NVEC_COMMAND_0_EVENT_LENGTH_MASK
                            =? NVEC_COMMAND_0_EVENT_LENGTH_VARIABLE then Some (2, b1)
                    else Some (1, 0))
                 with
                 | Some (pos, len) =>
                     match rd (cmd :: b1 :: rest) pos with
                     | Some st =>
                         Some (Z.land cmd NVEC_COMMAND_0_EVENT_TYPE_MASK, st,
                               sint32 (pos + 1), sint32 (len - 1))
                     | None => None
                     end
                 | None => None
                 end).
  { unfold decode_event. change (rd (cmd :: b1 :: rest) 0) with (Some cmd). cbv zeta.
    rewrite (rd_ok _ 1) by (cbn [length]; lia).
    change (nth (Z.to_nat 1) (cmd :: b1 :: rest) 0) with b1.
    apply Z.eqb_neq in Hflag. rewrite Hflag. cbn [negb].
    repeat (destruct (_ =? _); [reflexivity|]). reflexivity. }
  assert (R1 : rd (cmd :: b1 :: rest) 1 = Some b1)
    by (rewrite rd_ok by (cbn [length]; lia); reflexivity).
  unfold ev_payload.
  destruct (Z.land cmd NVEC_COMMAND_0_EVENT_LENGTH_MASK =? NVEC_COMMAND_0_EVENT_LENGTH_FIXED_2BYTE)
    eqn:E0.
  { apply Z.eqb_eq in E0. rewrite R1 in Hd.
    change (sint32 (1 + 1)) with 2 in Hd. change (sint32 (1 - 1)) with 0 in Hd.
    destruct (fill_event_decoded h e e' _ _ _ _ _ Hd H) as (Hev & Hst & Hsz & Hdat).
    destruct (limit_payload_small h 0) as [L U]; [lia|lia|]. rewrite L in *.
    split; [exact Hev|]. rewrite Hsz, E0.
    split; [intros _; split; [exact Hst|split; reflexivity]|].
    split; [discriminate|]. split; discriminate. }
  destruct (Z.land cmd NVEC_COMMAND_0_EVENT_LENGTH_MASK =? NVEC_COMMAND_0_EVENT_LENGTH_FIXED_3BYTE)
    eqn:E1.
  { apply Z.eqb_eq in E1. rewrite R1 in Hd.
    change (sint32 (1 + 1)) with 2 in Hd. change (sint32 (2 - 1)) with 1 in Hd.
    destruct (fill_event_decoded h e e' _ _ _ _ _ Hd H) as (Hev & Hst & Hsz & Hdat).
    destruct (limit_payload_small h 1) as [L U]; [lia|lia|]. rewrite L in *.
    change (u32 1) with 1 in Hdat.
    split; [exact Hev|]. rewrite Hsz, E1. split; [discriminate|].
    split; [intros _; split; [exact Hst|split; [reflexivity|rewrite Hdat; reflexivity]]|].
    split; discriminate. }
  destruct (Z.land cmd NVEC_COMMAND_0_EVENT_LENGTH_MASK =? NVEC_COMMAND_0_EVENT_LENGTH_VARIABLE)
    eqn:E2.
  { apply Z.eqb_eq in E2.
    destruct rest as [|st rest'].
    { unfold fill_event in H. rewrite Hd in H.
      change (rd [cmd; b1] 2) with (@None Z) in H. discriminate. }
    assert (R2 : rd (cmd :: b1 :: st :: rest') 2 = Some st)
      by (rewrite rd_ok by (cbn [length]; lia); reflexivity).
    rewrite R2 in Hd. change (sint32 (2 + 1)) with 3 in Hd.
    destruct (fill_event_decoded h e e' _ _ _ _ _ Hd H) as (Hev & Hst & Hsz & Hdat).
    split; [exact Hev|]. rewrite E2. split; [discriminate|]. split; [discriminate|].
    split; [|discriminate]. intros _. exists st, rest'.
    split; [reflexivity|]. split; [exact Hst|].
    split.
    - intros H1. rewrite sint32_small in Hsz, Hdat by lia.
      assert (L : limit_payload h (b1 - 1) = Z.min (b1 - 1) (NVEC_EVENT_DATA_SZ h)).
      { unfold limit_payload. rewrite u32_small by lia.
        destruct (Z.gtb_spec (b1 - 1) (NVEC_EVENT_DATA_SZ h)); [rewrite sint32_small|]; lia. }
      rewrite L in *. rewrite u32_small in Hdat by lia.
      rewrite Hsz. split; [reflexivity|]. rewrite Hdat. reflexivity.
    - intros ->. destruct (limit_payload_minus_one h) as [L U]; [lia|].
      rewrite L in *. rewrite U in Hdat.
      rewrite Hsz. split; [reflexivity|]. rewrite Hdat. reflexivity. }
  rewrite R1 in Hd. change (sint32 (1 + 1)) with 2 in Hd.
  destruct (fill_event_decoded h e e' _ _ _ _ _ Hd H) as (Hev & Hst & Hsz & Hdat).
  destruct (limit_payload_minus_one h) as [L U]; [lia|].
  rewrite L in *. rewrite U in Hdat.
  apply Z.eqb_neq in E0, E1, E2.
  split; [exact Hev|].
  split; [intros; contradiction|]. split; [intros; contradiction|].
  split; [intros; contradiction|]. intros _.
  split; [exact Hst|]. rewrite Hsz. split; [reflexivity|]. rewrite Hdat. reflexivity.
Qed.

Lemma event_error_flag_witness :
  exists e',
    fill_event nvec_h_32 (nvec_event_zero nvec_h_32)
      (0xF5 :: 0x07 :: map Z.of_nat (seq 1 34)) = Some e' /\
    ev_status e' = 0x07 /\ ev_size e' = 32 /\ ev_payload e' = map Z.of_nat (seq 1 32).
Proof.
  let v := eval vm_compute in
    (fill_event nvec_h_32 (nvec_event_zero nvec_h_32)
       (0xF5 :: 0x07 :: map Z.of_nat (seq 1 34))) in
  match v with Some ?x => pose (e' := x) end.
  assert (H : fill_event nvec_h_32 (nvec_event_zero nvec_h_32)
                (0xF5 :: 0x07 :: map Z.of_nat (seq 1 34)) = Some e')
    by (vm_compute; reflexivity).
  destruct (event_error_flag nvec_h_32 (nvec_event_zero nvec_h_32) e' 0xF5 0x07
              (map Z.of_nat (seq 1 34)))
    as (_ & _ & _ & _ & Hres).
  - simpl; lia.
  - lia.
  - discriminate.
  - exact H.
  - destruct (Hres eq_refl) as (Hst & Hsz & Hpl).
    exists e'. split; [exact H|]. split; [exact Hst|]. split; [exact Hsz|].
    rewrite Hpl. reflexivity.
Defined.

(** ** Traffic for other slaves *)

Lemma state0_ignores (h : nvec_h) (c : nvec_chip) (status rcvd : Z) :
  smbus_state c = 0 ->
  not_addressed c (status, rcvd) ->
  exists out,
    i2c_interrupt h c status rcvd = Ok (c, out) /\
    match out with Some b => [WriteByte b] | None => [] end = idle_reads [(status, rcvd)].
Proof.
  intros Hs Hna. unfold i2c_interrupt, idle_reads. cbn [flat_map fst app]. rewrite Hs.
  cbv zeta. change (0 =? 0) with true. cbv iota.
  destruct (Z.land status I2C_SL_IRQ =? 0) eqn:Hirq.
  { destruct (_ && _); eexists; split; reflexivity. }
  destruct (_ && _) eqn:Hmask.
  { apply andb_prop in Hmask. destruct Hmask as [Hm _]. apply Z.eqb_eq in Hm.
    apply Z.eqb_neq in Hirq. exfalso. apply Hirq.
    apply (land_sub status (Z.lor (Z.lor (Z.lor I2C_SL_IRQ END_TRANS) RCVD) RNW) I2C_SL_IRQ);
      [reflexivity|exact Hm]. }
  rewrite bind_Ok. cbv beta iota.
  assert (H0 : smbus_state0 c status
                 (if Z.land status (Z.lor RNW END_TRANS) =? 0 then rcvd else 0) = c).
  { unfold smbus_state0. destruct (Z.eqb_spec status (Z.lor I2C_SL_IRQ RCVD)) as [->|];
      [|reflexivity].
    change (Z.land (Z.lor I2C_SL_IRQ RCVD) (Z.lor RNW END_TRANS) =? 0) with true. cbv iota.
    destruct (Z.eqb_spec rcvd (i2c_addr c)) as [->|]; [|reflexivity].
    exfalso. apply Hna. split; reflexivity. }
  rewrite H0. rewrite app_nil_r.
  destruct (_ =? RNW); eexists; split; reflexivity.
Qed.

Lemma idle_reads_cons (ev : Z * Z) (evs : list (Z * Z)) :
  idle_reads (ev :: evs) = idle_reads [ev] ++ idle_reads evs.
Proof. unfold idle_reads. cbn [flat_map]. rewrite app_nil_r. reflexivity. Qed.

(** X25.  In state 0 the handler takes no notice of anything but a write
    that starts with the chip's own address: over any sequence of other bus
    events it stays as it is, and it answers every read with 0xFF. *)
Theorem idle_ignores_foreign_traffic (h : nvec_h) (c : nvec_chip) (evs : list (Z * Z)) :
  smbus_state c = 0 ->
  Forall (not_addressed c) evs ->
  i2c_irqs h c evs = Ok (set_trace c (trace c ++ idle_reads evs)).
Proof.
  intros Hs Hall. revert c Hs Hall.
  induction evs as [|[status rcvd] evs IH]; intros c Hs Hall.
  - cbn [i2c_irqs idle_reads flat_map]. rewrite app_nil_r. destruct c; reflexivity.
  - inversion Hall as [|x l Hna Hall']; subst x l.
    rewrite i2c_irqs_cons.
    destruct (state0_ignores h c status rcvd Hs Hna) as (out & Hstep & Hout).
    rewrite Hstep, bind_Ok. cbv beta iota.
    rewrite (idle_reads_cons (status, rcvd) evs).
    rewrite <- Hout.
    destruct out as [b|].
    + rewrite (IH (emit c (WriteByte b))); [|exact Hs|exact Hall'].
      cbn [emit trace set_trace app]. rewrite <- app_assoc. reflexivity.
    + rewrite (IH c Hs Hall'). reflexivity.
Qed.

Lemma idle_ignores_foreign_traffic_witness :
  i2c_irqs nvec_h_32 (nvec_init nvec_h_32 EC_ADDR)
    [(Z.lor I2C_SL_IRQ RCVD, 0x50); (I2C_SL_IRQ, 0x01);
     (Z.lor (Z.lor I2C_SL_IRQ RNW) RCVD, 0); (Z.lor I2C_SL_IRQ RNW, 0);
     (Z.lor (Z.lor I2C_SL_IRQ RNW) END_TRANS, 0)]
  = Ok (set_trace (nvec_init nvec_h_32 EC_ADDR) [WriteByte 0xff; WriteByte 0xff]).
Proof.
  apply (idle_ignores_foreign_traffic nvec_h_32 (nvec_init nvec_h_32 EC_ADDR)).
  - reflexivity.
  - repeat constructor; intros [H1 H2]; discriminate.
Defined.

(** ** The event pool under traffic *)

Lemma nth_error_replace_other {A : Type} (l : list A) (n k : nat) (y : A) :
  (n < length l)%nat -> n <> k ->
  nth_error (firstn n l ++ y :: skipn (S n) l) k = nth_error l k.
Proof.
  revert n k. induction l as [|x l IH]; intros n k Hn Hk; simpl in Hn; [lia|].
  destruct n as [|n], k as [|k]; simpl; try congruence; try reflexivity.
  apply (IH n k); lia.
Qed.

Lemma ev_inv_same (c c' : nvec_chip) :
  ev_pool c' = ev_pool c -> ev_toprocess c' = ev_toprocess c ->
  ev_allocd c' = ev_allocd c -> ev_inv c -> ev_inv c'.
Proof. unfold ev_inv. intros -> -> ->. auto. Qed.

Lemma put_msg_ev (c : nvec_chip) (q : msgptr) (x : nvec_cmd) :
  ev_pool (put_msg c q x) = ev_pool c /\
  ev_toprocess (put_msg c q x) = ev_toprocess c /\
  ev_allocd (put_msg c q x) = ev_allocd c.
Proof. destruct q; repeat split. Qed.

Lemma send_next_byte_ev (c c' : nvec_chip) (b b' : Z) :
  send_next_byte c b = Ok (c', b') -> ev_inv c -> ev_inv c'.
Proof.
  unfold send_next_byte. intros H.
  destruct (tx c); [destruct (_ <? _)|].
  - inv_bind H. inv_bind H. inversion H; subst. apply ev_inv_same; reflexivity.
  - inversion H; subst. apply ev_inv_same; reflexivity.
  - inversion H; subst. apply ev_inv_same; reflexivity.
Qed.

Lemma pick_tx_msg_ev (h : nvec_h) (c c' : nvec_chip) :
  pick_tx_msg h c = Ok c' -> ev_inv c -> ev_inv c'.
Proof.
  unfold pick_tx_msg. intros H.
  destruct (tx c); [inversion H; subst; auto|].
  inv_bind H. destruct a as [c1 msg]. inv_bind H. inv_bind H.
  inversion H; subst; clear H.
  destruct (_ =? _).
  - inv_bind E. inv_bind E. inv_bind E. inversion E; subst.
    apply ev_inv_same; reflexivity.
  - inv_bind E. inversion E; subst. apply ev_inv_same; reflexivity.
Qed.

Lemma rx_response_ev (c c' : nvec_chip) :
  rx_response c = Ok c' -> ev_inv c -> ev_inv c'.
Proof.
  unfold rx_response. intros H.
  destruct (cmd_torcv c) as [|p0 l0]; [inversion H; subst; auto|].
  bind_inv H as cmd Ecmd. bind_inv H as found Efound. destruct found as [rxmsg|];
    [|inversion H; subst; auto].
  bind_inv H as m Em. bind_inv H as sz Esz. bind_inv H as r Er.
  unfold complete in H. bind_inv H as m' Em'. inversion H; subst; clear H.
  set (c1 := put_msg (list_del_init c rxmsg) rxmsg (set_rx_raw m r)).
  destruct (put_msg_ev (free_tag c1 cmd) rxmsg (set_done m' (done m' + 1)))
    as (Q1 & Q2 & Q3).
  destruct (put_msg_ev (list_del_init c rxmsg) rxmsg (set_rx_raw m r)) as (P1 & P2 & P3).
  apply ev_inv_same.
  - cbn [emit ev_pool set_trace]. rewrite Q1. exact P1.
  - cbn [emit ev_toprocess set_trace]. rewrite Q2. exact P2.
  - cbn [emit ev_allocd set_trace]. rewrite Q3. exact P3.
Qed.

Lemma existsb_app_one (k i : Z) (q : list Z) :
  existsb (Z.eqb k) (q ++ [i]) = existsb (Z.eqb k) q || (k =? i).
Proof. rewrite existsb_app. cbn [existsb]. rewrite orb_false_r. reflexivity. Qed.

Lemma existsb_eqb_in (k : Z) (q : list Z) : existsb (Z.eqb k) q = true <-> In k q.
Proof.
  rewrite existsb_exists. split.
  - intros (x & Hx & E). apply Z.eqb_eq in E. subst. exact Hx.
  - intros H. exists k. split; [exact H|apply Z.eqb_refl].
Qed.

Lemma Ok_inj {A : Type} (a b : A) : Ok a = Ok b -> a = b.
Proof. intros H. injection H. auto. Qed.

Lemma rx_event_ev (h : nvec_h) (c c' : nvec_chip) :
  rx_event h c = Ok c' -> ev_inv c -> ev_inv c'.
Proof.
  unfold rx_event, nvec_alloc_ev_msg. intros H (Hq & Hnd & Hbits).
  destruct (scan_test_and_set 8 0 (ev_allocd c)) as [[i w']|] eqn:Hscan.
  2:{ rewrite bind_Ok in H. inversion H; subst. repeat split; assumption. }
  pose proof (scan_some _ _ _ _ _ (Z.le_refl 0) Hscan) as (Hi & Hclear & Ew).
  bind_inv H as ci Eci. destruct ci as [ca slot].
  bind_inv Eci as e0 Ee0. apply Ok_inj in Eci.
  assert (Eca : ca = fst (ca, slot)) by reflexivity.
  assert (Esl : slot = snd (ca, slot)) by reflexivity.
  rewrite <- Eci in Eca, Esl. cbn [fst snd] in Eca, Esl. subst ca slot. clear Eci.
  bind_inv H as e1 Ee1. bind_inv H as e2 Ee2. apply Ok_inj in H. subst c'.
  cbn [ev_pool set_ev_pool set_ev_allocd] in Ee1.
  rewrite (nth_error_replace _ _ _ _ Ee0) in Ee1. inversion Ee1; subst e1; clear Ee1.
  assert (Hid : ev_id e2 = i).
  { unfold fill_event in Ee2. destruct (decode_event _) as [[[[? ?] ?] ?]|]; [|discriminate].
    destruct (memcpy _ _ _); [|discriminate]. inversion Ee2; subst. reflexivity. }
  assert (Hlen : (Z.to_nat i < length (ev_pool c))%nat)
    by (apply nth_error_Some; congruence).
  assert (Hfresh : ~ In i (ev_toprocess c)).
  { intros Hin. apply existsb_eqb_in in Hin. rewrite <- Hbits, Hclear in Hin by lia.
    discriminate. }
  unfold ev_inv.
  cbn [emit ev_pool ev_toprocess ev_allocd set_trace set_ev_toprocess set_ev_pool
       set_ev_allocd].
  set (pool1 := firstn (Z.to_nat i) (ev_pool c) ++ _ :: skipn (S (Z.to_nat i)) (ev_pool c)).
  assert (Hlen1 : (Z.to_nat i < length pool1)%nat).
  { apply nth_error_Some. unfold pool1. erewrite nth_error_replace; [discriminate|exact Ee0]. }
  split; [|split].
  - apply Forall_app. split.
    + unfold ev_queue_ok in Hq. rewrite Forall_forall in Hq |- *.
      intros j Hj. destruct (Hq j Hj) as (Hj0 & e & He & Hej).
      split; [exact Hj0|]. exists e. split; [|exact Hej].
      assert (Hne : Z.to_nat i <> Z.to_nat j).
      { intros Heq. apply Hfresh. replace i with j by lia. exact Hj. }
      rewrite nth_error_replace_other by assumption.
      unfold pool1. rewrite nth_error_replace_other by assumption. exact He.
    + constructor; [|constructor]. split; [lia|]. exists e2. split; [|exact Hid].
      assert (He : exists x, nth_error pool1 (Z.to_nat i) = Some x).
      { destruct (nth_error pool1 (Z.to_nat i)) eqn:E; [eauto|].
        apply nth_error_None in E. lia. }
      destruct He as [x Hx]. exact (nth_error_replace _ _ _ _ Hx).
  - apply NoDup_app; [exact Hnd|constructor; [simpl; tauto|constructor]|].
    intros a Ha [<-|[]]. exact (Hfresh Ha).
  - intros k Hk. rewrite existsb_app_one, <- Hbits by exact Hk.
    rewrite Ew, Z.setbit_eqb by lia. rewrite (Z.eqb_sym k i). apply orb_comm.
Qed.

Lemma i2c_interrupt_ev (h : nvec_h) (c c' : nvec_chip) (status rcvd : Z)
    (out : option Z) :
  ev_inv c ->
  i2c_interrupt h c status rcvd = Ok (c', out) ->
  ev_inv c'.
Proof.
  intros Hinv. unfold i2c_interrupt. intros H.
  destruct (_ && _); [inversion H; subst; exact Hinv|].
  destruct (_ =? 0); [inversion H; subst; exact Hinv|].
  inv_bind H. destruct a as [c1 b]. inversion H; subst; clear H.
  destruct (smbus_state c =? 0).
  { inversion E; subst. apply (ev_inv_same c); auto;
      unfold smbus_state0; destruct (status =? _); try destruct (negb _); reflexivity. }
  destruct (smbus_state c =? 1).
  { inv_bind E. inversion E; subst. unfold smbus_state1 in E0. destruct (negb _).
    - inversion E0; subst. apply (ev_inv_same c); auto.
    - inv_bind E0. inversion E0; subst. apply (ev_inv_same c); auto. }
  destruct (smbus_state c =? 2).
  { unfold smbus_state2 in E.
    destruct (status =? Z.lor (Z.lor I2C_SL_IRQ RNW) RCVD).
    - inv_bind E. destruct (negb _).
      + inversion E; subst. apply (ev_inv_same c); auto.
      + inv_bind E. inv_bind E. destruct a1 as [c2 b2]. inversion E; subst; clear E.
        apply (ev_inv_same c2); try reflexivity.
        eapply send_next_byte_ev; [exact E2|].
        eapply pick_tx_msg_ev; [exact E1|].
        apply (ev_inv_same c); auto.
    - destruct (status =? I2C_SL_IRQ).
      + inv_bind E. inversion E; subst. apply (ev_inv_same c); auto.
      + inversion E; subst. apply (ev_inv_same c); auto. }
  destruct (smbus_state c =? 3).
  { unfold smbus_state3 in E.
    destruct (status =? Z.lor I2C_SL_IRQ RNW); [eapply send_next_byte_ev; eauto|].
    destruct (status =? Z.lor (Z.lor I2C_SL_IRQ RNW) END_TRANS);
      [|inversion E; subst; apply (ev_inv_same c); auto].
    inversion E; subst; clear E.
    destruct (tx c) as [p|]; [|apply (ev_inv_same c); auto].
    destruct (_ >=? _); [|apply (ev_inv_same c); auto].
    destruct (negb (msgptr_eqb p Scratch)); apply (ev_inv_same c); auto. }
  destruct (smbus_state c =? 4).
  { inv_bind E. inversion E; subst. unfold smbus_state4 in E0.
    destruct (status =? I2C_SL_IRQ).
    - inv_bind E0. destruct (_ || _).
      + inversion E0; subst. exact Hinv.
      + inv_bind E0. inversion E0; subst. apply (ev_inv_same c); auto.
    - destruct (status =? Z.lor I2C_SL_IRQ END_TRANS).
      + bind_inv E0 as cmd Ecmd. bind_inv E0 as c2 Erx. inversion E0; subst; clear E0.
        apply (ev_inv_same c2); try reflexivity.
        destruct (_ =? _).
        * eapply rx_event_ev; eauto.
        * eapply rx_response_ev; eauto.
      + inversion E0; subst. apply (ev_inv_same c); auto. }
  inversion E; subst. apply (ev_inv_same c); auto.
Qed.

(** X26.  The handler keeps the event pool consistent: if the queue holds
    records of the pool under their own index, none twice, and the slots in
    use are exactly those of the queued records, the same holds after any
    interrupt. *)
Theorem i2c_interrupt_keeps_event_pool (h : nvec_h) (c c' : nvec_chip) (status rcvd : Z)
    (out : option Z) :
  ev_inv c ->
  i2c_interrupt h c status rcvd = Ok (c', out) ->
  ev_inv c'.
Proof. exact (i2c_interrupt_ev h c c' status rcvd out). Qed.

Lemma ev_inv_init (h : nvec_h) (addr : Z) : ev_inv (nvec_init h addr).
Proof.
  split; [constructor|]. split; [constructor|]. intros k Hk. apply Z.testbit_0_l.
Qed.

Lemma i2c_interrupt_keeps_event_pool_witness :
  exists c',
    i2c_interrupt nvec_h_32
      (receiving (nvec_init nvec_h_32 EC_ADDR) (0x85 :: 0x1C :: repeat 0 34) 2 4)
      (Z.lor I2C_SL_IRQ END_TRANS) 0 = Ok (c', None) /\
    ev_toprocess c' = [0] /\ ev_inv c'.
Proof.
  let v := eval vm_compute in
    (i2c_interrupt nvec_h_32
       (receiving (nvec_init nvec_h_32 EC_ADDR) (0x85 :: 0x1C :: repeat 0 34) 2 4)
       (Z.lor I2C_SL_IRQ END_TRANS) 0) in
  match v with Ok (?x, _) => pose (c' := x) end.
  assert (H : i2c_interrupt nvec_h_32
                (receiving (nvec_init nvec_h_32 EC_ADDR) (0x85 :: 0x1C :: repeat 0 34) 2 4)
                (Z.lor I2C_SL_IRQ END_TRANS) 0 = Ok (c', None)) by (vm_compute; reflexivity).
  exists c'. split; [exact H|]. split; [reflexivity|].
  apply (i2c_interrupt_keeps_event_pool nvec_h_32
           (receiving (nvec_init nvec_h_32 EC_ADDR) (0x85 :: 0x1C :: repeat 0 34) 2 4)
           c' (Z.lor I2C_SL_IRQ END_TRANS) 0 None); [|exact H].
  apply (ev_inv_same (nvec_init nvec_h_32 EC_ADDR)); try reflexivity.
  apply ev_inv_init.
Defined.

Lemma i2c_irqs_ev (h : nvec_h) (evs : list (Z * Z)) : forall c c',
  ev_inv c -> i2c_irqs h c evs = Ok c' -> ev_inv c'.
Proof.
  induction evs as [|[status rcvd] evs IH]; intros c c' Hinv H.
  - inversion H; subst. exact Hinv.
  - rewrite i2c_irqs_cons in H. inv_bind H. destruct a as [c1 out].
    apply (IH _ _) in H; [exact H|].
    apply (ev_inv_same c1); try (destruct out; reflexivity).
    exact (i2c_interrupt_ev h c c1 status rcvd out Hinv E).
Qed.

(** X27.  No slot of the event pool is lost: starting from a consistent
    pool (as after probe), whatever arrives on the bus, a run of the worker
    afterwards calls the notifier chain once for every record queued, and
    leaves the queue empty and all slots of the pool free. *)
Theorem event_pool_never_leaks (h : nvec_h) (c c1 : nvec_chip) (evs : list (Z * Z)) :
  ev_inv c ->
  i2c_irqs h c evs = Ok c1 ->
  exists c2 calls,
    nvec_ev_dispatch c1 = Ok (c2, calls) /\
    length calls = length (ev_toprocess c1) /\
    ev_toprocess c2 = [] /\ ev_allocd c2 = 0.
Proof.
  intros Hinv Hrun. apply (i2c_irqs_ev h evs c c1 Hinv) in Hrun.
  destruct Hrun as (Hq & _ & Hbits).
  destruct (ev_dispatch_loop_drains (ev_toprocess c1) c1 [] Hq)
    as (c2 & calls & Hd & Hempty & _ & Hcalls & Hfree).
  exists c2, calls. split; [exact Hd|].
  split; [symmetry; exact (Forall2_length Hcalls)|]. split; [exact Hempty|].
  apply Z.bits_inj'. intros k Hk. rewrite Hfree, Hbits by exact Hk.
  rewrite Z.testbit_0_l. apply andb_negb_r.
Qed.

Lemma event_pool_never_leaks_witness :
  exists c1 c2 calls,
    i2c_irqs nvec_h_32 (nvec_init nvec_h_32 EC_ADDR)
      (ec_write [0x85; 0x1C] ++ ec_write [0xC1; 0x02; 0x10; 0x20]) = Ok c1 /\
    ev_allocd c1 = 3 /\
    nvec_ev_dispatch c1 = Ok (c2, calls) /\
    map fst calls = [0x05; 0x01] /\ ev_allocd c2 = 0.
Proof.
  let v := eval vm_compute in
    (i2c_irqs nvec_h_32 (nvec_init nvec_h_32 EC_ADDR)
       (ec_write [0x85; 0x1C] ++ ec_write [0xC1; 0x02; 0x10; 0x20])) in
  match v with Ok ?x => pose (c1 := x) end.
  assert (H : i2c_irqs nvec_h_32 (nvec_init nvec_h_32 EC_ADDR)
                (ec_write [0x85; 0x1C] ++ ec_write [0xC1; 0x02; 0x10; 0x20]) = Ok c1)
    by (vm_compute; reflexivity).
  destruct (event_pool_never_leaks nvec_h_32 (nvec_init nvec_h_32 EC_ADDR) c1
              (ec_write [0x85; 0x1C] ++ ec_write [0xC1; 0x02; 0x10; 0x20])
              (ev_inv_init nvec_h_32 EC_ADDR) H)
    as (c2 & calls & Hd & _ & _ & Hfree).
  exists c1, c2, calls. split; [exact H|]. split; [reflexivity|]. split; [exact Hd|].
  split; [|exact Hfree].
  vm_compute in Hd. inversion Hd; subst calls. reflexivity.
Defined.

(** ** Where the handler can leave its memory *)

Lemma send_next_byte_safe (c : nvec_chip) (b : Z) :
  (forall p, tx c = Some p ->
     exists m, get_msg c p = Some m /\ 0 <= tx_pos c /\
               tx_size c <= Z.of_nat (length (tx_raw m))) ->
  exists r, send_next_byte c b = Ok r.
Proof.
  intros Htx. unfold send_next_byte.
  destruct (tx c) as [p|]; [|eauto].
  destruct (Z.ltb_spec (tx_pos c) (tx_size c)); [|eauto].
  destruct (Htx p eq_refl) as (m & Hm & H0 & Hlen).
  rewrite Hm, of_option_Some, bind_Ok.
  rewrite rd_ok by lia. rewrite of_option_Some, bind_Ok. eauto.
Qed.

Lemma pick_tx_msg_safe (h : nvec_h) (c : nvec_chip) :
  safe_inv h c ->
  exists c', pick_tx_msg h c = Ok c' /\
    forall p, tx c' = Some p ->
      exists m, get_msg c' p = Some m /\ 0 <= tx_pos c' /\
                (tx_pos c' < tx_size c' -> tx_pos c' < Z.of_nat (length (tx_raw m))).
Proof.
  intros (_ & Hstx & _ & _ & _ & _ & Hcnt & Hrec & Htx & _).
  unfold pick_tx_msg. destruct (tx c) as [p0|] eqn:Etx.
  { exists c. split; [reflexivity|]. intros p Hp. rewrite Etx in Hp.
    destruct (Htx p Hp) as (m & Hm & H0 & Hlen). exists m. repeat split; auto. lia. }
  destruct (Z.eqb_spec (cmd_tosendcount c) 0) as [E0|Hne].
  - destruct (tx_raw (cmd_scratch c)) as [|x [|y [|z rest]]] eqn:Hraw;
      cbn [length] in Hstx; try lia.
    rewrite (wr_ok _ 0) by (cbn [length]; lia). rewrite of_option_Some, bind_Ok.
    change (Z.to_nat 0) with 0%nat. cbn [upd].
    rewrite (wr_ok _ 1) by (cbn [length]; lia). rewrite of_option_Some, bind_Ok.
    change (Z.to_nat 1) with 1%nat. cbn [upd].
    rewrite (wr_ok _ 2) by (cbn [length]; lia). rewrite of_option_Some, !bind_Ok.
    change (Z.to_nat 2) with 2%nat. cbn [upd]. cbv beta iota.
    cbn [get_msg cmd_scratch set_cmd_scratch tx_raw set_tx_raw].
    rewrite of_option_Some, bind_Ok.
    cbn [tx_raw set_tx_raw].
    change (rd (2 :: _) 0) with (Some 2). rewrite of_option_Some, bind_Ok.
    eexists. split; [reflexivity|]. intros p Hp.
    cbn [tx set_tx_size set_tx_pos set_tx] in Hp. inversion Hp; subst p.
    eexists. split; [reflexivity|].
    cbn [tx_pos tx_size set_tx_size set_tx_pos tx_raw set_tx_raw length cmd_scratch
         set_tx set_cmd_scratch]. lia.
  - unfold count_inv in Hcnt.
    destruct (cmd_tosend c) as [|p rest] eqn:Hq; [simpl in Hcnt; lia|].
    cbn [hd_error]. rewrite of_option_Some, !bind_Ok. cbv beta iota.
    cbn [app] in Hrec. inversion Hrec as [|? ? (m & Hm & Hl & _) _]; subst.
    rewrite Hm, of_option_Some, bind_Ok.
    rewrite (rd_ok _ 0) by lia. rewrite of_option_Some, bind_Ok.
    eexists. split; [reflexivity|]. intros q Hp.
    cbn [tx set_tx_size set_tx_pos set_tx] in Hp. inversion Hp; subst q.
    exists m. split; [rewrite <- Hm; apply get_msg_frame; reflexivity|].
    cbn [tx_pos set_tx_size set_tx_pos]. lia.
Qed.

Lemma send_first_byte_safe (c : nvec_chip) (b : Z) :
  (forall p, tx c = Some p ->
     exists m, get_msg c p = Some m /\ 0 <= tx_pos c /\
               (tx_pos c < tx_size c -> tx_pos c < Z.of_nat (length (tx_raw m)))) ->
  exists r, send_next_byte c b = Ok r.
Proof.
  intros Htx. unfold send_next_byte.
  destruct (tx c) as [p|]; [|eauto].
  destruct (Z.ltb_spec (tx_pos c) (tx_size c)); [|eauto].
  destruct (Htx p eq_refl) as (m & Hm & H0 & Hlen).
  rewrite Hm, of_option_Some, bind_Ok.
  rewrite rd_ok by lia. rewrite of_option_Some, bind_Ok. eauto.
Qed.

Lemma fill_event_safe (h : nvec_h) (e : nvec_event) (raw : list Z) :
  0 <= NVEC_EVENT_DATA_SZ h <= NVEC_MAX_MSG_SZ h + 1 ->
  NVEC_MAX_MSG_SZ h + 4 < 2147483648 ->
  Z.of_nat (length (ev_data e)) = NVEC_EVENT_DATA_SZ h ->
  Forall is_byte raw ->
  Z.of_nat (length raw) = NVEC_MAX_MSG_SZ h + 4 ->
  exists e', fill_event h e raw = Some e'.
Proof.
  intros Hcap Hmax Hlen Hb Hraw.
  assert (Hd : exists evt st pos len, decode_event raw = Some (evt, st, pos, len)).
  { unfold decode_event.
    rewrite (rd_ok raw 0) by lia.
    rewrite (rd_ok raw 1) by lia.
    destruct (if _ =? _ then _ else _) as [[p l]|] eqn:Hpl.
    - assert (1 <= p <= 2).
      { revert Hpl. repeat (destruct (_ =? _); [intros H; inversion H; lia|]).
        intros H; inversion H; lia. }
      destruct (negb _); [rewrite (rd_ok raw p) by lia|]; eauto.
    - revert Hpl. repeat (destruct (_ =? _); [discriminate|]). discriminate. }
  destruct Hd as (evt & st & pos & len & Hd).
  unfold fill_event. rewrite Hd.
  pose proof (decode_event_range _ _ _ _ _ Hb Hd) as [Hpos Hl].
  destruct (limit_payload_bound h len) as [B U]; [lia|lia|].
  rewrite U. rewrite memcpy_ok; [eauto|lia|].
  rewrite length_skipn. lia.
Qed.

Lemma rx_event_safe (h : nvec_h) (c : nvec_chip) :
  safe_inv h c -> exists c', rx_event h c = Ok c'.
Proof.
  intros ((Hsl & Hsb) & _ & _ & _ & Hmax & Hcap & _ & _ & _ & Hpool & Hdata).
  unfold rx_event, nvec_alloc_ev_msg.
  destruct (scan_test_and_set 8 0 (ev_allocd c)) as [[i w']|] eqn:Hscan;
    [|rewrite bind_Ok; eauto].
  pose proof (scan_some _ _ _ _ _ (Z.le_refl 0) Hscan) as (Hi & _ & _).
  destruct (nth_error (ev_pool c) (Z.to_nat i)) as [e0|] eqn:Ee0.
  2:{ apply nth_error_None in Ee0. lia. }
  rewrite of_option_Some, !bind_Ok. cbv beta iota.
  cbn [ev_pool set_ev_pool set_ev_allocd].
  rewrite (nth_error_replace _ _ _ _ Ee0), of_option_Some, bind_Ok.
  cbn [cmd_scratch set_ev_pool set_ev_allocd].
  destruct (fill_event_safe h
              {| ev_id := i; ev := ev e0; ev_status := ev_status e0;
                 ev_size := ev_size e0; ev_data := ev_data e0 |}
              (rx_raw (cmd_scratch c))) as [e' He']; try assumption.
  - cbn [ev_data]. rewrite Forall_forall in Hdata. apply Hdata.
    eapply nth_error_In. exact Ee0.
  - rewrite He', of_option_Some, bind_Ok. eauto.
Qed.

Lemma find_torcv_safe (h : nvec_h) (c : nvec_chip) (cmd : Z) (l : list msgptr) :
  Forall (record_ok h c) l ->
  exists r, find_torcv c l cmd = Ok r /\ forall p, r = Some p -> In p l.
Proof.
  induction 1 as [|p l (m & Hm & Hl & _) _ IH]; cbn [find_torcv].
  - exists None. split; [reflexivity|discriminate].
  - rewrite Hm, of_option_Some, bind_Ok.
    rewrite (rd_ok _ 1) by lia. rewrite of_option_Some, bind_Ok.
    destruct (_ =? _).
    + exists (Some p). split; [reflexivity|]. intros q Hq. inversion Hq. left. reflexivity.
    + destruct IH as (r & Hr & Hin). exists r. split; [exact Hr|].
      intros q Hq. right. apply Hin. exact Hq.
Qed.

Lemma rx_response_safe (h : nvec_h) (c : nvec_chip) :
  safe_inv h c ->
  (exists c', rx_response c = Ok c') \/
  (rx_response c = Fault /\
   exists sz, rd (rx_raw (cmd_scratch c)) 1 = Some sz /\ NVEC_MAX_MSG_SZ h + 2 < sz).
Proof.
  intros ((Hsl & Hsb) & _ & _ & H0 & Hmax & _ & _ & Hrec & _).
  unfold rx_response.
  destruct (cmd_torcv c) as [|p0 l0] eqn:Hq; [left; eauto|].
  rewrite <- Hq in *.
  rewrite (rd_ok _ 0) by lia. rewrite of_option_Some, bind_Ok.
  apply Forall_app in Hrec. destruct Hrec as [_ Hrcv].
  destruct (find_torcv_safe h c (nth (Z.to_nat 0) (rx_raw (cmd_scratch c)) 0)
              (cmd_torcv c) Hrcv) as (r & Hr & Hin).
  rewrite Hr, bind_Ok.
  destruct r as [rxmsg|]; [|left; eauto].
  specialize (Hin rxmsg eq_refl).
  rewrite Forall_forall in Hrcv. destruct (Hrcv rxmsg Hin) as (m & Hm & _ & Hrx).
  rewrite (get_msg_frame c (list_del_init c rxmsg)) by reflexivity.
  rewrite Hm, of_option_Some, bind_Ok.
  change (cmd_scratch (list_del_init c rxmsg)) with (cmd_scratch c).
  assert (Hsz : rd (rx_raw (cmd_scratch c)) 1
                = Some (nth (Z.to_nat 1) (rx_raw (cmd_scratch c)) 0)) by (apply rd_ok; lia).
  rewrite Hsz, of_option_Some, bind_Ok.
  set (sz := nth (Z.to_nat 1) (rx_raw (cmd_scratch c)) 0) in *.
  pose proof (rd_byte _ _ _ Hsb Hsz) as Hbyte.
  destruct (Z_le_gt_dec sz (NVEC_MAX_MSG_SZ h + 2)) as [Hfit|Hbig].
  - left. rewrite memcpy_ok by lia. rewrite of_option_Some, bind_Ok.
    unfold complete.
    set (c1 := put_msg (list_del_init c rxmsg) rxmsg _).
    assert (Hg : exists m', get_msg (free_tag c1 (nth (Z.to_nat 0) (rx_raw (cmd_scratch c)) 0))
                              rxmsg = Some m').
    { eexists. rewrite (get_msg_frame c1) by reflexivity.
      unfold c1. eapply get_put_same.
      rewrite (get_msg_frame c) by reflexivity. exact Hm. }
    destruct Hg as [m' Hm']. rewrite Hm', of_option_Some, bind_Ok. eauto.
  - right. rewrite memcpy_overrun by (left; lia). split; [reflexivity|].
    exists sz. split; [reflexivity|lia].
Qed.

Lemma i2c_interrupt_safe (h : nvec_h) (c : nvec_chip) (status rcvd : Z) :
  safe_inv h c ->
  (exists c' out, i2c_interrupt h c status rcvd = Ok (c', out)) \/
  (i2c_interrupt h c status rcvd = Fault /\
   smbus_state c = 4 /\ status = Z.lor I2C_SL_IRQ END_TRANS /\
   exists sz, rd (rx_raw (cmd_scratch c)) 1 = Some sz /\ NVEC_MAX_MSG_SZ h + 2 < sz).
Proof.
  intros Hinv.
  pose proof Hinv as ((Hsl & Hsb) & Hstx & Hrp & H0 & Hmax & Hcap & Hcnt & Hrec & Htx & _).
  unfold i2c_interrupt.
  destruct (_ && _); [left; eauto|].
  destruct (_ =? 0); [left; eauto|].
  cbv zeta.
  set (received := if _ =? 0 then rcvd else 0).
  destruct (Z.eqb_spec (smbus_state c) 0); [left; rewrite bind_Ok; eauto|].
  destruct (Z.eqb_spec (smbus_state c) 1).
  { left. unfold smbus_state1. destruct (negb _); [rewrite !bind_Ok; eauto|].
    rewrite wr_ok by lia. rewrite of_option_Some, !bind_Ok. eauto. }
  destruct (Z.eqb_spec (smbus_state c) 2).
  { left. unfold smbus_state2.
    destruct (status =? Z.lor (Z.lor I2C_SL_IRQ RNW) RCVD).
    - change (rx_raw (cmd_scratch (emit c (Udelay 33)))) with (rx_raw (cmd_scratch c)).
      rewrite (rd_ok _ 0) by lia. rewrite of_option_Some, bind_Ok.
      destruct (negb _); [rewrite bind_Ok; eauto|].
      destruct (pick_tx_msg_safe h (set_smbus_state (emit c (Udelay 33)) 3))
        as (c1 & Hpick & Htx1); [exact Hinv|].
      rewrite Hpick, bind_Ok.
      destruct (send_first_byte_safe c1 255 Htx1) as ([c2 b2] & Hsend).
      rewrite Hsend, !bind_Ok. eauto.
    - destruct (status =? I2C_SL_IRQ).
      + rewrite wr_ok by lia. rewrite of_option_Some, !bind_Ok. eauto.
      + rewrite bind_Ok. eauto. }
  destruct (Z.eqb_spec (smbus_state c) 3).
  { left. unfold smbus_state3.
    destruct (status =? Z.lor I2C_SL_IRQ RNW).
    - destruct (send_next_byte_safe c 255 Htx) as ([c2 b2] & Hsend).
      rewrite Hsend, bind_Ok. eauto.
    - destruct (status =? Z.lor (Z.lor I2C_SL_IRQ RNW) END_TRANS); rewrite bind_Ok; eauto. }
  destruct (Z.eqb_spec (smbus_state c) 4) as [E4|]; [|left; rewrite bind_Ok; eauto].
  unfold smbus_state4.
  destruct (Z.eqb_spec status I2C_SL_IRQ).
  { left. rewrite (rd_ok _ 1) by lia. rewrite of_option_Some, bind_Ok.
    destruct (_ || _) eqn:E; [rewrite !bind_Ok; eauto|].
    apply orb_false_elim in E. destruct E as [E _].
    rewrite Z.geb_leb in E. apply Z.leb_gt in E.
    apply u32_below in E; [|exact Hrp|lia].
    rewrite wr_ok by lia. rewrite of_option_Some, !bind_Ok. eauto. }
  destruct (Z.eqb_spec status (Z.lor I2C_SL_IRQ END_TRANS)) as [Est|];
    [|left; rewrite !bind_Ok; eauto].
  rewrite (rd_ok _ 0) by lia. rewrite of_option_Some, bind_Ok.
  destruct (_ =? NVEC_COMMAND_0_PACKET_TYPE_EVENT).
  - left. destruct (rx_event_safe h c Hinv) as [c1 H1]. rewrite H1, !bind_Ok. eauto.
  - destruct (rx_response_safe h c Hinv) as [[c1 H1]|(HF & sz & Hsz & Hbig)].
    + left. rewrite H1, !bind_Ok. eauto.
    + right. rewrite HF. split; [reflexivity|]. split; [exact E4|].
      split; [exact Est|]. exists sz. split; assumption.
Qed.

(** X28.  With the state as the handler expects it (arrays of their
    declared sizes, cursors in range, the queued records present, the
    counter equal to the queue length, the selected packet covering
    [tx_size] bytes), an interrupt stays inside the memory of the driver in
    every state and for every status and received byte, with one exception:
    the end of a write in state 4 whose size byte is above
    NVEC_MAX_MSG_SZ + 2, where the copy of the response is longer than the
    arrays. *)
Theorem i2c_interrupt_memory_safety (h : nvec_h) (c : nvec_chip) (status rcvd : Z) :
  safe_inv h c ->
  (exists c' out, i2c_interrupt h c status rcvd = Ok (c', out)) \/
  (i2c_interrupt h c status rcvd = Fault /\
   smbus_state c = 4 /\ status = Z.lor I2C_SL_IRQ END_TRANS /\
   exists sz, rd (rx_raw (cmd_scratch c)) 1 = Some sz /\ NVEC_MAX_MSG_SZ h + 2 < sz).
Proof. exact (i2c_interrupt_safe h c status rcvd). Qed.

(** ** The state between two interrupts *)

Lemma wf_inv_safe (h : nvec_h) (c : nvec_chip) : wf_inv h c -> safe_inv h c.
Proof.
  intros ((H0 & Hmax & Hcap) & Hs & Hstx & Hrp & Hq & Hrec & Htx & Hpl & Hpd).
  unfold safe_inv. split; [exact Hs|]. split; [exact Hstx|]. split; [lia|].
  split; [exact H0|]. split; [exact Hmax|]. split; [exact Hcap|].
  split; [apply Hq|]. split.
  { eapply Forall_impl; [|exact Hrec].
    intros p (a & m & sz & -> & Hm & _ & _ & _ & Hl & Hr). exists m. auto. }
  split; [|split; assumption].
  intros p Hp. destruct (Htx p Hp) as (Hpos & _ & m & Hm & Hl). exists m. auto.
Qed.

Lemma same_shape_refl (c : nvec_chip) : same_shape c c.
Proof. split; [reflexivity|]. intros b m Hm. exists m. auto. Qed.

Lemma same_shape_fields (c c' : nvec_chip) :
  tx_raw (cmd_scratch c') = tx_raw (cmd_scratch c) -> msgs c' = msgs c -> same_shape c c'.
Proof.
  intros E1 E2. split; [rewrite E1; reflexivity|]. rewrite E2.
  intros b m Hm. exists m. auto.
Qed.

Lemma wf_record_shape (h : nvec_h) (c c' : nvec_chip) (p : msgptr) :
  same_shape c c' -> wf_record h c p -> wf_record h c' p.
Proof.
  intros [_ Hs] (a & m & sz & -> & Hm & Hsz & Hb & Hl & Hl2 & Hr).
  destruct (Hs a m Hm) as (m' & Hm' & Et & Er).
  exists a, m', sz. rewrite Et, Er. auto 10.
Qed.

Lemma get_msg_shape (c c' : nvec_chip) (p : msgptr) (m : nvec_cmd) :
  same_shape c c' -> get_msg c p = Some m ->
  exists m', get_msg c' p = Some m' /\ length (tx_raw m') = length (tx_raw m).
Proof.
  intros [Hs Hm]. destruct p as [|a]; cbn [get_msg].
  - intros H. inversion H; subst. eexists. split; [reflexivity|exact Hs].
  - intros H. destruct (Hm a m H) as (m' & Hm' & Et & _). exists m'. rewrite Et. auto.
Qed.

(** A step that keeps the queues among those of [c], the shape of the
    records, and the rest of the invariant. *)
Lemma wf_step (h : nvec_h) (c c' : nvec_chip) :
  wf_inv h c ->
  scratch_rx_ok h c' -> isr_inv c' -> same_shape c c' ->
  -2147483648 <= rx_pos c' <= NVEC_MAX_MSG_SZ h + 4 ->
  (forall p, In p (cmd_tosend c' ++ cmd_torcv c') -> In p (cmd_tosend c ++ cmd_torcv c)) ->
  tx_covered c' ->
  length (ev_pool c') = 8%nat ->
  Forall (fun e => Z.of_nat (length (ev_data e)) = NVEC_EVENT_DATA_SZ h) (ev_pool c') ->
  wf_inv h c'.
Proof.
  intros (Hc & _ & Hstx & _ & _ & Hrec & _) Hs Hq Hsh Hrp Hsub Htx Hpl Hpd.
  split; [exact Hc|]. split; [exact Hs|].
  split; [rewrite (proj1 Hsh); exact Hstx|]. split; [exact Hrp|]. split; [exact Hq|].
  split; [|split; [exact Htx|split; assumption]].
  rewrite Forall_forall in Hrec |- *. intros p Hp.
  apply (wf_record_shape h c c' p Hsh). apply Hrec. apply Hsub. exact Hp.
Qed.

Lemma tx_covered_shape (c c' : nvec_chip) :
  same_shape c c' -> tx c' = tx c -> tx_pos c' = tx_pos c -> tx_size c' = tx_size c ->
  tx_covered c -> tx_covered c'.
Proof.
  intros Hsh E1 E2 E3 Htx p Hp. rewrite E1 in Hp. rewrite E2, E3.
  destruct (Htx p Hp) as (H0 & Hmax & m & Hm & Hl).
  destruct (get_msg_shape c c' p m Hsh Hm) as (m' & Hm' & El).
  split; [exact H0|]. split; [exact Hmax|]. exists m'. split; [exact Hm'|]. lia.
Qed.

(** A byte written into the scratch receive buffer, with a new cursor. *)
Lemma wf_scratch_write (h : nvec_h) (c : nvec_chip) (r : list Z) (i v pos : Z) :
  wf_inv h c ->
  wr (rx_raw (cmd_scratch c)) i (u8 v) = Some r ->
  -2147483648 <= pos <= NVEC_MAX_MSG_SZ h + 4 ->
  wf_inv h (set_rx_pos (set_cmd_scratch c (set_rx_raw (cmd_scratch c) r)) pos).
Proof.
  intros Hinv Hw Hpos.
  pose proof Hinv as (_ & Hs & _ & _ & Hq & _ & Htx & Hpl & Hpd).
  apply (wf_step h c); try assumption.
  - eapply scratch_rx_ok_wr; [exact Hs|exact Hw|reflexivity].
  - apply same_shape_fields; reflexivity.
  - auto.
  - apply (tx_covered_shape c); try reflexivity; [|exact Htx].
    apply same_shape_fields; reflexivity.
Qed.

Lemma wf_send_next_byte (h : nvec_h) (c c' : nvec_chip) (b b' : Z) :
  wf_inv h c -> send_next_byte c b = Ok (c', b') -> wf_inv h c'.
Proof.
  intros Hinv H. unfold send_next_byte in H.
  destruct (tx c) as [p|] eqn:Etx; [|apply Ok_inj in H; inversion H; subst; exact Hinv].
  destruct (Z.ltb_spec (tx_pos c) (tx_size c));
    [|apply Ok_inj in H; inversion H; subst; exact Hinv].
  bind_inv H as m Em. bind_inv H as x Ex. apply Ok_inj in H.
  assert (Ec : c' = set_tx_pos c (sint32 (tx_pos c + 1))) by congruence. subst c'.
  pose proof Hinv as (_ & Hs & _ & Hrp & Hq & _ & Htx & Hpl & Hpd).
  destruct (Htx p Etx) as (Hp0 & Hmax & m0 & Hm0 & Hl).
  apply (wf_step h c); try assumption; try (exact Hs); try (exact Hq).
  - apply same_shape_fields; reflexivity.
  - auto.
  - intros q Hq'. cbn [tx set_tx_pos] in Hq'. rewrite Etx in Hq'. inversion Hq'; subst q.
    cbn [tx_pos tx_size set_tx_pos]. rewrite sint32_small by lia.
    split; [lia|]. split; [exact Hmax|]. exists m0. split; [exact Hm0|exact Hl].
Qed.

Lemma Some_inj {A : Type} (a b : A) : Some a = Some b -> a = b.
Proof. intros H. injection H. auto. Qed.

Lemma wr_length (a r : list Z) (i v : Z) : wr a i v = Some r -> length r = length a.
Proof.
  unfold wr. destruct (_ && _); [|discriminate]. intros H. inversion H. apply upd_length.
Qed.

Lemma wf_pick_tx_msg (h : nvec_h) (c c' : nvec_chip) :
  wf_inv h c -> pick_tx_msg h c = Ok c' -> wf_inv h c'.
Proof.
  intros Hinv H.
  pose proof Hinv as (_ & Hs & Hstx & Hrp & Hq & Hrec & Htx & Hpl & Hpd).
  pose proof (pick_tx_msg_inv h c c' H Hq) as Hq1.
  pose proof (scratch_rx_ok_same h c c' Hs (pick_tx_msg_rx h c c' H)) as Hs1.
  unfold pick_tx_msg in H.
  destruct (tx c) as [p0|] eqn:Etx; [apply Ok_inj in H; subst; exact Hinv|].
  bind_inv H as cm Ecm. destruct cm as [c1 msg].
  bind_inv H as m Em. bind_inv H as sz Esz. apply Ok_inj in H. subst c'.
  destruct (Z.eqb_spec (cmd_tosendcount c) 0).
  - destruct (tx_raw (cmd_scratch c)) as [|x [|y [|z rest]]] eqn:Eraw;
      cbn [length] in Hstx; try lia.
    rewrite (wr_ok _ 0) in Ecm by (cbn [length]; lia).
    rewrite of_option_Some, bind_Ok in Ecm.
    change (Z.to_nat 0) with 0%nat in Ecm. cbn [upd] in Ecm.
    rewrite (wr_ok _ 1) in Ecm by (cbn [length]; lia).
    rewrite of_option_Some, bind_Ok in Ecm.
    change (Z.to_nat 1) with 1%nat in Ecm. cbn [upd] in Ecm.
    rewrite (wr_ok _ 2) in Ecm by (cbn [length]; lia).
    rewrite of_option_Some, bind_Ok in Ecm.
    change (Z.to_nat 2) with 2%nat in Ecm. cbn [upd] in Ecm.
    apply Ok_inj in Ecm.
    set (r3 := 2 :: u8 (NVEC_CMD_CONTROL h) :: u8 (NVEC_CMD_CONTROL_NOOPERATION h) :: rest)
      in *.
    assert (Ec1 : c1 = set_cmd_scratch c (set_tx_raw (cmd_scratch c) r3)) by congruence.
    assert (Emsg : msg = Scratch) by congruence. subst c1 msg. clear Ecm.
    cbn [get_msg cmd_scratch set_cmd_scratch] in Em. apply Some_inj in Em. subst m.
    cbn [tx_raw set_tx_raw] in Esz.
    assert (Hsz : sz = 2) by (unfold r3 in Esz; change (rd (2 :: _) 0) with (Some 2) in Esz;
                              congruence).
    subst sz.
    apply (wf_step h c); try assumption.
    + split; [cbn [cmd_scratch set_tx_size set_tx_pos set_tx set_cmd_scratch tx_raw
                   set_tx_raw]; rewrite Eraw; reflexivity|].
      intros b m Hm. exists m. auto.
    + auto.
    + intros q Hq'. cbn [tx set_tx_size set_tx_pos set_tx] in Hq'.
      inversion Hq'; subst q.
      cbn [tx_pos tx_size set_tx_size set_tx_pos]. split; [lia|]. split; [lia|].
      eexists. split; [reflexivity|].
      cbn [cmd_scratch set_tx_size set_tx_pos set_tx set_cmd_scratch tx_raw set_tx_raw].
      unfold r3. cbn [length]. lia.
  - bind_inv Ecm as p Ep. apply Ok_inj in Ecm.
    assert (Ec1 : c1 = c) by congruence. assert (Emsg : msg = p) by congruence.
    subst c1 msg. clear Ecm.
    destruct (cmd_tosend c) as [|p' rest] eqn:Eq; [discriminate|].
    cbn [hd_error] in Ep. inversion Ep; subst p'; clear Ep.
    cbn [app] in Hrec. inversion Hrec as [|? ? (a & m0 & sz0 & -> & Hm0 & Hsz0 & Hb & Hl & _) _];
      subst.
    cbn [get_msg] in Em. rewrite Hm0 in Em. inversion Em; subst m0; clear Em.
    rewrite Hsz0 in Esz. inversion Esz; subst sz0; clear Esz.
    apply (wf_step h c); try assumption.
    + apply same_shape_fields; reflexivity.
    + auto.
    + intros q Hq'. cbn [tx set_tx_size set_tx_pos set_tx] in Hq'.
      inversion Hq'; subst q.
      cbn [tx_pos tx_size set_tx_size set_tx_pos]. split; [lia|]. split; [lia|].
      exists m. split; [exact Hm0|exact Hl].
Qed.

Lemma wf_smbus_state3 (h : nvec_h) (c c' : nvec_chip) (status b b' : Z) :
  wf_inv h c -> smbus_state3 c status b = Ok (c', b') -> wf_inv h c'.
Proof.
  intros Hinv H.
  pose proof Hinv as (_ & Hs & Hstx & Hrp & Hq & Hrec & Htx & Hpl & Hpd).
  pose proof (smbus_state3_inv c c' status b b' H Hq) as Hq1.
  pose proof (scratch_rx_ok_same h c c' Hs (smbus_state3_rx c c' status b b' H)) as Hs1.
  unfold smbus_state3 in H.
  destruct (status =? Z.lor I2C_SL_IRQ RNW); [exact (wf_send_next_byte h c c' b b' Hinv H)|].
  destruct (status =? Z.lor (Z.lor I2C_SL_IRQ RNW) END_TRANS);
    [|apply Ok_inj in H; inversion H; subst; exact Hinv].
  apply Ok_inj in H.
  destruct (tx c) as [p|] eqn:Etx; [|inversion H; subst; exact Hinv].
  destruct (tx_pos c >=? tx_size c).
  - destruct (msgptr_eqb_spec p Scratch) as [->|Hne]; cbn [negb] in H.
    + assert (Ec : c' = set_smbus_state (set_tx c None) 0) by congruence. subst c'.
      apply (wf_step h c); try assumption.
      * apply same_shape_fields; reflexivity.
      * auto.
      * intros q Hq'. discriminate.
    + assert (Ec : c' = set_smbus_state (set_tx (tx_msg_sent c p) None) 0) by congruence.
      subst c'.
      assert (Hin : In p (cmd_tosend c)) by (apply Hq; assumption).
      apply (wf_step h c); try assumption.
      * apply same_shape_fields; reflexivity.
      * intros q Hq'.
        cbn [cmd_tosend cmd_torcv set_smbus_state set_tx tx_msg_sent gpio_set_value emit
             set_trace set_gpio set_cmd_tosendcount set_cmd_torcv list_del_init
             set_cmd_tosend] in Hq'.
        apply in_app_or in Hq'. destruct Hq' as [Hq'|Hq'].
        { apply in_or_app. left. eapply in_unlink. exact Hq'. }
        apply in_app_or in Hq'. destruct Hq' as [Hq'|[<-|[]]].
        { apply in_or_app. right. eapply in_unlink. exact Hq'. }
        apply in_or_app. left. exact Hin.
      * intros q Hq'. discriminate.
  - assert (Ec : c' = set_smbus_state (gpio_set_value (set_tx_pos c 0) 0) 0) by congruence.
    subst c'.
    apply (wf_step h c); try assumption.
    + apply same_shape_fields; reflexivity.
    + auto.
    + intros q Hq'. cbn [tx set_smbus_state gpio_set_value emit set_trace set_gpio set_tx_pos]
        in Hq'.
      destruct (Htx q Hq') as (_ & Hmax & m & Hm & Hl).
      split; [reflexivity|]. split; [exact Hmax|]. exists m. split; [exact Hm|exact Hl].
Qed.

Lemma replace_length {A : Type} (l : list A) (n : nat) (y : A) :
  (n < length l)%nat -> length (firstn n l ++ y :: skipn (S n) l) = length l.
Proof.
  intros H. rewrite length_app, length_firstn. cbn [length]. rewrite length_skipn. lia.
Qed.

Lemma replace_Forall {A : Type} (P : A -> Prop) (l : list A) (n : nat) (y : A) :
  Forall P l -> P y -> Forall P (firstn n l ++ y :: skipn (S n) l).
Proof.
  intros Hl Hy. rewrite <- (firstn_skipn n l) in Hl. apply Forall_app in Hl.
  apply Forall_app. split; [apply Hl|]. constructor; [exact Hy|].
  destruct Hl as [_ Hl]. rewrite <- (firstn_skipn 1 (skipn n l)) in Hl.
  apply Forall_app in Hl. rewrite skipn_skipn in Hl. apply Hl.
Qed.

Lemma wf_rx_event (h : nvec_h) (c c' : nvec_chip) :
  wf_inv h c -> rx_event h c = Ok c' -> wf_inv h c'.
Proof.
  intros Hinv H.
  pose proof Hinv as (_ & Hs & Hstx & Hrp & Hq & Hrec & Htx & Hpl & Hpd).
  pose proof (rx_event_inv h c c' H Hq) as Hq1.
  assert (Hs1 : scratch_rx_ok h c').
  { apply (scratch_rx_ok_same h c); [exact Hs|].
    rewrite (rx_event_scratch h c c' H). reflexivity. }
  unfold rx_event, nvec_alloc_ev_msg in H.
  destruct (scan_test_and_set 8 0 (ev_allocd c)) as [[i w']|] eqn:Hscan.
  2:{ rewrite bind_Ok in H. apply Ok_inj in H. subst c'. exact Hinv. }
  bind_inv H as ci Eci. destruct ci as [ca slot].
  bind_inv Eci as e0 Ee0. apply Ok_inj in Eci.
  assert (Eca : ca = fst (ca, slot)) by reflexivity.
  assert (Esl : slot = snd (ca, slot)) by reflexivity.
  rewrite <- Eci in Eca, Esl. cbn [fst snd] in Eca, Esl. subst ca slot. clear Eci.
  bind_inv H as e1 Ee1. bind_inv H as e2 Ee2. apply Ok_inj in H. subst c'.
  cbn [ev_pool set_ev_pool set_ev_allocd] in Ee1.
  rewrite (nth_error_replace _ _ _ _ Ee0) in Ee1. apply Some_inj in Ee1. subst e1.
  assert (Hlen : (Z.to_nat i < length (ev_pool c))%nat)
    by (apply nth_error_Some; congruence).
  assert (He0 : Z.of_nat (length (ev_data e0)) = NVEC_EVENT_DATA_SZ h).
  { rewrite Forall_forall in Hpd. apply Hpd. eapply nth_error_In. exact Ee0. }
  assert (He2 : Z.of_nat (length (ev_data e2)) = NVEC_EVENT_DATA_SZ h).
  { unfold fill_event in Ee2. destruct (decode_event _) as [[[[? ?] ?] ?]|]; [|discriminate].
    destruct (memcpy _ _ _) as [d|] eqn:Hm; [|discriminate].
    apply Some_inj in Ee2. subst e2. cbn [ev_data] in *.
    apply memcpy_some in Hm. destruct Hm as (_ & Hm & _). rewrite Hm. exact He0. }
  cbn [ev_pool set_ev_pool set_ev_allocd].
  set (pool1 := firstn (Z.to_nat i) (ev_pool c) ++ _ :: skipn (S (Z.to_nat i)) (ev_pool c))
    in *.
  assert (Hl1 : length pool1 = length (ev_pool c)) by (apply replace_length; exact Hlen).
  assert (Hd1 : Forall (fun e => Z.of_nat (length (ev_data e)) = NVEC_EVENT_DATA_SZ h) pool1)
    by (apply replace_Forall; [exact Hpd|exact He0]).
  apply (wf_step h c); try assumption.
  - apply same_shape_fields; reflexivity.
  - auto.
  - cbn [emit ev_pool set_trace set_ev_toprocess set_ev_pool].
    rewrite replace_length by lia. lia.
  - cbn [emit ev_pool set_trace set_ev_toprocess set_ev_pool].
    apply replace_Forall; assumption.
Qed.

Lemma put_msg_cursor (c : nvec_chip) (q : msgptr) (x : nvec_cmd) :
  rx_pos (put_msg c q x) = rx_pos c /\ tx_pos (put_msg c q x) = tx_pos c /\
  tx_size (put_msg c q x) = tx_size c.
Proof. destruct q; repeat split. Qed.

Lemma wf_rx_response (h : nvec_h) (c c' : nvec_chip) :
  wf_inv h c -> rx_response c = Ok c' -> wf_inv h c'.
Proof.
  intros Hinv H.
  pose proof Hinv as (_ & Hs & Hstx & Hrp & Hq & Hrec & Htx & Hpl & Hpd).
  pose proof (rx_response_inv c c' H Hq) as Hq1.
  pose proof (rx_response_scratch_ok h c c' Hs H) as Hs1.
  unfold rx_response in H.
  destruct (cmd_torcv c) as [|p0 l0] eqn:Eq; [apply Ok_inj in H; subst; exact Hinv|].
  rewrite <- Eq in *. clear Eq.
  bind_inv H as cmd Ecmd. bind_inv H as found Efound. destruct found as [rxmsg|];
    [|apply Ok_inj in H; subst; exact Hinv].
  bind_inv H as m Em. bind_inv H as sz Esz. bind_inv H as r Er.
  unfold complete in H. bind_inv H as m' Em'. apply Ok_inj in H. subst c'.
  apply find_torcv_in in Efound.
  assert (Hw : wf_record h c rxmsg).
  { rewrite Forall_forall in Hrec. apply Hrec. apply in_or_app. right. exact Efound. }
  destruct Hw as (a & m0 & sz0 & -> & Hm0 & _).
  change (get_msg (list_del_init c (Req a)) (Req a)) with (nth_error (msgs c) a) in Em.
  rewrite Hm0 in Em. apply Some_inj in Em. subst m0.
  cbn [get_msg free_tag emit msgs set_trace set_cmd_tagmap put_msg set_msgs list_del_init
       set_cmd_torcv set_cmd_tosend] in Em'.
  rewrite nth_error_upd_msg, Nat.eqb_refl, Hm0 in Em'. cbn [option_map] in Em'.
  apply Some_inj in Em'. subst m'.
  apply memcpy_some in Er. destruct Er as (_ & Hlr & _).
  apply (wf_step h c); try assumption.
  - split; [reflexivity|].
    intros b mb Hmb.
    cbn [msgs emit set_trace put_msg set_msgs free_tag set_cmd_tagmap list_del_init
         set_cmd_torcv set_cmd_tosend].
    rewrite !nth_error_upd_msg.
    destruct (Nat.eqb_spec a b) as [->|Hne].
    + rewrite Hmb. cbn [option_map]. eexists. split; [reflexivity|].
      assert (mb = m) by congruence. subst mb.
      cbn [tx_raw rx_raw set_done set_rx_raw]. split; [reflexivity|exact Hlr].
    + exists mb. auto.
  - intros q Hq'.
    cbn [cmd_tosend cmd_torcv emit set_trace put_msg set_msgs free_tag set_cmd_tagmap
         list_del_init set_cmd_torcv set_cmd_tosend] in Hq'.
    apply in_app_or in Hq'. apply in_or_app.
    destruct Hq' as [Hq'|Hq']; [left|right]; eapply in_unlink; exact Hq'.
  - intros q Hq'.
    cbn [tx emit set_trace put_msg set_msgs free_tag set_cmd_tagmap list_del_init
         set_cmd_torcv set_cmd_tosend] in Hq'.
    destruct (Htx q Hq') as (Hp0 & Hmax & mq & Hmq & Hl).
    split; [exact Hp0|]. split; [exact Hmax|].
    destruct q as [|b].
    + exists mq. split; [exact Hmq|exact Hl].
    + cbn [get_msg msgs emit set_trace put_msg set_msgs free_tag set_cmd_tagmap
           list_del_init set_cmd_torcv set_cmd_tosend] in Hmq |- *.
      rewrite !nth_error_upd_msg.
      destruct (Nat.eqb_spec a b) as [->|Hne].
      * rewrite Hmq. cbn [option_map]. eexists. split; [reflexivity|].
        assert (mq = m) by congruence. subst mq. exact Hl.
      * exists mq. split; [exact Hmq|exact Hl].
Qed.

Lemma i2c_interrupt_wf (h : nvec_h) (c c' : nvec_chip) (status rcvd : Z) (out : option Z) :
  wf_inv h c -> i2c_interrupt h c status rcvd = Ok (c', out) -> wf_inv h c'.
Proof.
  intros Hinv H.
  pose proof Hinv as ((H0 & Hmax & _) & (Hsl & _) & _ & Hrp & _).
  unfold i2c_interrupt in H.
  destruct (_ && _); [apply Ok_inj in H; inversion H; subst; exact Hinv|].
  destruct (_ =? 0); [apply Ok_inj in H; inversion H; subst; exact Hinv|].
  cbv zeta in H. bind_inv H as cs E. destruct cs as [c1 b]. apply Ok_inj in H.
  assert (Ec : c' = c1) by congruence. subst c1. clear H.
  destruct (smbus_state c =? 0).
  { apply Ok_inj in E. assert (Ec : c' = smbus_state0 c status
      (if Z.land status (Z.lor RNW END_TRANS) =? 0 then rcvd else 0)) by congruence.
    subst c'. unfold smbus_state0.
    destruct (status =? _); [destruct (negb _)|]; exact Hinv. }
  destruct (smbus_state c =? 1).
  { bind_inv E as c2 E1. apply Ok_inj in E. assert (Ec : c' = c2) by congruence. subst c2.
    unfold smbus_state1 in E1. destruct (negb _).
    - apply Ok_inj in E1. subst c'. exact Hinv.
    - bind_inv E1 as r Er. apply Ok_inj in E1. subst c'.
      exact (wf_scratch_write h c r 0 _ (rx_pos c) Hinv Er Hrp). }
  destruct (smbus_state c =? 2).
  { unfold smbus_state2 in E.
    destruct (status =? Z.lor (Z.lor I2C_SL_IRQ RNW) RCVD).
    - bind_inv E as cmd Ecmd. destruct (negb _).
      + apply Ok_inj in E. assert (Ec : c' = set_smbus_state (emit c (Udelay 33)) 0)
          by congruence. subst c'. exact Hinv.
      + bind_inv E as c2 E2. bind_inv E as cb E3. destruct cb as [c3 b3].
        apply Ok_inj in E. assert (Ec : c' = gpio_set_value c3 1) by congruence. subst c'.
        assert (H2 : wf_inv h c2)
          by (apply (wf_pick_tx_msg h (set_smbus_state (emit c (Udelay 33)) 3) c2 Hinv E2)).
        exact (wf_send_next_byte h c2 c3 _ _ H2 E3).
    - destruct (status =? I2C_SL_IRQ).
      + bind_inv E as r Er. apply Ok_inj in E.
        assert (Ec : c' = set_smbus_state
                            (set_rx_pos (set_cmd_scratch c (set_rx_raw (cmd_scratch c) r)) 2) 4)
          by congruence. subst c'.
        apply (wf_scratch_write h c r 1 _ 2 Hinv Er). lia.
      + apply Ok_inj in E. assert (Ec : c' = set_smbus_state c 0) by congruence.
        subst c'. exact Hinv. }
  destruct (smbus_state c =? 3); [exact (wf_smbus_state3 h c c' status _ _ Hinv E)|].
  destruct (smbus_state c =? 4).
  { bind_inv E as c2 E1. apply Ok_inj in E. assert (Ec : c' = c2) by congruence. subst c2.
    unfold smbus_state4 in E1.
    destruct (status =? I2C_SL_IRQ).
    - bind_inv E1 as sz Esz. destruct (_ || _) eqn:Econd.
      + apply Ok_inj in E1. subst c'. exact Hinv.
      + bind_inv E1 as r Er. apply Ok_inj in E1. subst c'.
        apply orb_false_elim in Econd. destruct Econd as [Econd _].
        rewrite Z.geb_leb in Econd. apply Z.leb_gt in Econd.
        apply u32_below in Econd; [|lia|lia].
        change (rx_pos (set_cmd_scratch c _)) with (rx_pos c).
        rewrite sint32_small by lia.
        apply (wf_scratch_write h c r (rx_pos c) _ (rx_pos c + 1) Hinv Er). lia.
    - destruct (status =? Z.lor I2C_SL_IRQ END_TRANS).
      + bind_inv E1 as cmd Ecmd. bind_inv E1 as c2 Erx. apply Ok_inj in E1. subst c'.
        destruct (_ =? _).
        * exact (wf_rx_event h c c2 Hinv Erx).
        * exact (wf_rx_response h c c2 Hinv Erx).
      + apply Ok_inj in E1. subst c'. exact Hinv. }
  apply Ok_inj in E. assert (Ec : c' = set_smbus_state c 0) by congruence. subst c'.
  exact Hinv.
Qed.

(** X29.  The state the handler expects is the state it leaves behind: if
    the arrays have their sizes, the cursors are in range, the queues are
    consistent, the queued records are well formed and the selected packet
    covers [tx_size] bytes before an interrupt, the same holds after it. *)
Theorem handler_keeps_its_state (h : nvec_h) (c c' : nvec_chip) (status rcvd : Z)
    (out : option Z) :
  wf_inv h c -> i2c_interrupt h c status rcvd = Ok (c', out) -> wf_inv h c'.
Proof. exact (i2c_interrupt_wf h c c' status rcvd out). Qed.

Lemma wf_inv_init (h : nvec_h) (addr : Z) :
  0 <= NVEC_MAX_MSG_SZ h -> NVEC_MAX_MSG_SZ h + 4 < 2147483648 ->
  0 <= NVEC_EVENT_DATA_SZ h <= NVEC_MAX_MSG_SZ h + 1 ->
  wf_inv h (nvec_init h addr).
Proof.
  intros H0 Hmax Hcap. unfold wf_inv.
  split; [auto|]. split.
  { split; cbn [nvec_init cmd_scratch nvec_cmd_zero rx_raw].
    - rewrite repeat_length. lia.
    - apply Forall_forall. intros x Hx. apply repeat_spec in Hx. subst. unfold is_byte. lia. }
  split.
  { cbn [nvec_init cmd_scratch nvec_cmd_zero tx_raw]. rewrite repeat_length. lia. }
  split; [cbn [nvec_init rx_pos]; lia|].
  split.
  { split; [constructor|]. split; [reflexivity|]. split; [cbn; lia|discriminate]. }
  split; [constructor|]. split; [intros p Hp; discriminate|].
  split; [reflexivity|].
  cbn [nvec_init ev_pool]. apply Forall_forall. intros e He. apply repeat_spec in He.
  subst e. cbn [nvec_event_zero ev_data]. rewrite repeat_length. lia.
Qed.

Lemma handler_keeps_its_state_witness :
  exists c',
    i2c_interrupt nvec_h_32 (nvec_init nvec_h_32 EC_ADDR) (Z.lor I2C_SL_IRQ RCVD) EC_ADDR
    = Ok (c', None) /\
    smbus_state c' = 1 /\ wf_inv nvec_h_32 c'.
Proof.
  exists (set_smbus_state (nvec_init nvec_h_32 EC_ADDR) 1).
  split; [reflexivity|]. split; [reflexivity|].
  apply (handler_keeps_its_state nvec_h_32 (nvec_init nvec_h_32 EC_ADDR) _
           (Z.lor I2C_SL_IRQ RCVD) EC_ADDR None).
  - apply wf_inv_init; simpl; lia.
  - reflexivity.
Defined.

Lemma i2c_interrupt_memory_safety_witness :
  exists c' out,
    i2c_interrupt nvec_h_32
      (receiving (nvec_init nvec_h_32 EC_ADDR) (0x14 :: 0x23 :: repeat 0 34) 36 4)
      (Z.lor I2C_SL_IRQ END_TRANS) 0 = Ok (c', out).
Proof.
  destruct (i2c_interrupt_memory_safety nvec_h_32
              (receiving (nvec_init nvec_h_32 EC_ADDR) (0x14 :: 0x23 :: repeat 0 34) 36 4)
              (Z.lor I2C_SL_IRQ END_TRANS) 0) as [Hok|(HF & _)].
  - pose proof (wf_inv_safe nvec_h_32 (nvec_init nvec_h_32 EC_ADDR)
                  (wf_inv_init nvec_h_32 EC_ADDR ltac:(simpl; lia) ltac:(simpl; lia)
                     ltac:(simpl; lia)))
      as (_ & Hstx & _ & H0 & Hmax & Hcap & Hcnt & Hrec & Htx & Hpl & Hpd).
    split.
    { split; [reflexivity|]. cbn [receiving rx_raw cmd_scratch set_smbus_state set_rx_pos
                                  set_cmd_scratch set_rx_raw].
      repeat constructor; unfold is_byte; lia. }
    split; [exact Hstx|]. split; [cbn; lia|]. split; [exact H0|]. split; [exact Hmax|].
    split; [exact Hcap|]. split; [exact Hcnt|]. split; [constructor|].
    split; [intros p Hp; discriminate|]. split; [exact Hpl|exact Hpd].
  - exact Hok.
  - vm_compute in HF. discriminate HF.
Defined.

Lemma i2c_irqs_safe (h : nvec_h) (evs : list (Z * Z)) : forall c,
  wf_inv h c ->
  (exists c', i2c_irqs h c evs = Ok c' /\ wf_inv h c') \/
  (i2c_irqs h c evs = Fault /\
   exists pre r post c1 sz,
     evs = pre ++ (Z.lor I2C_SL_IRQ END_TRANS, r) :: post /\
     i2c_irqs h c pre = Ok c1 /\ smbus_state c1 = 4 /\
     rd (rx_raw (cmd_scratch c1)) 1 = Some sz /\ NVEC_MAX_MSG_SZ h + 2 < sz).
Proof.
  induction evs as [|[status rcvd] evs IH]; intros c Hinv.
  - left. exists c. split; [reflexivity|exact Hinv].
  - rewrite i2c_irqs_cons.
    destruct (i2c_interrupt_safe h c status rcvd (wf_inv_safe h c Hinv))
      as [(c1 & out & Hstep)|(HF & Hs & Hst & sz & Hsz & Hbig)].
    + rewrite Hstep, bind_Ok. cbv beta iota.
      pose proof (i2c_interrupt_wf h c c1 status rcvd out Hinv Hstep) as Hinv1.
      set (c2 := match out with Some b => emit c1 (WriteByte b) | None => c1 end).
      assert (Hinv2 : wf_inv h c2) by (unfold c2; destruct out; exact Hinv1).
      destruct (IH c2 Hinv2) as [Hok|(HF & pre & r & post & c3 & sz & Hev & Hpre & Hrest)].
      * left. exact Hok.
      * right. split; [exact HF|].
        exists ((status, rcvd) :: pre), r, post, c3, sz.
        split; [rewrite Hev; reflexivity|].
        split; [|exact Hrest].
        cbn [app]. rewrite i2c_irqs_cons, Hstep, bind_Ok. exact Hpre.
    + right. rewrite HF. split; [reflexivity|].
      exists [], rcvd, evs, c, sz. subst status.
      split; [reflexivity|]. split; [reflexivity|]. auto.
Qed.

(** X30.  Bus traffic and memory: from a well-formed state, such as the one
    after probe, whatever arrives on the bus, the handler either works
    through all of it inside the driver's memory and leaves a well-formed
    state behind, or it stops at the end of a write whose size byte is above
    NVEC_MAX_MSG_SZ + 2, having come there in state 4; it leaves its memory
    nowhere else. *)
Theorem bus_traffic_memory_safety (h : nvec_h) (c : nvec_chip) (evs : list (Z * Z)) :
  wf_inv h c ->
  (exists c', i2c_irqs h c evs = Ok c' /\ wf_inv h c') \/
  (i2c_irqs h c evs = Fault /\
   exists pre r post c1 sz,
     evs = pre ++ (Z.lor I2C_SL_IRQ END_TRANS, r) :: post /\
     i2c_irqs h c pre = Ok c1 /\ smbus_state c1 = 4 /\
     rd (rx_raw (cmd_scratch c1)) 1 = Some sz /\ NVEC_MAX_MSG_SZ h + 2 < sz).
Proof. exact (i2c_irqs_safe h evs c). Qed.

Lemma bus_traffic_memory_safety_witness :
  exists c',
    i2c_irqs nvec_h_32 (nvec_init nvec_h_32 EC_ADDR)
      (ec_block_read 2 ++ ec_write [0xC5; 0xFF; 0x11; 0x22] ++ ec_write [0x04; 0xFF; 0x00])
    = Ok c' /\ wf_inv nvec_h_32 c'.
Proof.
  destruct (bus_traffic_memory_safety nvec_h_32 (nvec_init nvec_h_32 EC_ADDR)
              (ec_block_read 2 ++ ec_write [0xC5; 0xFF; 0x11; 0x22]
               ++ ec_write [0x04; 0xFF; 0x00]))
    as [Hok|(HF & _)].
  - apply wf_inv_init; simpl; lia.
  - exact Hok.
  - vm_compute in HF. discriminate HF.
Defined.
